(* ===== verification/_CoqProject ===== *)
-Q . S2P
Prelude.v
Cards.v
Choices.v
Dealer.v
Straight.v
Declare.v
Search.v
Found.v
Hand.v
PostCard.v
Player.v
Seat.v
Desk.v
Snapshot.v
Play.v
Round.v
Room.v
Table.v
Protocol.v
Settle.v
Seating.v
Between.v
Scan.v
Secrecy.v
Turn.v
DigPost.v
Dropping.v
Declaring.v
Dealing.v
Requests.v
Sweep.v
Deserted.v
Sample.v
Reach.v
Refinement.v
Told.v
Results.v
Prepared.v
Moves.v
Findings.v
Bytes.v
SendQueue.v
Frame.v
Plain.v
TcpSession.v
Delivery.v
Overrun.v
Base64.v
AesTables.v
AesCore.v
Md5.v
Token.v
Waiting.v
Blocking.v
Sessions.v
Dispatch.v
Login.v
Reconnect.v
