(* ===== verification/Prelude.v ===== *)
(** * Verification of the stars_gaming card server

    The repository holds a rummy server in C++: every table (a "desk") of the
    room server runs games of Indian rummy for up to five players with a shoe of
    two decks and four jokers.  This library models the rules and the game server
    as executable functions, and proves that they are what a player would expect.

    ** The program and its model

    The build compiles src/server/server/gamesvr: the cards, the dealer and the
    combinations (CardDealer, Combination).  The desk, the seats, the players and
    the request handlers that use them are in "src/server/server/gamesvr - 副本", a
    port in progress that the build leaves out ("GameRoom - 副本.cpp" does not even
    parse at line 61); the model follows these files as if that line were right.

    - Prelude: the monad [outcome] of results and faults, with its rules
      [returns_*]; record updates; machine integers; lists.
    - Cards, Dealer (CardDealer.h/.cpp): cards, order, points and encodings; the shoe,
      shuffling and drawing.  [rand] is the interface [RandGen].
    - Choices, Straight, Declare, Search, Found, Hand, PostCard (Combination.h/.cpp):
      choices of n elements, straights and sets, the checks of declarations, the search
      for the best split of a hand with its soundness, the declaration by default
      and the card to post.
    - Player (GG_Player.cpp), Seat (GameSeat.cpp): the objects of a desk.  What the
      database does with chips is the interface [MoneyService].
    - Desk, Play, Round (GameDesk.cpp): the state of a desk, seating, settling,
      the rounds of a game; [Round.step_new_round] is the dispatch of the timer.
    - Snapshot (GameDesk.cpp, GG_Player.cpp, "GameRoom - 副本.cpp"): the messages made up
      for one client, and the results of a game.
    - Room ("GameRoom - 副本.cpp"): the requests and the sweep over the players.

    - Bytes, SendQueue, Frame, TcpSession (src/server/common: BigEndLittleEnd.cpp,
      SendQueue.cpp, MessageBuffer.h/.inl, MessageMaker.cpp, TcpSession.cpp,
      Session.inl): byte order, the queue of outgoing messages, the frame of a
      message and the session that reads and writes frames on a socket, which is
      in the build.  Protocol buffers and [boost::circular_buffer] are interfaces;
      an asynchronous operation of the socket is kept in the session until it is
      complete or aborted and an event ([Delivery.Event]) runs its handler: closing a
      session aborts what is under way, not the handlers that wait.  Plain is a concrete
      format for examples.
    - Waiting (AsyncRequest.inl): requests of a session that wait for an answer, with
      their callbacks and timers; Blocking (Synrequest.inl): threads that wait for one,
      cut into steps where they share members with the loop of the session.
    - Dispatch (MessageDealer.inl, TaskManager.inl, Message.inl): who gets a message, and
      the headers of answers.
    - Sessions (ServerSessionManager.cpp, Server.cpp): the sessions of a server under
      their numbers; Reconnect (Client.cpp): a client that connects and connects again,
      its loop a queue of handlers.
    - Login (PlayerManager.cpp, Player.cpp, GameRoom.cpp, RoomManager.cpp of the server in
      the build): who is logged in with which session, and in which room.  Messages reach
      a handler by the dispatch of Dispatch and GameTaskManager.cpp; what no handler
      reaches, as the end of a session, is an event of its own.  JSON is an interface.
    - Base64, AesTables, AesCore, Md5, Token (src/server/common/libtools: Base64.cpp,
      AesCore.cpp, MD5.cpp, BaseTool.cpp, AesBt.cpp): both Base64 codecs, the cipher
      with its tables, the hash, and the tokens that a user logs in with.  Bytes are
      integers, a text is a list of them; the contents of new memory are parameters.

    A message is passed by value: what one handler makes of a header is not seen by
    another.  Timers and threads are events too: a wait of a timer is completed once,
    by its time or by being cancelled, and its handler runs later.

    C++ objects that are shared by pointer are kept once: the players in a map from
    user ids ([m_objects]), the seats in the list of the desk; a pointer is an id or
    an index.  A handler takes the desk and returns the next one, with the messages
    it sent in [m_sent], or a fault ([Prelude.fault]): a failed assertion, an access
    outside of a container, a null pointer.  Time is the member [m_now], and the
    timer [m_wait_ms].  A log line is modelled where writing it is not defined: when it
    reads through an end iterator ([Prelude.log_value], at a level that is logged) or
    adds a number to a literal ([Prelude.print_literal]).

    ** What is proved

    - Combinations: the checks decide their specifications (Straight, Declare), the
      exhaustive search always returns and builds only splits of the hand (Hand),
      [default_declare] lays down the best of them, and the posted card is the least
      related loose card, or the highest spare one, of the best (PostCard).
    - Table states the invariant [inv] of a desk on a view of it: seats and players
      linked, the cards of the table within the shoe, accounts and pool balanced,
      and what each round needs.  Settle, Seating, Between, Scan, Turn, DigPost, Dropping,
      Declaring, Dealing, Requests and Sweep show that every handler returns and
      keeps it, and what it does to the view ([..._returns] lemmas).
    - Protocol is the abstract specification: the moves of rummy on what a
      spectator sees of a desk ([spectate]).  The [..._goes_on] lemmas show that each
      handler keeps the invariant and makes at most one move, and Refinement that
      every legal input of a reachable desk does, so that every run of legal inputs is
      one of the protocol.
    - Reach closes the loop: [reachable] desks are those any sequence of legal inputs
      leads to from an empty one ([Requests.legal]; Findings runs what it leaves out),
      [server_never_fails] says that every legal input is handled, in the rooms 0 to 7
      of a server that does not log debug lines, and the invariant and the liveness
      theorems hold of all of them.  Deserted shows that other servers stop when the
      first user enters, so that their desks stay empty.
      Moves states what each move does; Prepared is about the prepared deals.
    - Secrecy and Told: the messages for one client can be built, and show him no hand
      but his own until it is laid down, as it is when its player drops or declares, and
      no bottom card, not even the one that another player digs.
      Results: the results submitted at the end of a game add up, wherever the code
      settles one.
    - Delivery is about all sequences of events of a session: its wire carries whole
      frames in the order of the sends, a peer deals exactly these messages, and the
      server hears of opening and closing once, with at most one message after the
      closing.  Overrun bounds the receive buffer: a session that is given messages that
      fit the send buffer, which the code does not check, stays inside both unless a
      length of 2 GB or more gets past the checks, and shows that one can.
    - Base64, AesCore, Md5 and Token: texts come back from Base64, blocks from the
      cipher, for every key, and texts from tokens; the hash does not depend on how
      its message is cut into pieces.  Their examples show what the older codec and
      a token that is no Base64 do.
    - Waiting: every request is answered, by a response of its number or when its time is
      over, and once if answers come in time; Blocking: a thread that waits gets an answer
      to its own request, if only one thread sends, its numbers are distinct, and a
      response is checked and set in one step.  Dispatch follows a refusal from the
      server to the callback of a request whose timer still runs.
    - Sessions: never more sessions than allowed, each under its own number; Reconnect: a
      client has one attempt or session at a time and goes on until it is closed; Login:
      as long as what fails is left out ([Login.legal_login]), the tables of users stay
      well formed and, when every session serves one user, are the abstract table of
      users that [Login.step_users] describes.
    - The examples of these files show where the conditions fail, and that the code then
      calls a callback twice, breaks a promise, keeps users logged in or connects twice.
    - Findings runs the requests that [Requests.legal] leaves out, which make the
      server fail, and the log lines that do.

    ** Bounds and fuel

    [scan_seats] and [deal_order_loop] go round at most five seats, [choices_loop]
    and the loops of the search have the fuel their measure needs, [shuffle_loop] the
    length of the pool; the theorems that they return [Ok] show that no bound is
    reached ([NoFuel] is never returned).  The lengths of a frame are unsigned 32-bit
    members read as [int], sequence numbers have 64 bits.  Chips are unbounded integers (the code has
    64 bits); card bytes, database words and the seed have their widths.
    Numbers of sessions are [int]s: [Sessions.sessions_kept] is about fewer than 2^31
    of them; the theorems about requests are about fewer than 2^64.

    ** Not modelled

    Logging (but for the lines that read outside of a literal or through an end iterator)
    and the record of the game for the log; the queue of requests of a player, which is never switched on and whose
    members the header of the class does not declare; listening, databases and message queues; the lobby, login
    and robot servers, which are glue around these; generated and third-party code.  A prepared deal ([get_card_from_file]) is modelled, but [Reach]
    is about servers whose configuration does not ask for one. *)
From Stdlib Require Import ZArith Lia Ascii String.
From Stdlib Require Export ZifyBool.
From stdpp Require Import base tactics numbers sorting option gmap strings pretty list.

#[global] Open Scope Z_scope.

(** ** Faults

    The C++ code stops in four ways that are not return values: an [assert]
    fails, a checked access such as [std::string::at] or a promise throws, an iterator or
    subscript leaves its container (undefined behaviour), or a null pointer is
    dereferenced.  [outcome] keeps them apart from results.  [NoFuel] is not a
    behaviour of the code: a loop whose termination is not structural is bounded
    by fuel here, and the theorems that such a function returns [Ok] show that
    the bound is never reached. *)
Inductive fault : Set :=
  | AssertFailed
  | ThrowOutOfRange
  | ThrowFutureError
  | OutOfBounds
  | NullDeref
  | NoFuel.

Inductive outcome (A : Type) : Type :=
  | Ok (a : A)
  | Fault (f : fault).
Arguments Ok {A} a.
Arguments Fault {A} f.

#[export] Instance outcome_ret : MRet outcome := @Ok.
#[export] Instance outcome_bind : MBind outcome := fun A B k m =>
  match m with Ok a => k a | Fault f => Fault f end.
#[export] Instance outcome_fmap : FMap outcome := fun A B k m =>
  match m with Ok a => Ok (k a) | Fault f => Fault f end.

#[export] Instance fault_eq_dec : EqDecision fault.
Proof. solve_decision. Defined.

#[export] Instance outcome_eq_dec {A} `{EqDecision A} : EqDecision (outcome A).
Proof. solve_decision. Defined.

(** An [assert(b)] of the source. *)
Definition assert_that (b : bool) : outcome unit :=
  if b then Ok tt else Fault AssertFailed.

(** A subscript or iterator that must be inside its container. *)
Definition access {A : Type} (o : option A) : outcome A :=
  match o with Some a => Ok a | None => Fault OutOfBounds end.

(** A pointer that is dereferenced. *)
Definition deref {A : Type} (o : option A) : outcome A :=
  match o with Some a => Ok a | None => Fault NullDeref end.

(** ** Log lines

    A stream of the log takes its values by reference and reads them only when its
    level is on; [get_current_log_level] is the level of the configuration. *)
Module LogLevel.
Definition debug : Z := 1.
End LogLevel.

Class Logging : Type := get_current_log_level : Z.

(** [DEBUG_LOG << iter->first]: the iterator must point to something when it is read. *)
Definition log_value {A : Type} `{Logging} (level : Z) (o : option A) : outcome unit :=
  if get_current_log_level <=? level then _ ← access o; mret tt else mret tt.

(** [offset + ")"] in a log, and similar: a literal of [len] characters is printed from
    an offset, which must be inside it. *)
Definition print_literal (len offset : Z) : outcome unit :=
  if decide (0 <= offset <= len) then mret tt else Fault OutOfBounds.

(** A server that does not log what its DEBUG_LOG lines say. *)
Class QuietLog `{Logging} : Prop := { quiet : LogLevel.debug < get_current_log_level }.

Lemma log_value_quiet {A : Type} `{QuietLog} (o : option A) : log_value LogLevel.debug o = Ok tt.
Proof. unfold log_value. by rewrite (proj2 (Z.leb_gt _ _) quiet). Qed.

Lemma print_literal_inside len offset : 0 <= offset <= len -> print_literal len offset = Ok tt.
Proof. intros. unfold print_literal. by rewrite decide_True. Qed.

Lemma print_literal_Ok len offset u : print_literal len offset = Ok u <-> 0 <= offset <= len.
Proof. unfold print_literal. case_decide; destruct u; naive_solver. Qed.

Section outcome_lemmas.
Context {A B : Type}.
Implicit Types (m : outcome A) (k : A -> outcome B).

Lemma bind_Ok m k b : m ≫= k = Ok b <-> exists a, m = Ok a /\ k a = Ok b.
Proof.
  destruct m as [a|f]; simpl; split.
  - intros; by exists a.
  - by intros (a' & [= ->] & ?).
  - done.
  - by intros (a' & ? & ?).
Qed.

Lemma fmap_Ok m (g : A -> B) b : g <$> m = Ok b <-> exists a, m = Ok a /\ g a = b.
Proof.
  destruct m as [a|f]; simpl; split.
  - intros [= <-]; by exists a.
  - by intros (a' & [= ->] & <-).
  - done.
  - by intros (a' & ? & ?).
Qed.

Lemma bind_Ok_r m : m ≫= Ok = m.
Proof. by destruct m. Qed.

Lemma access_Ok (o : option A) a : access o = Ok a <-> o = Some a.
Proof. destruct o; simpl; split; naive_solver. Qed.

Lemma deref_Ok (o : option A) a : deref o = Ok a <-> o = Some a.
Proof. destruct o; simpl; split; naive_solver. Qed.
End outcome_lemmas.

Lemma assert_that_Ok b u : assert_that b = Ok u <-> b = true.
Proof. destruct b, u; simpl; naive_solver. Qed.

(** Invert every successful bind among the hypotheses. *)
Ltac inv_ok :=
  repeat match goal with
  | H : Ok _ = Ok _ |- _ => injection H as H; try subst
  | H : Fault _ = Ok _ |- _ => discriminate H
  | H : Ok _ = Fault _ |- _ => discriminate H
  | H : mret _ = Ok _ |- _ => injection H as H; try subst
  | H : _ ≫= _ = Ok _ |- _ =>
      apply bind_Ok in H; destruct H as (? & ? & H); cbn beta iota in H
  | H : assert_that _ = Ok _ |- _ => apply assert_that_Ok in H
  | H : access _ = Ok _ |- _ => apply access_Ok in H
  | H : deref _ = Ok _ |- _ => apply deref_Ok in H
  end.

(** *** Total correctness

    [returns m Q]: the code runs without any fault and its result satisfies
    [Q].  The rules below are used in place of unfolding the binds. *)
Definition returns {A : Type} (m : outcome A) (Q : A -> Prop) : Prop :=
  exists a, m = Ok a /\ Q a.

(** A loop over a container whose body updates a state [S]. *)
Fixpoint mfold {S A : Type} (f : S -> A -> outcome S) (s : S) (l : list A) : outcome S :=
  match l with
  | [] => Ok s
  | a :: l' => s' ← f s a; mfold f s' l'
  end.

(** A loop whose body may [return] from the enclosing function. *)
Inductive flow (S : Type) : Type :=
  | Next (s : S)
  | Return (s : S).
Arguments Next {S} s.
Arguments Return {S} s.

Definition flow_state {S : Type} (r : flow S) : S :=
  match r with Next s | Return s => s end.

Fixpoint for_each {S A : Type} (body : S -> A -> outcome (flow S)) (s : S) (l : list A)
  : outcome (flow S) :=
  match l with
  | [] => Ok (Next s)
  | a :: l' =>
      r ← body s a;
      match r with
      | Next s' => for_each body s' l'
      | Return s' => Ok (Return s')
      end
  end.

Lemma bind_ret_Ok {A B} (m : outcome A) (f : A -> B) b :
  (a ← m; mret (f a)) = Ok b -> exists a, m = Ok a /\ f a = b.
Proof. destruct m as [a|]; [|done]. intros [= <-]. by exists a. Qed.

Lemma returns_ret {A} (a : A) (Q : A -> Prop) : Q a -> returns (Ok a) Q.
Proof. intros. by exists a. Qed.

Lemma returns_bind {A B} (m : outcome A) (k : A -> outcome B) (P : A -> Prop) (Q : B -> Prop) :
  returns m P -> (forall a, P a -> returns (k a) Q) -> returns (m ≫= k) Q.
Proof. intros (a & -> & Ha) Hk. by apply Hk. Qed.

Lemma returns_mono {A} (m : outcome A) (P Q : A -> Prop) :
  returns m P -> (forall a, P a -> Q a) -> returns m Q.
Proof. intros (a & -> & Ha) HPQ. exists a. auto. Qed.

Lemma returns_assert b (Q : unit -> Prop) : b = true -> Q tt -> returns (assert_that b) Q.
Proof. intros -> HQ. by exists tt. Qed.

Lemma returns_access {A} (o : option A) a (Q : A -> Prop) :
  o = Some a -> Q a -> returns (access o) Q.
Proof. intros -> HQ. by exists a. Qed.

Lemma returns_deref {A} (o : option A) a (Q : A -> Prop) :
  o = Some a -> Q a -> returns (deref o) Q.
Proof. intros -> HQ. by exists a. Qed.

Section returns_loops.
Context {A S : Type}.

Lemma mfold_app (f : S -> A -> outcome S) s l1 l2 :
  mfold f s (l1 ++ l2) = mfold f s l1 ≫= (fun s' => mfold f s' l2).
Proof.
  revert s; induction l1 as [|a l1 IH]; intros s; [done|]. simpl. destruct (f s a); [apply IH|done].
Qed.

(** The invariant rules of the two loops. *)
Lemma returns_mfold (I : S -> Prop) (f : S -> A -> outcome S) s l :
  I s ->
  (forall s a, a ∈ l -> I s -> returns (f s a) I) ->
  returns (mfold f s l) I.
Proof.
  intros Hs Hf. revert s Hs. induction l as [|a l IH]; intros s Hs; simpl.
  - by apply returns_ret.
  - eapply returns_bind; [apply Hf; [left|done]|].
    intros s' Hs'. apply IH; [|done]. intros s'' a' Ha'. apply Hf. by right.
Qed.

(** What every round of a loop keeps, the loop keeps. *)
Lemma mfold_keeps (I : S -> Prop) (f : S -> A -> outcome S) s l s' :
  I s -> (forall s a s', I s -> f s a = Ok s' -> I s') -> mfold f s l = Ok s' -> I s'.
Proof.
  intros Hs Hf. revert s Hs. induction l as [|a l IH]; intros s Hs; simpl; [by intros [= <-]|].
  destruct (f s a) as [s1|] eqn:E; [|done]. by apply IH, (Hf s a).
Qed.

Lemma returns_for_each (I R : S -> Prop) (body : S -> A -> outcome (flow S)) s l :
  I s ->
  (forall s a, a ∈ l -> I s ->
    returns (body s a) (fun r => match r with Next s' => I s' | Return s' => R s' end)) ->
  returns (for_each body s l)
    (fun r => match r with Next s' => I s' | Return s' => R s' end).
Proof.
  intros Hs Hf. revert s Hs. induction l as [|a l IH]; intros s Hs; simpl.
  - by apply returns_ret.
  - eapply returns_bind; [apply Hf; [left|done]|].
    intros [s'|s'] Hs'; [|by apply returns_ret].
    apply IH; [|done]. intros s'' a' Ha'. apply Hf. by right.
Qed.

(** A loop whose body appends a result that depends on the element only. *)
Lemma mfold_append (g : A -> list S) (f : list S -> A -> outcome (list S)) acc l :
  (forall acc a, a ∈ l -> f acc a = Ok (acc ++ g a)) ->
  mfold f acc l = Ok (acc ++ (l ≫= g)).
Proof.
  revert acc. induction l as [|a l IH]; intros acc Hf; csimpl; [by rewrite app_nil_r|].
  rewrite Hf by left. csimpl. rewrite IH, (assoc_L (++)); [done|].
  intros acc' a' Ha'. apply Hf. by right.
Qed.
End returns_loops.

(** *** Collecting loops

    The searches append what they find to a vector.  [collects m P]: whatever
    the vector holds before, [m] runs without fault and afterwards it holds the
    elements that satisfy [P] as well, and nothing else. *)
Definition collects {A : Type} (m : list A -> outcome (list A)) (P : A -> Prop) : Prop :=
  forall acc, returns (m acc) (fun out => forall x, x ∈ out <-> x ∈ acc \/ P x).

Section collects.
Context {A B : Type}.
Implicit Types (m : list A -> outcome (list A)) (P Q : A -> Prop).

Lemma collects_skip : collects (fun acc : list A => mret acc) (fun _ => False).
Proof. intros acc. apply returns_ret. tauto. Qed.

Lemma collects_push (y : A) : collects (fun acc => mret (acc ++ [y])) (fun x => x = y).
Proof. intros acc. apply returns_ret. intros x.
  rewrite elem_of_app, list_elem_of_singleton. tauto. Qed.

Lemma collects_iff m P Q : collects m P -> (forall x, P x <-> Q x) -> collects m Q.
Proof. intros Hm HPQ acc. eapply returns_mono; [apply Hm|]. intros out Ho x.
  specialize (Ho x). specialize (HPQ x). tauto. Qed.

Lemma collects_seq m1 m2 P Q :
  collects m1 P -> collects m2 Q ->
  collects (fun acc => acc ← m1 acc; m2 acc) (fun x => P x \/ Q x).
Proof.
  intros H1 H2 acc. eapply returns_bind; [apply H1|]. intros out1 Ho1.
  eapply returns_mono; [apply H2|]. intros out Ho x. specialize (Ho x). specialize (Ho1 x). tauto.
Qed.

Lemma collects_if (b : bool) m1 m2 P Q :
  (b = true -> collects m1 P) -> (b = false -> collects m2 Q) ->
  collects (fun acc => if b then m1 acc else m2 acc) (fun x => if b then P x else Q x).
Proof. destruct b; auto. Qed.

(** A value computed before the vector is touched. *)
Lemma collects_let (v : outcome B) (b : B) (k : B -> list A -> outcome (list A)) P :
  v = Ok b -> collects (k b) P -> collects (fun acc => x ← v; k x acc) P.
Proof. intros -> Hk acc. apply Hk. Qed.

Lemma collects_mfold (f : list A -> B -> outcome (list A)) (P : B -> A -> Prop) l :
  (forall b, b ∈ l -> collects (fun acc => f acc b) (P b)) ->
  collects (fun acc => mfold f acc l) (fun x => exists b, b ∈ l /\ P b x).
Proof.
  intros Hf acc. revert acc. induction l as [|b l IH]; intros acc; simpl.
  - apply returns_ret. intros x. setoid_rewrite elem_of_nil. naive_solver.
  - eapply returns_bind; [apply (Hf b); left|]. intros out1 H1.
    eapply returns_mono; [apply IH; intros b' Hb'; apply Hf; by right|].
    intros out H2 x. specialize (H1 x). specialize (H2 x). setoid_rewrite elem_of_cons.
    naive_solver.
Qed.
End collects.

(** ** Record updates

    [r <| f := v |>] assigns the member [f] of the object [r] and
    [r <| f ::= g |>] applies [g] to it.  A record declares how it is rebuilt
    from its members by an instance of [Eta]. *)
Class Eta (R : Type) := eta : R -> R.
Class Update {R E : Type} (proj : R -> E) := update : (E -> E) -> R -> R.
Arguments update {R E} proj {_} _ _ : assert.

Ltac solve_update :=
  match goal with
  | |- @Update ?R ?E ?proj =>
      let i := constr:(_ : Eta R) in
      let i := eval hnf in i in
      exact (fun (u : E -> E) (r : R) => ltac:(
        let b := eval cbv beta in (i r) in
        match b with
        | context C [proj r] => let b' := context C [u (proj r)] in exact b'
        end))
  end.

#[export] Hint Extern 1 (Update _) => solve_update : typeclass_instances.

Notation "r <| f := v |>" := (update f (fun _ => v) r)
  (at level 1, f at level 200, v at level 200, left associativity, format "r <| f  :=  v |>").
Notation "r <| f ::= g |>" := (update f g r)
  (at level 1, f at level 200, g at level 200, left associativity, format "r <| f  ::=  g |>").

(** ** Machine integers

    An unsigned integer of [w] bits is a [Z] in [0, 2^w); a conversion to it
    is [wrap w]; a conversion to the signed type is [swrap w] (two's
    complement, as on the x86-64 targets of the makefiles). *)
Definition wrap (w z : Z) : Z := z mod 2 ^ w.
Definition swrap (w z : Z) : Z := (z + 2 ^ (w - 1)) mod 2 ^ w - 2 ^ (w - 1).

Abbreviation u8 := (wrap 8).
Abbreviation u16 := (wrap 16).
Abbreviation u32 := (wrap 32).
Abbreviation u64 := (wrap 64).
Abbreviation i8 := (swrap 8).
Abbreviation i16 := (swrap 16).
Abbreviation i32 := (swrap 32).

Definition fits (w z : Z) : Prop := 0 <= z < 2 ^ w.

#[export] Instance fits_dec w z : Decision (fits w z).
Proof. unfold fits. apply _. Defined.

Create HintDb machine.
Create Rewrite HintDb machine_rw.

Lemma wrap_fits w z : 0 <= w -> fits w (wrap w z).
Proof. intros. unfold fits, wrap. apply Z.mod_pos_bound. lia. Qed.

Lemma wrap_id w z : fits w z -> wrap w z = z.
Proof. unfold fits, wrap. intros. by apply Z.mod_small. Qed.

Lemma wrap_wrap w z : 0 <= w -> wrap w (wrap w z) = wrap w z.
Proof. intros. apply wrap_id. by apply wrap_fits. Qed.

(** A conversion to the signed type and back is the unsigned conversion. *)
Lemma wrap_swrap w z : 0 < w -> wrap w (swrap w z) = wrap w z.
Proof.
  intros. unfold wrap, swrap. rewrite Zminus_mod_idemp_l. f_equal. lia.
Qed.

Lemma swrap_id w z : 0 < w -> - 2 ^ (w - 1) <= z < 2 ^ (w - 1) -> swrap w z = z.
Proof.
  intros ? Hz. unfold swrap.
  replace (2 ^ w) with (2 * 2 ^ (w - 1)) by (rewrite <- Z.pow_succ_r by lia; f_equal; lia).
  rewrite Z.mod_small by lia. lia.
Qed.

#[export] Hint Resolve wrap_fits : machine.
#[export] Hint Rewrite wrap_wrap wrap_swrap using lia : machine_rw.

(** ** First occurrences in a vector

    [std::find] followed by [erase]: remove the first element equal to [x]. *)
Section erase_first.
Context {A : Type} `{EqDecision A}.
Implicit Types (x y : A) (l : list A).

Fixpoint erase_first x l : option (list A) :=
  match l with
  | [] => None
  | y :: l' => if decide (x = y) then Some l' else (y ::.) <$> erase_first x l'
  end.

(** Erase the elements of [xs] one after the other, keeping the vector when
    an element is absent. *)
Definition erase_present x l : list A := default l (erase_first x l).

Lemma erase_first_Some x l l' : erase_first x l = Some l' -> l ≡ₚ x :: l'.
Proof.
  revert l'; induction l as [|y l IH]; intros l'; simpl; [done|].
  case_decide as Hxy; [by intros [= <-]; subst|].
  destruct (erase_first x l) as [k|]; simpl; [|done].
  intros [= <-]. rewrite (IH k) by done. apply Permutation_swap.
Qed.

Lemma erase_first_None x l : erase_first x l = None <-> x ∉ l.
Proof.
  induction l as [|y l IH]; simpl; [split; [intros _; apply not_elem_of_nil|done]|].
  rewrite not_elem_of_cons, <- IH. case_decide as Hxy.
  - split; [done|by intros [? _]].
  - destruct (erase_first x l); simpl; split; [done|by intros [_ ?]|done|done].
Qed.

Lemma erase_first_elem x l : x ∈ l -> exists l', erase_first x l = Some l' /\ l ≡ₚ x :: l'.
Proof.
  intros Hx. destruct (erase_first x l) as [l'|] eqn:E.
  - exists l'. split; [done|]. by apply erase_first_Some.
  - by apply erase_first_None in E.
Qed.

(** Erasing a whole vector that is contained in [l] leaves the rest of [l]. *)
Lemma foldl_erase_present xs l :
  xs ⊆+ l -> xs ++ foldl (fun k x => erase_present x k) l xs ≡ₚ l.
Proof.
  revert l; induction xs as [|x xs IH]; intros l Hsub; simpl; [done|].
  assert (x ∈ l) as Hx by (eapply elem_of_submseteq; [|done]; left).
  destruct (erase_first_elem x l Hx) as (l' & E & Hp).
  unfold erase_present at 2. rewrite E; simpl.
  rewrite Hp in Hsub |- *. apply Permutation_skip, IH.
  by apply (submseteq_app_inv_l _ _ [x]).
Qed.
End erase_first.

(** ** Bytes by exhaustion

    A boolean property of every number below [n] is decided by evaluating it. *)
Lemma forall_below (P : Z -> bool) n :
  forallb P (seqZ 0 n) = true -> forall z, 0 <= z < n -> P z = true.
Proof.
  rewrite forallb_forall. intros HP z Hz. apply HP.
  apply list_elem_of_In, elem_of_seqZ. lia.
Qed.

Lemma forall_byte (P : Z -> bool) :
  forallb P (seqZ 0 256) = true -> forall z, fits 8 z -> P z = true.
Proof. intros HP z Hz. by apply (forall_below P 256). Qed.

(** Putting bits side by side is adding. *)
Lemma land_apart k x y : 0 <= k -> 0 <= y < 2 ^ k -> Z.land (x * 2 ^ k) y = 0.
Proof.
  intros Hk Hy. apply Z.bits_inj'. intros n Hn.
  rewrite Z.land_spec, Z.bits_0, <- Z.shiftl_mul_pow2 by done.
  destruct (Z_lt_le_dec n k); [by rewrite Z.shiftl_spec_low|].
  rewrite <- (Z.mod_small y (2 ^ k)) by done.
  rewrite Z.mod_pow2_bits_high by lia. apply andb_false_r.
Qed.

Lemma lor_add k x y : 0 <= k -> 0 <= y < 2 ^ k -> Z.lor (x * 2 ^ k) y = x * 2 ^ k + y.
Proof. intros Hk Hy. rewrite <- Z.add_lor_land, land_apart by done. lia. Qed.

Lemma lxor_add k x y : 0 <= k -> 0 <= y < 2 ^ k -> Z.lxor (x * 2 ^ k) y = x * 2 ^ k + y.
Proof. intros Hk Hy. rewrite <- lor_add by done. by apply Z.lxor_lor, land_apart. Qed.

(** Prove an equation between decidable values that depend on one byte. *)
Ltac by_bytes H :=
  match type of H with
  | fits 8 ?z =>
      revert z H;
      match goal with
      | |- forall z, fits 8 z -> @?P z =>
          let H' := fresh in
          intros z H';
          apply (proj1 (bool_decide_eq_true _));
          revert z H';
          refine (forall_byte (fun z => bool_decide (P z)) _); vm_compute; reflexivity
      end
  end.
