(* ===== verification/Cards.v ===== *)
(** * Playing cards and card groups

    Models [PokerCard] and [CardGroup] of gamesvr/CardDealer.h and
    gamesvr/CardDealer.cpp: the card record with its enumerations, its order
    and equality, its score, and the three encodings a card has (the protobuf
    message, the [color:point] string of the test-deck file and the 16-bit
    database word), with the theorems that each encoding is read back. *)
From Stdlib Require Import ZArith Lia Ascii String.
From stdpp Require Import base tactics numbers sorting option strings pretty list.
From S2P Require Import Prelude.

(** ** Data *)

(** [TY_UINT8 m_color, m_point]: both fields are bytes. *)
Record PokerCard : Set := mkCard { m_color : Z; m_point : Z }.

Definition card_bytes (c : PokerCard) : Prop := fits 8 (m_color c) /\ fits 8 (m_point c).

#[export] Instance PokerCard_eq_dec : EqDecision PokerCard.
Proof. solve_decision. Defined.

#[export] Instance card_bytes_dec c : Decision (card_bytes c).
Proof. unfold card_bytes. apply _. Defined.

(** [PokerCard()] *)
Definition default_card : PokerCard := mkCard 0 0.

(** [PokerCard::PokerColor] *)
Module PokerColor.
Definition spades : Z := 1.
Definition hearts : Z := 2.
Definition clubs : Z := 3.
Definition diamonds : Z := 4.
End PokerColor.

(** [PokerCard::PokerPoint] *)
Module PokerPoint.
Definition P2 : Z := 2.
Definition P3 : Z := 3.
Definition J : Z := 11.
Definition Q : Z := 12.
Definition K : Z := 13.
Definition A : Z := 14.
Definition JOKER1 : Z := 15.
Definition JOKER2 : Z := 16.
End PokerPoint.

(** The anonymous enumeration of [CardGroup]. *)
Module GroupType.
Definition GROUP_INVALID : Z := 0.
Definition GROUP_STAIGHT : Z := 1.
Definition GROUP_THREE_KIND : Z := 2.
End GroupType.

Record CardGroup : Set := mkGroup { m_type : Z; m_cards : list PokerCard }.

#[export] Instance CardGroup_eq_dec : EqDecision CardGroup.
Proof. solve_decision. Defined.

(** The generated message classes: a record of the fields of GameMsg.proto. *)
Record MsgCard : Set := mkMsgCard { msg_point : Z; msg_color : Z }.
Record PB_CardGroup : Set := mkPbGroup { pb_type : Z; pb_cards : list MsgCard }.

(** ** Predicates, order and score *)

Definition is_valid_card (c : PokerCard) : bool :=
  if PokerPoint.JOKER1 <=? m_point c then m_point c <=? PokerPoint.JOKER2
  else (PokerColor.spades <=? m_color c) && (m_color c <=? PokerColor.diamonds) &&
       (PokerPoint.P2 <=? m_point c) && (m_point c <=? PokerPoint.A).

Definition get_score (c : PokerCard) (joker_point : Z) : Z :=
  if (PokerPoint.P2 <=? m_point c) && (m_point c <=? PokerPoint.A) &&
     negb (m_point c =? joker_point)
  then if 10 <? m_point c then 10 else m_point c
  else 0.

(** [operator==] *)
Definition card_eqb (a b : PokerCard) : bool :=
  (m_color a =? m_color b) && (m_point a =? m_point b).

(** [operator<] *)
Definition card_ltb (a b : PokerCard) : bool :=
  if negb (m_point a =? m_point b) then m_point a <? m_point b
  else m_color a <? m_color b.

(** ** Encodings *)

Definition to_msg_card (c : PokerCard) : MsgCard := mkMsgCard (m_point c) (m_color c).

(** The int32 fields are stored in bytes. *)
Definition parse_msg_card (m : MsgCard) : PokerCard :=
  mkCard (u8 (msg_color m)) (u8 (msg_point m)).

Definition to_msg_group (g : CardGroup) : PB_CardGroup :=
  mkPbGroup (m_type g) (to_msg_card <$> m_cards g).

(** [parse_msg_group] overwrites the type and appends to the cards. *)
Definition parse_msg_group (g : CardGroup) (m : PB_CardGroup) : CardGroup :=
  mkGroup (pb_type m) (m_cards g ++ (parse_msg_card <$> pb_cards m)).

Definition ParseMsgGroup (groups : list CardGroup) (pbGroup : list PB_CardGroup) : list CardGroup :=
  groups ++ (parse_msg_group (mkGroup 0 []) <$> pbGroup).

Definition CopyCardToMsg (cards : list PokerCard) (pb : list MsgCard) : list MsgCard :=
  pb ++ (to_msg_card <$> cards).

Definition copy_group_to_msg (gs : list CardGroup) (pb : list PB_CardGroup) : list PB_CardGroup :=
  pb ++ (to_msg_group <$> gs).

Definition to_db_card (c : PokerCard) : Z :=
  let db_card := u16 (m_color c) in
  let db_card := u16 (Z.shiftl db_card 8) in
  let db_card := u16 (db_card + m_point c) in
  i16 db_card.

Definition parse_db_card (v : Z) : PokerCard :=
  let point := u8 (Z.land v 255) in
  let v := Z.shiftr v 8 in
  mkCard (u8 v) point.

Definition to_string (c : PokerCard) : string :=
  (pretty (m_color c) +:+ ":" +:+ pretty (m_point c))%string.

(** [v.find(':')] with the two [substr]s around the position found. *)
Fixpoint split_first (sep : ascii) (s : string) : option (string * string) :=
  match s with
  | EmptyString => None
  | String c s' =>
      if decide (c = sep) then Some (EmptyString, s')
      else (fun '(up, down) => (String c up, down)) <$> split_first sep s'
  end.

(** [atoi]: skip white space, read an optional sign, then digits up to the
    first character that is not one.  A number outside [int] is undefined
    behaviour in C and is kept unbounded here. *)
Definition is_space (c : ascii) : bool :=
  let n := Z.of_N (N_of_ascii c) in (n =? 32) || ((9 <=? n) && (n <=? 13)).

Definition digit_value (c : ascii) : option Z :=
  let n := Z.of_N (N_of_ascii c) in
  if (48 <=? n) && (n <=? 57) then Some (n - 48) else None.

Fixpoint atoi_digits (acc : Z) (s : string) : Z :=
  match s with
  | EmptyString => acc
  | String c s' =>
      match digit_value c with
      | Some d => atoi_digits (10 * acc + d) s'
      | None => acc
      end
  end.

Fixpoint atoi (s : string) : Z :=
  match s with
  | EmptyString => 0
  | String c s' =>
      if is_space c then atoi s'
      else if decide (c = "-"%char) then - atoi_digits 0 s'
      else if decide (c = "+"%char) then atoi_digits 0 s'
      else atoi_digits 0 s
  end.

(** [parse_string] leaves the card alone when there is no colon; the [(char)]
    cast and the byte fields truncate the numbers. *)
Definition parse_string (c : PokerCard) (v : string) : PokerCard :=
  match split_first ":"%char v with
  | None => c
  | Some (str_point_up, str_point_down) =>
      mkCard (u8 (i8 (atoi str_point_up))) (u8 (i8 (atoi str_point_down)))
  end.

(** ** The card order *)

(** The order behind [operator<], as the relation the sorting lemmas need. *)
Definition card_le (a b : PokerCard) : Prop :=
  m_point a < m_point b \/ m_point a = m_point b /\ m_color a <= m_color b.

#[export] Instance card_le_dec : RelDecision card_le.
Proof. intros a b. unfold card_le. apply _. Defined.

#[export] Instance card_le_trans : Transitive card_le.
Proof. intros a b c. unfold card_le. lia. Qed.

#[export] Instance card_le_total : Total card_le.
Proof. intros a b. unfold card_le. lia. Qed.

#[export] Instance card_le_antisymm : AntiSymm (=) card_le.
Proof. intros [ac ap] [bc bp]. unfold card_le; simpl. intros. f_equal; lia. Qed.

Lemma card_eqb_eq a b : card_eqb a b = true <-> a = b.
Proof.
  destruct a as [ac ap], b as [bc bp]. unfold card_eqb; simpl.
  rewrite andb_true_iff, !Z.eqb_eq. split; [by intros [-> ->]|by intros [= -> ->]].
Qed.

Lemma card_ltb_le a b : card_ltb a b = false <-> card_le b a.
Proof.
  unfold card_ltb, card_le. destruct (Z.eqb_spec (m_point a) (m_point b)); simpl.
  - rewrite Z.ltb_ge. lia.
  - rewrite Z.ltb_ge. lia.
Qed.

(** [std::sort] and [std::list::sort] on cards.  Both are specified to return a
    permutation in ascending order; [operator<] is total and only equal cards
    are equivalent, so that permutation is unique ([sort_cards_unique]). *)
Definition sort_cards (cards : list PokerCard) : list PokerCard := merge_sort card_le cards.

Lemma sort_cards_perm cards : sort_cards cards ≡ₚ cards.
Proof. apply merge_sort_Permutation. Qed.

Lemma sort_cards_sorted cards : StronglySorted card_le (sort_cards cards).
Proof. apply (StronglySorted_merge_sort _). Qed.

Lemma sort_cards_unique cards sorted :
  sorted ≡ₚ cards -> StronglySorted card_le sorted -> sorted = sort_cards cards.
Proof.
  intros Hp Hs. apply (StronglySorted_unique card_le); [done|apply sort_cards_sorted|].
  by rewrite sort_cards_perm.
Qed.

Lemma sort_cards_id cards : StronglySorted card_le cards -> sort_cards cards = cards.
Proof. intros. symmetry. by apply sort_cards_unique. Qed.

Lemma sort_cards_length cards : length (sort_cards cards) = length cards.
Proof. by rewrite sort_cards_perm. Qed.

(** ** The encodings are read back *)

Lemma parse_to_msg_card c : card_bytes c -> parse_msg_card (to_msg_card c) = c.
Proof.
  destruct c as [color point]. intros [Hc Hp]. unfold parse_msg_card, to_msg_card; simpl in *.
  by rewrite !wrap_id.
Qed.

Lemma parse_to_msg_cards cards :
  Forall card_bytes cards -> parse_msg_card <$> (to_msg_card <$> cards) = cards.
Proof.
  induction 1 as [|c cards Hc _ IH]; csimpl; [done|].
  by rewrite parse_to_msg_card, IH.
Qed.

Definition group_bytes (g : CardGroup) : Prop := Forall card_bytes (m_cards g).

Lemma parse_to_msg_groups groups :
  Forall group_bytes groups -> ParseMsgGroup [] (copy_group_to_msg groups []) = groups.
Proof.
  unfold ParseMsgGroup, copy_group_to_msg; simpl.
  induction 1 as [|[ty cards] groups Hg _ IH]; csimpl; [done|]. rewrite IH. f_equal.
  unfold parse_msg_group, to_msg_group; cbn [m_cards pb_cards pb_type m_type app].
  by rewrite parse_to_msg_cards.
Qed.

(** The database word keeps both bytes: reading it back as the unsigned short
    the column holds gives the card, although [to_db_card] returns a short. *)
Lemma parse_to_db_card c : card_bytes c -> parse_db_card (u16 (to_db_card c)) = c.
Proof.
  destruct c as [color point]. intros [Hc Hp]; simpl in *. unfold to_db_card, parse_db_card.
  autorewrite with machine_rw. cbn [m_color m_point].
  rewrite Z.shiftl_mul_pow2, (Z.land_ones _ 8), Z.shiftr_div_pow2 by lia.
  unfold fits in *. unfold wrap. change (2 ^ 8) with 256 in *. change (2 ^ 16) with 65536.
  f_equal; Z.div_mod_to_equations; lia.
Qed.

Lemma split_first_app sep a b :
  split_first sep a = None -> split_first sep (a +:+ String sep b) = Some (a, b).
Proof.
  induction a as [|c a IH]; simpl; [by rewrite decide_True|].
  case_decide; [done|]. intros Ha. rewrite IH; [done|].
  by destruct (split_first sep a).
Qed.

Lemma atoi_pretty_byte z : fits 8 z -> atoi (pretty z) = z.
Proof. intros Hz. by_bytes Hz. Qed.

Lemma split_pretty_byte z : fits 8 z -> split_first ":" (pretty z) = None.
Proof. intros Hz. by_bytes Hz. Qed.

Lemma parse_to_string c c' : card_bytes c -> parse_string c' (to_string c) = c.
Proof.
  destruct c as [color point]. intros [Hc Hp]; simpl in *.
  unfold parse_string, to_string. cbn [m_color m_point].
  change ((":" +:+ pretty point)%string) with (String ":" (pretty point)).
  rewrite split_first_app by by apply split_pretty_byte.
  rewrite !atoi_pretty_byte by done. rewrite !wrap_swrap, !wrap_id by (done || lia). done.
Qed.

(** C40: A card and a declaration survive every form they are sent or stored in: the
    message with its int32 fields, the database word, the text of the prepared
    deals; and the groups of a declaration are read back with their types. *)
Theorem card_forms_roundtrip c groups :
  card_bytes c -> Forall group_bytes groups ->
  parse_msg_card (to_msg_card c) = c /\ parse_db_card (u16 (to_db_card c)) = c /\
  (forall c', parse_string c' (to_string c) = c) /\
  ParseMsgGroup [] (copy_group_to_msg groups []) = groups.
Proof.
  intros Hc Hg. split_and!; [by apply parse_to_msg_card|by apply parse_to_db_card| |].
  - intros c'. by apply parse_to_string.
  - by apply parse_to_msg_groups.
Qed.

Lemma card_forms_roundtrip_witness :
  let c := mkCard 4 14 in card_bytes c /\ parse_db_card (u16 (to_db_card c)) = c.
Proof.
  assert (card_bytes (mkCard 4 14)) as Hc by by split.
  split; [exact Hc|]. by apply (card_forms_roundtrip (mkCard 4 14) []).
Defined.

Lemma get_score_bounds c joker_point : 0 <= get_score c joker_point <= 10.
Proof. unfold get_score, PokerPoint.P2. repeat case_match; lia. Qed.
