(* ===== verification/Choices.v ===== *)
(** * Enumeration of combinations

    Models [Combination::caculate_all_choices] and [index_to_elem] of
    gamesvr/Combination.h.  The code keeps a vector of ones and zeros, moves to
    the next one by swapping the first 1 that is followed by a 0 and sorting the
    part before it in descending order, and stops when no 1 is followed by a 0.
    [caculate_all_choices_spec] shows that this visits every choice of [n]
    positions exactly once, in colexicographic order, so the result holds
    exactly the sub-vectors of length [n]. *)
From Stdlib Require Import ZArith Lia.
From stdpp Require Import base tactics numbers sorting option list.
From S2P Require Import Prelude.

(** ** The code *)

Section code.
Context {T : Type}.

(** Push the elements whose index entry is 1. *)
Fixpoint index_to_elem (vec_elem : list T) (vec_index : list Z) (out_vec : list T)
  : outcome (list T) :=
  match vec_index with
  | [] => Ok out_vec
  | b :: vec_index' =>
      match vec_elem with
      | [] => if b =? 1 then Fault OutOfBounds else index_to_elem [] vec_index' out_vec
      | x :: vec_elem' =>
          index_to_elem vec_elem' vec_index' (if b =? 1 then out_vec ++ [x] else out_vec)
      end
  end.
End code.

(** The scan of the loop: the first [i] with [vec_index[i] == 1] and
    [vec_index[i + 1] == 0]. *)
Fixpoint find_10 (vec_index : list Z) : option nat :=
  match vec_index with
  | x :: (y :: _) as vec_index' =>
      if (x =? 1) && (y =? 0) then Some 0%nat else S <$> find_10 vec_index'
  | _ => None
  end.

(** The body of the [if]: swap positions [i] and [i + 1] and sort the entries
    before [i] with [std::greater]. *)
Definition next_choice (vec_index : list Z) : option (list Z) :=
  i ← find_10 vec_index;
  a ← vec_index !! i;
  b ← vec_index !! S i;
  let swapped := <[S i := a]> (<[i := b]> vec_index) in
  Some (merge_sort Z.ge (take i swapped) ++ drop i swapped).

Section loop.
Context {T : Type}.

(** One round per choice; after a change the scan restarts ([i = -1]). *)
Fixpoint choices_loop (fuel : nat) (arr : list T) (vec_index : list Z)
    (all_combines : list (list T)) : outcome (list (list T)) :=
  match fuel with
  | O => Fault NoFuel
  | S fuel' =>
      match next_choice vec_index with
      | None => Ok all_combines
      | Some vec_index' =>
          one_comb ← index_to_elem arr vec_index' [];
          choices_loop fuel' arr vec_index' (all_combines ++ [one_comb])
      end
  end.

(** A vector of [m] entries has fewer than [2 ^ m] successors. *)
Definition caculate_all_choices (arr : list T) (n : Z) (all_combines : list (list T))
  : outcome (list (list T)) :=
  let total_size := Z.of_nat (length arr) in
  if total_size <? n then Ok all_combines
  else
    let ones := Z.to_nat n in
    let vec_index := replicate ones 1 ++ replicate (length arr - ones) 0 in
    one_comb ← index_to_elem arr vec_index [];
    choices_loop (2 ^ length arr) arr vec_index (all_combines ++ [one_comb]).
End loop.

Example choices_4_2 :
  caculate_all_choices [1; 2; 3; 4] 2 [] =
    Ok [[1; 2]; [1; 3]; [2; 3]; [1; 4]; [2; 4]; [3; 4]].
Proof. vm_compute. reflexivity. Qed.

(** ** The reference enumeration *)

(** All vectors of [m] entries with [n] ones, in the order of their last entry,
    then of the one before it, and so on. *)
Fixpoint colex (m n : nat) : list (list Z) :=
  match m with
  | O => match n with O => [[]] | S _ => [] end
  | S m' =>
      ((.++ [0]) <$> colex m' n) ++
      match n with O => [] | S n' => (.++ [1]) <$> colex m' n' end
  end.

Definition first_choice (m n : nat) : list Z := replicate n 1 ++ replicate (m - n) 0.
Definition last_choice (m n : nat) : list Z := replicate (m - n) 0 ++ replicate n 1.

Fixpoint binomial (m n : nat) : nat :=
  match m, n with
  | _, O => 1
  | O, S _ => 0
  | S m', S n' => binomial m' (S n') + binomial m' n'
  end.

Lemma colex_length m n : length (colex m n) = binomial m n.
Proof.
  revert n; induction m as [|m IH]; intros [|n]; simpl; [done|done| |].
  - rewrite app_nil_r, length_fmap, IH. by destruct m.
  - by rewrite length_app, !length_fmap, !IH.
Qed.

Lemma colex_nil m n : (m < n)%nat -> colex m n = [].
Proof.
  revert n; induction m as [|m IH]; intros [|n] ?; simpl; [lia|done|lia|].
  by rewrite !IH by lia.
Qed.

Lemma colex_lengths m n v : v ∈ colex m n -> length v = m.
Proof.
  revert n v; induction m as [|m IH]; intros n v; simpl.
  { destruct n; [by intros ->%list_elem_of_singleton|by intros ?%not_elem_of_nil]. }
  rewrite elem_of_app, list_elem_of_fmap. intros [(w & -> & Hw)|Hv].
  - rewrite length_app, (IH _ _ Hw); simpl. lia.
  - destruct n; [by apply not_elem_of_nil in Hv|].
    apply list_elem_of_fmap in Hv as (w & -> & Hw). rewrite length_app, (IH _ _ Hw); simpl. lia.
Qed.

Lemma colex_NoDup m n : NoDup (colex m n).
Proof.
  assert (forall b : Z, Inj (=) (=) (.++ [b])) as Hinj.
  { intros b x y Hxy. by apply (inj (.++ [b])) in Hxy. }
  revert n; induction m as [|m IH]; intros n; simpl.
  { destruct n; [apply NoDup_singleton|apply NoDup_nil_2]. }
  apply NoDup_app. split; [by apply NoDup_fmap_2|]. split.
  - intros v (w & -> & _)%list_elem_of_fmap Hv.
    destruct n; [by apply not_elem_of_nil in Hv|].
    apply list_elem_of_fmap in Hv as (w' & Hw & _). by apply app_inj_tail in Hw as [_ ?].
  - destruct n; [apply NoDup_nil_2|by apply NoDup_fmap_2].
Qed.

(** ** The code's successor walks through the reference enumeration *)

(** [path u l v]: [l] lists the vectors met from [u] to [v], both included. *)
Inductive path : list Z -> list (list Z) -> list Z -> Prop :=
  | path_one v : path v [v] v
  | path_step u v l w : next_choice u = Some v -> path v l w -> path u (u :: l) w.

Lemma path_app u l v w l' x :
  path u l v -> next_choice v = Some w -> path w l' x -> path u (l ++ l') x.
Proof. induction 1; intros; simpl; eauto using path. Qed.

Lemma find_10_app v i b : find_10 v = Some i -> find_10 (v ++ [b]) = Some i /\ (S i < length v)%nat.
Proof.
  revert i; induction v as [|x [|y v] IH]; intros i; [done|done|].
  change (find_10 (x :: y :: v)) with
    (if (x =? 1) && (y =? 0) then Some 0%nat else S <$> find_10 (y :: v)).
  change (find_10 ((x :: y :: v) ++ [b])) with
    (if (x =? 1) && (y =? 0) then Some 0%nat else S <$> find_10 ((y :: v) ++ [b])).
  destruct ((x =? 1) && (y =? 0)).
  - intros [= <-]. simpl; split; [done|lia].
  - destruct (find_10 (y :: v)) as [j|]; [|done]. intros [= <-].
    destruct (IH j) as [-> ?]; [done|]. simpl in *. split; [done|lia].
Qed.

Lemma next_choice_app v v' b : next_choice v = Some v' -> next_choice (v ++ [b]) = Some (v' ++ [b]).
Proof.
  unfold next_choice. destruct (find_10 v) as [i|] eqn:E; [|done]. csimpl.
  destruct (find_10_app v i b E) as [-> Hi]. csimpl.
  destruct (v !! i) as [x|] eqn:Ex; [|done]. destruct (v !! S i) as [y|] eqn:Ey; [|done].
  csimpl. intros [= <-].
  rewrite !lookup_app_l, Ex, Ey by lia. csimpl. f_equal.
  rewrite !insert_app_l by (rewrite ?length_insert; lia).
  rewrite take_app_le, drop_app_le by (rewrite !length_insert; lia).
  by rewrite (assoc_L (++)).
Qed.

Lemma path_snoc u l v b : path u l v -> path (u ++ [b]) ((.++ [b]) <$> l) (v ++ [b]).
Proof. induction 1; csimpl; eauto using path, next_choice_app. Qed.

(** Sorting zeros and ones in descending order moves the ones to the front. *)
Lemma sort_desc a n :
  merge_sort Z.ge (replicate a 0 ++ replicate n 1) = replicate n 1 ++ replicate a 0.
Proof.
  assert (Transitive Z.ge) by (intros x y z ??; lia).
  assert (Total Z.ge) by (intros x y; lia).
  assert (AntiSymm (=) Z.ge) by (intros x y ??; lia).
  apply (StronglySorted_unique Z.ge); [by apply StronglySorted_merge_sort| |].
  - assert (forall k (c : Z), StronglySorted Z.ge (replicate k c)) as Hrep.
    { intros k c. induction k; simpl; constructor; [done|].
      apply Forall_replicate. lia. }
    induction n as [|n IH]; simpl; [apply Hrep|]. constructor; [done|].
    apply Forall_app; split; apply Forall_replicate; lia.
  - rewrite (merge_sort_Permutation Z.ge). apply Permutation_app_comm.
Qed.

Lemma find_10_zeros_ones a n :
  find_10 (replicate a 0 ++ replicate (S n) 1 ++ [0]) = Some (a + n)%nat.
Proof.
  assert (find_10 (replicate (S n) 1 ++ [0]) = Some n) as Hones.
  { induction n as [|n IH]; [done|].
    change (replicate (S (S n)) 1 ++ [0]) with (1 :: 1 :: replicate n 1 ++ [0]).
    change (find_10 (1 :: 1 :: replicate n 1 ++ [0]))
      with (S <$> find_10 (replicate (S n) 1 ++ [0])). by rewrite IH. }
  induction a as [|a IH]; [done|].
  change (replicate (S a) 0 ++ replicate (S n) 1 ++ [0])
    with (0 :: replicate a 0 ++ replicate (S n) 1 ++ [0]).
  destruct (replicate a 0 ++ replicate (S n) 1 ++ [0]) as [|y v] eqn:E.
  { by destruct a. }
  change (find_10 (0 :: y :: v)) with (S <$> find_10 (y :: v)). by rewrite IH.
Qed.

(** From the last vector with a 0 appended to the first one with a 1 appended. *)
Lemma next_choice_carry a n :
  next_choice (replicate a 0 ++ replicate (S n) 1 ++ [0]) =
    Some ((replicate n 1 ++ replicate (S a) 0) ++ [1]).
Proof.
  assert (replicate a 0 ++ replicate (S n) 1 ++ [0] =
          (replicate a 0 ++ replicate n 1) ++ [1; 0]) as Hend.
  { rewrite replicate_S_end. by rewrite <- !(assoc_L (++)). }
  unfold next_choice. rewrite find_10_zeros_ones, Hend. csimpl.
  set (u := replicate a 0 ++ replicate n 1).
  assert (length u = (a + n)%nat) as Hu by (unfold u; by rewrite length_app, !length_replicate).
  rewrite !lookup_app_r by lia. rewrite Hu.
  replace (a + n - (a + n))%nat with 0%nat by lia.
  replace (S (a + n) - (a + n))%nat with 1%nat by lia. csimpl. f_equal.
  rewrite insert_app_r_alt by lia. rewrite insert_app_r_alt by lia. rewrite Hu.
  replace (a + n - (a + n))%nat with 0%nat by lia.
  replace (S (a + n) - (a + n))%nat with 1%nat by lia. simpl.
  rewrite <- Hu, take_app_length, drop_app_length. unfold u. rewrite sort_desc.
  by rewrite replicate_cons_app, <- !(assoc_L (++)).
Qed.

Lemma first_choice_0 m n : (n <= m)%nat -> first_choice (S m) n = first_choice m n ++ [0].
Proof.
  intros. unfold first_choice. replace (S m - n)%nat with (S (m - n)) by lia.
  by rewrite replicate_S_end, (assoc_L (++)).
Qed.

Lemma first_choice_full m : first_choice (S m) (S m) = first_choice m m ++ [1].
Proof. unfold first_choice. rewrite !Nat.sub_diag, replicate_S_end. by rewrite !app_nil_r. Qed.

Lemma last_choice_0 m : last_choice (S m) 0 = last_choice m 0 ++ [0].
Proof.
  unfold last_choice. rewrite !app_nil_r, !Nat.sub_0_r. by rewrite replicate_S_end.
Qed.

Lemma last_choice_1 m n : last_choice (S m) (S n) = last_choice m n ++ [1].
Proof. unfold last_choice. by rewrite replicate_S_end, (assoc_L (++)). Qed.

Lemma last_choice_carry m n :
  (n < m)%nat -> next_choice (last_choice m (S n) ++ [0]) = Some (first_choice m n ++ [1]).
Proof.
  intros. unfold last_choice, first_choice. rewrite <- (assoc_L (++)), next_choice_carry.
  by replace (S (m - S n)) with (m - n)%nat by lia.
Qed.

Lemma colex_path m n : (n <= m)%nat -> path (first_choice m n) (colex m n) (last_choice m n).
Proof.
  revert n; induction m as [|m IH]; intros [|n] Hn; [apply path_one|lia| |]; simpl colex.
  - rewrite app_nil_r, first_choice_0, last_choice_0 by lia. apply path_snoc, IH. lia.
  - rewrite last_choice_1. pose proof (path_snoc _ _ _ 1 (IH n ltac:(lia))) as Hr.
    destruct (decide (n = m)) as [->|].
    { by rewrite colex_nil, first_choice_full by lia. }
    rewrite first_choice_0 by lia.
    eapply path_app; [apply path_snoc, IH; lia|apply last_choice_carry; lia|done].
Qed.

Lemma next_choice_last m n : next_choice (last_choice m n) = None.
Proof.
  unfold next_choice, last_choice.
  assert (find_10 (replicate n 1) = None) as Hones.
  { induction n as [|[|n] IH]; [done|done|].
    change (find_10 (replicate (S (S n)) 1)) with (S <$> find_10 (replicate (S n) 1)).
    by rewrite IH. }
  assert (forall a, find_10 (replicate a 0 ++ replicate n 1) = None) as ->; [|done].
  induction a as [|a IH]; [done|]. simpl replicate. simpl app.
  destruct (replicate a 0 ++ replicate n 1) as [|y v]; [done|].
  change (find_10 (0 :: y :: v)) with (S <$> find_10 (y :: v)). by rewrite IH.
Qed.

(** ** The choices that the vectors stand for *)

Section choices.
Context {T : Type}.
Implicit Types (arr l : list T) (acc : list (list T)).

Fixpoint sel (arr : list T) (vec_index : list Z) : list T :=
  match arr, vec_index with
  | x :: arr', b :: v' => if b =? 1 then x :: sel arr' v' else sel arr' v'
  | _, _ => []
  end.

Definition choices (arr : list T) (n : Z) : list (list T) :=
  sel arr <$> colex (length arr) (Z.to_nat n).

Lemma index_to_elem_sel arr v out :
  length v = length arr -> index_to_elem arr v out = Ok (out ++ sel arr v).
Proof.
  revert arr out; induction v as [|b v IH]; intros [|x arr] out Hl; simplify_eq/=.
  - by rewrite app_nil_r.
  - rewrite IH by done. destruct (b =? 1); [|done]. by rewrite <- (assoc_L (++)).
Qed.

Lemma sel_snoc arr v x b :
  length v = length arr -> sel (arr ++ [x]) (v ++ [b]) = sel arr v ++ (if b =? 1 then [x] else []).
Proof.
  revert v; induction arr as [|y arr IH]; intros [|c v] Hl; simplify_eq/=; [done|].
  rewrite IH by done. by destruct (c =? 1).
Qed.

Lemma sel_sublist arr v : sel arr v `sublist_of` arr.
Proof.
  revert v; induction arr as [|x arr IH]; intros [|b v]; simpl; [done|done|apply sublist_nil_l|].
  destruct (b =? 1); by constructor.
Qed.

Lemma choices_snoc arr x n :
  choices (arr ++ [x]) n =
    choices arr n ++ (if decide (0 < n) then (.++ [x]) <$> choices arr (n - 1) else []).
Proof.
  unfold choices. rewrite length_app, Nat.add_comm. simpl. rewrite fmap_app. f_equal.
  - rewrite <- list_fmap_compose. apply list_fmap_ext. intros i v Hv; simpl.
    apply list_elem_of_lookup_2, colex_lengths in Hv. by rewrite sel_snoc, app_nil_r.
  - destruct (Z.to_nat n) as [|k] eqn:Ek; case_decide; try lia; [done|].
    replace (Z.to_nat (n - 1)) with k by lia.
    rewrite <- !list_fmap_compose. apply list_fmap_ext. intros i v Hv; simpl.
    apply list_elem_of_lookup_2, colex_lengths in Hv. by rewrite sel_snoc.
Qed.

Lemma elem_of_choices arr n l :
  l ∈ choices arr n <-> l `sublist_of` arr /\ length l = Z.to_nat n.
Proof.
  revert n l; induction arr as [|x arr IH] using rev_ind; intros n l.
  { unfold choices; simpl. rewrite sublist_nil_r.
    destruct (Z.to_nat n); simpl; rewrite ?list_elem_of_singleton, ?elem_of_nil.
    - split; [by intros ->|by intros [-> _]].
    - split; [done|by intros [-> ?]]. }
  rewrite choices_snoc, elem_of_app, IH, sublist_app_r. split.
  - intros [[Hs Hl]|Hl].
    + split; [|done]. exists l, []. rewrite app_nil_r. split; [done|]. split; [done|].
      apply sublist_nil_l.
    + case_decide; [|by apply not_elem_of_nil in Hl].
      apply list_elem_of_fmap in Hl as (k & -> & [Hs Hk]%IH).
      split; [by exists k, [x]|]. rewrite length_app, Hk; simpl. lia.
  - intros [(k & t & -> & Hk & Ht) Hl].
    apply sublist_cons_r in Ht as [Ht|(t' & -> & ->%sublist_nil_r)].
    + apply sublist_nil_r in Ht as ->. rewrite app_nil_r in *. by left.
    + right. rewrite length_app in Hl; simpl in Hl. rewrite decide_True by lia.
      apply list_elem_of_fmap. exists k. split; [done|]. apply IH. split; [done|lia].
Qed.

Lemma choices_loop_path arr u ls v fuel acc :
  path u ls v -> next_choice v = None -> (length ls <= fuel)%nat ->
  Forall (fun w => length w = length arr) ls ->
  choices_loop fuel arr u acc = Ok (acc ++ (sel arr <$> tail ls)).
Proof.
  intros Hp Hend. revert fuel acc.
  induction Hp as [v|u v ls w Hn Hp IH]; intros [|fuel] acc Hf Hall; simpl in *; try lia.
  - rewrite Hend. by rewrite app_nil_r.
  - rewrite Hn. inversion Hall as [|? ? _ Hall']; subst.
    assert (exists ls', ls = v :: ls') as [ls' ->] by (inversion Hp; eauto).
    rewrite index_to_elem_sel by by inversion Hall'.
    simpl. rewrite IH by (done || lia). by rewrite <- (assoc_L (++)).
Qed.

Lemma binomial_bound m n : (binomial m n <= 2 ^ m)%nat.
Proof.
  revert n; induction m as [|m IH]; intros [|n]; simpl; try lia.
  - pose proof (Nat.pow_nonzero 2 m). lia.
  - pose proof (IH n). pose proof (IH (S n)). lia.
Qed.

Lemma caculate_all_choices_eq arr n acc :
  caculate_all_choices arr n acc = Ok (acc ++ choices arr n).
Proof.
  unfold caculate_all_choices, choices. case_match eqn:E.
  { rewrite colex_nil by lia. simpl. by rewrite app_nil_r. }
  apply Z.ltb_ge in E. set (k := Z.to_nat n).
  assert (k <= length arr)%nat as Hk by (unfold k; lia).
  pose proof (colex_path (length arr) k Hk) as Hp.
  assert (exists ls, colex (length arr) k = first_choice (length arr) k :: ls) as [ls Els].
  { inversion Hp; eauto. }
  assert (Forall (fun w => length w = length arr) (colex (length arr) k)) as Hall.
  { apply Forall_forall. intros w. apply colex_lengths. }
  fold (first_choice (length arr) k).
  rewrite index_to_elem_sel by (rewrite Els in Hall; by inversion Hall). simpl.
  erewrite choices_loop_path; [|exact Hp|apply next_choice_last| |exact Hall].
  - rewrite Els; simpl. by rewrite <- (assoc_L (++)).
  - rewrite colex_length. apply binomial_bound.
Qed.

Lemma choices_sublist arr n l : l ∈ choices arr n -> l `sublist_of` arr.
Proof. by intros [? _]%elem_of_choices. Qed.
End choices.

Lemma colex_bits m n v : v ∈ colex m n -> Forall (fun b => b = 0 \/ b = 1) v.
Proof.
  revert n v; induction m as [|m IH]; intros n v; simpl.
  { destruct n; [by intros ->%list_elem_of_singleton; constructor|by intros ?%not_elem_of_nil]. }
  rewrite elem_of_app. intros [(w & -> & Hw)%list_elem_of_fmap|Hv].
  - apply Forall_app. split; [by eapply IH|]. repeat constructor.
  - destruct n; [by apply not_elem_of_nil in Hv|].
    apply list_elem_of_fmap in Hv as (w & -> & Hw).
    apply Forall_app. split; [by eapply IH|]. constructor; [by right|constructor].
Qed.

(** Different vectors choose different elements when the elements differ. *)
Lemma sel_inj {T} (arr : list T) v w :
  NoDup arr -> length v = length arr -> length w = length arr ->
  Forall (fun b => b = 0 \/ b = 1) v -> Forall (fun b => b = 0 \/ b = 1) w ->
  sel arr v = sel arr w -> v = w.
Proof.
  revert v w; induction arr as [|x arr IH]; intros [|b v] [|c w] Hn Hlv Hlw Hv Hw; try done.
  inversion Hn as [|? ? Hx Hn']; inversion Hv as [|? ? Hb Hv']; inversion Hw as [|? ? Hc Hw'].
  subst; simplify_eq/=.
  assert (forall u, x ∉ sel arr u) as Hout.
  { intros u Hu. apply Hx. eapply sublist_subseteq; [apply sel_sublist|done]. }
  destruct Hb as [-> | ->], Hc as [-> | ->]; simpl; intros Heq.
  - f_equal. by apply IH.
  - exfalso. apply (Hout v). rewrite Heq. left.
  - exfalso. apply (Hout w). rewrite <- Heq. left.
  - f_equal. apply IH; congruence.
Qed.

(** [caculate_all_choices] always returns; it appends exactly the
    sub-vectors of [n] elements of [arr], as many as the binomial coefficient
    says, and none twice when the elements of [arr] are distinct. *)
Theorem caculate_all_choices_correct {T} (arr : list T) (n : Z) (acc : list (list T)) :
  exists new,
    caculate_all_choices arr n acc = Ok (acc ++ new) /\
    (forall l, l ∈ new <-> l `sublist_of` arr /\ length l = Z.to_nat n) /\
    length new = binomial (length arr) (Z.to_nat n) /\
    (NoDup arr -> NoDup new).
Proof.
  exists (choices arr n). split; [apply caculate_all_choices_eq|].
  split; [apply elem_of_choices|]. unfold choices.
  split; [by rewrite length_fmap, colex_length|]. intros Harr.
  apply NoDup_fmap_2_strong; [|apply colex_NoDup]. intros v w Hv Hw.
  apply sel_inj; eauto using colex_lengths, colex_bits.
Qed.
