(* ===== verification/Dealer.v ===== *)
(** * The card dealer

    Models [CardDealer] of gamesvr/CardDealer.h and gamesvr/CardDealer.cpp: the
    shoe of 108 cards ([m_cards], and its first ordering [m_all_card]), the
    shuffle [rand_rank_cards] and the deal [rand_deal_card].  The C library's
    [rand] is an interface: a state, [srand] and [rand], of which the theorems
    use nothing: for every generator a shuffle permutes the shoe, a deal takes distinct positions of
    it, and no subscript leaves its vector. *)
From Stdlib Require Import ZArith Lia.
From stdpp Require Import base tactics numbers sorting option list.
From S2P Require Import Prelude Cards.

(** ** The generator *)

(** [srand] and [rand] of the C library; [rand] is not negative (C11 7.22.2.1),
    so [%] by a positive divisor is the modulus. *)
Class RandGen (G : Type) := {
  srand : Z -> G;
  rand : G -> Z * G
}.

(** ** The dealer *)

Definition JOKER_CARD : Z := 9.
Definition HAND_CARD_COUNT : Z := 13.
Definition CARD_COUNT : nat := 108.

Record CardDealer : Set := mkDealer {
  d_cards : list PokerCard;
  d_all_card : list PokerCard
}.

(** The order in which [init_cards] writes the shoe. *)
Definition deck : list PokerCard :=
  (i ← seqZ 0 PokerColor.diamonds;
   j ← seqZ 0 (PokerPoint.A - 1);
   [mkCard (i + 1) (j + 2); mkCard (i + 1) (j + 2)]) ++
  [mkCard 0 PokerPoint.JOKER1; mkCard 0 PokerPoint.JOKER1;
   mkCard 0 PokerPoint.JOKER2; mkCard 0 PokerPoint.JOKER2].

(** [m_cards[index] = c; ++index]. *)
Definition write_card (s : list PokerCard * nat) (c : PokerCard)
  : outcome (list PokerCard * nat) :=
  let '(cards, index) := s in
  _ ← access (cards !! index);
  mret (<[index := c]> cards, S index).

Section dealer.
Context {G : Type} `{RandGen G}.

(** The [while (get_count < count)] loop of [rand_rank_cards] and
    [rand_deal_card]: the card drawn is replaced by the last one, and the
    vector keeps its last element. *)
Fixpoint draw_cards (count : nat) (cards lstCard : list PokerCard) (g : G)
  : outcome (list PokerCard * G) :=
  match count with
  | O => mret (lstCard, g)
  | S count' =>
      let '(r, g) := rand g in
      let index := Z.to_nat (r `mod` Z.of_nat (length cards)) in
      card ← access (cards !! index);
      cards ← (if 1 <? Z.of_nat (length cards) then
                 back ← access (last cards);
                 mret (take (pred (length cards)) (<[index := back]> cards))
               else mret cards);
      draw_cards count' cards (lstCard ++ [card]) g
  end.

Definition rand_rank_cards (d : CardDealer) (g : G) : outcome (CardDealer * G) :=
  _ ← assert_that (bool_decide (length (d_cards d) = CARD_COUNT));
  '(cards, g) ← draw_cards CARD_COUNT (d_cards d) [] g;
  mret (mkDealer cards (d_all_card d), g).

(** [for (int i = 0; i < n; ++i) rand_rank_cards()]. *)
Fixpoint rank_times (n : nat) (d : CardDealer) (g : G) : outcome (CardDealer * G) :=
  match n with
  | O => mret (d, g)
  | S n' => '(d, g) ← rand_rank_cards d g; rank_times n' d g
  end.

(** The constructor [CardDealer::CardDealer] is [init_cards]. *)
Definition init_cards (g : G) : outcome (CardDealer * G) :=
  '(cards, _) ← mfold write_card (replicate CARD_COUNT default_card, O) deck;
  rank_times (Z.to_nat 1000) (mkDealer cards cards) g.

(** [deal_card] forwards to [rand_deal_card], which seeds the generator with
    the time. *)
Definition rand_deal_card (d : CardDealer) (now : Z) (lstCard : list PokerCard) (count : Z)
  : outcome (CardDealer * list PokerCard * G) :=
  let g := srand (u32 now) in
  _ ← assert_that (count <=? Z.of_nat CARD_COUNT);
  '(d, g) ← rand_rank_cards d g;
  '(lst, g) ← draw_cards (Z.to_nat count) (d_cards d) lstCard g;
  mret (d, lst, g).

Definition deal_card := rand_deal_card.

(** ** Drawing *)

Lemma take_insert_last (cards : list PokerCard) i c back :
  cards !! i = Some c -> last cards = Some back ->
  c :: take (pred (length cards)) (<[i := back]> cards) ≡ₚ cards.
Proof.
  intros Hi Hl. apply last_Some in Hl as [k ->]. rewrite length_app; simpl.
  replace (pred (length k + 1)) with (length k) by lia.
  destruct (decide (i < length k)%nat) as [Hlt|Hge].
  - rewrite insert_app_l, take_app_length' by (rewrite ?length_insert; lia).
    rewrite lookup_app_l in Hi by done.
    rewrite <- (Permutation_cons_append k back).
    rewrite <- (list_insert_id k i c Hi) at 2.
    rewrite !insert_take_drop by done. rewrite <- !Permutation_middle. apply Permutation_swap.
  - assert (i = length k) as -> by (apply lookup_lt_Some in Hi; rewrite length_app in Hi; simpl in Hi; lia).
    rewrite lookup_app_r, Nat.sub_diag in Hi by done. injection Hi as ->.
    rewrite insert_app_r_alt, take_app_length by done. apply Permutation_cons_append.
Qed.

Lemma rand_index (g : G) (n : nat) :
  (0 < n)%nat -> (Z.to_nat ((rand g).1 `mod` Z.of_nat n) < n)%nat.
Proof.
  intros Hn. pose proof (Z.mod_pos_bound (rand g).1 (Z.of_nat n) ltac:(lia)). lia.
Qed.

(** Drawing [count] of at least [count] cards splits the vector. *)
Lemma draw_cards_split count cards lst g :
  (count <= length cards)%nat ->
  returns (draw_cards count cards lst g) (fun r =>
    exists drawn rest, r.1 = lst ++ drawn /\ length drawn = count /\ drawn ++ rest ≡ₚ cards).
Proof.
  revert cards lst g; induction count as [|count IH]; intros cards lst g Hc; simpl.
  - apply returns_ret. exists [], cards. by rewrite app_nil_r.
  - pose proof (rand_index g (length cards) ltac:(lia)) as Hi.
    destruct (rand g) as [r g']; simpl in Hi.
    destruct (lookup_lt_is_Some_2 cards _ Hi) as [c Hcard].
    eapply returns_bind; [by eapply (returns_access _ c (fun a => a = c))|]; intros ? ->.
    case_match eqn:Hsize.
    + destruct (last cards) as [back|] eqn:Hl; [|apply last_None in Hl; subst; simpl in *; lia].
      simpl. set (cards' := take _ _).
      assert (c :: cards' ≡ₚ cards) as Hp by by apply take_insert_last.
      assert (S (length cards') = length cards) as Hlen by by rewrite <- Hp.
      eapply returns_mono; [apply (IH cards'); lia|].
      intros [l g''] (drawn & rest & Hcs & Hd & Hrest); simpl in Hcs; subst l.
      exists (c :: drawn), rest. simpl. split_and!; [by rewrite <- (assoc_L (++))|by rewrite Hd|].
      by rewrite Hrest.
    + apply Z.ltb_ge in Hsize. assert (count = 0%nat) as -> by lia. simpl.
      apply returns_ret. destruct cards as [|x [|? ?]]; simpl in *; [lia| |lia].
      exists [c], []. split_and!; [done|done|].
      replace (Z.to_nat _) with O in Hcard by lia. by injection Hcard as ->.
Qed.

Lemma rand_rank_cards_perm d g :
  length (d_cards d) = CARD_COUNT ->
  returns (rand_rank_cards d g) (fun r =>
    d_cards r.1 ≡ₚ d_cards d /\ d_all_card r.1 = d_all_card d).
Proof.
  intros Hl. unfold rand_rank_cards.
  eapply returns_bind; [apply (returns_assert _ (fun _ => True)); [by apply bool_decide_eq_true|done]|].
  intros _ _. eapply returns_bind; [apply draw_cards_split; by rewrite Hl|].
  intros [cards g'] (drawn & rest & Hcs & Hd & Hp); simpl in Hcs; subst cards; simpl. apply returns_ret; simpl. split; [|done].
  destruct rest as [|c rest]; [by rewrite app_nil_r in Hp|].
  apply Permutation_length in Hp. rewrite length_app, Hd, Hl in Hp. cbn [length] in Hp. lia.
Qed.

Lemma rank_times_perm n d g :
  length (d_cards d) = CARD_COUNT ->
  returns (rank_times n d g) (fun r =>
    d_cards r.1 ≡ₚ d_cards d /\ d_all_card r.1 = d_all_card d).
Proof.
  revert d g; induction n as [|n IH]; intros d g Hl; simpl; [by apply returns_ret|].
  eapply returns_bind; [by apply rand_rank_cards_perm|].
  intros [d' g'] [Hp Ha]; simpl in Hp, Ha.
  eapply returns_mono; [apply IH; by rewrite Hp|].
  intros [d'' g''] [Hp' Ha']; simpl in *. split; [by rewrite Hp'|by rewrite Ha'].
Qed.

(** [init_cards] writes every position of the vector once. *)
Lemma write_deck :
  mfold write_card (replicate CARD_COUNT default_card, O) deck = Ok (deck, CARD_COUNT).
Proof. vm_compute. reflexivity. Qed.

(** A dealer whose shoe is the 108 cards in some order. *)
Definition full_shoe (d : CardDealer) : Prop := d_cards d ≡ₚ deck /\ d_all_card d = deck.

Lemma full_shoe_length d : full_shoe d -> length (d_cards d) = CARD_COUNT.
Proof. intros [Hp _]. by rewrite Hp. Qed.

Lemma init_cards_full g : returns (init_cards g) (fun r => full_shoe r.1).
Proof.
  unfold init_cards. rewrite write_deck. cbn -[rank_times CARD_COUNT deck Z.to_nat].
  apply (rank_times_perm _ (mkDealer deck deck)). reflexivity.
Qed.

Lemma rand_deal_card_full d now lst count :
  full_shoe d -> 0 <= count <= Z.of_nat CARD_COUNT ->
  returns (rand_deal_card d now lst count) (fun r =>
    full_shoe r.1.1 /\
    exists dealt rest, r.1.2 = lst ++ dealt /\ Z.of_nat (length dealt) = count /\
      dealt ++ rest ≡ₚ deck).
Proof.
  intros Hd Hc. unfold rand_deal_card.
  eapply returns_bind; [apply (returns_assert _ (fun _ => True)); [lia|done]|]. intros _ _.
  eapply returns_bind; [by apply rand_rank_cards_perm, full_shoe_length|].
  intros [d' g'] [Hp Ha]; simpl in Hp, Ha.
  assert (full_shoe d') as Hd' by (destruct Hd as [Hd1 Hd2]; split; [by rewrite Hp|by rewrite Ha]).
  eapply returns_bind; [apply draw_cards_split; rewrite full_shoe_length by done; lia|].
  intros [l g''] (dealt & rest & Hcs & Hlen & Hr); simpl in Hcs; subst l. apply returns_ret; simpl.
  split; [done|]. exists dealt, rest. split_and!; [done|lia|].
  by rewrite Hr, (proj1 Hd').
Qed.

(** ** The dealer over its life *)

(** The dealers a server can hold: constructed, then dealt from. *)
Inductive dealer_state : CardDealer -> Prop :=
  | dealer_init g d g' : init_cards g = Ok (d, g') -> dealer_state d
  | dealer_deal d now lst count d' lst' g' :
      dealer_state d -> 0 <= count ->
      rand_deal_card d now lst count = Ok (d', lst', g') -> dealer_state d'.

Lemma dealer_state_full d : dealer_state d -> full_shoe d.
Proof.
  induction 1 as [g d g' Hi|d now lst count d' lst' g' _ IH Hc Hdeal].
  - destruct (init_cards_full g) as ([d0 g0] & Hi' & Hd). rewrite Hi in Hi'. by injection Hi' as -> ->.
  - assert (count <= Z.of_nat CARD_COUNT) as Hle.
    { unfold rand_deal_card in Hdeal. inv_ok. lia. }
    destruct (rand_deal_card_full d now lst count IH ltac:(lia)) as (r & Hr & Hd & _).
    rewrite Hr in Hdeal. by injection Hdeal as ->.
Qed.

(** C35: Whatever the generator, every dealer the server can hold deals
    [count] cards that are [count] positions of the shoe of 108 cards: the
    call returns for every [count] up to 108, the cards are appended, and
    with the undealt ones they are the whole shoe, so no card is dealt more
    often than the two decks hold it. *)
Theorem deal_card_from_deck d now lst count :
  dealer_state d -> 0 <= count <= 108 ->
  exists d' dealt rest g,
    deal_card d now lst count = Ok (d', lst ++ dealt, g) /\
    dealer_state d' /\
    Z.of_nat (length dealt) = count /\ dealt ++ rest ≡ₚ deck.
Proof.
  intros Hd Hc.
  destruct (rand_deal_card_full d now lst count (dealer_state_full d Hd) Hc)
    as ([[d' lst'] g] & Hr & _ & dealt & rest & Hl & Hlen & Hp); simpl in *; subst lst'.
  exists d', dealt, rest, g. split_and!; [done| |done|done].
  eapply dealer_deal; [done| |exact Hr]. lia.
Qed.
End dealer.

(** The generator of POSIX's example of [rand], one of those the theorem speaks of. *)
Definition lcg : RandGen Z := {|
  srand := fun seed => seed;
  rand := fun g =>
    let g' := (g * 1103515245 + 12345) mod 2 ^ 31 in (g' / 65536, g')
|}.

Lemma deal_card_from_deck_witness :
  exists d, @dealer_state Z lcg d /\
    exists d' dealt rest g,
      @deal_card Z lcg d 7 [] 13 = Ok (d', [] ++ dealt, g) /\
      @dealer_state Z lcg d' /\ Z.of_nat (length dealt) = 13 /\ dealt ++ rest ≡ₚ deck.
Proof.
  destruct (@init_cards_full Z lcg 42) as ([d g] & E & _). exists d.
  pose proof (@dealer_init Z lcg 42 d g E) as Hd. split; [exact Hd|].
  exact (@deal_card_from_deck Z lcg d 7 [] 13 Hd ltac:(lia)).
Defined.

(** ** The shoe *)

(** The cards of one deck: the suited ones, and jokers without a colour. *)
Definition in_deck (c : PokerCard) : bool :=
  is_valid_card c && (if PokerPoint.JOKER1 <=? m_point c then m_color c =? 0 else true).

Lemma in_deck_elem c : in_deck c = true -> c ∈ deck.
Proof.
  destruct c as [color point]. unfold in_deck, is_valid_card; cbn [m_color m_point].
  unfold PokerPoint.JOKER1, PokerPoint.JOKER2, PokerPoint.A, PokerPoint.P2,
    PokerColor.spades, PokerColor.diamonds.
  assert (forall p q, p ∈ seqZ 1 4 -> q ∈ seqZ 2 13 -> mkCard p q ∈ deck) as Hsuit.
  { assert (Forall (fun p => Forall (fun q => mkCard p q ∈ deck) (seqZ 2 13)) (seqZ 1 4)) as Hall
      by (refine (bool_decide_eq_true_1 _ _); vm_compute; reflexivity).
    intros p q Hp Hq. rewrite Forall_forall in Hall. specialize (Hall p Hp).
    rewrite Forall_forall in Hall. by apply Hall. }
  case_match; intros Hb.
  - assert (color = 0 /\ (point = 15 \/ point = 16)) as [-> [-> | ->]] by lia;
      refine (bool_decide_eq_true_1 _ _); vm_compute; reflexivity.
  - apply Hsuit; apply elem_of_seqZ; lia.
Qed.

(** The shoe is two decks: 108 cards, each of the 52 suited cards twice and
    each of the two colourless jokers twice, and nothing else. *)
Theorem deck_composition :
  length deck = 108%nat /\
  forall c, count_occ PokerCard_eq_dec deck c = if in_deck c then 2%nat else 0%nat.
Proof.
  split; [reflexivity|]. intros c. destruct (decide (c ∈ deck)) as [Hc|Hc].
  - revert c Hc. apply Forall_forall. refine (bool_decide_eq_true_1 _ _). vm_compute. reflexivity.
  - replace (in_deck c) with false
      by (symmetry; apply not_true_is_false; intros Hd; by apply Hc, in_deck_elem).
    apply count_occ_not_In. by rewrite <- list_elem_of_In.
Qed.
