(* ===== verification/Straight.v ===== *)
(** * Straights and sets

    Models the three predicates on one group of cards of
    gamesvr/Combination.cpp: [is_cards_pure_straight], [is_cards_straight] and
    [is_cards_three_of_kind], with [is_joker] and [caculate_card_score] of
    gamesvr/Combination.h.  The callers sort the group first, so the
    characterisations are about [sort_cards cards] and depend only on which
    cards the group holds. *)
From Stdlib Require Import ZArith Lia.
From stdpp Require Import base tactics numbers sorting option sets list.
From S2P Require Import Prelude Cards.

(** ** The code *)

Definition is_joker (card : PokerCard) (joker_point : Z) : bool :=
  (m_point card =? joker_point) || (PokerPoint.JOKER1 <=? m_point card).

Definition caculate_card_score (cards : list PokerCard) (joker_point : Z) : Z :=
  foldl (fun score it => score + get_score it joker_point) 0 cards.

(** The loop of [is_cards_pure_straight] from [begin() + 1]. *)
Fixpoint pure_straight_scan (card_first itLast : PokerCard) (l : list PokerCard) : bool :=
  match l with
  | [] => true
  | it :: l' =>
      if negb (m_color itLast =? m_color it) || (PokerPoint.JOKER1 <=? m_point itLast) ||
         (PokerPoint.JOKER1 <=? m_point it)
      then false
      else if negb (m_point itLast + 1 =? m_point it) then
        if negb (m_point it =? PokerPoint.A) then false
        else m_point card_first =? PokerPoint.P2
      else pure_straight_scan card_first it l'
  end.

Definition is_cards_pure_straight (cards : list PokerCard) : bool :=
  if Z.of_nat (length cards) <? 3 then false
  else match cards with
       | [] => false
       | c :: l => pure_straight_scan c c l
       end.

(** The first loop of [is_cards_straight]: the jokers, the jokers needed to
    fill the gaps and the other cards; [None] is [return false]. *)
Fixpoint straight_scan (joker_point : Z) (itLast : option PokerCard)
    (joker_count need_joker_count : Z) (tempcards l : list PokerCard)
  : option (Z * Z * list PokerCard) :=
  match l with
  | [] => Some (joker_count, need_joker_count, tempcards)
  | it :: l' =>
      if is_joker it joker_point then
        straight_scan joker_point itLast (joker_count + 1) need_joker_count tempcards l'
      else
        let tempcards := tempcards ++ [it] in
        match itLast with
        | None => straight_scan joker_point (Some it) joker_count need_joker_count tempcards l'
        | Some last =>
            if negb (m_color last =? m_color it) then None
            else
              let diff := m_point it - m_point last in
              if diff =? 0 then None
              else straight_scan joker_point (Some it) joker_count
                     (need_joker_count + (diff - 1)) tempcards l'
        end
  end.

(** The second loop, over the list where the aces count as one. *)
Fixpoint gap_scan (itLast1 : option PokerCard) (need_joker_count : Z) (l : list PokerCard)
  : option Z :=
  match l with
  | [] => Some need_joker_count
  | it :: l' =>
      match itLast1 with
      | None => gap_scan (Some it) need_joker_count l'
      | Some last =>
          if negb (m_color last =? m_color it) then None
          else
            let diff := m_point it - m_point last in
            if diff =? 0 then None
            else gap_scan (Some it) (need_joker_count + (diff - 1)) l'
      end
  end.

Definition ace_to_one (c : PokerCard) : PokerCard :=
  if m_point c =? PokerPoint.A then mkCard (m_color c) 1 else c.

(** [tempcards.back()] needs a non-empty list. *)
Definition is_cards_straight (cards : list PokerCard) (joker_point : Z) : outcome bool :=
  if Z.of_nat (length cards) <? 3 then mret false
  else
    match straight_scan joker_point None 0 0 [] cards with
    | None => mret false
    | Some (joker_count, need_joker_count, tempcards) =>
        if need_joker_count <=? joker_count then mret true
        else
          back_not_A ← (if joker_point =? PokerPoint.A then mret true
                        else back ← access (last tempcards);
                             mret (negb (m_point back =? PokerPoint.A)));
          if (back_not_A : bool) then mret false
          else
            match gap_scan None 0 (sort_cards (ace_to_one <$> tempcards)) with
            | None => mret false
            | Some need_joker_count => mret (need_joker_count <=? joker_count)
            end
    end.

(** The loop of [is_cards_three_of_kind] from [begin() + 1]. *)
Fixpoint kind_scan (joker_point : Z) (itLast : PokerCard) (is_last_is_joker : bool)
    (un_joker_count : Z) (l : list PokerCard) : option Z :=
  match l with
  | [] => Some un_joker_count
  | it :: l' =>
      if is_joker it joker_point then kind_scan joker_point it true un_joker_count l'
      else if negb is_last_is_joker &&
              (negb (m_point it =? m_point itLast) || (m_color it =? m_color itLast))
      then None
      else kind_scan joker_point it false (un_joker_count + 1) l'
  end.

Definition is_cards_three_of_kind (one_group : list PokerCard) (joker_point : Z) : bool :=
  let size := Z.of_nat (length one_group) in
  if (size <? 3) || (4 <? size) then false
  else match one_group with
       | [] => false
       | c :: l =>
           let first_is_joker := is_joker c joker_point in
           match kind_scan joker_point c first_is_joker (if first_is_joker then 0 else 1) l with
           | None => false
           | Some un_joker_count => negb (un_joker_count <? 2)
           end
       end.

(** ** What the groups are meant to be *)

(** The cards of a group that are not wild. *)
Definition naturals (joker_point : Z) (cards : list PokerCard) : list PokerCard :=
  filter (fun c => is_joker c joker_point = false) cards.

Definition wilds (joker_point : Z) (cards : list PokerCard) : list PokerCard :=
  filter (fun c => is_joker c joker_point = true) cards.

Definition one_colour (cards : list PokerCard) : Prop :=
  forall a b, a ∈ cards -> b ∈ cards -> m_color a = m_color b.

(** All points lie in a window of [n] consecutive points. *)
Definition fits_window (cards : list PokerCard) (n : Z) : Prop :=
  exists s, forall c, c ∈ cards -> s <= m_point c < s + n.

(** A straight with wild cards: the others have one colour and different
    points, and fit a run as long as the group, the ace counting 14 or 1. *)
Definition straight_spec (cards : list PokerCard) (joker_point : Z) : Prop :=
  let nats := naturals joker_point cards in
  let n := Z.of_nat (length cards) in
  3 <= n /\ one_colour nats /\ NoDup (m_point <$> nats) /\
  (fits_window nats n \/ fits_window (ace_to_one <$> nats) n).

(** Three or four of a kind: at least two cards that are not wild, all of one
    point and of different colours. *)
Definition kind_spec (cards : list PokerCard) (joker_point : Z) : Prop :=
  let nats := naturals joker_point cards in
  3 <= Z.of_nat (length cards) <= 4 /\ 2 <= Z.of_nat (length nats) /\
  (forall a b, a ∈ nats -> b ∈ nats -> m_point a = m_point b) /\ NoDup (m_color <$> nats).

(** A wild card of the joker point that sorts between two cards that are not wild. *)
Definition wild_between (cards : list PokerCard) (joker_point : Z) : Prop :=
  exists a w b, a ∈ naturals joker_point cards /\ b ∈ naturals joker_point cards /\
    w ∈ cards /\ m_point a < joker_point /\ m_point w = joker_point /\
    joker_point < m_point b.

(** ** Examples *)

Definition spade (p : Z) : PokerCard := mkCard PokerColor.spades p.

Example straight_A23 : is_cards_straight [spade 2; spade 3; spade 14] 7 = Ok true.
Proof. reflexivity. Qed.
Example straight_9_J_wild :
  is_cards_straight [mkCard 2 7; spade 9; spade 11] 7 = Ok true.
Proof. reflexivity. Qed.
Example pure_QKA : is_cards_pure_straight [spade 12; spade 13; spade 14] = true.
Proof. reflexivity. Qed.
Example kind_888 :
  is_cards_three_of_kind [mkCard 1 8; mkCard 2 8; mkCard 3 8] 7 = true.
Proof. reflexivity. Qed.

(** ** Counting and sorting *)

Lemma naturals_wilds_length jp cards :
  (length (naturals jp cards) + length (wilds jp cards) = length cards)%nat.
Proof.
  unfold naturals, wilds. induction cards as [|c cards IH]; csimpl; [done|].
  rewrite !filter_cons. destruct (is_joker c jp); simpl; lia.
Qed.

#[export] Instance naturals_perm jp : Proper ((≡ₚ) ==> (≡ₚ)) (naturals jp).
Proof. unfold naturals. solve_proper. Qed.

Lemma elem_of_naturals jp cards c : c ∈ naturals jp cards <-> is_joker c jp = false /\ c ∈ cards.
Proof. unfold naturals. by rewrite list_elem_of_filter. Qed.

Lemma natural_point jp cards c :
  c ∈ naturals jp cards -> m_point c <> jp /\ m_point c < PokerPoint.JOKER1.
Proof.
  rewrite elem_of_naturals. unfold is_joker. intros [Hj _].
  apply orb_false_iff in Hj as [? ?]. lia.
Qed.

Lemma naturals_sorted jp cards :
  StronglySorted card_le cards -> StronglySorted card_le (naturals jp cards).
Proof.
  unfold naturals. induction 1 as [|c cards Hs IH Hc]; csimpl; [constructor|].
  rewrite filter_cons. case_decide; [|done]. constructor; [done|].
  rewrite Forall_forall in Hc |- *. intros d Hd. apply list_elem_of_filter in Hd as [_ Hd]. auto.
Qed.

#[export] Instance one_colour_perm : Proper ((≡ₚ) ==> iff) one_colour.
Proof. intros l l' Hl. unfold one_colour. by setoid_rewrite Hl. Qed.

#[export] Instance fits_window_perm : Proper ((≡ₚ) ==> (=) ==> iff) fits_window.
Proof. intros l l' Hl n ? <-. unfold fits_window. by setoid_rewrite Hl. Qed.

#[export] Instance straight_spec_perm : Proper ((≡ₚ) ==> (=) ==> iff) straight_spec.
Proof. intros l l' Hl jp ? <-. unfold straight_spec. by rewrite !Hl. Qed.

Lemma one_colour_cons c l : one_colour (c :: l) <-> Forall (fun b => m_color b = m_color c) l.
Proof.
  unfold one_colour. rewrite Forall_forall. split.
  - intros H b Hb. apply H; [by right|left].
  - intros H a b Ha Hb. apply elem_of_cons in Ha, Hb. destruct Ha as [-> |Ha], Hb as [-> |Hb].
    + done.
    + symmetry; auto.
    + auto.
    + transitivity (m_color c); [|symmetry]; auto.
Qed.

Lemma sorted_last_point c l :
  StronglySorted card_le (c :: l) ->
  forall b, b ∈ c :: l -> m_point c <= m_point b <= m_point (default c (last l)).
Proof.
  revert c; induction l as [|d l IH]; intros c Hs b Hb.
  - apply list_elem_of_singleton in Hb as ->. simpl. lia.
  - inversion Hs as [|? ? Hs' Hc]; subst. inversion Hc as [|? ? Hcd _]; subst.
    assert (default c (last (d :: l)) = default d (last l)) as -> by (destruct l; [done|];
      rewrite last_cons; by destruct (last (p :: l)) eqn:E; [|apply last_None in E]).
    apply elem_of_cons in Hb as [-> |Hb].
    + pose proof (IH d Hs' d ltac:(left)). unfold card_le in Hcd. lia.
    + pose proof (IH d Hs' b Hb). unfold card_le in Hcd. lia.
Qed.

(** ** Straights *)

(** Both loops count the gaps in the same way; the first one also counts the
    wild cards and collects the others. *)
Lemma straight_scan_gap jp last j n temp cards :
  straight_scan jp last j n temp cards =
    (fun need => (j + Z.of_nat (length (wilds jp cards)), need, temp ++ naturals jp cards)) <$>
      gap_scan last n (naturals jp cards).
Proof.
  unfold wilds, naturals.
  revert last j n temp; induction cards as [|c cards IH]; intros last j n temp; csimpl.
  { by rewrite app_nil_r, Z.add_0_r. }
  rewrite !filter_cons. destruct (is_joker c jp); csimpl.
  - rewrite IH. destruct (gap_scan _ _ _); csimpl; [|done]. do 3 f_equal. lia.
  - destruct last as [p|]; [repeat case_match; try done|]; rewrite IH;
      (destruct (gap_scan _ _ _); csimpl; [|done]); by rewrite <- (assoc_L (++)).
Qed.

(** The gaps of a sorted list of one colour without repeated points. *)
Lemma gap_scan_sorted p n l k :
  StronglySorted card_le (p :: l) ->
  gap_scan (Some p) n l = Some k <->
    one_colour (p :: l) /\ NoDup (m_point <$> p :: l) /\
    k = n + m_point (default p (last l)) - m_point p - Z.of_nat (length l).
Proof.
  revert p n; induction l as [|d l IH]; intros p n Hs; csimpl.
  { rewrite one_colour_cons. split; [intros [= ->]|intros (_ & _ & ->); f_equal; lia].
    split_and!; [constructor|apply NoDup_singleton|lia]. }
  inversion Hs as [|? ? Hs' Hp]; subst. inversion Hp as [|? ? Hpd _]; subst.
  rewrite one_colour_cons, Forall_cons, (NoDup_cons (m_point p)).
  pose proof (sorted_last_point d l Hs') as Hd.
  assert (default p (last (d :: l)) = default d (last l)) as -> by (destruct l; [done|];
    rewrite last_cons; by destruct (last (p0 :: l)) eqn:E; [|apply last_None in E]).
  destruct (Z.eqb_spec (m_color p) (m_color d)) as [Hcol|Hcol]; simpl;
    [|split; [done|intros ([Hc _] & _); congruence]].
  destruct (Z.eqb_spec (m_point d - m_point p) 0) as [Hz|Hz].
  { split; [done|]. intros (_ & [Hin _] & _). destruct Hin.
    replace (m_point p) with (m_point d) by lia. left. }
  rewrite IH by done. rewrite one_colour_cons, Hcol, fmap_cons.
  assert (m_point p ∉ m_point d :: (m_point <$> l)) as Hnin.
  { rewrite <- fmap_cons, list_elem_of_fmap. intros (b & Hb & Hin). specialize (Hd b Hin).
    unfold card_le in Hpd. lia. }
  rewrite Nat2Z.inj_succ. split.
  - intros (Hc & Hn & ->). split_and!; [done|done|done|exact Hn|lia].
  - intros ([_ Hc] & [_ Hn] & ->). split_and!; [done|exact Hn|lia].
Qed.

Lemma gap_scan_window l j :
  StronglySorted card_le l -> 0 <= j -> (l = [] -> 0 < j) ->
  (exists k, gap_scan None 0 l = Some k /\ k <= j) <->
    one_colour l /\ NoDup (m_point <$> l) /\ fits_window l (Z.of_nat (length l) + j).
Proof.
  intros Hs Hj Hnil. destruct l as [|p l]; csimpl.
  { split.
    - intros _. split_and!; [intros a b Ha; by apply not_elem_of_nil in Ha|constructor|].
      exists 0. intros c Hc. by apply not_elem_of_nil in Hc.
    - intros _. by exists 0. }
  pose proof (sorted_last_point p l Hs) as Hl. setoid_rewrite (gap_scan_sorted p 0 l _ Hs).
  split.
  - intros (k & (Hc & Hn & ->) & Hk). split_and!; [done|done|].
    exists (m_point p). intros c Hin. specialize (Hl c Hin). lia.
  - intros (Hc & Hn & s & Hw). eexists. split; [done|].
    assert (default p (last l) ∈ p :: l) as Hin.
    { destruct (last l) as [z|] eqn:E; [|left]. right. by eapply list_elem_of_lookup_2; rewrite <- last_lookup. }
    pose proof (Hw _ Hin). pose proof (Hw p ltac:(left)). lia.
Qed.

Lemma ace_to_one_id (l : list PokerCard) :
  (forall c, c ∈ l -> m_point c <> PokerPoint.A) -> ace_to_one <$> l = l.
Proof.
  intros Hl. induction l as [|c l IH]; csimpl; [done|].
  rewrite IH by (intros; apply Hl; by right). f_equal. unfold ace_to_one.
  destruct (Z.eqb_spec (m_point c) PokerPoint.A) as [E|]; [|done].
  by destruct (Hl c ltac:(left)).
Qed.

Lemma ace_to_one_colour l : one_colour l <-> one_colour (ace_to_one <$> l).
Proof.
  assert (forall c, m_color (ace_to_one c) = m_color c) as Hc
    by (intros c; unfold ace_to_one; by case_match).
  unfold one_colour. setoid_rewrite list_elem_of_fmap. split.
  - intros H a b (a' & -> & Ha) (b' & -> & Hb). rewrite !Hc. auto.
  - intros H a b Ha Hb. rewrite <- (Hc a), <- (Hc b). apply H; eauto.
Qed.

Lemma ace_to_one_NoDup l :
  (forall c, c ∈ l -> PokerPoint.P2 <= m_point c) ->
  NoDup (m_point <$> l) -> NoDup (m_point <$> (ace_to_one <$> l)).
Proof.
  intros Hl. rewrite <- list_fmap_compose.
  induction l as [|c l IH]; csimpl; [done|]. rewrite !NoDup_cons. intros [Hc Hn].
  split; [|apply IH; [|done]; intros; apply Hl; by right].
  rewrite list_elem_of_fmap. intros (b & Hb & Hin). apply Hc. apply list_elem_of_fmap.
  exists b. split; [|done]. pose proof (Hl c ltac:(left)). pose proof (Hl b ltac:(by right)).
  revert Hb. unfold ace_to_one, PokerPoint.P2 in *; simpl. repeat case_match; simpl; lia.
Qed.

Lemma ace_to_one_NoDup_inv l :
  NoDup (m_point <$> (ace_to_one <$> l)) -> NoDup (m_point <$> l).
Proof.
  rewrite <- list_fmap_compose.
  induction l as [|c l IH]; csimpl; [done|]. rewrite !NoDup_cons. intros [Hc Hn].
  split; [|by apply IH]. rewrite list_elem_of_fmap. intros (b & Hb & Hin). apply Hc.
  apply list_elem_of_fmap. exists b. split; [|done]. unfold ace_to_one; simpl. by rewrite Hb; case_match.
Qed.

(** Without an ace among the cards both readings of the ace agree. *)
Lemma back_not_ace jp cards back :
  StronglySorted card_le (naturals jp cards) -> last (naturals jp cards) = Some back ->
  m_point back <> PokerPoint.A -> ace_to_one <$> naturals jp cards = naturals jp cards.
Proof.
  intros Hs Hb Hne. apply ace_to_one_id. intros c Hc.
  pose proof (natural_point _ _ _ Hc) as [_ Hlt].
  destruct (naturals jp cards) as [|d l] eqn:E; [done|].
  assert (m_point c <= m_point back).
  { pose proof (sorted_last_point d l Hs c Hc) as Hd.
    rewrite last_cons in Hb. destruct (last l); simplify_eq/=; lia. }
  assert (back ∈ naturals jp cards) as Hbk
    by (rewrite E; eapply list_elem_of_lookup_2; by rewrite <- last_lookup).
  apply natural_point in Hbk. unfold PokerPoint.A, PokerPoint.JOKER1 in *. lia.
Qed.

Lemma gap_scan_None l :
  StronglySorted card_le l -> gap_scan None 0 l = None ->
  ~ (one_colour l /\ NoDup (m_point <$> l)).
Proof.
  destruct l as [|p l]; [done|]. intros Hs Hg [Hc Hn]. simpl in Hg.
  assert (gap_scan (Some p) 0 l =
    Some (0 + m_point (default p (last l)) - m_point p - Z.of_nat (length l))) as E
    by by apply gap_scan_sorted.
  congruence.
Qed.

(** The function never takes [back()] of an empty list. *)
Lemma is_cards_straight_total cards jp : exists b, is_cards_straight cards jp = Ok b.
Proof.
  unfold is_cards_straight. case_match; [by eexists|]. rewrite straight_scan_gap; simpl.
  destruct (gap_scan None 0 (naturals jp cards)) as [need|] eqn:E; csimpl; [|by eexists].
  destruct (Z.leb_spec need (0 + Z.of_nat (length (wilds jp cards)))) as [|Hgt]; [by eexists|].
  destruct (last (naturals jp cards)) as [back|] eqn:El.
  - repeat (case_match || simpl); by eexists.
  - apply last_None in El. rewrite El in E. simpl in E. injection E as <-. lia.
Qed.

(** The verdict of either loop: the gaps are at most the wild cards. *)
Lemma gap_verdict l j (b : bool) :
  StronglySorted card_le l -> 0 <= j -> (l = [] -> 0 < j) ->
  match gap_scan None 0 l with Some k => Ok (k <=? j) | None => Ok false end = Ok b ->
  b = true <-> one_colour l /\ NoDup (m_point <$> l) /\ fits_window l (Z.of_nat (length l) + j).
Proof.
  intros Hs Hj Hnil Hb. rewrite <- gap_scan_window by done.
  destruct (gap_scan None 0 l) as [k|]; injection Hb as <-.
  - rewrite Z.leb_le. split; [by exists k|]. by intros (? & [= <-] & ?).
  - split; [done|]. by intros (? & ? & _).
Qed.

Lemma straight_spec_sorted cards jp b :
  StronglySorted card_le cards -> (forall c, c ∈ cards -> PokerPoint.P2 <= m_point c) ->
  is_cards_straight cards jp = Ok b -> b = true <-> straight_spec cards jp.
Proof.
  intros Hs Hpts. unfold is_cards_straight, straight_spec.
  destruct (Z.ltb_spec (Z.of_nat (length cards)) 3) as [?|Hlen].
  { intros Hb; injection Hb as <-. split; [done|lia]. }
  pose proof (naturals_sorted jp _ Hs) as Hn. pose proof (naturals_wilds_length jp cards) as Hw.
  rewrite straight_scan_gap, Z.add_0_l; simpl.
  assert (forall c, c ∈ naturals jp cards -> PokerPoint.P2 <= m_point c) as Hnp.
  { intros c Hc. apply Hpts. by apply elem_of_naturals in Hc as [_ ?]. }
  set (nats := naturals jp cards) in *. set (j := Z.of_nat (length (wilds jp cards))) in *.
  assert (forall l : list PokerCard, length l = length nats -> l = [] -> 0 < j) as Hnil
    by (intros ? Hl ->; simpl in Hl; lia).
  assert (0 <= j) as Hj by lia.
  replace (Z.of_nat (length cards)) with (Z.of_nat (length nats) + j) in * by lia.
  pose proof (fun b => gap_verdict nats j b Hn Hj (Hnil _ eq_refl)) as Hw1.
  destruct (gap_scan None 0 nats) as [need|] eqn:Eg; simpl.
  2:{ intros Hb; injection Hb as <-. apply gap_scan_None in Eg; [|done]. split; [done|tauto]. }
  specialize (Hw1 _ eq_refl). rewrite Z.leb_le in Hw1.
  destruct (Z.leb_spec need j) as [Hle|Hgt]; [intros Hb; injection Hb as <-; split; [tauto|done]|].
  assert (ace_to_one <$> nats = nats -> false = true <-> 3 <= Z.of_nat (length nats) + j /\
    one_colour nats /\ NoDup (m_point <$> nats) /\
    (fits_window nats (Z.of_nat (length nats) + j) \/
     fits_window (ace_to_one <$> nats) (Z.of_nat (length nats) + j))) as Hsame.
  { intros ->. assert (~ need <= j) by lia. split; [done|tauto]. }
  destruct (Z.eqb_spec jp PokerPoint.A) as [Hjp|Hjp]; simpl.
  { intros Hb; injection Hb as <-. apply Hsame, ace_to_one_id. intros c Hc. apply natural_point in Hc. lia. }
  destruct (last nats) as [back|] eqn:El; simpl; [|done].
  destruct (Z.eqb_spec (m_point back) PokerPoint.A) as [Hback|Hback]; simpl.
  2:{ intros Hb; injection Hb as <-. apply Hsame. by eapply back_not_ace. }
  set (low := ace_to_one <$> nats) in *.
  assert (length low = length nats) as Hll by apply length_fmap.
  intros Hb. eapply gap_verdict in Hb; [|apply sort_cards_sorted|done|
    apply Hnil; by rewrite sort_cards_length].
  rewrite (ace_to_one_colour nats) in Hw1 |- *. rewrite Hb, sort_cards_perm, Hll. fold low in Hw1 |- *.
  pose proof (ace_to_one_NoDup nats Hnp) as Hnd. assert (~ need <= j) by lia.
  split; [|tauto]. intros (Hc & Hd & Hf). split_and!; [lia|done| |by right].
  revert Hd. apply ace_to_one_NoDup_inv.
Qed.

(** C34: On any group of at least deuces, [is_cards_straight] returns, and it
    accepts the sorted group exactly when the cards that are not wild have one
    colour and different points and fit a run as long as the group, the ace
    counting as 14 or as 1. *)
Theorem is_cards_straight_correct cards jp :
  (forall c, c ∈ cards -> PokerPoint.P2 <= m_point c) ->
  exists b, is_cards_straight (sort_cards cards) jp = Ok b /\ (b = true <-> straight_spec cards jp).
Proof.
  intros Hpts. destruct (is_cards_straight_total (sort_cards cards) jp) as [b Hb].
  exists b. split; [done|]. rewrite <- (sort_cards_perm cards).
  eapply straight_spec_sorted; [apply sort_cards_sorted| |done].
  intros c. rewrite sort_cards_perm. apply Hpts.
Qed.

Lemma is_cards_straight_correct_witness :
  is_cards_straight (sort_cards [spade 14; mkCard 0 15; spade 3]) 7 = Ok true /\
  exists b, is_cards_straight (sort_cards [spade 14; mkCard 0 15; spade 3]) 7 = Ok b /\
            (b = true <-> straight_spec [spade 14; mkCard 0 15; spade 3] 7).
Proof.
  split; [vm_compute; reflexivity|]. apply is_cards_straight_correct.
  apply Forall_forall. refine (bool_decide_eq_true_1 _ _). vm_compute. reflexivity.
Defined.

(** ** Three of a kind *)

Lemma naturals_cons_joker jp c l : is_joker c jp = true -> naturals jp (c :: l) = naturals jp l.
Proof. intros Hc. unfold naturals. rewrite filter_cons_False; [done|congruence]. Qed.

Lemma naturals_cons jp c l : is_joker c jp = false -> naturals jp (c :: l) = c :: naturals jp l.
Proof. intros Hc. unfold naturals. by rewrite filter_cons_True. Qed.

Lemma kind_scan_count jp last f n l k :
  kind_scan jp last f n l = Some k -> k = n + Z.of_nat (length (naturals jp l)).
Proof.
  revert last f n; induction l as [|c l IH]; intros last f n; simpl.
  { intros [= <-]. simpl. lia. }
  destruct (is_joker c jp) eqn:Ec.
  - rewrite naturals_cons_joker by done. apply IH.
  - rewrite naturals_cons by done. case_match; [done|]. intros Hk. apply IH in Hk. simpl. lia.
Qed.

(** A set is accepted in any order. *)
Lemma kind_scan_complete jp last f n l :
  (forall a b, a ∈ naturals jp l -> b ∈ naturals jp l -> m_point a = m_point b) ->
  NoDup (m_color <$> naturals jp l) ->
  (f = false -> forall a, a ∈ naturals jp l -> m_point a = m_point last /\ m_color a <> m_color last) ->
  is_Some (kind_scan jp last f n l).
Proof.
  revert last f n; induction l as [|c l IH]; intros last f n Hp Hc Hl; simpl; [by eexists|].
  destruct (is_joker c jp) eqn:Ec.
  - rewrite naturals_cons_joker in Hp, Hc, Hl by done. by apply IH.
  - rewrite naturals_cons in Hp, Hc, Hl by done. apply NoDup_cons in Hc as [Hc Hn].
    replace (negb f && _) with false.
    + apply IH; [intros; apply Hp; by right|done|]. intros _ a Ha. split; [apply Hp; [by right|left]|].
      intros E. apply Hc. apply list_elem_of_fmap. by exists a.
    + destruct f; [done|]. destruct (Hl eq_refl c ltac:(left)) as [-> Hne]. simpl.
      rewrite Z.eqb_refl. symmetry. by apply Z.eqb_neq.
Qed.

(** After a natural card, a sorted rest that is accepted repeats its point in
    ascending colours, or a wild card hides a different point. *)
Lemma kind_scan_sound jp p n l k :
  StronglySorted card_le (p :: l) -> is_joker p jp = false ->
  kind_scan jp p false n l = Some k ->
  (Forall (fun a => m_point a = m_point p /\ m_color p < m_color a) (naturals jp l) /\
   NoDup (m_color <$> naturals jp l)) \/ wild_between (p :: l) jp.
Proof.
  revert p n; induction l as [|c l IH]; intros p n Hs Hp Hk.
  { left. split; constructor. }
  inversion Hs as [|? ? Hs' Hpl]; subst. inversion Hpl as [|? ? Hpc Hpl']; subst.
  simpl in Hk. destruct (is_joker c jp) eqn:Ec.
  - rewrite naturals_cons_joker by done.
    destruct (naturals jp l) as [|b nats] eqn:En; [left; split; constructor|].
    assert (b ∈ naturals jp l) as Hb by (rewrite En; left).
    pose proof (natural_point _ _ _ Hb) as [Hb1 Hb2]. apply elem_of_naturals in Hb as [Hbj Hb].
    inversion Hs' as [|? ? _ Hcl]; subst. rewrite Forall_forall in Hcl. specialize (Hcl b Hb).
    right. pose proof Hp as Hp0. unfold is_joker, card_le in Hp0, Ec, Hpc, Hcl.
    exists p, c, b. rewrite !elem_of_naturals.
    split_and!; [done|left|done|by right; right|right; left|lia..].
  - rewrite naturals_cons by done. case_match eqn:E; [done|].
    assert (m_point c = m_point p /\ m_color p < m_color c) as [Hpt Hcol].
    { simpl in E. apply orb_false_iff in E as [? ?]. unfold card_le in Hpc. lia. }
    destruct (IH c _ Hs' Ec Hk) as [[Hf Hn]|(a & w & b & Ha & Hb & Hw & ?)].
    + left. split.
      * constructor; [done|]. eapply Forall_impl; [exact Hf|]. simpl. intros a [? ?]. lia.
      * csimpl. constructor; [|done]. rewrite list_elem_of_fmap. intros (a & Ha & Hin).
        rewrite Forall_forall in Hf. specialize (Hf a Hin). lia.
    + right. exists a, w, b. rewrite !elem_of_naturals in *.
      destruct Ha, Hb. split_and!; try tauto; by right.
Qed.

(** The same from the first card, which may be wild. *)
Lemma kind_scan_first_sound jp c l f n k :
  StronglySorted card_le (c :: l) -> f = is_joker c jp -> kind_scan jp c f n l = Some k ->
  ((forall a b, a ∈ naturals jp (c :: l) -> b ∈ naturals jp (c :: l) -> m_point a = m_point b) /\
   NoDup (m_color <$> naturals jp (c :: l))) \/ wild_between (c :: l) jp.
Proof.
  revert c f n; induction l as [|d l IH]; intros c f n Hs -> Hk.
  all: destruct (is_joker c jp) eqn:Ec; [rewrite naturals_cons_joker by done|].
  - left. split; [intros a b Ha; by apply not_elem_of_nil in Ha|constructor].
  - left. rewrite naturals_cons by done. split; [|apply NoDup_singleton].
    intros a b ->%list_elem_of_singleton ->%list_elem_of_singleton. done.
  - inversion Hs as [|? ? Hs' _]; subst. simpl in Hk.
    assert (exists n', kind_scan jp d (is_joker d jp) n' l = Some k) as [n' Hk']
      by (destruct (is_joker d jp); by eexists).
    destruct (IH d _ n' Hs' eq_refl Hk') as [?|(a & w & b & Ha & Hb & Hw & ?)]; [by left|].
    right. exists a, w, b. rewrite !(elem_of_naturals _ (c :: _)), !elem_of_naturals in *.
    destruct Ha, Hb. split_and!; try tauto; by right.
  - apply kind_scan_sound in Hk as [[Hf Hn]|Hw]; [left|by right|done|done].
    rewrite naturals_cons by done. rewrite Forall_forall in Hf. split.
    + intros a b Ha Hb. transitivity (m_point c); [|symmetry];
        apply elem_of_cons in Ha, Hb; destruct Ha as [-> |Ha], Hb as [-> |Hb]; (done || by apply Hf).
    + csimpl. constructor; [|done]. rewrite list_elem_of_fmap. intros (a & Ha & Hin).
      specialize (Hf a Hin). lia.
Qed.

#[export] Instance kind_spec_perm : Proper ((≡ₚ) ==> (=) ==> iff) kind_spec.
Proof. intros l l' Hl jp ? <-. unfold kind_spec. by setoid_rewrite Hl. Qed.

#[export] Instance wild_between_perm : Proper ((≡ₚ) ==> (=) ==> iff) wild_between.
Proof. intros l l' Hl jp ? <-. unfold wild_between. by setoid_rewrite Hl. Qed.

Lemma three_of_kind_complete cards jp :
  kind_spec cards jp -> is_cards_three_of_kind cards jp = true.
Proof.
  intros (Hlen & Hn & Hp & Hc). unfold is_cards_three_of_kind.
  replace (_ || _) with false by lia. destruct cards as [|c l]; [simpl in Hlen; lia|].
  destruct (is_joker c jp) eqn:Ec.
  - rewrite naturals_cons_joker in Hn, Hp, Hc by done.
    destruct (kind_scan_complete jp c true 0 l) as [k Hk]; [done..|].
    rewrite Hk. apply kind_scan_count in Hk. lia.
  - rewrite naturals_cons in Hn, Hp, Hc by done. apply NoDup_cons in Hc as [Hc Hd].
    destruct (kind_scan_complete jp c false 1 l) as [k Hk]; [|done| |].
    + intros a b Ha Hb. apply Hp; by right.
    + intros _ a Ha. split; [apply Hp; [by right|left]|].
      intros E. apply Hc. apply list_elem_of_fmap. by exists a.
    + rewrite Hk. apply kind_scan_count in Hk. simpl in Hn. lia.
Qed.

Lemma three_of_kind_sound cards jp :
  StronglySorted card_le cards -> is_cards_three_of_kind cards jp = true ->
  kind_spec cards jp \/ wild_between cards jp.
Proof.
  intros Hs. unfold is_cards_three_of_kind. case_match eqn:Hlen; [done|].
  destruct cards as [|c l]; [done|]. destruct (kind_scan _ _ _ _ _) as [k|] eqn:Hk; [|done].
  intros Hge. pose proof (kind_scan_count _ _ _ _ _ _ Hk) as Hcnt.
  destruct (kind_scan_first_sound _ _ _ _ _ _ Hs eq_refl Hk) as [[Hp Hd]|Hw]; [left|by right].
  assert (2 <= Z.of_nat (length (naturals jp (c :: l)))).
  { destruct (is_joker c jp) eqn:Ec;
      [rewrite naturals_cons_joker by done|rewrite naturals_cons by done; simpl]; lia. }
  split_and!; [lia|lia|done..].
Qed.

(** [is_cards_three_of_kind] accepts every three or four of a kind, wild
    cards included; and what it accepts, sorted, is one, unless a wild card of
    the joker point sorts between two cards that are not wild. *)
Theorem is_cards_three_of_kind_correct cards jp :
  (kind_spec cards jp -> is_cards_three_of_kind (sort_cards cards) jp = true) /\
  (is_cards_three_of_kind (sort_cards cards) jp = true ->
     kind_spec cards jp \/ wild_between cards jp).
Proof.
  pose proof (sort_cards_perm cards) as Hp. split.
  - rewrite <- Hp at 1. apply three_of_kind_complete.
  - intros Hk. apply three_of_kind_sound in Hk; [|apply sort_cards_sorted]. by rewrite Hp in Hk.
Qed.

(** The exception is real: a wild five between a four and a six resets the
    comparison with the card before it, so the four and the six, which have
    different points, pass as a set. *)
Theorem three_of_kind_wild_gap :
  let group := [mkCard PokerColor.spades 4; mkCard PokerColor.hearts 5; mkCard PokerColor.clubs 6] in
  is_cards_three_of_kind (sort_cards group) 5 = true /\ ~ kind_spec group 5.
Proof.
  intros group. split; [vm_compute; reflexivity|]. intros (_ & _ & Hp & _).
  assert (naturals 5 group = [mkCard PokerColor.spades 4; mkCard PokerColor.clubs 6]) as E
    by reflexivity.
  rewrite E in Hp.
  discriminate (Hp (mkCard PokerColor.spades 4) (mkCard PokerColor.clubs 6) ltac:(left)
                   ltac:(right; left)).
Qed.

(** ** Pure straights *)

(** Consecutive points of one colour, without printed jokers. *)
Fixpoint run_from (c : PokerCard) (l : list PokerCard) : Prop :=
  match l with
  | [] => True
  | d :: l' => m_color d = m_color c /\ m_point d = m_point c + 1 /\
               m_point d < PokerPoint.JOKER1 /\ run_from d l'
  end.

(** A run of deuces and up, an ace of the same colour that does not continue
    it, and anything after the ace. *)
Definition ace_low_run (c : PokerCard) (l : list PokerCard) : Prop :=
  exists l1 a l2, l = l1 ++ a :: l2 /\ run_from c l1 /\ m_point c = PokerPoint.P2 /\
    m_color a = m_color c /\ m_point a = PokerPoint.A /\
    m_point c + Z.of_nat (length l1) + 1 <> PokerPoint.A.

Lemma run_from_point c l :
  run_from c l -> forall d, d ∈ c :: l -> m_color d = m_color c /\
    m_point c <= m_point d <= m_point c + Z.of_nat (length l).
Proof.
  revert c; induction l as [|e l IH]; intros c Hr d Hd.
  - apply list_elem_of_singleton in Hd as ->. simpl. lia.
  - simpl in Hr. destruct Hr as (Hc & Hp & _ & Hr). apply elem_of_cons in Hd as [-> |Hd].
    + simpl. lia.
    + destruct (IH e Hr d Hd) as [E ?]. rewrite E. split; [done|]. simpl. lia.
Qed.

(** The scan started at [last], with [card_first] below it. *)
Lemma pure_scan_iff f last l :
  m_point last < PokerPoint.JOKER1 ->
  pure_straight_scan f last l = true <->
    run_from last l \/
    exists l1 a l2, l = l1 ++ a :: l2 /\ run_from last l1 /\ m_point f = PokerPoint.P2 /\
      m_color a = m_color last /\ m_point a = PokerPoint.A /\
      m_point last + Z.of_nat (length l1) + 1 <> PokerPoint.A.
Proof.
  revert last; induction l as [|d l IH]; intros last Hlast; simpl.
  { split; [by left|done]. }
  destruct (Z.eqb_spec (m_color last) (m_color d)) as [Hc|Hc]; simpl.
  2:{ split; [done|]. intros [(? & _)|([|e l1] & a & l2 & E & Hr & _ & Ha & _)]; [congruence|..];
      injection E as -> E; [congruence|]. destruct Hr; congruence. }
  replace (PokerPoint.JOKER1 <=? m_point last) with false by lia. simpl.
  destruct (Z.leb_spec PokerPoint.JOKER1 (m_point d)) as [Hj|Hj].
  { split; [done|]. intros [(_ & _ & ? & _)|([|e l1] & a & l2 & E & Hr & _ & _ & Ha & _)]; [lia|..];
      injection E as -> E; [unfold PokerPoint.A, PokerPoint.JOKER1 in *; lia|].
    destruct Hr as (_ & _ & ? & _). lia. }
  destruct (Z.eqb_spec (m_point last + 1) (m_point d)) as [Hp|Hp]; simpl.
  - rewrite IH by done. split.
    + intros [Hr|(l1 & a & l2 & -> & Hr & Hf & Ha & Hap & Hn)]; [left; split_and!; [done..]|right].
      exists (d :: l1), a, l2. split_and!; [done|by split_and!|done|congruence|done|simpl in *; lia].
    + intros [(_ & _ & _ & Hr)|([|e l1] & a & l2 & E & Hr & Hf & Ha & Hap & Hn)]; [by left|..];
        injection E as -> E; [simpl in *; lia|right]. destruct Hr as (? & ? & ? & Hr).
      exists l1, a, l2. split_and!; [done|done|done|congruence|done|simpl in *; lia].
  - split.
    + destruct (Z.eqb_spec (m_point d) PokerPoint.A) as [Ha|]; simpl; [|done]. intros Hf.
      right. exists [], d, l. split_and!; [done|done|by apply Z.eqb_eq|congruence|done|simpl; lia].
    + intros [(_ & ? & _)|([|e l1] & a & l2 & E & Hr & Hf & Ha & Hap & Hn)]; [lia|..];
        injection E as -> E.
      * rewrite Hap, Z.eqb_refl. simpl. by apply Z.eqb_eq.
      * destruct Hr as (_ & ? & _). lia.
Qed.

Lemma pure_straight_iff c l :
  is_cards_pure_straight (c :: l) = true <->
  (2 <= length l)%nat /\ m_point c < PokerPoint.JOKER1 /\ (run_from c l \/ ace_low_run c l).
Proof.
  unfold is_cards_pure_straight. cbn [length].
  destruct (Z.ltb_spec (Z.of_nat (S (length l))) 3) as [?|Hl]; [split; [done|lia]|].
  destruct (Z.ltb_spec (m_point c) PokerPoint.JOKER1) as [Hc|Hc].
  - rewrite pure_scan_iff by done. unfold ace_low_run. split; [|tauto].
    intros; split_and!; [lia|done|done].
  - destruct l as [|d l]; [simpl in Hl; lia|]. simpl.
    replace (PokerPoint.JOKER1 <=? m_point c) with true by lia. rewrite orb_true_r. simpl.
    split; [done|lia].
Qed.

Lemma run_from_snoc c l a :
  run_from c l -> m_color a = m_color c -> m_point a = m_point c + Z.of_nat (length l) + 1 ->
  m_point a < PokerPoint.JOKER1 -> run_from c (l ++ [a]).
Proof.
  revert c; induction l as [|d l IH]; intros c; simpl.
  - intros _ ? ? ?. split_and!; [done|lia|done|done].
  - intros (Hc & Hp & ? & Hr) ? ? ?. split_and!; [done..|]. apply IH; [done|congruence|lia|done].
Qed.

(** Different points of a sorted list spread over at least its length. *)
Lemma sorted_span c l :
  StronglySorted card_le (c :: l) -> NoDup (m_point <$> c :: l) ->
  exists z, z ∈ c :: l /\ m_point c + Z.of_nat (length l) <= m_point z.
Proof.
  revert c; induction l as [|d l IH]; intros c Hs Hn.
  - exists c. split; [left|simpl; lia].
  - inversion Hs as [|? ? Hs' Hc]; subst. inversion Hc as [|? ? Hcd _]; subst.
    csimpl in Hn. apply NoDup_cons in Hn as [Hnc Hn].
    destruct (IH d Hs' Hn) as (z & Hz & Hle).
    exists z. split; [by right|].
    assert (m_point c <> m_point d) as Hne by (intros E; apply Hnc; rewrite E; left).
    unfold card_le in Hcd. simpl. lia.
Qed.

Lemma window_run c l :
  StronglySorted card_le (c :: l) -> NoDup (m_point <$> c :: l) -> one_colour (c :: l) ->
  (forall d, d ∈ c :: l -> m_point d < PokerPoint.JOKER1) ->
  (forall d, d ∈ c :: l -> m_point d <= m_point c + Z.of_nat (length l)) -> run_from c l.
Proof.
  revert c; induction l as [|d l IH]; intros c Hs Hn Hc Hj Hw; [done|].
  inversion Hs as [|? ? Hs' Hcl]; subst. inversion Hcl as [|? ? Hcd _]; subst.
  csimpl in Hn. apply NoDup_cons in Hn as [Hnc Hn].
  destruct (sorted_span d l Hs' Hn) as (z & Hz & Hle).
  assert (m_point c <> m_point d) as Hne by (intros E; apply Hnc; rewrite E; left).
  pose proof (Hw z ltac:(by right)) as Hwz. simpl in Hwz. unfold card_le in Hcd.
  assert (m_point d = m_point c + 1) as Hd by lia.
  split_and!; [apply Hc; [right; left|left]|done|apply Hj; right; left|].
  apply IH; [done|done|..].
  - intros a b Ha Hb. apply Hc; by right.
  - intros e He. apply Hj. by right.
  - intros e He. specialize (Hw e ltac:(by right)). simpl in Hw. lia.
Qed.

(** The cards of an ordinary group: no printed joker and no point twice. *)
Definition plain_group (cards : list PokerCard) : Prop :=
  (forall c, c ∈ cards -> PokerPoint.P2 <= m_point c < PokerPoint.JOKER1) /\
  NoDup (m_point <$> cards).

#[export] Instance plain_group_perm : Proper ((≡ₚ) ==> iff) plain_group.
Proof. intros l l' Hl. unfold plain_group. by setoid_rewrite Hl. Qed.

Lemma plain_naturals cards : plain_group cards -> naturals 0 cards = cards.
Proof.
  intros [Hp _]. unfold naturals. induction cards as [|c cards IH]; csimpl; [done|].
  rewrite filter_cons_True.
  - rewrite IH; [done|]. intros; apply Hp; by right.
  - specialize (Hp c ltac:(left)). unfold is_joker, PokerPoint.P2 in *. lia.
Qed.

Lemma plain_group_app l1 a l2 :
  StronglySorted card_le (l1 ++ a :: l2) -> plain_group (l1 ++ a :: l2) ->
  m_point a = PokerPoint.A -> l2 = [].
Proof.
  intros Hs [Hp Hn] Ha. destruct l2 as [|b l2]; [done|]. exfalso.
  apply StronglySorted_app in Hs as (_ & _ & Hs). inversion Hs as [|? ? _ Hab]; subst.
  inversion Hab as [|? ? Hab' _]; subst.
  pose proof (Hp b ltac:(set_solver)) as Hb. unfold card_le in Hab'.
  rewrite fmap_app in Hn. apply NoDup_app in Hn as (_ & _ & Hn). csimpl in Hn.
  apply NoDup_cons in Hn as [Hn _]. apply Hn.
  replace (m_point a) with (m_point b); [left|]. unfold PokerPoint.A, PokerPoint.JOKER1 in *. lia.
Qed.

Lemma pure_straight_sound c l :
  StronglySorted card_le (c :: l) -> plain_group (c :: l) ->
  is_cards_pure_straight (c :: l) = true -> straight_spec (c :: l) 0.
Proof.
  intros Hs Hpl. rewrite pure_straight_iff. intros (Hl & Hc & Hrun). unfold straight_spec.
  rewrite plain_naturals by done. destruct Hpl as [Hp Hn]. destruct Hrun as [Hr|Hr].
  - pose proof (run_from_point c l Hr) as Hrp. cbn [length]. split_and!; [lia| |done|left].
    + apply one_colour_cons, Forall_forall. intros b Hb. apply Hrp. by right.
    + exists (m_point c). intros b Hb. apply Hrp in Hb as [_ ?]. lia.
  - destruct Hr as (l1 & a & l2 & -> & Hr & Hf & Ha & Hap & _).
    assert (l2 = []) as -> by exact (plain_group_app (c :: l1) a l2 Hs (conj Hp Hn) Hap).
    pose proof (run_from_point c l1 Hr) as Hrp. cbn [length] in *. rewrite length_app in *.
    split_and!; [lia| |done|right].
    + apply one_colour_cons, Forall_forall. intros b [Hb|Hb%list_elem_of_singleton]%elem_of_app;
        [apply Hrp; by right|by subst b].
    + exists 1. intros b' (b & -> & Hb)%list_elem_of_fmap.
      assert (b = a \/ b ∈ c :: l1) as [-> |Hb'] by set_solver; unfold ace_to_one.
      * rewrite Hap. simpl. lia.
      * apply Hrp in Hb' as [_ ?]. unfold PokerPoint.P2 in *. case_match; simpl; lia.
Qed.

Lemma pure_straight_complete c l :
  StronglySorted card_le (c :: l) -> plain_group (c :: l) ->
  straight_spec (c :: l) 0 -> is_cards_pure_straight (c :: l) = true.
Proof.
  intros Hs Hpl. rewrite pure_straight_iff. unfold straight_spec.
  pose proof (plain_naturals _ Hpl) as Hnat. rewrite Hnat.
  destruct Hpl as [Hp Hn]. intros (Hl & Hc & _ & Hw). cbn [length] in Hl.
  pose proof (Hp c ltac:(left)) as Hpc.
  assert (forall d, d ∈ c :: l -> m_point d < PokerPoint.JOKER1) as Hj by (intros d Hd; by apply Hp).
  assert (fits_window (c :: l) (Z.of_nat (length (c :: l))) -> run_from c l) as Hhigh.
  { intros [s Hs']. apply window_run; [done..|]. intros d Hd. pose proof (Hs' d Hd) as H1.
    pose proof (Hs' c ltac:(left)). cbn [length] in H1. lia. }
  split_and!; [lia|lia|]. destruct Hw as [Hw|Hw]; [left; auto|].
  destruct l as [|a l1 _] using rev_ind; [simpl in Hl; lia|].
  destruct (Z.eqb_spec (m_point a) PokerPoint.A) as [Ha|Ha].
  2:{ left. apply Hhigh. rewrite <- Hnat in Hs. rewrite <- Hnat, (back_not_ace 0 _ a) in Hw by
        (done || rewrite Hnat, app_comm_cons, last_snoc; done). by rewrite Hnat in Hw. }
  destruct Hw as [s Hw]. rewrite app_comm_cons in *. rewrite length_app in *. cbn [length] in *.
  assert (s <= 1 < s + (Z.of_nat (S (length l1) + 1))) as Hs1.
  { assert (ace_to_one a ∈ ace_to_one <$> (c :: l1) ++ [a]) as Hin
      by (apply list_elem_of_fmap; exists a; set_solver).
    apply Hw in Hin. unfold ace_to_one in Hin. rewrite Ha in Hin. exact Hin. }
  pose proof Hn as Hn'. rewrite fmap_app in Hn'. apply NoDup_app in Hn' as (Hn1 & Hna & _).
  assert (forall d, d ∈ c :: l1 -> 2 <= m_point d <= Z.of_nat (length l1) + 2) as Hlow.
  { intros d Hd. pose proof (Hp d ltac:(set_solver)) as [? _].
    assert (m_point d <> m_point a) as Hne.
    { intros E. apply (Hna (m_point d)); [apply list_elem_of_fmap; by exists d|].
      rewrite E. set_solver. }
    specialize (Hw (ace_to_one d) ltac:(apply list_elem_of_fmap; exists d; set_solver)).
    unfold ace_to_one in Hw. rewrite (proj2 (Z.eqb_neq _ _)) in Hw by congruence.
    unfold PokerPoint.P2 in *. lia. }
  apply StronglySorted_app_1_l in Hs as Hs'.
  destruct (sorted_span c l1 Hs' Hn1) as (z & Hz & Hle).
  pose proof (Hlow z Hz). pose proof (Hlow c ltac:(left)).
  assert (run_from c l1) as Hr.
  { apply window_run; [done..| | |].
    - intros x y Hx Hy. apply Hc; set_solver.
    - intros d Hd. apply Hj. set_solver.
    - intros d Hd. specialize (Hlow d Hd). lia. }
  assert (m_color a = m_color c) by (apply Hc; set_solver).
  destruct (decide (m_point c + Z.of_nat (length l1) + 1 = PokerPoint.A)).
  - left. apply run_from_snoc; [done..|lia|]. rewrite Ha. done.
  - right. exists l1, a, []. unfold PokerPoint.P2. split_and!; [done..|lia|done|done|done].
Qed.

(** On a group without printed jokers and repeated points, sorted, the pure
    straights are exactly the straights in which nothing is wild, the ace
    counting as 14 or as 1. *)
Theorem is_cards_pure_straight_correct cards :
  plain_group cards ->
  is_cards_pure_straight (sort_cards cards) = true <-> straight_spec cards 0.
Proof.
  intros Hp. pose proof (sort_cards_perm cards) as Hc. pose proof (sort_cards_sorted cards) as Hs.
  rewrite <- Hc in Hp. assert (straight_spec (sort_cards cards) 0 <-> straight_spec cards 0) as <-
    by by rewrite Hc.
  destruct (sort_cards cards) as [|c l].
  - split; [done|]. intros [Hl _]. simpl in Hl. lia.
  - split; [by apply pure_straight_sound|by apply pure_straight_complete].
Qed.

Lemma is_cards_pure_straight_correct_witness :
  is_cards_pure_straight (sort_cards [spade 14; spade 2; spade 3]) = true /\
  (is_cards_pure_straight (sort_cards [spade 14; spade 2; spade 3]) = true <->
     straight_spec [spade 14; spade 2; spade 3] 0).
Proof.
  split; [vm_compute; reflexivity|]. apply is_cards_pure_straight_correct. split.
  - apply Forall_forall. refine (bool_decide_eq_true_1 _ _). vm_compute. reflexivity.
  - refine (bool_decide_eq_true_1 _ _). vm_compute. reflexivity.
Defined.

(** What [is_cards_pure_straight] accepts in general: three cards or more
    that start below the jokers and either run on in one colour, or run from a
    deuce to an ace of that colour that closes the run from below, whatever
    cards come after this ace: the loop returns as soon as it meets the ace. *)
Theorem is_cards_pure_straight_accepts c l :
  is_cards_pure_straight (c :: l) = true <->
  (2 <= length l)%nat /\ m_point c < PokerPoint.JOKER1 /\ (run_from c l \/ ace_low_run c l).
Proof. apply pure_straight_iff. Qed.

(** So a printed joker after the ace passes: deuce, ace and joker of a
    sorted group count as a pure straight, although the joker is a wild card. *)
Theorem pure_straight_with_joker :
  let group := [spade 2; spade 14; mkCard 0 PokerPoint.JOKER1] in
  is_cards_pure_straight (sort_cards group) = true /\
  Exists (fun c => is_joker c 0 = true) group.
Proof. split; [vm_compute; reflexivity|]. do 2 right. left. reflexivity. Qed.
