(* ===== verification/Declare.v ===== *)
(** * Declarations

    Models [is_groups_declare] and [check_lose_declare] of
    gamesvr/Combination.cpp: whether the groups a player lays down win the
    round, and what the groups of a losing player cost.  [declare_spec] and
    [lose_spec] say what they check; the theorems say that both always return
    and decide exactly that, how the two relate on a winning hand, and where
    they disagree. *)
From Stdlib Require Import ZArith Lia.
From stdpp Require Import base tactics numbers sorting option sets list.
From S2P Require Import Prelude Cards Straight.

(** ** The code *)

(** The loop of [is_groups_declare] with its two counters; [None] is
    [return false]. *)
Fixpoint groups_declare_loop (joker_point pure_straight_count straight_count : Z)
    (groups : list CardGroup) : outcome (option (Z * Z)) :=
  match groups with
  | [] => mret (Some (pure_straight_count, straight_count))
  | it :: groups' =>
      if m_type it =? GroupType.GROUP_INVALID then mret None
      else
        let cards := sort_cards (m_cards it) in
        if m_type it =? GroupType.GROUP_STAIGHT then
          ok ← is_cards_straight cards joker_point;
          if (ok : bool) then
            groups_declare_loop joker_point
              (if is_cards_pure_straight cards then pure_straight_count + 1 else pure_straight_count)
              (straight_count + 1) groups'
          else mret None
        else if m_type it =? GroupType.GROUP_THREE_KIND then
          if negb (is_cards_three_of_kind cards joker_point) then mret None
          else groups_declare_loop joker_point pure_straight_count straight_count groups'
        else groups_declare_loop joker_point pure_straight_count straight_count groups'
  end.

Definition is_groups_declare (groups : list CardGroup) (joker_point : Z) : outcome bool :=
  r ← groups_declare_loop joker_point 0 0 groups;
  match r with
  | None => mret false
  | Some (pure_straight_count, straight_count) =>
      mret (negb ((pure_straight_count <? 1) || (straight_count <? 2)))
  end.

(** The first loop of [check_lose_declare]: the counters. *)
Fixpoint lose_count_loop (joker_point pure_straight_count straight_count : Z)
    (groups : list CardGroup) : outcome (option (Z * Z)) :=
  match groups with
  | [] => mret (Some (pure_straight_count, straight_count))
  | it :: groups' =>
      let cards := sort_cards (m_cards it) in
      if m_type it =? GroupType.GROUP_STAIGHT then
        ok ← is_cards_straight cards joker_point;
        if (ok : bool) then
          lose_count_loop joker_point
            (if is_cards_pure_straight cards then pure_straight_count + 1 else pure_straight_count)
            (straight_count + 1) groups'
        else mret None
      else lose_count_loop joker_point pure_straight_count straight_count groups'
  end.

(** The second loop; [score] is written through the reference also when the
    function returns false. *)
Fixpoint lose_score_loop (joker_point pure_straight_count straight_count score : Z)
    (groups : list CardGroup) : bool * Z :=
  match groups with
  | [] => (true, score)
  | it :: groups' =>
      let cards := sort_cards (m_cards it) in
      if m_type it =? GroupType.GROUP_INVALID then
        lose_score_loop joker_point pure_straight_count straight_count
          (score + caculate_card_score cards joker_point) groups'
      else if m_type it =? GroupType.GROUP_STAIGHT then
        if pure_straight_count <? 1 then (false, score)
        else lose_score_loop joker_point pure_straight_count straight_count score groups'
      else if m_type it =? GroupType.GROUP_THREE_KIND then
        if (pure_straight_count <? 1) || (straight_count <? 2) then (false, score)
        else if negb (is_cards_three_of_kind cards joker_point) then (false, score)
        else lose_score_loop joker_point pure_straight_count straight_count score groups'
      else (false, score)
  end.

Definition check_lose_declare (groups : list CardGroup) (joker_point : Z) : outcome (bool * Z) :=
  r ← lose_count_loop joker_point 0 0 groups;
  match r with
  | None => mret (false, 0)
  | Some (pure_straight_count, straight_count) =>
      mret (lose_score_loop joker_point pure_straight_count straight_count 0 groups)
  end.

(** ** What is checked *)

Definition straight_group (jp : Z) (g : CardGroup) : Prop :=
  m_type g = GroupType.GROUP_STAIGHT /\ straight_spec (m_cards g) jp.

Definition kind_group (jp : Z) (g : CardGroup) : Prop :=
  m_type g = GroupType.GROUP_THREE_KIND /\ is_cards_three_of_kind (sort_cards (m_cards g)) jp = true.

(** The straights of a declaration, and those among them that are pure. *)
Definition straights (groups : list CardGroup) : list CardGroup :=
  filter (fun g => m_type g = GroupType.GROUP_STAIGHT) groups.

Definition pure_straights (groups : list CardGroup) : list CardGroup :=
  filter (fun g => is_cards_pure_straight (sort_cards (m_cards g)) = true) (straights groups).

Definition card_points (g : CardGroup) : Prop :=
  forall c, c ∈ m_cards g -> PokerPoint.P2 <= m_point c.

(** A winning declaration: no group of loose cards, every straight and set is
    one, and there are two straights, one of them pure. *)
Definition declare_spec (jp : Z) (groups : list CardGroup) : Prop :=
  Forall (fun g => m_type g <> GroupType.GROUP_INVALID) groups /\
  Forall (fun g => m_type g = GroupType.GROUP_STAIGHT -> straight_group jp g) groups /\
  Forall (fun g => m_type g = GroupType.GROUP_THREE_KIND -> kind_group jp g) groups /\
  (2 <= length (straights groups))%nat /\ (1 <= length (pure_straights groups))%nat.

(** A losing declaration that counts: straights need a pure one among them,
    and sets need two straights as well. *)
Definition lose_spec (jp : Z) (groups : list CardGroup) : Prop :=
  Forall (fun g => m_type g = GroupType.GROUP_INVALID \/ straight_group jp g \/ kind_group jp g) groups /\
  (Exists (straight_group jp) groups -> (1 <= length (pure_straights groups))%nat) /\
  (Exists (kind_group jp) groups ->
     (1 <= length (pure_straights groups))%nat /\ (2 <= length (straights groups))%nat).

(** The points of the loose cards. *)
Definition loose_score (jp : Z) (groups : list CardGroup) : Z :=
  foldr (fun g s => (if m_type g =? GroupType.GROUP_INVALID
                     then caculate_card_score (m_cards g) jp else 0) + s) 0 groups.

(** ** Lemmas *)

Lemma straight_verdict jp g :
  card_points g -> m_type g = GroupType.GROUP_STAIGHT ->
  exists b, is_cards_straight (sort_cards (m_cards g)) jp = Ok b /\ (b = true <-> straight_group jp g).
Proof.
  intros Hp Ht. destruct (is_cards_straight_total (sort_cards (m_cards g)) jp) as [b Hb].
  exists b. split; [done|]. unfold straight_group. rewrite <- (sort_cards_perm (m_cards g)) at 1.
  apply straight_spec_sorted in Hb; [tauto|apply sort_cards_sorted|].
  intros c. rewrite sort_cards_perm. apply Hp.
Qed.

Lemma straights_cons g groups :
  straights (g :: groups) =
    if decide (m_type g = GroupType.GROUP_STAIGHT) then g :: straights groups else straights groups.
Proof. unfold straights. by rewrite filter_cons. Qed.

Lemma pure_straights_cons g groups :
  pure_straights (g :: groups) =
    if decide (m_type g = GroupType.GROUP_STAIGHT) then
      if is_cards_pure_straight (sort_cards (m_cards g)) then g :: pure_straights groups
      else pure_straights groups
    else pure_straights groups.
Proof.
  unfold pure_straights. rewrite straights_cons. case_decide; [|done]. rewrite filter_cons.
  case_decide as E; [by rewrite E|]. by apply not_true_is_false in E as ->.
Qed.

(** The conditions on one group, the counters apart. *)
Definition declare_group (jp : Z) (g : CardGroup) : Prop :=
  m_type g <> GroupType.GROUP_INVALID /\
  (m_type g = GroupType.GROUP_STAIGHT -> straight_group jp g) /\
  (m_type g = GroupType.GROUP_THREE_KIND -> kind_group jp g).

(** What a counting loop that checks [P] on every group returns. *)
Definition counted (P : CardGroup -> Prop) (p s : Z) (groups : list CardGroup)
    (r : option (Z * Z)) : Prop :=
  match r with
  | None => ~ Forall P groups
  | Some (p', s') => Forall P groups /\
      p' = p + Z.of_nat (length (pure_straights groups)) /\
      s' = s + Z.of_nat (length (straights groups))
  end.

Lemma counted_nil P p s : counted P p s [] (Some (p, s)).
Proof. split_and!; [constructor|simpl; lia|simpl; lia]. Qed.

Lemma counted_reject (P : CardGroup -> Prop) p s g groups :
  ~ P g -> counted P p s (g :: groups) None.
Proof. unfold counted. rewrite Forall_cons. tauto. Qed.

Lemma counted_straight (P : CardGroup -> Prop) p s g groups r :
  m_type g = GroupType.GROUP_STAIGHT -> P g ->
  counted P (if is_cards_pure_straight (sort_cards (m_cards g)) then p + 1 else p) (s + 1) groups r ->
  counted P p s (g :: groups) r.
Proof.
  unfold counted. intros Ht Hg.
  rewrite straights_cons, pure_straights_cons, !decide_True by done.
  destruct r as [[p' s']|]; rewrite Forall_cons; [|tauto]. intros (Hf & -> & ->).
  split_and!; [done..|case_match; simpl; lia|simpl; lia].
Qed.

Lemma counted_other (P : CardGroup -> Prop) p s g groups r :
  m_type g <> GroupType.GROUP_STAIGHT -> P g -> counted P p s groups r -> counted P p s (g :: groups) r.
Proof.
  unfold counted. intros Ht Hg.
  rewrite straights_cons, pure_straights_cons, !decide_False by done.
  destruct r as [[p' s']|]; rewrite Forall_cons; tauto.
Qed.

Lemma groups_declare_loop_spec jp p s groups :
  Forall card_points groups ->
  returns (groups_declare_loop jp p s groups) (counted (declare_group jp) p s groups).
Proof.
  intros Hg. revert p s; induction Hg as [|g groups Hg _ IH]; intros p s; simpl.
  { apply returns_ret, counted_nil. }
  destruct (Z.eqb_spec (m_type g) GroupType.GROUP_INVALID) as [Hinv|Hinv].
  { apply returns_ret, counted_reject. by intros [? _]. }
  destruct (Z.eqb_spec (m_type g) GroupType.GROUP_STAIGHT) as [Hst|Hst].
  - destruct (straight_verdict jp g Hg Hst) as (b & -> & Hb). simpl.
    assert (m_type g <> GroupType.GROUP_THREE_KIND) by (rewrite Hst; done).
    destruct b.
    + eapply returns_mono; [apply IH|]. intros r. apply counted_straight; [done|].
      unfold declare_group. tauto.
    + apply returns_ret, counted_reject. intros (_ & Hs & _). by apply Hs, Hb in Hst.
  - destruct (Z.eqb_spec (m_type g) GroupType.GROUP_THREE_KIND) as [Ht|Ht].
    + destruct (is_cards_three_of_kind _ _) eqn:Ek; simpl.
      * eapply returns_mono; [apply IH|]. intros r. apply counted_other; [done|].
        unfold declare_group, kind_group. tauto.
      * apply returns_ret, counted_reject. intros (_ & _ & Hk). apply Hk in Ht as [_ Ht]. congruence.
    + eapply returns_mono; [apply IH|]. intros r. apply counted_other; [done|].
      unfold declare_group. tauto.
Qed.

Lemma declare_spec_groups jp groups :
  declare_spec jp groups <-> Forall (declare_group jp) groups /\
    (2 <= length (straights groups))%nat /\ (1 <= length (pure_straights groups))%nat.
Proof.
  unfold declare_spec, declare_group. rewrite !Forall_forall. split.
  - intros (H1 & H2 & H3 & H4). split; [|exact H4]. intros g Hg. split_and!; eauto.
  - intros [H [H4 H5]]. split_and!; [intros g Hg; by apply H..|done|done].
Qed.

Lemma is_groups_declare_spec groups jp :
  Forall card_points groups ->
  exists b, is_groups_declare groups jp = Ok b /\ (b = true <-> declare_spec jp groups).
Proof.
  intros Hg. unfold is_groups_declare.
  destruct (groups_declare_loop_spec jp 0 0 groups Hg) as (r & -> & Hr). simpl.
  destruct r as [[p s]|]; eexists; split; try done; rewrite declare_spec_groups; simpl in Hr.
  - destruct Hr as (Hf & -> & ->). rewrite negb_true_iff, orb_false_iff, !Z.ltb_ge.
    split; [intros; split_and!; [done|lia|lia]|lia].
  - split; [done|tauto].
Qed.

(** The first loop of [check_lose_declare]. *)
Lemma lose_count_loop_spec jp p s groups :
  Forall card_points groups ->
  returns (lose_count_loop jp p s groups)
    (counted (fun g => m_type g = GroupType.GROUP_STAIGHT -> straight_group jp g) p s groups).
Proof.
  intros Hg. revert p s; induction Hg as [|g groups Hg _ IH]; intros p s; simpl.
  { apply returns_ret, counted_nil. }
  destruct (Z.eqb_spec (m_type g) GroupType.GROUP_STAIGHT) as [Hst|Hst].
  - destruct (straight_verdict jp g Hg Hst) as (b & -> & Hb). simpl. destruct b.
    + eapply returns_mono; [apply IH|]. intros r. apply counted_straight; tauto.
    + apply returns_ret, counted_reject. intros H. by apply H, Hb in Hst.
  - eapply returns_mono; [apply IH|]. intros r. by apply counted_other.
Qed.

(** The condition of the second loop on one group. *)
Definition lose_group (jp p s : Z) (g : CardGroup) : Prop :=
  m_type g = GroupType.GROUP_INVALID \/
  (m_type g = GroupType.GROUP_STAIGHT /\ 1 <= p) \/
  (kind_group jp g /\ 1 <= p /\ 2 <= s).

Lemma caculate_card_score_acc cards jp acc :
  foldl (fun score it => score + get_score it jp) acc cards = acc + caculate_card_score cards jp.
Proof.
  unfold caculate_card_score. revert acc; induction cards as [|c cards IH]; intros acc; simpl; [lia|].
  rewrite IH, (IH (0 + _)). lia.
Qed.

#[export] Instance caculate_card_score_perm : Proper ((≡ₚ) ==> (=) ==> (=)) caculate_card_score.
Proof.
  intros l l' Hl jp ? <-. unfold caculate_card_score.
  induction Hl as [|c l l' _ IH|c d l|l l' l'' _ IH1 _ IH2]; simpl; [done| | |congruence].
  - rewrite !caculate_card_score_acc. unfold caculate_card_score. lia.
  - f_equal. lia.
Qed.

Definition lose_result (jp p s score : Z) (groups : list CardGroup) (r : bool * Z) : Prop :=
  (r.1 = true <-> Forall (lose_group jp p s) groups) /\
  (r.1 = true -> r.2 = score + loose_score jp groups).

Lemma lose_result_reject jp p s score score' g groups :
  ~ lose_group jp p s g -> lose_result jp p s score (g :: groups) (false, score').
Proof. unfold lose_result. rewrite Forall_cons. simpl. naive_solver. Qed.

Lemma lose_result_cons jp p s score score' g groups r :
  lose_group jp p s g ->
  score' = score + (if m_type g =? GroupType.GROUP_INVALID
                    then caculate_card_score (m_cards g) jp else 0) ->
  lose_result jp p s score' groups r -> lose_result jp p s score (g :: groups) r.
Proof.
  unfold lose_result. intros Hg -> [Hb Hs]. rewrite Forall_cons. simpl. split; [tauto|].
  intros Hr. rewrite (Hs Hr). lia.
Qed.

Lemma lose_score_loop_spec jp p s score groups :
  lose_result jp p s score groups (lose_score_loop jp p s score groups).
Proof.
  revert score; induction groups as [|g groups IH]; intros score; simpl; [split; [done|simpl; lia]|].
  destruct (Z.eqb_spec (m_type g) GroupType.GROUP_INVALID) as [Hi|Hi].
  { eapply lose_result_cons; [by left| |apply IH]. by rewrite Hi, sort_cards_perm. }
  apply Z.eqb_neq in Hi as Hi'.
  destruct (Z.eqb_spec (m_type g) GroupType.GROUP_STAIGHT) as [Hst|Hst].
  { destruct (Z.ltb_spec p 1).
    - apply lose_result_reject. unfold lose_group, kind_group. rewrite Hst.
      intros [?|[?|[[? _] _]]]; [done|lia|done].
    - eapply lose_result_cons; [right; left; by split| |apply IH]. rewrite Hi'. lia. }
  destruct (Z.eqb_spec (m_type g) GroupType.GROUP_THREE_KIND) as [Ht|Ht].
  - destruct ((p <? 1) || (s <? 2)) eqn:E.
    { apply lose_result_reject. intros [?|[[? ?]|[_ ?]]]; [done|done|lia]. }
    destruct (is_cards_three_of_kind _ _) eqn:Ek; simpl.
    + eapply lose_result_cons; [right; right; split_and!; [done|lia|lia]| |apply IH].
      rewrite Hi'. lia.
    + apply lose_result_reject. intros [?|[[? ?]|[[_ ?] _]]]; [done|done|congruence].
  - apply lose_result_reject. intros [?|[[? ?]|[[? _] _]]]; done.
Qed.

Lemma lose_spec_loops jp groups :
  lose_spec jp groups <->
  Forall (fun g => m_type g = GroupType.GROUP_STAIGHT -> straight_group jp g) groups /\
  Forall (lose_group jp (Z.of_nat (length (pure_straights groups)))
                        (Z.of_nat (length (straights groups)))) groups.
Proof.
  unfold lose_spec. rewrite !Forall_forall, !Exists_exists. split.
  - intros (Hg & Hs & Hk). split; intros g Hin; destruct (Hg g Hin) as [Hi|[H|H]].
    + rewrite Hi. done.
    + done.
    + destruct H as [-> _]. done.
    + by left.
    + right; left. split; [apply H|]. specialize (Hs ltac:(eauto)). lia.
    + right; right. specialize (Hk ltac:(eauto)). split_and!; [done|lia|lia].
  - intros [Hst Hg]. split_and!.
    + intros g Hin. destruct (Hg g Hin) as [?|[[? _]|[? _]]]; auto.
    + intros (g & Hin & Ht & _). destruct (Hg g Hin) as [H|[[_ H]|[[H _] _]]];
        [by rewrite Ht in H|lia|by rewrite Ht in H].
    + intros (g & Hin & Ht & _). destruct (Hg g Hin) as [H|[[H _]|[_ H]]];
        [by rewrite Ht in H|by rewrite Ht in H|lia].
Qed.

Lemma check_lose_declare_spec groups jp :
  Forall card_points groups ->
  exists b score, check_lose_declare groups jp = Ok (b, score) /\
    (b = true <-> lose_spec jp groups) /\ (b = true -> score = loose_score jp groups).
Proof.
  intros Hg. unfold check_lose_declare.
  destruct (lose_count_loop_spec jp 0 0 groups Hg) as (r & -> & Hr). simpl.
  destruct r as [[p s]|]; simpl in Hr.
  - destruct Hr as (Hf & -> & ->). rewrite !Z.add_0_l.
    pose proof (lose_score_loop_spec jp (Z.of_nat (length (pure_straights groups)))
                  (Z.of_nat (length (straights groups))) 0 groups) as [H1 H2].
    destruct (lose_score_loop _ _ _ _ _) as [b score]. simpl in H1, H2.
    exists b, score. split; [done|]. rewrite lose_spec_loops. split; [tauto|].
    intros Hb. rewrite H2 by done. lia.
  - exists false, 0. split; [done|]. rewrite lose_spec_loops. split; [|done]. split; [done|tauto].
Qed.

(** ** Theorems *)

(** Two straights of spades and a set of eights, with sevens wild. *)
Definition sample_declaration : list CardGroup :=
  [mkGroup GroupType.GROUP_STAIGHT [spade 2; spade 3; spade 4; spade 5];
   mkGroup GroupType.GROUP_STAIGHT [spade 10; mkCard 2 7; spade 12];
   mkGroup GroupType.GROUP_THREE_KIND [mkCard 1 8; mkCard 2 8; mkCard 3 8]].

Lemma sample_points : Forall card_points sample_declaration.
Proof.
  unfold card_points. repeat constructor;
    (apply Forall_forall; refine (bool_decide_eq_true_1 _ _); vm_compute; reflexivity).
Qed.

(** C32: On groups of real cards [is_groups_declare] returns, and it is true
    exactly for a winning declaration: no loose cards, every straight is one,
    every set passes the test for sets, and there are two straights, one of
    them pure. *)
Theorem is_groups_declare_correct groups jp :
  Forall card_points groups ->
  exists b, is_groups_declare groups jp = Ok b /\ (b = true <-> declare_spec jp groups).
Proof. apply is_groups_declare_spec. Qed.

Lemma is_groups_declare_correct_witness :
  is_groups_declare sample_declaration 7 = Ok true /\
  exists b, is_groups_declare sample_declaration 7 = Ok b /\
            (b = true <-> declare_spec 7 sample_declaration).
Proof.
  split; [vm_compute; reflexivity|]. apply is_groups_declare_correct, sample_points.
Defined.

(** C33: On groups of real cards [check_lose_declare] returns; it is true exactly
    when every group is loose, a straight or a set, the straights have a pure
    one among them, and the sets two straights of which one is pure; and then
    the score is the sum of the loose cards. *)
Theorem check_lose_declare_correct groups jp :
  Forall card_points groups ->
  exists b score, check_lose_declare groups jp = Ok (b, score) /\
    (b = true <-> lose_spec jp groups) /\ (b = true -> score = loose_score jp groups).
Proof. apply check_lose_declare_spec. Qed.

Definition sample_lose : list CardGroup :=
  [mkGroup GroupType.GROUP_STAIGHT [spade 2; spade 3; spade 4];
   mkGroup GroupType.GROUP_INVALID [spade 13; mkCard 2 7; mkCard 3 9]].

Lemma check_lose_declare_correct_witness :
  check_lose_declare sample_lose 7 = Ok (true, 19) /\
  exists b score, check_lose_declare sample_lose 7 = Ok (b, score) /\
    (b = true <-> lose_spec 7 sample_lose) /\ (b = true -> score = loose_score 7 sample_lose).
Proof.
  split; [vm_compute; reflexivity|]. apply check_lose_declare_correct.
  unfold card_points. repeat constructor;
    (apply Forall_forall; refine (bool_decide_eq_true_1 _ _); vm_compute; reflexivity).
Defined.

(** A winning declaration of straights and sets also passes the check of the
    losers, at no cost. *)
Theorem winning_declaration_scores_zero groups jp :
  Forall card_points groups ->
  Forall (fun g => m_type g = GroupType.GROUP_STAIGHT \/ m_type g = GroupType.GROUP_THREE_KIND) groups ->
  is_groups_declare groups jp = Ok true ->
  check_lose_declare groups jp = Ok (true, 0).
Proof.
  intros Hp Ht Hd. destruct (is_groups_declare_spec groups jp Hp) as (b & Hb & Hspec).
  rewrite Hd in Hb. injection Hb as <-. destruct (proj1 Hspec eq_refl) as (Hi & Hs & Hk & H2 & H1).
  destruct (check_lose_declare_spec groups jp Hp) as (b & score & -> & Hb & Hscore).
  assert (loose_score jp groups = 0) as Hz.
  { clear -Hi. induction Hi as [|g groups Hg _ IH]; simpl; [done|].
    apply Z.eqb_neq in Hg as ->. lia. }
  assert (b = true) as ->.
  { apply Hb. unfold lose_spec. split_and!; [|by intros _|by intros _].
    rewrite Forall_forall in *. intros g Hin. destruct (Ht g Hin); eauto. }
  by rewrite Hscore, Hz.
Qed.

Lemma winning_declaration_scores_zero_witness :
  is_groups_declare sample_declaration 7 = Ok true /\
  check_lose_declare sample_declaration 7 = Ok (true, 0).
Proof.
  split; [vm_compute; reflexivity|]. apply winning_declaration_scores_zero.
  - apply sample_points.
  - refine (bool_decide_eq_true_1 _ _). vm_compute. reflexivity.
  - vm_compute. reflexivity.
Defined.

(** Three spades in a row are a straight whatever is wild. *)
Lemma row_straight jp p :
  p = 2 \/ p = 10 -> is_cards_straight (sort_cards [spade p; spade (p + 1); spade (p + 2)]) jp = Ok true.
Proof.
  intros Hp. assert (StronglySorted card_le [spade p; spade (p + 1); spade (p + 2)]) as Hs.
  { repeat constructor; unfold card_le; simpl; lia. }
  destruct (is_cards_straight_total (sort_cards [spade p; spade (p + 1); spade (p + 2)]) jp) as [b Hb].
  rewrite Hb. f_equal. rewrite (sort_cards_id _ Hs) in Hb.
  apply straight_spec_sorted in Hb; [|done|].
  - apply Hb. unfold straight_spec.
    assert (forall c, c ∈ naturals jp [spade p; spade (p + 1); spade (p + 2)] ->
      c = spade (m_point c) /\ p <= m_point c < p + 3) as Hn.
    { intros c Hc. apply elem_of_naturals in Hc as [_ Hc].
      repeat (apply elem_of_cons in Hc as [-> |Hc]; [simpl; split; [done|lia]|]).
      by apply not_elem_of_nil in Hc. }
    split_and!; [simpl; lia| | |left; exists p; intros c Hc; by apply Hn].
    + intros a c Ha Hc. rewrite (proj1 (Hn a Ha)), (proj1 (Hn c Hc)). done.
    + unfold naturals. rewrite !filter_cons, filter_nil.
      repeat case_decide; csimpl; repeat (apply NoDup_cons; split; [set_solver by lia|]); constructor.
  - intros c Hc. unfold PokerPoint.P2.
    repeat (apply elem_of_cons in Hc as [-> |Hc]; [simpl; lia|]). by apply not_elem_of_nil in Hc.
Qed.

(** The two checks disagree on a group of another type: the type is an
    [int32] of the client's message, and [is_groups_declare] skips the cards of
    a group that is neither loose, a straight nor a set.  Two straights win
    whatever else is in hand; [check_lose_declare] refuses the same groups. *)
Theorem unknown_group_type_wins cards jp t :
  t <> GroupType.GROUP_INVALID -> t <> GroupType.GROUP_STAIGHT -> t <> GroupType.GROUP_THREE_KIND ->
  let groups := [mkGroup GroupType.GROUP_STAIGHT [spade 2; spade 3; spade 4];
                 mkGroup GroupType.GROUP_STAIGHT [spade 10; spade 11; spade 12]; mkGroup t cards] in
  is_groups_declare groups jp = Ok true /\ check_lose_declare groups jp = Ok (false, 0).
Proof.
  intros H0%Z.eqb_neq H1%Z.eqb_neq H2%Z.eqb_neq groups.
  assert (is_cards_straight (sort_cards [spade 2; spade 3; spade 4]) jp = Ok true) as S1
    by exact (row_straight jp 2 ltac:(by left)).
  assert (is_cards_straight (sort_cards [spade 10; spade 11; spade 12]) jp = Ok true) as S2
    by exact (row_straight jp 10 ltac:(by right)).
  unfold is_groups_declare, check_lose_declare, groups.
  cbn [groups_declare_loop lose_count_loop m_type m_cards].
  rewrite S1, S2, H0, H1, H2. split.
  - by vm_compute.
  - cbn. rewrite H0, H1, H2. done.
Qed.

Lemma unknown_group_type_wins_witness :
  let groups := [mkGroup GroupType.GROUP_STAIGHT [spade 2; spade 3; spade 4];
                 mkGroup GroupType.GROUP_STAIGHT [spade 10; spade 11; spade 12];
                 mkGroup 7 [spade 2; mkCard 2 9; mkCard 3 13]] in
  is_groups_declare groups 8 = Ok true /\ check_lose_declare groups 8 = Ok (false, 0).
Proof. apply unknown_group_type_wins; discriminate. Defined.
