(* ===== verification/Search.v ===== *)
(** * The search for groups

    Models the searches of gamesvr/Combination.cpp that arrange a hand: the
    wild cards and their combinations, straights with and without wild cards
    ([search_straight_flush] and its helpers), sets ([search_three_of_kind] and
    its helpers), and the removal of a group from a hand.  The members
    [m_joker_point], [m_joker_cards] and [m_joker_combines] of [Combination]
    are the record [SearchState], which these functions read. *)
From Stdlib Require Import ZArith Lia.
From stdpp Require Import base tactics numbers sorting option sets list.
From S2P Require Import Prelude Cards Choices Straight Declare.

(** ** State *)

Record SearchState : Set := mkSearch {
  m_joker_point : Z;
  m_joker_cards : list PokerCard;
  m_joker_combines : list (list PokerCard)
}.

Definition MAX_CARD_COUNT : nat := 14.

(** ** Wild cards and their combinations *)

Definition search_joker_cards (jp : Z) (all_cards joker_cards : list PokerCard) : list PokerCard :=
  foldl (fun joker_cards it => if is_joker it jp then joker_cards ++ [it] else joker_cards)
    joker_cards all_cards.

Definition select_card_combine (all_cards : list PokerCard) (select_n : Z)
    (all_combines : list (list PokerCard)) : outcome (list (list PokerCard)) :=
  caculate_all_choices all_cards select_n all_combines.

Definition caculate_all_cards_combines (all_cards : list PokerCard) (min_select max_select : Z)
    (out_combines : list (list PokerCard)) : outcome (list (list PokerCard)) :=
  mfold (fun out i => select_card_combine all_cards i out) out_combines
    (seqZ min_select (max_select - min_select + 1)).

(** ** Straights *)

(** The gaps between neighbours; an ace before another card counts as one. *)
Fixpoint fill_gaps (it_last : PokerCard) (fill_num : Z) (l : list PokerCard) : Z :=
  match l with
  | [] => fill_num
  | it :: l' =>
      let fill_num :=
        if m_point it_last =? PokerPoint.A then fill_num + (m_point it - 1 - 1)
        else fill_num + (m_point it - m_point it_last - 1) in
      fill_gaps it fill_num l'
  end.

(** [min_num] and [max_num]. *)
Definition to_straight_fill_joker_num (st : SearchState) (cards : list PokerCard)
  : outcome (Z * Z) :=
  match cards with
  | [] => Fault AssertFailed
  | c :: l =>
      let fill_num := fill_gaps c 0 l in
      let joker_card_num := Z.of_nat (length (m_joker_cards st)) in
      let total_num := Z.of_nat (length cards) + fill_num in
      let fill_num := if total_num <? 3 then fill_num + (3 - total_num) else fill_num in
      let fill_num := if fill_num =? 0 then 1 else fill_num in
      if joker_card_num <? fill_num then mret (0, 0)
      else mret (fill_num, fill_num + (joker_card_num - fill_num))
  end.

(** The straights made of [all_cards] and [i] wild cards. *)
Definition push_joker_straight (i : Z) (all_cards : list PokerCard) (card_group : list CardGroup)
    (itJoker : list PokerCard) : outcome (list CardGroup) :=
  if negb (Z.of_nat (length itJoker) =? i) then mret card_group
  else mret (card_group ++ [mkGroup GroupType.GROUP_STAIGHT (sort_cards (all_cards ++ itJoker))]).

Definition combine_with_joker_card (st : SearchState) (all_cards : list PokerCard)
    (card_group : list CardGroup) : outcome (list CardGroup) :=
  '(min_fill_num, max_fill_num) ← to_straight_fill_joker_num st all_cards;
  if min_fill_num =? 0 then mret card_group
  else mfold (fun card_group i => mfold (push_joker_straight i all_cards) card_group (m_joker_combines st))
         card_group (seqZ min_fill_num (max_fill_num - min_fill_num + 1)).

Definition push_straight_hand (st : SearchState) (card_group : list CardGroup)
    (itHand : list PokerCard) : outcome (list CardGroup) :=
  let card_group :=
    if is_cards_pure_straight itHand
    then card_group ++ [mkGroup GroupType.GROUP_STAIGHT itHand] else card_group in
  card_group ← combine_with_joker_card st itHand card_group;
  if 1 <? Z.of_nat (length itHand) then
    back ← access (last itHand);
    if m_point back =? PokerPoint.A then
      combine_with_joker_card st (back :: take (pred (length itHand)) itHand) card_group
    else mret card_group
  else mret card_group.

Definition search_straight_flush_select_n (st : SearchState) (all_cards : list PokerCard)
    (select_n : Z) (card_group : list CardGroup) : outcome (list CardGroup) :=
  _ ← assert_that ((1 <=? select_n) && (select_n <=? 14));
  if Z.of_nat (length all_cards) <? select_n then mret card_group
  else
    all_select_combines ← select_card_combine all_cards select_n [];
    mfold (push_straight_hand st) card_group all_select_combines.

(** A straight of the second deck. *)
Definition push_repeat_straight (card_group : list CardGroup) (it : list PokerCard)
  : outcome (list CardGroup) :=
  mret (if is_cards_pure_straight it
        then card_group ++ [mkGroup GroupType.GROUP_STAIGHT it] else card_group).

Definition search_straight_flush_i (st : SearchState) (flush_cards reteat_card : list PokerCard)
    (card_group : list CardGroup) : outcome (list CardGroup) :=
  card_group ← mfold (fun card_group i => search_straight_flush_select_n st flush_cards i card_group)
    card_group (seqZ 1 (Z.of_nat (length flush_cards + length (m_joker_cards st))));
  mfold (fun card_group i =>
           all_repeat_combines ← select_card_combine reteat_card i [];
           mfold push_repeat_straight card_group all_repeat_combines)
    card_group (seqZ 1 (Z.of_nat (length reteat_card))).

(** [flush_cards[iter->m_color].push_back( *iter)]: a [std::map] is iterated
    in ascending order of its keys. *)
Fixpoint flush_push (c : PokerCard) (flush_cards : list (Z * list PokerCard))
  : list (Z * list PokerCard) :=
  match flush_cards with
  | [] => [(m_color c, [c])]
  | (k, cards) :: rest =>
      if m_color c <? k then (m_color c, [c]) :: flush_cards
      else if m_color c =? k then (k, cards ++ [c]) :: rest
      else (k, cards) :: flush_push c rest
  end.

Definition flush_map (all_cards : list PokerCard) : list (Z * list PokerCard) :=
  foldl (fun m c => flush_push c m) [] all_cards.

(** Split a sorted flush in cards of different points and their repetitions. *)
Definition pop_straight (jp : Z) (s : list PokerCard * list PokerCard) (it : PokerCard)
  : list PokerCard * list PokerCard :=
  let '(pop_cards, pop_repeat_cards) := s in
  if is_joker it jp then s
  else match last pop_cards with
       | None => (pop_cards ++ [it], pop_repeat_cards)
       | Some back =>
           if m_point back =? m_point it then (pop_cards, pop_repeat_cards ++ [it])
           else (pop_cards ++ [it], pop_repeat_cards)
       end.

Definition push_joker_only (card_group : list CardGroup) (itJoker : list PokerCard)
  : outcome (list CardGroup) :=
  mret (if Z.of_nat (length itJoker) <? 3 then card_group
        else card_group ++ [mkGroup GroupType.GROUP_STAIGHT itJoker]).

Definition search_straight_flush (st : SearchState) (all_cards : list PokerCard)
    (card_group : list CardGroup) : outcome (list CardGroup) :=
  card_group ← mfold (fun card_group (iter : Z * list PokerCard) =>
      let left_cards := sort_cards iter.2 in
      let '(pop_cards, pop_repeat_cards) := foldl (pop_straight (m_joker_point st)) ([], []) left_cards in
      search_straight_flush_i st pop_cards pop_repeat_cards card_group)
    card_group (flush_map all_cards);
  mfold push_joker_only card_group (m_joker_combines st).

Definition search_pure_straight_flush (card_group pure_group : list CardGroup) : list CardGroup :=
  foldl (fun pure_group it =>
           if is_cards_pure_straight (m_cards it) then pure_group ++ [it] else pure_group)
    pure_group card_group.

(** ** Sets *)

Definition push_kind_hand (st : SearchState) (card_group : list CardGroup) (itHand : list PokerCard)
  : outcome (list CardGroup) :=
  let card_group :=
    if 2 <? Z.of_nat (length itHand)
    then card_group ++ [mkGroup GroupType.GROUP_THREE_KIND itHand] else card_group in
  mfold (fun card_group itJoker =>
           mret (card_group ++ [mkGroup GroupType.GROUP_THREE_KIND (itHand ++ itJoker)]))
    card_group (m_joker_combines st).

Definition search_three_of_kind_select_n (st : SearchState) (all_cards : list PokerCard)
    (select_n : Z) (card_group : list CardGroup) : outcome (list CardGroup) :=
  _ ← assert_that ((2 <=? select_n) && (select_n <=? 4));
  if Z.of_nat (length all_cards) <? select_n then mret card_group
  else
    all_select_combines ← select_card_combine all_cards select_n [];
    mfold (push_kind_hand st) card_group all_select_combines.

Definition search_three_of_kind_i (st : SearchState) (all_cards reteat_card : list PokerCard)
    (card_group : list CardGroup) : outcome (list CardGroup) :=
  card_group ← mfold (fun card_group i => search_three_of_kind_select_n st all_cards i card_group)
    card_group (seqZ 2 3);
  mfold (fun card_group i =>
           all_repeat_combines ← select_card_combine reteat_card i [];
           mfold (fun card_group it => mret (card_group ++ [mkGroup GroupType.GROUP_THREE_KIND it]))
             card_group all_repeat_combines)
    card_group (seqZ 3 2).

Definition is_card_in_group (card : PokerCard) (all_cards : list PokerCard) : bool :=
  bool_decide (card ∈ all_cards).

(** The [while (!left_cards.empty())] loop of [search_three_of_kind]. *)
Fixpoint three_of_kind_loop (st : SearchState) (pop_cards pop_repeat_cards : list PokerCard)
    (card_group : list CardGroup) (left_cards : list PokerCard)
  : outcome (list PokerCard * list PokerCard * list CardGroup) :=
  match left_cards with
  | [] => mret (pop_cards, pop_repeat_cards, card_group)
  | front :: left_cards' =>
      if (match pop_cards with [] => true | p :: _ => m_point p =? m_point front end) &&
         negb (is_joker front (m_joker_point st)) then
        if is_card_in_group front pop_cards then
          three_of_kind_loop st pop_cards (pop_repeat_cards ++ [front]) card_group left_cards'
        else three_of_kind_loop st (pop_cards ++ [front]) pop_repeat_cards card_group left_cards'
      else
        card_group ← (if 2 <=? Z.of_nat (length pop_cards)
                      then search_three_of_kind_i st pop_cards pop_repeat_cards card_group
                      else mret card_group);
        three_of_kind_loop st [front] [] card_group left_cards'
  end.

Definition search_three_of_kind (st : SearchState) (all_cards : list PokerCard)
    (card_group : list CardGroup) : outcome (list CardGroup) :=
  '(pop_cards, pop_repeat_cards, card_group) ←
    three_of_kind_loop st [] [] card_group (sort_cards all_cards);
  if 2 <=? Z.of_nat (length pop_cards)
  then search_three_of_kind_i st pop_cards pop_repeat_cards card_group
  else mret card_group.

(** ** Removing a group *)

Definition remove_cards (one_group : CardGroup) (all_cards : list PokerCard) : list PokerCard :=
  foldl (fun out_cards it => erase_present it out_cards) all_cards (m_cards one_group).

(** Cross the cards of a group out of the array of 14. *)
Fixpoint cross_out (arr_card cards : list PokerCard) : bool :=
  match cards with
  | [] => true
  | c :: cards' =>
      match list_find (fun d => d = c) arr_card with
      | None => false
      | Some (i, _) => cross_out (<[i := default_card]> arr_card) cards'
      end
  end.

Definition remove_card_group (all_cards : list PokerCard) (card_group out_group : list CardGroup)
  : outcome (list CardGroup) :=
  mfold (fun out_group it =>
           _ ← (if (length all_cards <=? MAX_CARD_COUNT)%nat then mret tt else Fault OutOfBounds);
           let arr_card := all_cards ++ replicate (MAX_CARD_COUNT - length all_cards) default_card in
           mret (if cross_out arr_card (m_cards it) then out_group ++ [it] else out_group))
    out_group card_group.

Definition gen_valid_card_group (jp : Z) (all_cards : list PokerCard) : CardGroup * Z :=
  (mkGroup GroupType.GROUP_INVALID all_cards, caculate_card_score all_cards jp).

(** ** What the searches find *)

Lemma select_combine_eq all n acc :
  select_card_combine all n acc = Ok (acc ++ choices all n).
Proof. apply caculate_all_choices_eq. Qed.

(** The combinations of the wild cards: the non-empty selections, in order. *)
Lemma all_cards_combines cards :
  returns (caculate_all_cards_combines cards 1 (Z.of_nat (length cards)) [])
    (fun out => forall js, js ∈ out <-> js `sublist_of` cards /\ js <> []).
Proof.
  unfold caculate_all_cards_combines. eapply returns_mono.
  - apply (collects_mfold _ (fun i js => js ∈ choices cards i)).
    intros i _ acc. rewrite select_combine_eq. apply returns_ret. intros x. apply elem_of_app.
  - intros out Ho js. specialize (Ho js). cbv beta in Ho. rewrite Ho, elem_of_nil.
    setoid_rewrite elem_of_choices. setoid_rewrite elem_of_seqZ. split.
    + intros [[]|(i & Hi & Hs & Hl)]. split; [done|]. intros ->. simpl in Hl. lia.
    + intros [Hs Hn]. right. exists (Z.of_nat (length js)). apply sublist_length in Hs as Hl.
      destruct js; [done|]. split_and!; [simpl; lia|simpl in *; lia|done|lia].
Qed.

(** The least number of wild cards that [to_straight_fill_joker_num] asks for. *)
Definition fill_need (cards : list PokerCard) : Z :=
  match cards with
  | [] => 0
  | c :: l =>
      let fill_num := fill_gaps c 0 l in
      let total_num := Z.of_nat (length cards) + fill_num in
      let fill_num := if total_num <? 3 then fill_num + (3 - total_num) else fill_num in
      if fill_num =? 0 then 1 else fill_num
  end.

(** A straight of [cards] and enough wild cards. *)
Definition joker_straight (st : SearchState) (cards : list PokerCard) (g : CardGroup) : Prop :=
  exists js, js ∈ m_joker_combines st /\
    fill_need cards <= Z.of_nat (length js) <= Z.of_nat (length (m_joker_cards st)) /\
    g = mkGroup GroupType.GROUP_STAIGHT (sort_cards (cards ++ js)).

Lemma combine_with_joker_collects st cards :
  cards <> [] ->
  collects (combine_with_joker_card st cards) (joker_straight st cards).
Proof.
  intros Hne. destruct cards as [|c l]; [done|]. unfold combine_with_joker_card.
  set (need := fill_need (c :: l)).
  assert (need <> 0) as Hneed by (unfold need, fill_need; repeat case_match; lia).
  set (n := Z.of_nat (length (m_joker_cards st))).
  assert (to_straight_fill_joker_num st (c :: l) =
    Ok (if n <? need then (0, 0) else (need, n))) as E.
  { unfold to_straight_fill_joker_num. fold n. change (length (c :: l)) with (S (length l)).
    unfold need, fill_need. change (length (c :: l)) with (S (length l)).
    destruct (_ <? 3); repeat case_match; try done; simpl; do 2 f_equal; lia. }
  intros acc. rewrite E. destruct (Z.ltb_spec n need) as [Hlt|Hge]; simpl.
  - apply returns_ret. intros g. unfold joker_straight. fold n need. split; [by left|].
    intros [?|(js & _ & ? & _)]; [done|lia].
  - apply Z.eqb_neq in Hneed as Hn0. rewrite Hn0. revert acc.
    eapply collects_iff.
    { apply (collects_mfold _ (fun i g => exists js, js ∈ m_joker_combines st /\
        Z.of_nat (length js) = i /\
        g = mkGroup GroupType.GROUP_STAIGHT (sort_cards (c :: l ++ js)))).
      intros i _. apply collects_mfold. intros js _ acc. unfold push_joker_straight.
      destruct (Z.eqb_spec (Z.of_nat (length js)) i); simpl.
      - apply returns_ret. intros g. rewrite elem_of_app, list_elem_of_singleton. naive_solver.
      - apply returns_ret. naive_solver. }
    intros g. unfold joker_straight. fold n need. setoid_rewrite elem_of_seqZ. simpl. split.
    + intros (i & Hi & js & Hjs & <- & ->). exists js. split_and!; [done|lia|lia|done].
    + intros (js & Hjs & Hl & ->). exists (Z.of_nat (length js)). split; [lia|]. by exists js.
Qed.

(** The straights with the cards [hand] apart from the wild ones. *)
Definition straight_of (st : SearchState) (hand : list PokerCard) (g : CardGroup) : Prop :=
  (is_cards_pure_straight hand = true /\ g = mkGroup GroupType.GROUP_STAIGHT hand) \/
  joker_straight st hand g \/
  (exists front back, hand = front ++ [back] /\ front <> [] /\ m_point back = PokerPoint.A /\
     joker_straight st (back :: front) g).

Lemma push_straight_hand_collects st hand :
  hand <> [] -> collects (fun acc => push_straight_hand st acc hand) (straight_of st hand).
Proof.
  intros Hne. destruct hand as [|back front _] using rev_ind; [done|]. clear Hne.
  unfold push_straight_hand. rewrite last_snoc.
  replace (take (pred (length (front ++ [back]))) (front ++ [back])) with front
    by (rewrite length_app; simpl; rewrite Nat.add_1_r; simpl; by rewrite take_app_length).
  intros acc. eapply returns_bind; [apply combine_with_joker_collects; by destruct front|].
  intros out1 H1. cbv beta in H1.
  assert (forall g, g ∈ out1 <-> g ∈ acc \/
    (is_cards_pure_straight (front ++ [back]) = true /\
       g = mkGroup GroupType.GROUP_STAIGHT (front ++ [back])) \/
    joker_straight st (front ++ [back]) g) as H2.
  { intros g. rewrite H1. destruct (is_cards_pure_straight _); [|naive_solver].
    rewrite elem_of_app, list_elem_of_singleton. naive_solver. }
  clear H1. rewrite length_app. cbn [length].
  assert (forall g, straight_of st (front ++ [back]) g <->
    ((is_cards_pure_straight (front ++ [back]) = true /\
       g = mkGroup GroupType.GROUP_STAIGHT (front ++ [back])) \/
     joker_straight st (front ++ [back]) g) \/
    (front <> [] /\ m_point back = PokerPoint.A /\ joker_straight st (back :: front) g)) as H3.
  { intros g. unfold straight_of. split; [|naive_solver].
    intros [?|[?|(f & b & E & ?)]]; [tauto|tauto|]. apply app_inj_tail in E as [-> ->]. tauto. }
  destruct (Z.ltb_spec 1 (Z.of_nat (length front + 1))) as [Hl|Hl].
  - assert (front <> []) by (intros ->; simpl in Hl; lia).
    simpl. destruct (Z.eqb_spec (m_point back) PokerPoint.A) as [Ha|Ha].
    + eapply returns_mono; [by apply combine_with_joker_collects|].
      intros out Ho g. specialize (Ho g). specialize (H2 g). specialize (H3 g). tauto.
    + apply returns_ret. intros g. specialize (H2 g). specialize (H3 g). tauto.
  - apply returns_ret. intros g. specialize (H2 g). specialize (H3 g).
    assert (front = []) by (destruct front; [done|simpl in Hl; lia]). tauto.
Qed.

Lemma straight_flush_select_n_collects st cards n :
  1 <= n <= 14 ->
  collects (search_straight_flush_select_n st cards n)
    (fun g => exists hand, hand `sublist_of` cards /\ Z.of_nat (length hand) = n /\
                           straight_of st hand g).
Proof.
  intros Hn acc. unfold search_straight_flush_select_n.
  replace ((1 <=? n) && (n <=? 14)) with true by lia. simpl.
  destruct (Z.ltb_spec (Z.of_nat (length cards)) n) as [Hlt|Hge].
  - apply returns_ret. intros g. split; [by left|]. intros [?|(hand & Hs & Hl & _)]; [done|].
    apply sublist_length in Hs. lia.
  - rewrite select_combine_eq. simpl. revert acc. eapply collects_iff.
    + apply collects_mfold. intros hand Hh. apply push_straight_hand_collects.
      apply elem_of_choices in Hh as [_ Hl]. intros ->. simpl in Hl. lia.
    + intros g. setoid_rewrite elem_of_choices. split.
      * intros (hand & [Hs Hl] & Hg). exists hand. split_and!; [done|lia|done].
      * intros (hand & Hs & Hl & Hg). exists hand. split_and!; [done|lia|done].
Qed.

Lemma select_repeat_collects (f : list CardGroup -> list PokerCard -> outcome (list CardGroup))
    (P : list PokerCard -> CardGroup -> Prop) cards lo n :
  (forall hand, collects (fun acc => f acc hand) (P hand)) ->
  collects (fun acc => mfold (fun acc i => combines ← select_card_combine cards i [];
                                           mfold f acc combines) acc (seqZ lo n))
    (fun g => exists hand, hand `sublist_of` cards /\ P hand g /\
       exists i, lo <= i < lo + n /\ length hand = Z.to_nat i).
Proof.
  intros Hf. eapply collects_iff.
  - apply collects_mfold. intros i _ acc. rewrite select_combine_eq. simpl. revert acc.
    apply collects_mfold. intros hand _. apply Hf.
  - intros g. setoid_rewrite elem_of_seqZ. setoid_rewrite elem_of_choices. split.
    + intros (i & Hi & hand & [Hs Hl] & HP). exists hand. split_and!; [done|done|]. by exists i.
    + intros (hand & Hs & HP & i & Hi & Hl). exists i. split; [lia|]. by exists hand.
Qed.

(** The straights that one colour gives: from its different points with the
    wild cards, and from its repeated cards alone. *)
Definition flush_straight (st : SearchState) (s : list PokerCard * list PokerCard)
    (g : CardGroup) : Prop :=
  (exists hand, hand `sublist_of` s.1 /\ hand <> [] /\ straight_of st hand g) \/
  (exists hand, hand `sublist_of` s.2 /\ is_cards_pure_straight hand = true /\
     g = mkGroup GroupType.GROUP_STAIGHT hand).

Lemma pure_straight_length cards : is_cards_pure_straight cards = true -> (3 <= length cards)%nat.
Proof. unfold is_cards_pure_straight. case_match; [done|lia]. Qed.

Lemma straight_flush_i_collects st pops reps :
  (length pops + length (m_joker_cards st) <= 14)%nat ->
  collects (search_straight_flush_i st pops reps) (flush_straight st (pops, reps)).
Proof.
  intros Hlen. eapply collects_iff.
  - apply collects_seq.
    + apply collects_mfold. intros i Hi%elem_of_seqZ. apply straight_flush_select_n_collects. lia.
    + apply (select_repeat_collects push_repeat_straight (fun hand g =>
        is_cards_pure_straight hand = true /\ g = mkGroup GroupType.GROUP_STAIGHT hand)).
      intros hand acc. apply returns_ret. intros g. destruct (is_cards_pure_straight hand).
      * rewrite elem_of_app, list_elem_of_singleton. naive_solver.
      * naive_solver.
  - intros g. unfold flush_straight. simpl. setoid_rewrite elem_of_seqZ. f_equiv; split.
    + intros (i & Hi & hand & Hs & Hl & Hg). exists hand. split_and!; [done| |done].
      intros ->. simpl in Hl. lia.
    + intros (hand & Hs & Hne & Hg). exists (Z.of_nat (length hand)).
      apply sublist_length in Hs as Hl. destruct hand; [done|]. split; [simpl in *; lia|]. eauto.
    + intros (hand & Hs & [Hp ->] & _). eauto.
    + intros (hand & Hs & Hp & ->). exists hand. split_and!; [done|done|done|].
      exists (Z.of_nat (length hand)). apply sublist_length in Hs as Hl.
      apply pure_straight_length in Hp. lia.
Qed.

(** The different points of a colour, in ascending order, and the others. *)
Definition pop_split (jp : Z) (cards : list PokerCard) : list PokerCard * list PokerCard :=
  foldl (pop_straight jp) ([], []) (sort_cards cards).

Definition straight_found (st : SearchState) (cards : list PokerCard) (g : CardGroup) : Prop :=
  (exists k cs, (k, cs) ∈ flush_map cards /\
     flush_straight st (pop_split (m_joker_point st) cs) g) \/
  (exists js, js ∈ m_joker_combines st /\ (3 <= length js)%nat /\
     g = mkGroup GroupType.GROUP_STAIGHT js).

Lemma search_straight_flush_collects st cards :
  (forall k cs, (k, cs) ∈ flush_map cards ->
     (length (pop_split (m_joker_point st) cs).1 + length (m_joker_cards st) <= 14)%nat) ->
  collects (search_straight_flush st cards) (straight_found st cards).
Proof.
  intros Hlen. unfold search_straight_flush. eapply collects_iff.
  - apply collects_seq.
    + apply (collects_mfold _ (fun iter => flush_straight st (pop_split (m_joker_point st) iter.2))).
      intros [k cs] Hin. specialize (Hlen k cs Hin). cbn [snd]. fold (pop_split (m_joker_point st) cs).
      destruct (pop_split _ cs) as [pops reps]. by apply straight_flush_i_collects.
    + apply (collects_mfold push_joker_only (fun js g => (3 <= length js)%nat /\
        g = mkGroup GroupType.GROUP_STAIGHT js)).
      intros js _ acc. apply returns_ret. intros g.
      destruct (Z.ltb_spec (Z.of_nat (length js)) 3).
      * split; [by left|]. intros [?|[? _]]; [done|lia].
      * rewrite elem_of_app, list_elem_of_singleton. split; [|naive_solver].
        intros [?| ->]; [by left|right]. split; [lia|done].
  - intros g. unfold straight_found. f_equiv. split.
    + intros ([k cs] & Hin & Hg). eauto.
    + intros (k & cs & Hin & Hg). by exists (k, cs).
Qed.

Lemma search_pure_straight_flush_filter groups acc :
  search_pure_straight_flush groups acc =
    acc ++ filter (fun g => is_cards_pure_straight (m_cards g) = true) groups.
Proof.
  unfold search_pure_straight_flush. revert acc.
  induction groups as [|g groups IH]; intros acc; simpl; [by rewrite app_nil_r|].
  rewrite IH, filter_cons. destruct (is_cards_pure_straight (m_cards g)); simpl; [|done].
  by rewrite <- (assoc_L (++)).
Qed.

Lemma search_joker_cards_wilds jp cards acc :
  search_joker_cards jp cards acc = acc ++ wilds jp cards.
Proof.
  unfold search_joker_cards, wilds. revert acc.
  induction cards as [|c cards IH]; intros acc; simpl; [by rewrite app_nil_r|].
  rewrite IH, filter_cons. destruct (is_joker c jp); simpl; [|done].
  by rewrite <- (assoc_L (++)).
Qed.

(** The sets with the cards [hand] apart from the wild ones. *)
Definition kind_of (st : SearchState) (hand : list PokerCard) (g : CardGroup) : Prop :=
  ((3 <= length hand)%nat /\ g = mkGroup GroupType.GROUP_THREE_KIND hand) \/
  (exists js, js ∈ m_joker_combines st /\ g = mkGroup GroupType.GROUP_THREE_KIND (hand ++ js)).

Definition kind_found (st : SearchState) (s : list PokerCard * list PokerCard) (g : CardGroup) : Prop :=
  (exists hand, hand `sublist_of` s.1 /\ (2 <= length hand <= 4)%nat /\ kind_of st hand g) \/
  (exists hand, hand `sublist_of` s.2 /\ (3 <= length hand <= 4)%nat /\
     g = mkGroup GroupType.GROUP_THREE_KIND hand).

Lemma push_kind_hand_collects st hand :
  collects (fun acc => push_kind_hand st acc hand) (kind_of st hand).
Proof.
  intros acc. unfold push_kind_hand, kind_of. eapply returns_mono.
  - apply (collects_mfold _ (fun js g => g = mkGroup GroupType.GROUP_THREE_KIND (hand ++ js))).
    intros js _. apply collects_push.
  - intros out Ho g. specialize (Ho g). cbv beta in Ho. rewrite Ho.
    destruct (Z.ltb_spec 2 (Z.of_nat (length hand))).
    + rewrite elem_of_app, list_elem_of_singleton.
      assert (3 <= length hand)%nat by lia. naive_solver.
    + assert (~ (3 <= length hand)%nat) by lia. naive_solver.
Qed.

Lemma search_three_of_kind_i_collects st pops reps :
  collects (search_three_of_kind_i st pops reps) (kind_found st (pops, reps)).
Proof.
  eapply collects_iff.
  - apply collects_seq.
    + apply (collects_mfold _ (fun i g => exists hand, hand `sublist_of` pops /\
        Z.of_nat (length hand) = i /\ kind_of st hand g)).
      intros i Hi%elem_of_seqZ acc. unfold search_three_of_kind_select_n.
      replace ((2 <=? i) && (i <=? 4)) with true by lia. simpl.
      destruct (Z.ltb_spec (Z.of_nat (length pops)) i) as [Hlt|Hge].
      * apply returns_ret. intros g. split; [by left|]. intros [?|(hand & Hs & Hl & _)]; [done|].
        apply sublist_length in Hs. lia.
      * rewrite select_combine_eq. simpl. revert acc. eapply collects_iff.
        { apply collects_mfold. intros hand _. apply push_kind_hand_collects. }
        intros g. setoid_rewrite elem_of_choices. split.
        -- intros (hand & [Hs Hl] & Hg). exists hand. split_and!; [done|lia|done].
        -- intros (hand & Hs & Hl & Hg). exists hand. split_and!; [done|lia|done].
    + apply (select_repeat_collects (fun acc it => mret (acc ++ [mkGroup GroupType.GROUP_THREE_KIND it]))
        (fun hand g => g = mkGroup GroupType.GROUP_THREE_KIND hand)).
      intros hand. apply collects_push.
  - intros g. unfold kind_found. simpl. setoid_rewrite elem_of_seqZ. f_equiv; split.
    + intros (i & Hi & hand & Hs & Hl & Hg). exists hand. split_and!; [done|lia|lia|done].
    + intros (hand & Hs & Hl & Hg). exists (Z.of_nat (length hand)). split; [lia|]. eauto.
    + intros (hand & Hs & -> & i & Hi & Hl). exists hand. split_and!; [done|lia|lia|done].
    + intros (hand & Hs & Hl & ->). exists hand. split_and!; [done|done|].
      exists (Z.of_nat (length hand)). lia.
Qed.

(** The runs of one point that the loop of [search_three_of_kind] hands on. *)
Definition flush_run (pops reps : list PokerCard) : list (list PokerCard * list PokerCard) :=
  if 2 <=? Z.of_nat (length pops) then [(pops, reps)] else [].

Fixpoint kind_runs (jp : Z) (pops reps left_cards : list PokerCard)
  : list (list PokerCard * list PokerCard) :=
  match left_cards with
  | [] => flush_run pops reps
  | front :: left_cards' =>
      if (match pops with [] => true | p :: _ => m_point p =? m_point front end) &&
         negb (is_joker front jp) then
        if is_card_in_group front pops then kind_runs jp pops (reps ++ [front]) left_cards'
        else kind_runs jp (pops ++ [front]) reps left_cards'
      else flush_run pops reps ++ kind_runs jp [front] [] left_cards'
  end.

Lemma search_three_of_kind_runs st cards acc :
  search_three_of_kind st cards acc =
    mfold (fun acc s => search_three_of_kind_i st s.1 s.2 acc) acc
      (kind_runs (m_joker_point st) [] [] (sort_cards cards)).
Proof.
  unfold search_three_of_kind.
  assert (forall left_cards pops reps acc,
    ('(pops, reps, acc) ← three_of_kind_loop st pops reps acc left_cards;
     if 2 <=? Z.of_nat (length pops) then search_three_of_kind_i st pops reps acc else mret acc) =
    mfold (fun acc s => search_three_of_kind_i st s.1 s.2 acc) acc
      (kind_runs (m_joker_point st) pops reps left_cards)) as Hloop; [|apply Hloop]. clear.
  induction left_cards as [|front left_cards IH]; intros pops reps acc; simpl.
  - unfold flush_run. case_match; simpl; [|done]. by destruct (search_three_of_kind_i _ _ _ _).
  - destruct (_ && _); [destruct (is_card_in_group front pops); apply IH|]. rewrite mfold_app. unfold flush_run.
    destruct (2 <=? _); simpl; [|apply IH].
    destruct (search_three_of_kind_i _ _ _ _) as [acc'|]; simpl; [apply IH|done].
Qed.

Definition kind_group_found (st : SearchState) (cards : list PokerCard) (g : CardGroup) : Prop :=
  exists s, s ∈ kind_runs (m_joker_point st) [] [] (sort_cards cards) /\ kind_found st s g.

Lemma search_three_of_kind_collects st cards :
  collects (search_three_of_kind st cards) (kind_group_found st cards).
Proof.
  intros acc. rewrite search_three_of_kind_runs. revert acc. apply collects_mfold.
  intros [pops reps] _. apply search_three_of_kind_i_collects.
Qed.
