(* ===== verification/Found.v ===== *)
(** * The groups found are groups

    The soundness of the searches of Search.v: every straight or set found in a
    hand is made of cards of the hand, has three cards or more, and satisfies
    the specifications of Straight.v and Declare.v.  The hands are those two
    decks allow: points from deuces up and no card three times. *)
From Stdlib Require Import ZArith Lia.
From stdpp Require Import base tactics numbers sorting option sets list.
From S2P Require Import Prelude Cards Choices Straight Declare Search.

(** ** Hands *)

Definition real_hand (cards : list PokerCard) : Prop :=
  (forall c, c ∈ cards -> PokerPoint.P2 <= m_point c) /\
  (forall c, (count_occ PokerCard_eq_dec cards c <= 2)%nat) /\
  (length cards <= MAX_CARD_COUNT)%nat.

Lemma count_occ_submseteq (l k : list PokerCard) c :
  l ⊆+ k -> (count_occ PokerCard_eq_dec l c <= count_occ PokerCard_eq_dec k c)%nat.
Proof.
  intros [r Hr]%submseteq_Permutation. rewrite (Permutation_count_occ PokerCard_eq_dec) in Hr.
  rewrite Hr, count_occ_app. lia.
Qed.

Lemma real_hand_sub l k : l ⊆+ k -> real_hand k -> real_hand l.
Proof.
  intros Hs (Hp & Hc & Hl). split_and!.
  - intros c Hin. apply Hp. by eapply elem_of_submseteq.
  - intros c. transitivity (count_occ PokerCard_eq_dec k c); [by apply count_occ_submseteq|apply Hc].
  - apply submseteq_length in Hs. lia.
Qed.

(** The repetitions of cards that are also held once are all different. *)
Lemma repeats_NoDup cards pops reps :
  real_hand cards -> pops ++ reps ⊆+ cards -> (forall r, r ∈ reps -> r ∈ pops) -> NoDup reps.
Proof.
  intros (_ & Hc & _) Hsub Hr. apply NoDup_ListNoDup, (NoDup_count_occ PokerCard_eq_dec). intros c.
  destruct (decide (c ∈ reps)) as [Hin|Hin].
  - apply (count_occ_submseteq _ _ c) in Hsub. rewrite count_occ_app in Hsub. specialize (Hc c).
    apply Hr, list_elem_of_In, (count_occ_In PokerCard_eq_dec) in Hin. lia.
  - rewrite list_elem_of_In in Hin. apply (count_occ_not_In PokerCard_eq_dec) in Hin. lia.
Qed.

Lemma StronglySorted_sublist (l k : list PokerCard) :
  l `sublist_of` k -> StronglySorted card_le k -> StronglySorted card_le l.
Proof.
  induction 1 as [|c l k Hs IH|c l k Hs IH]; intros Hk; [done|..];
    inversion Hk as [|? ? Hk' Hc]; subst; [|by apply IH].
  constructor; [by apply IH|]. rewrite Forall_forall in Hc |- *. intros d Hd. apply Hc.
  by eapply elem_of_sublist.
Qed.

Lemma fmap_sublist {A B} (f : A -> B) l k : l `sublist_of` k -> f <$> l `sublist_of` f <$> k.
Proof. induction 1; csimpl; by constructor. Qed.

Lemma naturals_wilds_perm jp cards : naturals jp cards ++ wilds jp cards ≡ₚ cards.
Proof.
  unfold naturals, wilds. induction cards as [|c cards IH]; csimpl; [done|].
  rewrite !filter_cons. destruct (is_joker c jp); simpl.
  - rewrite <- Permutation_middle. by constructor.
  - by constructor.
Qed.

Lemma naturals_app jp l k : naturals jp (l ++ k) = naturals jp l ++ naturals jp k.
Proof. unfold naturals. by rewrite filter_app. Qed.

Lemma naturals_id jp l : (forall c, c ∈ l -> is_joker c jp = false) -> naturals jp l = l.
Proof.
  intros Hl. induction l as [|c l IH]; [done|].
  rewrite naturals_cons by (apply Hl; left). rewrite IH; [done|]. intros; apply Hl; by right.
Qed.

Lemma naturals_jokers jp l : (forall c, c ∈ l -> is_joker c jp = true) -> naturals jp l = [].
Proof.
  intros Hl. induction l as [|c l IH]; [done|].
  rewrite naturals_cons_joker by (apply Hl; left). apply IH. intros; apply Hl; by right.
Qed.

Lemma elem_of_wilds jp cards c : c ∈ wilds jp cards <-> is_joker c jp = true /\ c ∈ cards.
Proof. unfold wilds. by rewrite list_elem_of_filter. Qed.

(** ** Good groups *)

Definition good_straight (jp : Z) (g : CardGroup) : Prop :=
  m_type g = GroupType.GROUP_STAIGHT /\ straight_spec (m_cards g) jp /\
  (StronglySorted card_le (m_cards g) \/ Forall (fun c => is_joker c jp = true) (m_cards g)).

Definition good_kind (jp : Z) (g : CardGroup) : Prop :=
  m_type g = GroupType.GROUP_THREE_KIND /\ (2 <= length (naturals jp (m_cards g)))%nat /\
  (forall a b, a ∈ naturals jp (m_cards g) -> b ∈ naturals jp (m_cards g) -> m_point a = m_point b) /\
  NoDup (m_color <$> naturals jp (m_cards g)).

Definition good_group (jp : Z) (cards : list PokerCard) (g : CardGroup) : Prop :=
  m_cards g ⊆+ cards /\ (3 <= length (m_cards g))%nat /\ (good_straight jp g \/ good_kind jp g).

(** The members of [Combination] during the search in [cards]. *)
Definition joker_ok (jp : Z) (cards : list PokerCard) (st : SearchState) : Prop :=
  m_joker_point st = jp /\ m_joker_cards st ≡ₚ wilds jp cards /\
  (forall js, js ∈ m_joker_combines st <-> js `sublist_of` m_joker_cards st /\ js <> []).

Lemma joker_combine_ok jp cards st js :
  joker_ok jp cards st -> js ∈ m_joker_combines st ->
  js ⊆+ wilds jp cards /\ (forall c, c ∈ js -> is_joker c jp = true) /\ (1 <= length js)%nat.
Proof.
  intros (_ & Hp & Hc) [Hs Hn]%Hc. apply sublist_submseteq in Hs. rewrite Hp in Hs.
  split_and!; [done| |destruct js; [done|simpl; lia]].
  intros c Hin. eapply elem_of_submseteq in Hin; [|done]. by apply elem_of_wilds in Hin as [? _].
Qed.

(** ** Flushes *)

Lemma flush_push_spec c m :
  concat (flush_push c m).*2 ≡ₚ c :: concat m.*2 /\
  ((forall k cs, (k, cs) ∈ m -> forall d, d ∈ cs -> m_color d = k) ->
   forall k cs, (k, cs) ∈ flush_push c m -> forall d, d ∈ cs -> m_color d = k).
Proof.
  induction m as [|[k cs] m [IH1 IH2]]; csimpl.
  - split; [done|]. intros _ k cs [= -> ->]%list_elem_of_singleton d ->%list_elem_of_singleton. done.
  - case_match; [|destruct (Z.eqb_spec (m_color c) k) as [Hk|Hk]]; csimpl.
    + split; [done|]. intros Hm k' cs' Hin d Hd. apply elem_of_cons in Hin as [[= -> ->]|Hin].
      * by apply list_elem_of_singleton in Hd as ->.
      * by eapply Hm.
    + split; [rewrite <- (assoc_L (++)); symmetry; apply Permutation_middle|].
      intros Hm k' cs' Hin d Hd. apply elem_of_cons in Hin as [[= -> ->]|Hin].
      * apply elem_of_app in Hd as [Hd|Hd%list_elem_of_singleton]; [|by subst d]. eapply Hm; [left|done].
      * eapply Hm; [by right|done].
    + split; [rewrite IH1; symmetry; apply Permutation_middle|].
      intros Hm k' cs' Hin d Hd. apply elem_of_cons in Hin as [[= -> ->]|Hin].
      * eapply Hm; [left|done].
      * eapply IH2; [|done|done]. intros k2 cs2 Hin2. apply Hm. by right.
Qed.

(** A flush holds cards of the hand, of one colour. *)
Lemma flush_map_spec cards k cs :
  (k, cs) ∈ flush_map cards -> cs ⊆+ cards /\ one_colour cs.
Proof.
  assert (forall m l, (forall k cs, (k, cs) ∈ m -> forall d, d ∈ cs -> m_color d = k) ->
    let m' := foldl (fun m c => flush_push c m) m l in
    concat m'.*2 ≡ₚ concat m.*2 ++ l /\
    forall k cs, (k, cs) ∈ m' -> forall d, d ∈ cs -> m_color d = k) as Hfold.
  { intros m l. revert m. induction l as [|c l IH]; intros m Hm; simpl.
    - by rewrite app_nil_r.
    - destruct (flush_push_spec c m) as [H1 H2]. destruct (IH (flush_push c m) (H2 Hm)) as [H3 H4].
      split; [|done]. rewrite H3, H1. simpl. apply Permutation_middle. }
  intros Hin. destruct (Hfold [] cards) as [Hc Hcol].
  { intros k' cs' Hin'. by apply not_elem_of_nil in Hin'. }
  split.
  - simpl in Hc. rewrite <- Hc. fold (flush_map cards).
    apply list_elem_of_split in Hin as (m1 & m2 & E). rewrite E, fmap_app, concat_app. csimpl. apply submseteq_inserts_l, submseteq_inserts_r. done.
  - intros a b Ha Hb. by rewrite (Hcol _ _ Hin a Ha), (Hcol _ _ Hin b Hb).
Qed.

(** ** Splitting a flush *)

(** The two vectors of the loop over a sorted flush. *)
Record split_ok (jp : Z) (cards pops reps : list PokerCard) : Prop := {
  split_perm : pops ++ reps ≡ₚ naturals jp cards;
  split_pops : StronglySorted card_le pops;
  split_points : NoDup (m_point <$> pops);
  split_reps : StronglySorted card_le reps;
  split_point : forall r, r ∈ reps -> exists p, p ∈ pops /\ m_point p = m_point r
}.

Lemma StronglySorted_snoc l c :
  StronglySorted card_le l -> (forall d, d ∈ l -> card_le d c) -> StronglySorted card_le (l ++ [c]).
Proof.
  intros Hl Hc. apply StronglySorted_app. split_and!; [|done|repeat constructor].
  intros a b Ha ->%list_elem_of_singleton. auto.
Qed.

Lemma pop_straight_ok jp cards pops reps it :
  split_ok jp cards pops reps -> (forall d, d ∈ cards -> card_le d it) ->
  split_ok jp (cards ++ [it]) (pop_straight jp (pops, reps) it).1 (pop_straight jp (pops, reps) it).2.
Proof.
  intros [Hp Hs Hd Hr Hpt] Hle. unfold pop_straight.
  assert (forall d, d ∈ pops ++ reps -> card_le d it) as Hle'.
  { intros d Hin. apply Hle. rewrite Hp in Hin. by apply elem_of_naturals in Hin as [_ ?]. }
  destruct (is_joker it jp) eqn:Ej; simpl.
  { split; try done. by rewrite naturals_app, naturals_cons_joker, app_nil_r. }
  assert (naturals jp (cards ++ [it]) = naturals jp cards ++ [it]) as En
    by by rewrite naturals_app, naturals_cons.
  destruct pops as [|back pops _] using rev_ind; [simpl|rewrite last_snoc].
  - destruct reps as [|r reps].
    + split; simpl; [by rewrite En, <- Hp|repeat constructor|apply NoDup_singleton|constructor|].
      intros r Hin. by apply not_elem_of_nil in Hin.
    + destruct (Hpt r ltac:(left)) as (p & Hin & _). by apply not_elem_of_nil in Hin.
  - destruct (Z.eqb_spec (m_point back) (m_point it)) as [E|E]; simpl.
    + split; simpl; [by rewrite En, <- Hp, (assoc_L (++))|done|done| |].
      * apply StronglySorted_snoc; [done|]. intros d Hin. apply Hle'. set_solver.
      * intros r [Hin|Hin%list_elem_of_singleton]%elem_of_app; [by apply Hpt|]. subst r.
        exists back. split; [set_solver|done].
    + split; simpl.
      * rewrite En, <- Hp, <- !(assoc_L (++)). do 2 f_equiv. apply (comm (++)).
      * apply StronglySorted_snoc; [done|]. intros d Hin. apply Hle'. set_solver.
      * rewrite fmap_app. apply NoDup_app. split_and!; [done| |apply NoDup_singleton].
        intros x Hx ->%list_elem_of_singleton. apply list_elem_of_fmap in Hx as (d & Hdp & Hin).
        pose proof (Hle' back ltac:(set_solver)) as Hb. unfold card_le in Hb.
        assert (card_le d back) as Hdb.
        { apply elem_of_app in Hin as [Hin|Hin%list_elem_of_singleton]; [|subst; unfold card_le; lia].
          apply StronglySorted_app in Hs as (Hs & _). apply Hs; [done|left]. }
        unfold card_le in Hdb. lia.
      * done.
      * intros r Hin. destruct (Hpt r Hin) as (p & Hp' & ?). exists p. split; [set_solver|done].
Qed.

Lemma pop_split_ok jp cards :
  split_ok jp (sort_cards cards) (pop_split jp cards).1 (pop_split jp cards).2.
Proof.
  unfold pop_split.
  assert (forall l seen pops reps, StronglySorted card_le (seen ++ l) -> split_ok jp seen pops reps ->
    split_ok jp (seen ++ l) (foldl (pop_straight jp) (pops, reps) l).1
                            (foldl (pop_straight jp) (pops, reps) l).2) as Hfold.
  { induction l as [|c l IH]; intros seen pops reps Hs Hok; cbn [foldl]; [by rewrite app_nil_r|].
    pose proof Hs as Hs'. apply StronglySorted_app in Hs' as (Hle & _ & _).
    pose proof (pop_straight_ok jp seen pops reps c Hok) as Hok'.
    destruct (pop_straight jp (pops, reps) c) as [pops' reps'].
    rewrite cons_middle, (assoc_L (++)) in Hs |- *. apply IH; [done|]. apply Hok'.
    intros d Hd. apply Hle; [done|left]. }
  apply (Hfold _ []); [apply sort_cards_sorted|].
  split; try constructor. intros r Hin. by apply not_elem_of_nil in Hin.
Qed.

(** ** Straights *)

(** Cards of one colour, in ascending order of different points, none wild. *)
Record flush_hand (jp : Z) (hand : list PokerCard) : Prop := {
  fh_sorted : StronglySorted card_le hand;
  fh_points : NoDup (m_point <$> hand);
  fh_colour : one_colour hand;
  fh_natural : forall c, c ∈ hand -> is_joker c jp = false;
  fh_deuce : forall c, c ∈ hand -> PokerPoint.P2 <= m_point c
}.

Lemma flush_hand_range jp hand c :
  flush_hand jp hand -> c ∈ hand -> PokerPoint.P2 <= m_point c < PokerPoint.JOKER1.
Proof.
  intros H Hc. split; [by eapply fh_deuce|]. apply (fh_natural jp hand H) in Hc.
  unfold is_joker in Hc. lia.
Qed.

Lemma flush_hand_sub jp l k : l `sublist_of` k -> flush_hand jp k -> flush_hand jp l.
Proof.
  intros Hs [H1 H2 H3 H4 H5]. assert (forall c, c ∈ l -> c ∈ k) as Hin by (intros; by eapply elem_of_sublist).
  split.
  - by eapply StronglySorted_sublist.
  - eapply sublist_NoDup; [exact H2|by apply fmap_sublist].
  - intros a b Ha Hb. apply H3; auto.
  - auto.
  - auto.
Qed.

Lemma flush_hand_cons jp c l : flush_hand jp (c :: l) -> flush_hand jp l.
Proof. apply flush_hand_sub. by apply sublist_cons. Qed.

Lemma flush_hand_lt jp c d l : flush_hand jp (c :: d :: l) -> m_point c < m_point d < PokerPoint.JOKER1.
Proof.
  intros H. pose proof (flush_hand_range _ _ d H ltac:(right; left)). destruct H as [Hs Hn _ _ _].
  inversion Hs as [|? ? _ Hc]; subst. inversion Hc as [|? ? Hcd _]; subst. csimpl in Hn.
  apply NoDup_cons in Hn as [Hn _]. assert (m_point c <> m_point d) by (intros E; apply Hn; rewrite E; left).
  unfold card_le in Hcd. lia.
Qed.

(** The gaps of a flush hand, the ace high. *)
Lemma fill_gaps_high jp c n l :
  flush_hand jp (c :: l) ->
  fill_gaps c n l = n + m_point (default c (last l)) - m_point c - Z.of_nat (length l).
Proof.
  revert c n; induction l as [|d l IH]; intros c n H; simpl; [lia|].
  pose proof (flush_hand_lt _ _ _ _ H) as Hlt. unfold PokerPoint.JOKER1 in Hlt.
  rewrite (proj2 (Z.eqb_neq (m_point c) PokerPoint.A)) by (unfold PokerPoint.A; lia).
  rewrite IH by by eapply flush_hand_cons.
  replace (default d (last l)) with (default c (last (d :: l))); [lia|].
  destruct l; [done|]. rewrite last_cons. by destruct (last (p :: l)) eqn:E; [|apply last_None in E].
Qed.

Lemma fill_need_ge c l :
  0 <= fill_gaps c 0 l ->
  fill_gaps c 0 l <= fill_need (c :: l) /\ 1 <= fill_need (c :: l) /\
  3 <= Z.of_nat (length (c :: l)) + fill_need (c :: l).
Proof.
  intros Hg. unfold fill_need. destruct (Z.ltb_spec (Z.of_nat (length (c :: l)) + fill_gaps c 0 l) 3);
    case_match; lia.
Qed.

(** A straight with the wild cards [js], from what [to_straight_fill_joker_num]
    guarantees. *)
Lemma joker_straight_good jp hand js first :
  flush_hand jp hand -> (forall c, c ∈ js -> is_joker c jp = true) -> first ≡ₚ hand ->
  3 <= Z.of_nat (length hand + length js) ->
  fits_window hand (Z.of_nat (length hand + length js)) \/
    fits_window (ace_to_one <$> hand) (Z.of_nat (length hand + length js)) ->
  straight_spec (sort_cards (first ++ js)) jp.
Proof.
  intros H Hjs Hp Hl Hw. rewrite sort_cards_perm, Hp. unfold straight_spec.
  rewrite naturals_app, (naturals_jokers _ js), app_nil_r, naturals_id, length_app
    by (done || by eapply fh_natural).
  destruct H. done.
Qed.

Lemma high_straight_window jp hand (js : list PokerCard) :
  flush_hand jp hand -> hand <> [] -> fill_need hand <= Z.of_nat (length js) ->
  3 <= Z.of_nat (length hand + length js) /\ fits_window hand (Z.of_nat (length hand + length js)).
Proof.
  intros H Hne Hf. destruct hand as [|c l]; [done|].
  pose proof (fill_gaps_high _ c 0 l H) as Hg.
  destruct (sorted_span c l (fh_sorted _ _ H) (fh_points _ _ H)) as (z & Hz & Hle).
  pose proof (sorted_last_point c l (fh_sorted _ _ H)) as Hlast. pose proof (Hlast z Hz).
  destruct (fill_need_ge c l) as (H1 & H2 & H3); [lia|]. split; [lia|].
  exists (m_point c). intros d Hd. specialize (Hlast d Hd). cbn [length] in *. lia.
Qed.

Lemma low_straight_window jp front back (js : list PokerCard) :
  flush_hand jp (front ++ [back]) -> front <> [] -> m_point back = PokerPoint.A ->
  fill_need (back :: front) <= Z.of_nat (length js) ->
  3 <= Z.of_nat (length (front ++ [back]) + length js) /\
  fits_window (ace_to_one <$> front ++ [back]) (Z.of_nat (length (front ++ [back]) + length js)).
Proof.
  intros H Hne Hb Hf. destruct front as [|c l]; [done|].
  pose proof (flush_hand_sub _ (c :: l) _ ltac:(by apply sublist_inserts_r) H) as Hcl.
  assert (fill_gaps back 0 (c :: l) = m_point (default c (last l)) - 1 - Z.of_nat (length (c :: l))) as Hg.
  { simpl. rewrite Hb, Z.eqb_refl, (fill_gaps_high jp) by done. lia. }
  destruct (sorted_span c l (fh_sorted _ _ Hcl) (fh_points _ _ Hcl)) as (z & Hz & Hle).
  pose proof (sorted_last_point c l (fh_sorted _ _ Hcl)) as Hlast. pose proof (Hlast z Hz).
  pose proof (flush_hand_range _ _ c Hcl ltac:(left)) as Hc. unfold PokerPoint.P2 in Hc.
  destruct (fill_need_ge back (c :: l)) as (H1 & H2 & H3); [cbn [length] in *; lia|].
  rewrite length_app. cbn [length] in *. split; [lia|].
  exists 1. intros b' (b & -> & Hin)%list_elem_of_fmap. unfold ace_to_one.
  apply elem_of_app in Hin as [Hin|Hin%list_elem_of_singleton].
  - pose proof (flush_hand_range _ _ b Hcl Hin) as Hbr. unfold PokerPoint.P2 in Hbr.
    specialize (Hlast b Hin). case_match; simpl; lia.
  - subst b. rewrite Hb. simpl. lia.
Qed.

Lemma pure_hand_good jp hand :
  flush_hand jp hand -> is_cards_pure_straight hand = true -> straight_spec hand jp.
Proof.
  intros H Hp. assert (plain_group hand) as Hpl.
  { split; [intros c Hc; by eapply flush_hand_range|by apply (fh_points jp)]. }
  destruct hand as [|c l]; [done|].
  apply pure_straight_sound in Hp; [|by eapply fh_sorted|done].
  unfold straight_spec in *. rewrite plain_naturals in Hp by done.
  by rewrite naturals_id by by eapply fh_natural.
Qed.

Section straights.
Context (jp : Z) (cards : list PokerCard) (st : SearchState).
Context (Hreal : real_hand cards) (Hst : joker_ok jp cards st).

Lemma flush_hands k cs :
  (k, cs) ∈ flush_map cards ->
  let s := pop_split jp cs in
  flush_hand jp s.1 /\ flush_hand jp s.2 /\ s.1 ++ s.2 ⊆+ naturals jp cards.
Proof.
  intros Hin s. apply flush_map_spec in Hin as [Hsub Hcol].
  destruct (pop_split_ok jp cs) as [Hp Hs Hd Hr Hpt]. fold s in Hp, Hs, Hd, Hr, Hpt.
  assert (s.1 ++ s.2 ⊆+ naturals jp cards) as Hnat.
  { rewrite Hp, sort_cards_perm. apply submseteq_Permutation in Hsub as [r Hsub].
    rewrite Hsub, naturals_app. by apply submseteq_inserts_r. }
  assert (forall c, c ∈ s.1 ++ s.2 -> is_joker c jp = false /\ c ∈ cs) as Hj.
  { intros c. rewrite Hp, elem_of_naturals. by rewrite sort_cards_perm. }
  assert (forall c, c ∈ s.1 ++ s.2 -> PokerPoint.P2 <= m_point c) as Hdeuce.
  { intros c Hc. apply Hreal. by eapply elem_of_submseteq; [apply Hj|]. }
  split_and!; [split|split|done]; try done; try (intros c Hc; apply Hj || apply Hdeuce; set_solver).
  - intros a b Ha Hb. apply Hcol; apply Hj; set_solver.
  - apply NoDup_fmap_2_strong.
    + intros a b Ha Hb Hab. destruct a as [ca pa], b as [cb pb]. simpl in Hab.
      f_equal; [|done]. apply (Hcol (mkCard ca pa) (mkCard cb pb)); apply Hj; set_solver.
    + apply (repeats_NoDup cards s.1); [done| |].
      * etrans; [exact Hnat|]. apply sublist_submseteq, sublist_filter.
      * intros r Hr'. destruct (Hpt r Hr') as (p & Hp' & E).
        assert (m_color p = m_color r) as E' by (apply Hcol; apply Hj; set_solver).
        destruct p, r. simpl in *. by subst.
  - intros a b Ha Hb. apply Hcol; apply Hj; set_solver.
Qed.

Lemma with_jokers_sub hand js :
  hand ⊆+ naturals jp cards -> js ∈ m_joker_combines st -> hand ++ js ⊆+ cards.
Proof.
  intros Hh Hjs. rewrite <- (naturals_wilds_perm jp cards).
  apply submseteq_app; [done|]. by eapply joker_combine_ok.
Qed.

Lemma straight_of_good hand g :
  flush_hand jp hand -> hand <> [] -> hand ⊆+ naturals jp cards ->
  straight_of st hand g -> good_group jp cards g.
Proof.
  intros H Hne Hsub Hg.
  assert (hand ⊆+ cards) as Hsub'
    by (etrans; [exact Hsub|]; apply sublist_submseteq, sublist_filter).
  destruct Hg as [[Hp ->]|[(js & Hjs & Hn & ->)|(front & back & -> & Hf & Hb & js & Hjs & Hn & ->)]].
  - apply pure_straight_length in Hp as Hl. split_and!; [done|done|left]. split_and!; [done| |left].
    + by apply pure_hand_good.
    + by eapply fh_sorted.
  - destruct (joker_combine_ok _ _ _ _ Hst Hjs) as (_ & Hj & _).
    destruct (high_straight_window jp hand js H Hne ltac:(lia)) as [Hl Hw].
    split_and!; simpl; [rewrite sort_cards_perm; by apply with_jokers_sub| |left].
    + rewrite sort_cards_length, length_app. lia.
    + split_and!; [done| |left; apply sort_cards_sorted].
      apply (joker_straight_good jp hand); auto.
  - destruct (joker_combine_ok _ _ _ _ Hst Hjs) as (_ & Hj & _).
    destruct (low_straight_window jp front back js H Hf Hb ltac:(lia)) as [Hl Hw].
    assert (back :: front ≡ₚ front ++ [back]) as Hp by apply Permutation_cons_append.
    split_and!; cbn [m_cards]; [rewrite sort_cards_perm, Hp; by apply with_jokers_sub| |left].
    + rewrite sort_cards_length, Hp, length_app. lia.
    + split_and!; [done| |left; apply sort_cards_sorted].
      apply (joker_straight_good jp (front ++ [back])); auto.
Qed.

Lemma straight_found_good g : straight_found st cards g -> good_group jp cards g.
Proof.
  destruct Hst as (Hjp & Hjc & Hcomb).
  intros [(k & cs & Hin & Hf)|(js & Hjs & Hl & ->)].
  - rewrite Hjp in Hf. destruct (flush_hands k cs Hin) as (H1 & H2 & Hsub).
    destruct Hf as [(hand & Hs & Hne & Hg)|(hand & Hs & Hp & ->)].
    + apply (straight_of_good hand); [by eapply flush_hand_sub|done| |done].
      apply sublist_submseteq in Hs. etrans; [exact Hs|]. etrans; [|exact Hsub].
      by apply submseteq_inserts_r.
    + apply (straight_of_good hand); [by eapply flush_hand_sub| | |by left].
      * intros ->. done.
      * apply sublist_submseteq in Hs. etrans; [exact Hs|]. etrans; [|exact Hsub].
        by apply submseteq_inserts_l.
  - destruct (joker_combine_ok _ _ _ _ Hst Hjs) as (Hsub & Hj & _).
    split_and!; simpl; [|done|left].
    + etrans; [exact Hsub|]. apply sublist_submseteq, sublist_filter.
    + split_and!; [done| |right; by apply Forall_forall].
      unfold straight_spec. simpl. rewrite naturals_jokers by done. split_and!; [lia| |constructor|left].
      * intros a b Ha. by apply not_elem_of_nil in Ha.
      * exists 0. intros c Hc. by apply not_elem_of_nil in Hc.
Qed.

(** The assertion on the number of cards selected holds. *)
Lemma flush_lengths k cs :
  (k, cs) ∈ flush_map cards ->
  (length (pop_split (m_joker_point st) cs).1 + length (m_joker_cards st) <= 14)%nat.
Proof.
  destruct Hst as (-> & Hjc & _). intros (_ & _ & Hsub)%flush_hands. rewrite Hjc.
  apply submseteq_length in Hsub. rewrite length_app in Hsub.
  pose proof (naturals_wilds_length jp cards). destruct Hreal as (_ & _ & Hl).
  unfold MAX_CARD_COUNT in Hl. lia.
Qed.
End straights.

(** ** Sets *)

(** The two vectors of [search_three_of_kind] while it reads one point. *)
Record kind_run (jp : Z) (pops reps : list PokerCard) : Prop := {
  kr_point : forall a b, a ∈ pops -> b ∈ pops -> m_point a = m_point b;
  kr_NoDup : NoDup pops;
  kr_reps : forall r, r ∈ reps -> r ∈ pops;
  kr_natural : (2 <= length pops)%nat -> forall a, a ∈ pops -> is_joker a jp = false
}.

Lemma is_joker_point a b jp : m_point a = m_point b -> is_joker a jp = is_joker b jp.
Proof. unfold is_joker. by intros ->. Qed.

Lemma kind_run_singleton jp c : kind_run jp [c] [].
Proof.
  split; [intros a b ->%list_elem_of_singleton ->%list_elem_of_singleton; done|apply NoDup_singleton| |].
  - intros r Hr. by apply not_elem_of_nil in Hr.
  - simpl. lia.
Qed.

Lemma kind_run_push jp pops reps c :
  kind_run jp pops reps -> is_joker c jp = false -> c ∉ pops ->
  match pops with [] => true | p :: _ => m_point p =? m_point c end = true ->
  kind_run jp (pops ++ [c]) reps.
Proof.
  intros [H1 H2 H3 H4] Hj Hn Hp.
  assert (forall a, a ∈ pops -> m_point a = m_point c) as Ha.
  { intros a Ha. destruct pops as [|p pops]; [by apply not_elem_of_nil in Ha|].
    rewrite (H1 a p Ha) by left. by apply Z.eqb_eq. }
  split.
  - intros a b [Hin|Hin%list_elem_of_singleton]%elem_of_app [Hin'|Hin'%list_elem_of_singleton]%elem_of_app;
      subst; auto. symmetry; auto.
  - apply NoDup_app. split_and!; [done| |apply NoDup_singleton].
    by intros x Hx ->%list_elem_of_singleton.
  - intros r Hr. apply elem_of_app. auto.
  - intros _ a [Hin|Hin%list_elem_of_singleton]%elem_of_app; [|by subst].
    by rewrite (is_joker_point a c) by auto.
Qed.

Lemma flush_run_elem pops reps s :
  s ∈ flush_run pops reps -> s = (pops, reps) /\ (2 <= length pops)%nat.
Proof.
  unfold flush_run. case_match; [|by intros ?%not_elem_of_nil].
  intros ->%list_elem_of_singleton. split; [done|lia].
Qed.

Lemma kind_runs_ok jp pops reps left_cards s :
  kind_run jp pops reps -> s ∈ kind_runs jp pops reps left_cards ->
  kind_run jp s.1 s.2 /\ (2 <= length s.1)%nat /\ s.1 ++ s.2 ⊆+ pops ++ reps ++ left_cards.
Proof.
  revert pops reps; induction left_cards as [|c left_cards IH]; intros pops reps H Hin; simpl in Hin.
  { apply flush_run_elem in Hin as [-> Hl]. split_and!; [done|done|]. simpl. by rewrite app_nil_r. }
  destruct (_ && _) eqn:E; [apply andb_true_iff in E as [E1 E2%negb_true_iff]|].
  - unfold is_card_in_group in Hin. case_bool_decide as Hc.
    + apply IH in Hin as (H1 & H2 & Hs).
      * split_and!; [done|done|]. by rewrite <- (assoc_L (++)) in Hs.
      * destruct H as [K1 K2 K3 K4]. split; [done|done| |done].
        intros r [Hr|Hr%list_elem_of_singleton]%elem_of_app; [auto|by subst].
    + apply IH in Hin as (H1 & H2 & Hs); [|by apply kind_run_push].
      split_and!; [done|done|]. rewrite Hs, <- (assoc_L (++)). simpl.
      apply submseteq_app; [done|]. by rewrite <- Permutation_middle.
  - apply elem_of_app in Hin as [Hin|Hin].
    + apply flush_run_elem in Hin as [-> Hl]. split_and!; [done|done|]. simpl.
      rewrite (assoc_L (++)). by apply submseteq_inserts_r.
    + apply IH in Hin as (H1 & H2 & Hs); [|apply kind_run_singleton].
      split_and!; [done|done|]. rewrite Hs. simpl. by do 2 apply submseteq_inserts_l.
Qed.

Section sets.
Context (jp : Z) (cards : list PokerCard) (st : SearchState).
Context (Hreal : real_hand cards) (Hst : joker_ok jp cards st).

(** Two cards or more of one point, none wild, with wild cards or without. *)
Lemma kind_hand_good pops reps hand js :
  kind_run jp pops reps -> (2 <= length pops)%nat -> (hand `sublist_of` pops \/ hand `sublist_of` reps) ->
  NoDup reps -> (2 <= length hand)%nat -> (forall c, c ∈ js -> is_joker c jp = true) ->
  good_kind jp (mkGroup GroupType.GROUP_THREE_KIND (hand ++ js)).
Proof.
  intros [H1 H2 H3 H4] Hl Hs Hr Hh Hj. unfold good_kind. simpl.
  assert (forall c, c ∈ hand -> c ∈ pops) as Hin.
  { intros c Hc. destruct Hs as [Hs|Hs]; [|apply H3]; by eapply elem_of_sublist. }
  rewrite naturals_app, (naturals_jokers jp js), app_nil_r, naturals_id by (auto || done).
  split_and!; [done|done|auto|].
  assert (NoDup hand) as Hn by (destruct Hs; eauto using sublist_NoDup).
  apply NoDup_fmap_2_strong; [|done]. intros a b Ha Hb Hab.
  assert (m_point a = m_point b) by auto. destruct a, b. simpl in *. by subst.
Qed.

Lemma kind_found_good g : kind_group_found st cards g -> good_group jp cards g.
Proof.
  destruct Hst as (Hjp & _). intros ([pops reps] & Hin & Hg). rewrite Hjp in Hin.
  apply kind_runs_ok in Hin as (Hrun & Hl & Hsub).
  2:{ split; [intros a b []%not_elem_of_nil|constructor|intros r []%not_elem_of_nil|simpl; lia]. }
  simpl in Hrun, Hl, Hsub. rewrite sort_cards_perm in Hsub.
  assert (NoDup reps) as Hnd by (eapply repeats_NoDup; [exact Hreal|done|apply Hrun]).
  assert (forall hand, hand `sublist_of` pops \/ hand `sublist_of` reps -> hand ⊆+ naturals jp cards) as Hnat.
  { intros hand Hs.
    assert (hand ⊆+ pops ++ reps) as Hs'.
    { destruct Hs as [Hs%sublist_submseteq|Hs%sublist_submseteq];
        [by apply submseteq_inserts_r|by apply submseteq_inserts_l]. }
    assert (naturals jp (pops ++ reps) = pops ++ reps) as En.
    { apply naturals_id. destruct Hrun as [_ _ H3 H4].
      intros c [Hc|Hc]%elem_of_app; apply H4; auto. }
    etrans; [exact Hs'|]. rewrite <- En. apply submseteq_Permutation in Hsub as [r Hr].
    rewrite Hr, (naturals_app _ (pops ++ reps) r). by apply submseteq_inserts_r. }
  destruct Hg as [(hand & Hs & Hlen & [[Hl3 ->]|(js & Hjs & ->)])|(hand & Hs & Hlen & ->)]; cbn [fst snd] in Hs.
  - split_and!; [|done|right].
    + etrans; [apply Hnat; by left|]. apply sublist_submseteq, sublist_filter.
    + rewrite <- (app_nil_r hand). apply (kind_hand_good pops reps); auto; [lia|].
      intros c Hc. by apply not_elem_of_nil in Hc.
  - destruct (joker_combine_ok _ _ _ _ Hst Hjs) as (Hsj & Hj & Hlj).
    split_and!; [|simpl; rewrite length_app; lia|right].
    + simpl. apply (with_jokers_sub jp cards st Hst); [|done]. apply Hnat. by left.
    + apply (kind_hand_good pops reps); auto. lia.
  - split_and!; [|simpl; lia|right].
    + etrans; [apply Hnat; by right|]. apply sublist_submseteq, sublist_filter.
    + rewrite <- (app_nil_r hand). apply (kind_hand_good pops reps); auto; [lia|].
      intros c Hc. by apply not_elem_of_nil in Hc.
Qed.
End sets.

(** ** Removing groups *)

Lemma remove_cards_perm g cards : m_cards g ⊆+ cards -> m_cards g ++ remove_cards g cards ≡ₚ cards.
Proof. apply foldl_erase_present. Qed.

Lemma erase_present_cons (c d : PokerCard) l :
  erase_present c (d :: l) = if decide (c = d) then l else d :: erase_present c l.
Proof.
  unfold erase_present. simpl. case_decide; [done|]. by destruct (erase_first c l).
Qed.

Lemma wilds_cons jp c l : wilds jp (c :: l) = if is_joker c jp then c :: wilds jp l else wilds jp l.
Proof. unfold wilds. rewrite filter_cons. by destruct (is_joker c jp). Qed.

Lemma wilds_erase jp c cards :
  wilds jp (erase_present c cards) = erase_present c (wilds jp cards).
Proof.
  induction cards as [|d cards IH]; [done|].
  rewrite erase_present_cons, wilds_cons. case_decide as E; [subst d|].
  - destruct (is_joker c jp) eqn:Ej; [by rewrite erase_present_cons, decide_True|].
    unfold erase_present. rewrite (proj2 (erase_first_None c (wilds jp cards))); [done|].
    rewrite elem_of_wilds. intros [? _]. congruence.
  - rewrite wilds_cons, IH. destruct (is_joker d jp); [|done].
    by rewrite erase_present_cons, decide_False.
Qed.

(** The wild cards are removed from [m_joker_cards] in step with the hand. *)
Lemma wilds_remove jp g cards : wilds jp (remove_cards g cards) = remove_cards g (wilds jp cards).
Proof.
  unfold remove_cards. generalize (m_cards g) as cs. intros cs. revert cards.
  induction cs as [|c cs IH]; intros cards; simpl; [done|]. by rewrite IH, wilds_erase.
Qed.

Lemma list_insert_perm (arr : list PokerCard) i c d :
  arr !! i = Some c -> c :: <[i := d]> arr ≡ₚ d :: arr.
Proof.
  intros Hi. rewrite <- (list_insert_id arr i c Hi) at 2. apply lookup_lt_Some in Hi.
  rewrite !insert_take_drop by done. rewrite <- !Permutation_middle. apply Permutation_swap.
Qed.

(** Crossing out decides containment, for groups without the blank card. *)
Lemma cross_out_sub arr cs :
  default_card ∉ cs -> cross_out arr cs = true <-> cs ⊆+ arr.
Proof.
  revert arr; induction cs as [|c cs IH]; intros arr Hd; simpl; [split; [intros; apply submseteq_nil_l|done]|].
  apply not_elem_of_cons in Hd as [Hc Hd].
  destruct (list_find (fun d => d = c) arr) as [[i d]|] eqn:E.
  - apply list_find_Some in E as (Hi & -> & _). rewrite IH by done.
    pose proof (list_insert_perm arr i c default_card Hi) as Hp.
    assert (exists rest, arr ≡ₚ c :: rest /\ <[i := default_card]> arr ≡ₚ default_card :: rest) as (rest & H1 & H2).
    { exists (delete i arr). split; [by apply delete_Permutation|].
      apply (Permutation_cons_inv (a := c)). rewrite Hp, (delete_Permutation arr i c Hi) at 1.
      apply Permutation_swap. }
    rewrite H2, H1. clear H1 H2 Hp. split.
    + intros Hs. apply submseteq_skip. apply submseteq_cons_r in Hs as [?|(k & Hk & ?)]; [done|].
      destruct Hd. rewrite Hk. left.
    + intros Hs. apply submseteq_cons. by apply (submseteq_app_inv_l _ _ [c]).
  - split; [done|]. intros Hs. apply list_find_None in E.
    assert (c ∈ arr) as Hin by (eapply elem_of_submseteq; [|exact Hs]; left).
    rewrite Forall_forall in E. by destruct (E c Hin).
Qed.

Lemma cross_out_hand cards n cs :
  default_card ∉ cs -> cross_out (cards ++ replicate n default_card) cs = true <-> cs ⊆+ cards.
Proof.
  intros Hd. rewrite cross_out_sub by done. split.
  - intros Hs. apply submseteq_app_r in Hs as (k1 & k2 & Hk & H1 & H2).
    assert (k2 = []) as ->; [|by rewrite Hk, app_nil_r].
    destruct k2 as [|c k2]; [done|]. exfalso. apply Hd. rewrite Hk.
    assert (c ∈ replicate n default_card) as Hin by (eapply elem_of_submseteq; [|exact H2]; left).
    apply elem_of_replicate in Hin as [-> _]. set_solver.
  - intros Hs. by apply submseteq_inserts_r.
Qed.

(** [remove_card_group] keeps the groups that the remaining cards still hold. *)
Lemma remove_card_group_filter cards groups out :
  (length cards <= MAX_CARD_COUNT)%nat ->
  (forall g, g ∈ groups -> default_card ∉ m_cards g) ->
  returns (remove_card_group cards groups out)
    (fun out' => forall g, g ∈ out' <-> g ∈ out \/ g ∈ groups /\ m_cards g ⊆+ cards).
Proof.
  intros Hl Hd. unfold remove_card_group. eapply returns_mono.
  - apply (collects_mfold _ (fun it g => g = it /\ m_cards g ⊆+ cards)). intros it Hin acc.
    rewrite (proj2 (Nat.leb_le _ _)) by done. simpl. apply returns_ret. intros g.
    pose proof (cross_out_hand cards (MAX_CARD_COUNT - length cards) (m_cards it) (Hd it Hin)) as Hx.
    destruct (cross_out _ _).
    + rewrite elem_of_app, list_elem_of_singleton. split; [|naive_solver].
      intros [?| ->]; [by left|right]. split; [done|]. by apply Hx.
    + split; [by left|]. intros [?|[-> H]]; [done|]. by apply Hx in H.
  - intros out' Ho g. specialize (Ho g). cbv beta in Ho. rewrite Ho. naive_solver.
Qed.

(** ** A short first life *)

(** Wild cards alone are never a pure straight. *)
Lemma jokers_not_pure jp cards :
  Forall (fun c => is_joker c jp = true) cards -> is_cards_pure_straight cards = false.
Proof.
  intros Hj. apply not_true_is_false. intros Hp. destruct cards as [|c l]; [done|].
  apply pure_straight_iff in Hp as (Hl & Hc & Hr).
  inversion Hj as [|? ? Hjc Hjl]; subst. unfold is_joker in Hjc.
  assert (forall d, d ∈ l -> m_point d < PokerPoint.JOKER1 -> m_point d = jp) as Hd.
  { intros d Hd Hlt. rewrite Forall_forall in Hjl. specialize (Hjl d Hd). unfold is_joker in Hjl. lia. }
  destruct l as [|d l]; [simpl in Hl; lia|]. destruct Hr as [(_ & Hp & Hlt & _)|Hr].
  - specialize (Hd d ltac:(left) Hlt). lia.
  - destruct Hr as ([|e l1] & a & l2 & E & Hr & Hc2 & _ & Ha & _); simpl in E; injection E as <- E.
    + specialize (Hd d ltac:(left)). unfold PokerPoint.P2, PokerPoint.A, PokerPoint.JOKER1 in *. lia.
    + destruct Hr as (_ & Hp & Hlt & _). specialize (Hd d ltac:(left) Hlt). lia.
Qed.

Lemma pure_straight_take c l :
  is_cards_pure_straight (c :: l) = true -> is_cards_pure_straight (take 3 (c :: l)) = true.
Proof.
  assert (forall f x k n, pure_straight_scan f x k = true -> pure_straight_scan f x (take n k) = true) as Hscan.
  { intros f x k. revert x. induction k as [|d k IH]; intros x [|n]; simpl; try done.
    case_match; [done|]. case_match; [done|]. apply IH. }
  intros Hp. pose proof (pure_straight_length _ Hp) as Hl. unfold is_cards_pure_straight in *.
  rewrite length_take. destruct (Z.ltb_spec (Z.of_nat (length (c :: l))) 3); [done|].
  replace (_ <? 3) with false by lia. simpl. by apply Hscan.
Qed.

Lemma sorted_naturals_unique jp h js g :
  StronglySorted card_le h -> (forall c, c ∈ h -> is_joker c jp = false) ->
  (forall c, c ∈ js -> is_joker c jp = true) -> StronglySorted card_le g -> g ≡ₚ h ++ js ->
  naturals jp g = h.
Proof.
  intros Hh Hn Hj Hg Hp.
  rewrite (sort_cards_unique h (naturals jp g)); [by apply sort_cards_id| |by apply naturals_sorted].
  rewrite Hp, naturals_app, (naturals_jokers jp js), app_nil_r, naturals_id by done. done.
Qed.

Section short_life.
Context (jp : Z) (cards : list PokerCard) (st : SearchState).
Context (Hreal : real_hand cards) (Hst : joker_ok jp cards st).

(** Three cards of a pure straight with a wild card among them need no more
    wild cards than they have. *)
Lemma pair_need (t : list PokerCard) x y :
  StronglySorted card_le t -> length t = 3%nat -> is_cards_pure_straight t = true ->
  x ∈ t -> y ∈ t -> flush_hand jp [x; y] ->
  fill_need [x; y] = 1 \/ m_point y = PokerPoint.A /\ fill_need [y; x] = 1.
Proof.
  intros Hs Hl Hp Hx Hy Hf. pose proof (flush_hand_lt _ _ _ _ Hf) as Hlt.
  pose proof (flush_hand_range _ _ x Hf ltac:(left)) as Hxr.
  destruct t as [|a [|b [|c [|? ?]]]]; try done.
  apply pure_straight_iff in Hp as (_ & _ & Hr).
  assert (m_point y - m_point x <= 2 \/ m_point y = PokerPoint.A /\ m_point x <= 3) as Hgap.
  { inversion Hs as [|? ? Hs' _]; subst. inversion Hs' as [|? ? _ Hbc]; subst.
    inversion Hbc as [|? ? Hbc' _]; subst. unfold card_le in Hbc'.
    unfold ace_low_run, PokerPoint.JOKER1, PokerPoint.A, PokerPoint.P2 in *.
    destruct Hr as [(_ & Hb & _ & _ & Hc & _)|([|d [|e l1]] & z & l2 & E & Hr & Ha & _ & Hz & _)].
    - set_unfold. destruct Hx as [-> |[-> |[-> |[]]]], Hy as [-> |[-> |[-> |[]]]]; lia.
    - injection E as -> _. set_unfold.
      destruct Hx as [-> |[-> |[-> |[]]]], Hy as [-> |[-> |[-> |[]]]]; lia.
    - injection E as -> -> _. destruct Hr as (_ & Hb & _). set_unfold.
      destruct Hx as [-> |[-> |[-> |[]]]], Hy as [-> |[-> |[-> |[]]]]; lia.
    - injection E as _ _ E. by destruct l1. }
  unfold fill_need. cbn [length fill_gaps]. unfold PokerPoint.A, PokerPoint.JOKER1, PokerPoint.P2 in *.
  destruct Hgap as [Hgap|[-> Hgap]]; [left|right; split; [done|]];
    ((rewrite (proj2 (Z.eqb_neq (m_point x) 14)) by lia) || rewrite Z.eqb_refl); repeat case_match; lia.
Qed.

Lemma short_joker_straight k cs h js g :
  (k, cs) ∈ flush_map cards -> h `sublist_of` (pop_split jp cs).1 -> js ∈ m_joker_combines st ->
  StronglySorted card_le g -> g ≡ₚ h ++ js -> is_cards_pure_straight g = true ->
  exists g', straight_found st cards g' /\ is_cards_pure_straight (m_cards g') = true /\
             length (m_cards g') = 3%nat.
Proof.
  intros Hin Hsub Hjs Hs Hp Hpure. destruct Hst as (Hjp & Hjc & Hcomb).
  destruct (flush_hands jp cards st Hreal Hst k cs Hin) as (Hfl & _ & _).
  pose proof (flush_hand_sub _ _ _ Hsub Hfl) as Hfh.
  destruct (joker_combine_ok _ _ _ _ Hst Hjs) as (_ & Hj & _).
  pose proof (sorted_naturals_unique jp h js g (fh_sorted _ _ Hfh) (fh_natural _ _ Hfh) Hj Hs Hp) as Hn.
  destruct g as [|c l]; [done|]. set (t := take 3 (c :: l)).
  assert (is_cards_pure_straight t = true) as Hpt by by apply pure_straight_take.
  assert (length t = 3%nat) as Hlt
    by (unfold t; rewrite length_take; pose proof (pure_straight_length _ Hpure); lia).
  assert (t `sublist_of` c :: l) as Htg by apply sublist_take.
  assert (StronglySorted card_le t) as Hts by by eapply StronglySorted_sublist.
  assert (naturals jp t `sublist_of` h) as Hnt.
  { rewrite <- Hn. unfold t. rewrite <- (take_drop 3 (c :: l)) at 2.
    rewrite naturals_app. by apply sublist_inserts_r. }
  assert (exists js', js' `sublist_of` js /\ js' ≡ₚ wilds jp t) as (js' & Hjs' & Hjt).
  { assert (wilds jp t ⊆+ js) as (js' & H1 & H2)%submseteq_sublist_r; [|by exists js'].
    apply (submseteq_app_inv_l _ _ h). rewrite <- Hp, <- (naturals_wilds_perm jp (c :: l)), Hn.
    apply submseteq_app; [done|]. unfold t. rewrite <- (take_drop 3 (c :: l)) at 2.
    unfold wilds. rewrite filter_app. by apply submseteq_inserts_r. }
  assert (forall f, f ≡ₚ naturals jp t -> sort_cards (f ++ js') = t) as Hsort.
  { intros f Hf. symmetry. apply sort_cards_unique; [|done].
    by rewrite Hf, Hjt, naturals_wilds_perm. }
  assert (Hlen : (length (naturals jp t) + length js' = 3)%nat).
  { rewrite Hjt, naturals_wilds_length. done. }
  assert (forall g', straight_of st (naturals jp t) g' -> naturals jp t <> [] -> m_cards g' = t ->
    exists g', straight_found st cards g' /\ is_cards_pure_straight (m_cards g') = true /\
               length (m_cards g') = 3%nat) as Hfound.
  { intros g' Hg' Hne E. exists g'. rewrite E. split_and!; [|done|done].
    left. exists k, cs. rewrite Hjp. split; [done|]. left. exists (naturals jp t).
    split_and!; [by etrans|done|done]. }
  assert (naturals jp t <> []) as Hne.
  { intros E. apply not_false_iff_true in Hpt. apply Hpt, (jokers_not_pure jp).
    apply Forall_forall. intros d Hd. apply not_false_iff_true. intros Hdj.
    assert (d ∈ naturals jp t) as Hd' by by apply elem_of_naturals. rewrite E in Hd'.
    by apply not_elem_of_nil in Hd'. }
  assert (js' <> [] -> js' ∈ m_joker_combines st /\
          (length js' <= length (m_joker_cards st))%nat) as Hcj.
  { intros Hj'. apply Hcomb in Hjs as [Hjs _].
    assert (js' `sublist_of` m_joker_cards st) as Hs' by by etrans.
    split; [by apply Hcomb|by apply sublist_length]. }
  destruct (naturals jp t) as [|x [|y [|z nt]]] eqn:En; [done|..].
  - assert (length js' = 2%nat) as Hl2 by (simpl in Hlen; lia).
    destruct (Hcj ltac:(by intros ->)) as [Hc1 Hc2].
    apply (Hfound (mkGroup GroupType.GROUP_STAIGHT t)); [|done|done].
    right; left. exists js'. rewrite (Hsort [x]) by done. split_and!; [done| |lia|done].
    rewrite Hl2. done.
  - assert (length js' = 1%nat) as Hl1 by (simpl in Hlen; lia).
    destruct (Hcj ltac:(by intros ->)) as [Hc1 Hc2].
    apply (Hfound (mkGroup GroupType.GROUP_STAIGHT t)); [|done|done].
    assert (forall d, d ∈ [x; y] -> d ∈ t) as Hint.
    { intros d Hd. rewrite <- En in Hd. by apply elem_of_naturals in Hd as [_ ?]. }
    destruct (pair_need t x y) as [Hneed|[Ha Hneed]]; try done; try (apply Hint; set_solver).
    + by eapply flush_hand_sub.
    + right; left. exists js'. rewrite (Hsort [x; y]) by done. split_and!; [done|lia|lia|done].
    + right; right. exists [x], y. split_and!; [done|done|done|].
      exists js'. rewrite (Hsort [y; x]) by apply Permutation_swap. split_and!; [done|lia|lia|done].
  - assert (js' = []) as -> by (destruct js'; [done|simpl in Hlen; lia]).
    assert (naturals jp t = t) as Ent.
    { rewrite <- (Hsort _ (reflexivity _)) at 2. rewrite app_nil_r, sort_cards_id; [done|].
      rewrite <- En. by apply naturals_sorted. }
    apply (Hfound (mkGroup GroupType.GROUP_STAIGHT t)); [|done|done].
    left. by rewrite <- En, Ent.
Qed.

Lemma short_first_life g :
  straight_found st cards g -> is_cards_pure_straight (m_cards g) = true ->
  exists g', straight_found st cards g' /\ is_cards_pure_straight (m_cards g') = true /\
             length (m_cards g') = 3%nat.
Proof.
  assert (forall h : list PokerCard, is_cards_pure_straight h = true ->
    take 3 h `sublist_of` h /\ take 3 h <> [] /\ length (take 3 h) = 3%nat /\
    is_cards_pure_straight (take 3 h) = true) as Htake.
  { intros [|c l] Hp; [done|]. split_and!; [apply sublist_take|done| |by apply pure_straight_take].
    apply pure_straight_length in Hp. rewrite length_take. lia. }
  destruct Hst as (Hjp & Hjc & Hcomb).
  intros [(k & cs & Hin & Hf)|(js & Hjs & Hl & ->)] Hp.
  2:{ destruct (joker_combine_ok _ _ _ _ Hst Hjs) as (_ & Hj & _). simpl in Hp.
      rewrite (jokers_not_pure jp) in Hp; [done|]. by apply Forall_forall. }
  rewrite Hjp in Hf.
  destruct Hf as [(h & Hs & Hne & Hg)|(h & Hs & Hph & ->)].
  - destruct Hg as [[Hph ->]|[(js & Hjs & Hn & ->)|(front & back & -> & Hf & Hb & js & Hjs & Hn & ->)]].
    + destruct (Htake h Hph) as (H1 & H2 & H3 & H4).
      exists (mkGroup GroupType.GROUP_STAIGHT (take 3 h)). split_and!; [|done|done].
      left. exists k, cs. rewrite Hjp. split; [done|]. left. exists (take 3 h).
      split_and!; [by etrans|done|by left].
    + eapply (short_joker_straight k cs h js); [done|done|done|apply sort_cards_sorted| |done].
      apply sort_cards_perm.
    + eapply (short_joker_straight k cs (front ++ [back]) js);
        [done|done|done|apply sort_cards_sorted| |done].
      cbn [m_cards]. rewrite sort_cards_perm. by rewrite (Permutation_cons_append front back).
  - destruct (Htake h Hph) as (H1 & H2 & H3 & H4).
    exists (mkGroup GroupType.GROUP_STAIGHT (take 3 h)). split_and!; [|done|done].
    left. exists k, cs. rewrite Hjp. split; [done|]. right. exists (take 3 h).
    split_and!; [by etrans|done|done].
Qed.
End short_life.
