(* ===== verification/Hand.v ===== *)
(** * Arranging a hand

    Models [search_all_group] and its callers [default_declare] of
    gamesvr/Combination.cpp: the enumeration of the ways to lay down a hand as
    a first life (a pure straight), a second life (a straight), up to two more
    groups and the loose cards.  The nested loops of [search_all_group] are one
    definition per loop body; a [return] from the innermost one leaves them
    all. *)
From Stdlib Require Import ZArith Lia.
From stdpp Require Import base tactics numbers sorting option sets list.
From S2P Require Import Prelude Cards Choices Dealer Straight Declare Search Found.

(** ** Data *)

Record CombinationInfo : Set := mkInfo {
  m_score : Z;
  m_card_group : list CardGroup;
  m_valid_cards : list PokerCard;
  m_is_has_firtlife : bool;
  m_is_has_secondelife : bool
}.

(** [CombinationInfo()] *)
Definition default_info : CombinationInfo := mkInfo 0 [] [] false false.

(** The members of [Combination] that the loops update and the result vector. *)
Definition SearchAll : Set := SearchState * list CombinationInfo.

(** [m_joker_combines] for the joker cards [joker_cards]. *)
Definition joker_state (jp : Z) (joker_cards : list PokerCard) : outcome SearchState :=
  combines ← caculate_all_cards_combines joker_cards 1 (Z.of_nat (length joker_cards)) [];
  mret (mkSearch jp joker_cards combines).

(** A combination of groups that leaves [cards] loose. *)
Definition loose_comb (jp : Z) (groups : list CardGroup) (cards : list PokerCard)
    (first second : bool) : CombinationInfo :=
  let '(onegroup, score) := gen_valid_card_group jp cards in
  mkInfo score (groups ++ [onegroup]) cards first second.

(** A combination that uses every card. *)
Definition full_comb (groups : list CardGroup) : CombinationInfo := mkInfo 0 groups [] true true.

(** [valid_card_num_stop >= 0 && valid_card_num_stop >= size], on [size_t]. *)
Definition stops (valid_card_num_stop : Z) (s : SearchAll) (cards : list PokerCard)
  : outcome (flow SearchAll) :=
  mret (if Z.of_nat (length cards) <=? valid_card_num_stop then Return s else Next s).

Section search.
Variables (all_cards : list PokerCard) (valid_card_num_stop : Z).

(** The body of the loop over [all_group3]. *)
Definition fourth_group (groups : list CardGroup) (cards3 : list PokerCard)
    (s : SearchAll) (it3 : CardGroup) : outcome (flow SearchAll) :=
  let '(st, card_combs) := s in
  let cards4 := remove_cards it3 cards3 in
  if decide (cards4 = []) then mret (Return (st, card_combs ++ [full_comb (groups ++ [it3])]))
  else
    _ ← assert_that ((0 <? Z.of_nat (length cards4)) && (Z.of_nat (length cards4) <? 3));
    let onecomb := loose_comb (m_joker_point st) (groups ++ [it3]) cards4 true true in
    stops valid_card_num_stop (st, card_combs ++ [onecomb]) cards4.

(** The body of the loop over [all_group2]. *)
Definition third_group (groups all_group2 : list CardGroup) (cards2 : list PokerCard)
    (s : SearchAll) (it2 : CardGroup) : outcome (flow SearchAll) :=
  let '(st, card_combs) := s in
  let cards3 := remove_cards it2 cards2 in
  if decide (cards3 = []) then mret (Return (st, card_combs ++ [full_comb (groups ++ [it2])]))
  else
    all_group3 ← remove_card_group cards3 all_group2 [];
    if decide (all_group3 = []) then
      let onecomb := loose_comb (m_joker_point st) (groups ++ [it2]) cards3 true true in
      stops valid_card_num_stop (st, card_combs ++ [onecomb]) cards3
    else for_each (fourth_group (groups ++ [it2]) cards3) (st, card_combs) all_group3.

(** The body of the loop over [secondlife_group]. *)
Definition second_group (it : CardGroup) (cards1 joker_cards1 : list PokerCard)
    (s : SearchAll) (itSecond : CardGroup) : outcome (flow SearchAll) :=
  let '(st, card_combs) := s in
  let cards2 := remove_cards itSecond cards1 in
  let joker_cards2 := remove_cards itSecond joker_cards1 in
  let groups := [it; itSecond] in
  if decide (cards2 = []) then mret (Return (st, card_combs ++ [full_comb groups]))
  else
    st ← (if decide (m_joker_cards st = joker_cards2) then mret st
          else joker_state (m_joker_point st) joker_cards2);
    all_group2 ← search_straight_flush st cards2 [];
    all_group2 ← search_three_of_kind st cards2 all_group2;
    if decide (all_group2 = []) then
      let onecomb := loose_comb (m_joker_point st) groups cards2 true true in
      stops valid_card_num_stop (st, card_combs ++ [onecomb]) cards2
    else for_each (third_group groups all_group2 cards2) (st, card_combs) all_group2.

(** The body of the loop over [fistlife_group]. *)
Definition first_group (strai_group : list CardGroup) (all_joker_cards : list PokerCard)
    (s : SearchAll) (it : CardGroup) : outcome (flow SearchAll) :=
  let '(st, card_combs) := s in
  let cards1 := remove_cards it all_cards in
  let joker_cards1 := remove_cards it all_joker_cards in
  if decide (cards1 = []) then mret (Next s)
  else
    secondlife_group ← remove_card_group cards1 strai_group [];
    if decide (secondlife_group = []) then
      mret (Next (st, card_combs ++ [loose_comb (m_joker_point st) [it] cards1 true false]))
    else for_each (second_group it cards1 joker_cards1) (st, card_combs) secondlife_group.

Definition search_all_group (jp : Z) (card_combs : list CombinationInfo)
  : outcome SearchAll :=
  let all_joker_cards := search_joker_cards jp all_cards [] in
  st ← joker_state jp all_joker_cards;
  strai_group ← search_straight_flush st all_cards [];
  let fistlife_group := search_pure_straight_flush strai_group [] in
  if decide (fistlife_group = []) then
    mret (st, card_combs ++ [loose_comb jp [] all_cards false false])
  else
    r ← for_each (first_group strai_group all_joker_cards) (st, card_combs) fistlife_group;
    mret (flow_state r).
End search.

(** The loop that keeps the first combination of the least score. *)
Definition min_comb (best it : CombinationInfo) : CombinationInfo :=
  if m_score it <? m_score best then it else best.

(** [score] and [card_group]. *)
Definition default_declare (hand_card : list PokerCard) (joker_point : Z)
  : outcome (Z * list CardGroup) :=
  '(_, card_combs) ← search_all_group hand_card 0 joker_point [];
  match card_combs with
  | [] => Fault AssertFailed
  | front :: _ =>
      back ← access (last card_combs);
      if m_score back =? 0 then mret (m_score back, m_card_group back)
      else
        let it_min := foldl min_comb front card_combs in
        mret (m_score it_min, m_card_group it_min)
  end.

Example declare_small :
  default_declare [spade 2; spade 3; spade 4; mkCard 2 9] 7 =
    Ok (9, [mkGroup 1 [spade 2; spade 3; spade 4]; mkGroup 0 [mkCard 2 9]]).
Proof. vm_compute. reflexivity. Qed.

(** ** The combinations of a hand *)

Definition good_meld (jp : Z) (g : CardGroup) : Prop :=
  (3 <= length (m_cards g))%nat /\ (good_straight jp g \/ good_kind jp g).

Definition first_life (jp : Z) (g : CardGroup) : Prop :=
  good_meld jp g /\ good_straight jp g /\ is_cards_pure_straight (sort_cards (m_cards g)) = true.

(** The groups of a combination and its two flags: a first life, a second life,
    then any melds. *)
Definition lives (jp : Z) (melds : list CardGroup) (first second : bool) : Prop :=
  match melds with
  | [] => first = false /\ second = false
  | [g1] => first_life jp g1 /\ first = true /\ second = false
  | g1 :: g2 :: rest =>
      first_life jp g1 /\ good_meld jp g2 /\ good_straight jp g2 /\ Forall (good_meld jp) rest /\
      first = true /\ second = true
  end.

(** A combination lays down the whole hand: melds, then the loose cards. *)
Definition comb_ok (jp : Z) (hand : list PokerCard) (info : CombinationInfo) : Prop :=
  exists melds loose,
    m_card_group info = melds ++ loose /\ (length melds <= 4)%nat /\
    lives jp melds (m_is_has_firtlife info) (m_is_has_secondelife info) /\
    concat (m_cards <$> m_card_group info) ≡ₚ hand /\
    m_score info = caculate_card_score (m_valid_cards info) jp /\
    (loose = [] /\ m_valid_cards info = [] \/
     loose = [mkGroup GroupType.GROUP_INVALID (m_valid_cards info)]).

Lemma first_life_intro jp cards g :
  good_group jp cards g -> is_cards_pure_straight (m_cards g) = true -> good_straight jp g ->
  first_life jp g.
Proof.
  intros (_ & Hl & Hg) Hp Hs. split; [by split|]. split; [done|].
  destruct Hs as (_ & _ & [Hsort|Hj]); [by rewrite sort_cards_id|].
  apply jokers_not_pure in Hj. congruence.
Qed.

Lemma loose_comb_ok jp hand melds cards first second :
  (length melds <= 4)%nat ->
  lives jp melds first second -> concat (m_cards <$> melds) ++ cards ≡ₚ hand ->
  comb_ok jp hand (loose_comb jp melds cards first second).
Proof.
  intros H4 Hl Hp. exists melds, [mkGroup GroupType.GROUP_INVALID cards].
  split_and!; simpl; [done|done|done| |done|by right].
  by rewrite fmap_app, concat_app; csimpl; rewrite app_nil_r.
Qed.

Lemma full_comb_ok jp hand melds :
  (length melds <= 4)%nat ->
  lives jp melds true true -> concat (m_cards <$> melds) ≡ₚ hand -> comb_ok jp hand (full_comb melds).
Proof.
  intros H4 Hl Hp. exists melds, []. split_and!; simpl; [by rewrite app_nil_r|done..|by left].
Qed.

(** Adding a meld after the two lives. *)
Lemma lives_snoc jp melds g :
  lives jp melds true true -> good_meld jp g -> lives jp (melds ++ [g]) true true.
Proof.
  destruct melds as [|g1 [|g2 rest]]; simpl; [naive_solver|naive_solver|].
  intros (? & ? & ? & Hr & _ & _) Hg. split_and!; try done. apply Forall_app. split; [done|].
  by constructor.
Qed.

(** A combination has at most four melds. *)
Ltac meld_count := rewrite ?length_app; cbn [length] in *; lia.

(** ** The loops *)

Section search_all.
Context (jp : Z) (hand : list PokerCard) (stop : Z).
Context (Hhand : real_hand hand).

Definition combines_ok (st : SearchState) : Prop :=
  m_joker_point st = jp /\
  (forall js, js ∈ m_joker_combines st <-> js `sublist_of` m_joker_cards st /\ js <> []).

Definition search_inv (s : SearchAll) : Prop := combines_ok s.1 /\ Forall (comb_ok jp hand) s.2.

(** After a loop body that reached a combination, some combination is there. *)
Definition search_found (s : SearchAll) : Prop := search_inv s /\ s.2 <> [].

Definition flow_inv (r : flow SearchAll) : Prop := search_found (flow_state r).

Lemma push_comb st combs info :
  search_inv (st, combs) -> comb_ok jp hand info -> search_found (st, combs ++ [info]).
Proof.
  intros [H1 H2] Hi. split; [|by destruct combs]. split; [done|]. apply Forall_app.
  split; [done|]. by constructor.
Qed.

Lemma stops_inv s cards : search_found s -> returns (stops stop s cards) flow_inv.
Proof. intros H. unfold stops. apply returns_ret. unfold flow_inv. by case_match. Qed.

(** A loop over some candidates, each of which gives a combination. *)
Lemma for_each_found {A} (body : SearchAll -> A -> outcome (flow SearchAll)) s l :
  search_inv s -> l <> [] -> (forall s a, a ∈ l -> search_inv s -> returns (body s a) flow_inv) ->
  returns (for_each body s l) flow_inv.
Proof.
  intros Hs Hne Hb. destruct l as [|a l]; [done|]. simpl.
  eapply returns_bind; [apply Hb; [left|done]|]. intros [s'|s'] Hr; [|by apply returns_ret].
  eapply returns_mono; [apply (returns_for_each search_found search_found); [done|]|].
  - intros s'' a' Hin [Hs'' _]. eapply returns_mono; [apply Hb; [by right|done]|]. by intros [?|?] ?.
  - by intros [?|?] ?.
Qed.

(** The outermost loop passes over the candidates for which [P] fails. *)
Definition flow_opt (P : Prop) (s : SearchAll) (r : flow SearchAll) : Prop :=
  search_inv (flow_state r) /\
  match r with Next s' => s.2 <> [] \/ P -> s'.2 <> [] | Return s' => s'.2 <> [] end.

Lemma for_each_opt {A} (body : SearchAll -> A -> outcome (flow SearchAll)) (P : A -> Prop) s l :
  search_inv s ->
  (forall s a, a ∈ l -> search_inv s -> returns (body s a) (flow_opt (P a) s)) ->
  returns (for_each body s l) (flow_opt (exists a, a ∈ l /\ P a) s).
Proof.
  revert s; induction l as [|a l IH]; intros s Hs Hb; simpl.
  - apply returns_ret. split; [done|]. intros [?|(a & Ha & _)]; [done|by apply not_elem_of_nil in Ha].
  - eapply returns_bind; [apply Hb; [left|done]|]. intros [s'|s'] [H1 H2]; [|by apply returns_ret].
    eapply returns_mono; [apply IH; [done|]; intros; apply Hb; [by right|done]|].
    intros [s''|s''] [H3 H4]; [split; [done|]|by split]. intros H5. apply H4.
    destruct H5 as [H5|(a' & [-> |Hin]%elem_of_cons & HP)]; [left; auto|left; auto|right; eauto].
Qed.

Lemma joker_state_ok jokers :
  returns (joker_state jp jokers) (fun st => combines_ok st /\ m_joker_cards st = jokers).
Proof.
  unfold joker_state. eapply returns_bind; [apply all_cards_combines|].
  intros out Ho. apply returns_ret. split; [|done]. split; [done|]. exact Ho.
Qed.

(** What is left of the hand after some melds. *)
Definition rest_of (melds : list CardGroup) (cards : list PokerCard) : Prop :=
  concat (m_cards <$> melds) ++ cards ≡ₚ hand.

Lemma rest_of_sub melds cards : rest_of melds cards -> cards ⊆+ hand.
Proof. unfold rest_of. intros <-. by apply submseteq_inserts_l. Qed.

Lemma rest_of_real melds cards : rest_of melds cards -> real_hand cards.
Proof. intros H. eapply real_hand_sub; [by eapply rest_of_sub|done]. Qed.

Lemma rest_of_remove melds cards g :
  rest_of melds cards -> m_cards g ⊆+ cards -> rest_of (melds ++ [g]) (remove_cards g cards).
Proof.
  unfold rest_of. intros <- Hg. rewrite fmap_app, concat_app. csimpl.
  by rewrite app_nil_r, <- (assoc_L (++)), (remove_cards_perm g cards Hg).
Qed.

(** A hand of 14 has no room for a fifth meld. *)
Lemma four_melds melds cards :
  rest_of melds cards -> Forall (good_meld jp) melds -> length melds = 4%nat -> (length cards <= 2)%nat.
Proof.
  intros Hr Hg Hl. apply Permutation_length in Hr. rewrite length_app in Hr.
  destruct Hhand as (_ & _ & Hlen). unfold MAX_CARD_COUNT in Hlen.
  destruct melds as [|g1 [|g2 [|g3 [|g4 [|? ?]]]]]; try done.
  repeat match goal with H : Forall _ (_ :: _) |- _ => inversion H; clear H; subst end.
  unfold good_meld in *. csimpl in Hr. rewrite !length_app in Hr. lia.
Qed.

Lemma lives_melds melds a b : lives jp melds a b -> Forall (good_meld jp) melds.
Proof.
  destruct melds as [|g1 [|g2 rest]]; simpl; [constructor| |].
  - intros ([H _] & _). constructor; [done|constructor].
  - intros ([H _] & H2 & _ & H3 & _). constructor; [done|by constructor].
Qed.

(** The melds found in the rest [cards] of the hand. *)
Lemma good_group_meld cards g : good_group jp cards g -> good_meld jp g /\ m_cards g ⊆+ cards.
Proof. intros (H1 & H2 & H3). by split; [split|]. Qed.

Lemma good_no_blank cards g :
  real_hand cards -> good_group jp cards g -> default_card ∉ m_cards g.
Proof.
  intros (Hp & _) [Hs _] Hin. eapply elem_of_submseteq in Hin; [|exact Hs].
  apply Hp in Hin. simpl in Hin. unfold PokerPoint.P2 in Hin. lia.
Qed.

(** The candidates that still fit the rest of the hand. *)
Lemma remaining_groups cards' groups cards :
  real_hand cards' -> Forall (good_group jp cards') groups -> real_hand cards ->
  returns (remove_card_group cards groups [])
    (fun out => Forall (fun g => good_group jp cards g /\ g ∈ groups) out).
Proof.
  intros Hr Hg Hc. rewrite Forall_forall in Hg. eapply returns_mono.
  - apply remove_card_group_filter; [apply Hc|]. intros g Hin. eapply good_no_blank; [exact Hr|auto].
  - intros out Ho. apply Forall_forall. intros g Hin.
    apply Ho in Hin as [Hin|[Hin Hs]]; [by apply not_elem_of_nil in Hin|].
    split; [|done]. destruct (Hg g Hin) as (_ & ? & ?). by split_and!.
Qed.

Lemma fourth_group_inv melds cards3 s it3 :
  search_inv s -> lives jp melds true true -> length melds = 3%nat -> rest_of melds cards3 ->
  good_group jp cards3 it3 -> returns (fourth_group stop melds cards3 s it3) flow_inv.
Proof.
  intros Hs Hl Hlen Hr [Hm Hsub]%good_group_meld. destruct s as [st combs]. unfold fourth_group.
  pose proof (lives_snoc _ _ _ Hl Hm) as Hl'. pose proof (rest_of_remove _ _ _ Hr Hsub) as Hr'.
  assert (m_joker_point st = jp) as Hjp by apply Hs.
  set (cards4 := remove_cards it3 cards3) in *. case_decide as E.
  - apply returns_ret. apply push_comb; [done|]. apply full_comb_ok; [meld_count|done|].
    unfold rest_of in Hr'. by rewrite E, app_nil_r in Hr'.
  - pose proof (four_melds _ _ Hr' (lives_melds _ _ _ Hl') ltac:(rewrite length_app, Hlen; done)) as H4.
    assert (0 < length cards4)%nat by (destruct cards4; [done|simpl; lia]).
    eapply returns_bind; [apply (returns_assert _ (fun _ => True)); [lia|done]|]. intros _ _.
    apply stops_inv, push_comb; [done|]. rewrite Hjp. apply loose_comb_ok; [meld_count|done|done].
Qed.

Lemma third_group_inv melds cands cards2 s it2 :
  search_inv s -> lives jp melds true true -> length melds = 2%nat -> rest_of melds cards2 ->
  Forall (good_group jp cards2) cands -> it2 ∈ cands ->
  returns (third_group stop melds cands cards2 s it2) flow_inv.
Proof.
  intros Hs Hl Hlen Hr Hc Hin. rewrite Forall_forall in Hc.
  destruct (good_group_meld _ _ (Hc _ Hin)) as [Hm Hsub]. rewrite <- Forall_forall in Hc.
  destruct s as [st combs]. unfold third_group.
  pose proof (lives_snoc _ _ _ Hl Hm) as Hl'. pose proof (rest_of_remove _ _ _ Hr Hsub) as Hr'.
  assert (m_joker_point st = jp) as Hjp by apply Hs.
  set (cards3 := remove_cards it2 cards2) in *. case_decide as E.
  - apply returns_ret, push_comb; [done|]. apply full_comb_ok; [meld_count|done|].
    unfold rest_of in Hr'. by rewrite E, app_nil_r in Hr'.
  - eapply returns_bind; [by eapply (remaining_groups cards2); [eapply rest_of_real| |eapply rest_of_real]|].
    intros out Hout. case_decide as E'.
    + apply stops_inv, push_comb; [done|]. rewrite Hjp. apply loose_comb_ok; [meld_count|done|done].
    + apply for_each_found; [done..|]. intros s' it3 Hin3 Hs'.
      rewrite Forall_forall in Hout. apply fourth_group_inv; [done|done| |done|by apply Hout].
      rewrite length_app, Hlen. done.
Qed.

(** Both searches in the rest of a hand. *)
Lemma straights_found st cards acc :
  real_hand cards -> joker_ok jp cards st -> Forall (good_group jp cards) acc ->
  returns (search_straight_flush st cards acc) (Forall (good_group jp cards)).
Proof.
  intros Hr Hj Ha. eapply returns_mono.
  - apply search_straight_flush_collects. intros k cs Hin. by eapply flush_lengths.
  - intros out Ho. apply Forall_forall. intros g Hin. apply Ho in Hin as [Hin|Hin].
    + rewrite Forall_forall in Ha. auto.
    + by eapply straight_found_good.
Qed.

Lemma sets_found st cards acc :
  real_hand cards -> joker_ok jp cards st -> Forall (good_group jp cards) acc ->
  returns (search_three_of_kind st cards acc) (Forall (good_group jp cards)).
Proof.
  intros Hr Hj Ha. eapply returns_mono; [apply search_three_of_kind_collects|].
  intros out Ho. apply Forall_forall. intros g Hin. apply Ho in Hin as [Hin|Hin].
  - rewrite Forall_forall in Ha. auto.
  - by eapply kind_found_good.
Qed.

(** Straights only: what [search_straight_flush] alone finds. *)
Lemma only_straights_found st cards :
  real_hand cards -> joker_ok jp cards st ->
  returns (search_straight_flush st cards [])
    (Forall (fun g => good_group jp cards g /\ good_straight jp g)).
Proof.
  intros Hr Hj. eapply returns_mono.
  - apply search_straight_flush_collects. intros k cs Hin. by eapply flush_lengths.
  - intros out Ho. apply Forall_forall. intros g Hin.
    apply Ho in Hin as [Hin|Hin]; [by apply not_elem_of_nil in Hin|].
    pose proof (straight_found_good _ _ _ Hr Hj g Hin) as Hg. split; [done|].
    destruct Hg as (_ & _ & [?|(Ht & _)]); [done|]. exfalso. revert Ht.
    destruct Hin as [(k & cs & _ & [(h & _ & _ & Hst)|(h & _ & _ & ->)])|(js & _ & _ & ->)]; [|done|done].
    destruct Hst as [[_ ->]|[(js & _ & _ & ->)|(f & b & _ & _ & _ & js & _ & _ & ->)]]; done.
Qed.

Lemma second_group_inv it cards1 jokers1 s itSecond :
  search_inv s -> first_life jp it -> rest_of [it] cards1 -> jokers1 = wilds jp cards1 ->
  good_group jp cards1 itSecond -> good_straight jp itSecond ->
  returns (second_group stop it cards1 jokers1 s itSecond) flow_inv.
Proof.
  intros Hs Hf Hr Hj [Hm Hsub]%good_group_meld Hst. destruct s as [st combs]. unfold second_group.
  assert (lives jp [it; itSecond] true true) as Hl by (split_and!; done || constructor).
  pose proof (rest_of_remove _ _ _ Hr Hsub) as Hr'. cbn [app] in Hr'.
  pose proof Hs as [[Hjp Hcomb] Hcombs]. cbn [fst snd] in *.
  set (cards2 := remove_cards itSecond cards1) in *.
  assert (remove_cards itSecond jokers1 = wilds jp cards2) as Hj2
    by by rewrite Hj, <- wilds_remove.
  set (jokers2 := remove_cards itSecond jokers1) in *. case_decide as E.
  - apply returns_ret, push_comb; [done|]. apply full_comb_ok; [meld_count|done|].
    unfold rest_of in Hr'. by rewrite E, app_nil_r in Hr'.
  - eapply (returns_bind _ _ (fun st' => combines_ok st' /\ m_joker_cards st' = jokers2)).
    { case_decide as E'; [apply returns_ret; split; [by split|done]|]. rewrite Hjp. apply joker_state_ok. }
    intros st' [[Hjp' Hcomb'] Hjc']. pose proof (rest_of_real _ _ Hr') as Hreal.
    assert (joker_ok jp cards2 st') as Hok by (split_and!; [done|by rewrite Hjc', Hj2|done]).
    assert (search_inv (st', combs)) as Hs' by (split; [by split|done]).
    eapply returns_bind; [by apply straights_found; [| |constructor]|]. intros g1 Hg1.
    eapply returns_bind; [by apply sets_found|]. intros g2 Hg2. case_decide as E'.
    + apply stops_inv, push_comb; [done|]. rewrite Hjp'. apply loose_comb_ok; [meld_count|done|done].
    + apply for_each_found; [done..|]. intros s' it2 Hin2 Hs2.
      by apply third_group_inv.
Qed.

Lemma first_group_inv strai s it :
  search_inv s -> Forall (fun g => good_group jp hand g /\ good_straight jp g) strai ->
  it ∈ strai -> is_cards_pure_straight (m_cards it) = true ->
  returns (first_group hand stop strai (wilds jp hand) s it)
    (flow_opt (remove_cards it hand <> []) s).
Proof.
  intros Hs Hst Hin Hp. pose proof Hst as Hall. rewrite Forall_forall in Hall.
  destruct (Hall it Hin) as [Hg Hstr]. destruct (good_group_meld _ _ Hg) as [Hm Hsub].
  pose proof (first_life_intro jp hand it Hg Hp Hstr) as Hf.
  destruct s as [st combs]. unfold first_group.
  assert (rest_of [it] (remove_cards it hand)) as Hr.
  { unfold rest_of. csimpl. rewrite app_nil_r. by apply remove_cards_perm. }
  pose proof Hs as [[Hjp _] _]. cbn [fst snd] in Hjp.
  case_decide as E; [apply returns_ret; split; [done|]; by intros [?|?]|].
  eapply (returns_mono _ flow_inv); [|by intros [?|?] [? ?]].
  eapply returns_bind.
  { eapply (remaining_groups hand); [done| |by eapply rest_of_real].
    eapply Forall_impl; [exact Hst|]. by intros g [? _]. }
  intros out Hout. rewrite Forall_forall in Hout. case_decide as E'.
  - apply returns_ret, push_comb; [done|]. rewrite Hjp. apply loose_comb_ok; [meld_count|done|done].
  - apply for_each_found; [done..|]. intros s' it2 Hin2 Hs'.
    destruct (Hout it2 Hin2) as [Hg2 Hst2].
    apply second_group_inv; [done|done|done|by rewrite wilds_remove|done|].
    by apply Hall.
Qed.

(** A hand with a first life other than the hand itself. *)
Lemma life_leaves_cards st g :
  joker_ok jp hand st -> length hand <> 3%nat -> straight_found st hand g ->
  is_cards_pure_straight (m_cards g) = true ->
  exists g', straight_found st hand g' /\ is_cards_pure_straight (m_cards g') = true /\
             remove_cards g' hand <> [].
Proof.
  intros Hok Hlen Hg Hp. destruct (short_first_life jp hand st Hhand Hok g Hg Hp) as (g' & H1 & H2 & H3).
  exists g'. split_and!; [done|done|]. intros E.
  pose proof (straight_found_good jp hand st Hhand Hok g' H1) as (Hsub & _ & _).
  apply remove_cards_perm in Hsub. rewrite E, app_nil_r in Hsub.
  apply Permutation_length in Hsub. congruence.
Qed.

(** [search_all_group] runs without a fault; every combination it builds is
    sound, and it builds one for every hand that is not of three cards. *)
Lemma search_all_group_inv :
  returns (search_all_group hand stop jp []) (fun s =>
    Forall (comb_ok jp hand) s.2 /\ (length hand <> 3%nat -> s.2 <> [])).
Proof.
  unfold search_all_group. rewrite search_joker_cards_wilds, app_nil_l.
  eapply returns_bind; [apply joker_state_ok|]. intros st [[Hjp Hcomb] Hjc].
  assert (joker_ok jp hand st) as Hok by (split_and!; [done|by rewrite Hjc|done]).
  destruct (only_straights_found st hand Hhand Hok) as (strai & Hrun & Hst).
  assert (forall g, g ∈ strai <-> straight_found st hand g) as Hfound.
  { destruct (search_straight_flush_collects st hand (flush_lengths jp hand st Hhand Hok) [])
      as (out & Hrun' & Hout).
    rewrite Hrun in Hrun'. injection Hrun' as <-. intros g. rewrite Hout, elem_of_nil. tauto. }
  rewrite Hrun. cbn [mbind outcome_bind].
  rewrite search_pure_straight_flush_filter, app_nil_l. case_decide as E.
  - apply returns_ret. split; [|done]. constructor; [|constructor]. apply loose_comb_ok; [meld_count|done|done].
  - eapply returns_bind.
    + apply (for_each_opt _ (fun it => remove_cards it hand <> [])); [by split|].
      intros s it Hin Hs. apply list_elem_of_filter in Hin as [Hp Hin].
      by apply first_group_inv.
    + intros r [[_ H1] H2]. apply returns_ret. split; [done|]. intros Hlen.
      destruct r as [s'|s']; [|done]. apply H2. right.
      destruct (filter _ strai) as [|g gs] eqn:Ef; [done|].
      assert (g ∈ g :: gs) as Hin by left. rewrite <- Ef in Hin.
      apply list_elem_of_filter in Hin as [Hp Hin%Hfound].
      destruct (life_leaves_cards st g Hok Hlen Hin Hp) as (g' & Hg' & Hp' & Hne).
      exists g'. split; [|done]. rewrite <- Ef. apply list_elem_of_filter. split; [done|by apply Hfound].
Qed.
End search_all.

(** ** Hands dealt from the shoe *)

Lemma real_hand_of_deck hand : hand ⊆+ deck -> (length hand <= MAX_CARD_COUNT)%nat -> real_hand hand.
Proof.
  intros Hs Hl.
  assert (Forall (fun c => PokerPoint.P2 <= m_point c /\ (count_occ PokerCard_eq_dec deck c <= 2)%nat) deck)
    as Hd by (refine (bool_decide_eq_true_1 _ _); vm_compute; reflexivity).
  rewrite Forall_forall in Hd. split_and!; [|intros c|done].
  - intros c Hc. by eapply Hd, elem_of_submseteq.
  - transitivity (count_occ PokerCard_eq_dec deck c); [by apply count_occ_submseteq|].
    destruct (decide (c ∈ deck)) as [Hin|Hin]; [by apply Hd|].
    rewrite list_elem_of_In in Hin. apply (count_occ_not_In PokerCard_eq_dec) in Hin. lia.
Qed.

(** Sets of at most four cards, the size [is_cards_three_of_kind] accepts. *)
Definition small_sets (groups : list CardGroup) : Prop :=
  Forall (fun g => m_type g = GroupType.GROUP_THREE_KIND -> (length (m_cards g) <= 4)%nat) groups.

Lemma good_meld_declares jp g :
  good_meld jp g -> (m_type g = GroupType.GROUP_THREE_KIND -> (length (m_cards g) <= 4)%nat) ->
  straight_group jp g \/ kind_group jp g.
Proof.
  intros [Hl [(Ht & Hs & _)|(Ht & Hn & Hp & Hc)]] Hsmall; [by left; split|right]. split; [done|].
  apply three_of_kind_complete. rewrite sort_cards_perm. specialize (Hsmall Ht).
  split_and!; [lia|lia|lia|done|done].
Qed.

Lemma pure_straights_first jp g groups :
  first_life jp g -> (1 <= length (pure_straights (g :: groups)))%nat.
Proof.
  intros (_ & (Ht & _) & Hp). rewrite pure_straights_cons, decide_True, Hp by done. simpl. lia.
Qed.

Lemma good_straight_counts jp g groups :
  good_straight jp g -> length (straights (g :: groups)) = S (length (straights groups)).
Proof. intros (Ht & _). by rewrite straights_cons, decide_True. Qed.

Lemma loose_score_melds jp melds loose :
  Forall (good_meld jp) melds -> loose_score jp (melds ++ loose) = loose_score jp loose.
Proof.
  induction 1 as [|g melds [_ Hg] _ IH]; [done|]. simpl. rewrite IH.
  destruct Hg as [(-> & _)|(-> & _)]; simpl; lia.
Qed.

(** A combination of small sets passes the check of the losers. *)
Lemma comb_lose_spec jp hand info :
  comb_ok jp hand info ->
  loose_score jp (m_card_group info) = m_score info /\
  (small_sets (m_card_group info) -> lose_spec jp (m_card_group info)).
Proof.
  intros (melds & loose & -> & _ & Hl & _ & -> & Hloose). pose proof (lives_melds jp _ _ _ Hl) as Hm. split.
  - rewrite loose_score_melds by done. destruct Hloose as [[-> ->]| ->]; simpl; [done|lia].
  - intros Hsmall. apply Forall_app in Hsmall as [Hsmall _].
    assert (Forall (fun g => m_type g = GroupType.GROUP_INVALID) loose) as Hinv
      by (destruct Hloose as [[-> _]| ->]; repeat constructor).
    assert (melds <> [] -> (1 <= length (pure_straights (melds ++ loose)))%nat) as Hpure.
    { intros Hne. destruct melds as [|g1 melds]; [done|]. apply (pure_straights_first jp).
      destruct melds; apply Hl. }
    assert (forall (P : CardGroup -> Prop), (forall g, P g -> m_type g <> GroupType.GROUP_INVALID) ->
      Exists P (melds ++ loose) -> Exists P melds) as Hex.
    { intros P HP [?|Hx]%Exists_app; [done|]. apply Exists_exists in Hx as (g & Hin & HPg).
      rewrite Forall_forall in Hinv. by destruct (HP g HPg (Hinv g Hin)). }
    split_and!.
    + apply Forall_app. split; [|eapply Forall_impl; [exact Hinv|]; tauto].
      rewrite Forall_forall in *. intros g Hin. right. apply good_meld_declares; auto.
    + intros Hx. apply Hpure. intros ->. apply Hex in Hx; [by apply Exists_nil in Hx|].
      intros g [-> _]. done.
    + intros Hx. apply Hex in Hx; [|intros g [-> _]; done].
      destruct melds as [|g1 [|g2 rest]]; [by apply Exists_nil in Hx| |].
      * apply Exists_exists in Hx as (g & ->%list_elem_of_singleton & [Ht _]).
        destruct Hl as ((_ & (Ht' & _) & _) & _). by rewrite Ht in Ht'.
      * destruct Hl as (Hf & _ & Hs2 & _). split; [by apply Hpure|].
        cbn [app]. rewrite (good_straight_counts jp) by apply Hf.
        rewrite (good_straight_counts jp) by done. lia.
Qed.

Lemma min_comb_spec best combs :
  let r := foldl min_comb best combs in
  (r = best \/ r ∈ combs) /\ m_score r <= m_score best /\ (forall i, i ∈ combs -> m_score r <= m_score i).
Proof.
  revert best; induction combs as [|i combs IH]; intros best; simpl.
  - split_and!; [by left|lia|]. intros i Hi. by apply not_elem_of_nil in Hi.
  - destruct (IH (min_comb best i)) as (H1 & H2 & H3).
    assert (m_score (min_comb best i) <= m_score best /\ m_score (min_comb best i) <= m_score i /\
            (min_comb best i = best \/ min_comb best i = i)) as (H4 & H5 & H6)
      by (unfold min_comb; destruct (Z.ltb_spec (m_score i) (m_score best)); split_and!; auto; lia).
    split_and!; [|lia|].
    + destruct H1 as [-> |H1]; [destruct H6 as [-> | ->]; [by left|right; left]|right; by right].
    + intros i' [-> |Hin]%elem_of_cons; [lia|auto].
Qed.

Lemma caculate_card_score_nonneg cards jp : 0 <= caculate_card_score cards jp.
Proof.
  induction cards as [|c cards IH]; [done|]. unfold caculate_card_score; simpl.
  rewrite caculate_card_score_acc. pose proof (get_score_bounds c jp). lia.
Qed.

(** [default_declare] returns one of the combinations, of the least score. *)
Lemma default_declare_min jp hand :
  real_hand hand -> length hand <> 3%nat ->
  exists st combs info,
    search_all_group hand 0 jp [] = Ok (st, combs) /\ info ∈ combs /\ comb_ok jp hand info /\
    (forall i, i ∈ combs -> m_score info <= m_score i) /\
    default_declare hand jp = Ok (m_score info, m_card_group info).
Proof.
  intros Hr Hl. destruct (search_all_group_inv jp hand 0 Hr) as ([st combs] & Hrun & Hok & Hne).
  cbn [snd] in *. specialize (Hne Hl). pose proof Hok as Hall. rewrite Forall_forall in Hall.
  unfold default_declare. rewrite Hrun. cbn [mbind outcome_bind].
  destruct combs as [|front combs]; [done|].
  destruct (last (front :: combs)) as [back|] eqn:El; [|by apply last_None in El].
  assert (back ∈ front :: combs) as Hback by (eapply list_elem_of_lookup_2; by rewrite <- last_lookup).
  cbn [access mbind outcome_bind]. destruct (Z.eqb_spec (m_score back) 0) as [Hz|Hz].
  - exists st, (front :: combs), back. split_and!; [done|done|auto| |done].
    intros i Hi. destruct (Hall i Hi) as (? & ? & _ & _ & _ & _ & -> & _).
    pose proof (caculate_card_score_nonneg (m_valid_cards i) jp). lia.
  - destruct (min_comb_spec front (front :: combs)) as (H1 & _ & H3).
    set (info := foldl min_comb front (front :: combs)) in *.
    assert (info ∈ front :: combs) as Hin by (destruct H1 as [-> |?]; [left|done]).
    exists st, (front :: combs), info. split_and!; [done|done|auto|done|done].
Qed.

(** ** Theorems *)

Lemma comb_score_partition jp hand info :
  comb_ok jp hand info -> concat (m_cards <$> m_card_group info) ≡ₚ hand.
Proof. by intros (? & ? & _ & _ & _ & ? & _). Qed.

Lemma hand_card_points hand groups :
  real_hand hand -> concat (m_cards <$> groups) ≡ₚ hand -> Forall card_points groups.
Proof.
  intros [Hp _] Hc. apply Forall_forall. intros g Hg c Hin. apply Hp. rewrite <- Hc.
  apply list_elem_of_split in Hg as (g1 & g2 & ->). rewrite fmap_app, concat_app. csimpl. set_solver.
Qed.

Lemma loose_score_nonneg jp groups : 0 <= loose_score jp groups.
Proof.
  induction groups as [|g groups IH]; simpl; [done|]. case_match; [|lia].
  assert (forall cards acc, 0 <= acc -> 0 <= foldl (fun score it => score + get_score it jp) acc cards) as Hs.
  { induction cards as [|c cards IHc]; intros acc Ha; simpl; [done|].
    apply IHc. pose proof (get_score_bounds c jp). lia. }
  specialize (Hs (m_cards g) 0 ltac:(lia)). unfold caculate_card_score. lia.
Qed.


(** C29: The search for groups is sound and runs without a fault: on every hand of
    up to 14 cards from the shoe, every combination [search_all_group] builds is
    the whole hand, laid down as a first life (a pure straight), a second life
    (a straight), further straights and sets of three cards or more, and the
    loose cards, whose score it carries.  In particular no array of 14 cards
    overflows, and the assertions on the selection sizes and on the last loose
    cards hold. *)
Theorem search_all_group_sound hand jp stop :
  hand ⊆+ deck -> (length hand <= 14)%nat ->
  exists st combs, search_all_group hand stop jp [] = Ok (st, combs) /\
    Forall (comb_ok jp hand) combs /\ (length hand <> 3%nat -> combs <> []).
Proof.
  intros Hd Hl. pose proof (real_hand_of_deck hand Hd Hl) as Hr.
  destruct (search_all_group_inv jp hand stop Hr) as ([st combs] & Hrun & Hok). by exists st, combs.
Qed.

(** Two straights, two jacks and three kings, with three printed jokers. *)
Definition sample_hand : list PokerCard :=
  [spade 2; spade 3; spade 4; mkCard 2 6; mkCard 2 7; mkCard 2 8; mkCard 4 11; mkCard 3 11;
   mkCard 1 13; mkCard 3 13; mkCard 4 13; mkCard 0 15; mkCard 0 15; mkCard 0 16].

Lemma sample_hand_deck : sample_hand ⊆+ deck.
Proof. refine (bool_decide_eq_true_1 _ _). vm_compute. reflexivity. Qed.

Lemma search_all_group_sound_witness :
  exists st combs, search_all_group sample_hand 0 10 [] = Ok (st, combs) /\
    Forall (comb_ok 10 sample_hand) combs /\ (length sample_hand <> 3%nat -> combs <> []).
Proof. apply search_all_group_sound; [apply sample_hand_deck|simpl; lia]. Defined.

Lemma default_declare_returns jp hand :
  hand ⊆+ deck -> (length hand <= 14)%nat -> length hand <> 3%nat ->
  returns (default_declare hand jp) (fun r =>
    concat (m_cards <$> r.2) ≡ₚ hand /\ r.1 = loose_score jp r.2 /\ 0 <= r.1).
Proof.
  intros Hd Hl H3. pose proof (real_hand_of_deck hand Hd Hl) as Hr.
  destruct (default_declare_min jp hand Hr H3) as (st & combs & info & _ & _ & Hok & _ & Hdef).
  exists (m_score info, m_card_group info). split; [done|]. simpl.
  destruct (comb_lose_spec _ _ _ Hok) as [Hs _].
  split_and!; [by eapply comb_score_partition|done|]. rewrite <- Hs. apply loose_score_nonneg.
Qed.

(** C30: [default_declare] returns for every hand of up to 14 cards from the shoe
    that is not of three cards; the groups it returns are exactly the hand, the
    score is that of the loose cards among them and is the least over the
    combinations found; and if the sets have at most four cards,
    [check_lose_declare] accepts the groups with that score. *)
Theorem default_declare_correct hand jp :
  hand ⊆+ deck -> (length hand <= 14)%nat -> length hand <> 3%nat ->
  exists score groups, default_declare hand jp = Ok (score, groups) /\
    concat (m_cards <$> groups) ≡ₚ hand /\ score = loose_score jp groups /\
    (exists st combs, search_all_group hand 0 jp [] = Ok (st, combs) /\
       Forall (fun info => score <= m_score info) combs) /\
    (small_sets groups -> check_lose_declare groups jp = Ok (true, score)).
Proof.
  intros Hd Hl H3. pose proof (real_hand_of_deck hand Hd Hl) as Hr.
  destruct (default_declare_min jp hand Hr H3) as (st & combs & info & Hrun & Hin & Hok & Hmin & Hdef).
  exists (m_score info), (m_card_group info). pose proof (comb_score_partition _ _ _ Hok) as Hp.
  destruct (comb_lose_spec _ _ _ Hok) as [Hs Hlose]. split_and!; [done|done|done| |].
  - exists st, combs. split; [done|]. by apply Forall_forall.
  - intros Hsmall.
    destruct (check_lose_declare_spec (m_card_group info) jp) as (b & score & -> & Hb & Hscore);
      [by eapply hand_card_points|].
    apply Hlose, Hb in Hsmall. subst b. rewrite <- Hs. by rewrite Hscore.
Qed.

Lemma default_declare_correct_witness :
  exists score groups, default_declare [spade 2; spade 3; spade 4; mkCard 2 9] 7 = Ok (score, groups) /\
    concat (m_cards <$> groups) ≡ₚ [spade 2; spade 3; spade 4; mkCard 2 9] /\
    score = loose_score 7 groups /\
    (exists st combs, search_all_group [spade 2; spade 3; spade 4; mkCard 2 9] 0 7 [] = Ok (st, combs) /\
       Forall (fun info => score <= m_score info) combs) /\
    (small_sets groups -> check_lose_declare groups 7 = Ok (true, score)).
Proof.
  apply default_declare_correct; [|simpl; lia|done].
  refine (bool_decide_eq_true_1 _ _). vm_compute. reflexivity.
Defined.

(** The bound on the sets is needed: [search_three_of_kind_select_n] adds any
    number of wild cards to a set, so for this hand of 14 [default_declare]
    lays down a set of five at score 0, and [check_lose_declare], which allows
    four cards in a set, refuses the declaration. *)
Theorem default_declare_oversized_set :
  exists groups, default_declare sample_hand 10 = Ok (0, groups) /\
    ~ small_sets groups /\ check_lose_declare groups 10 = Ok (false, 0).
Proof.
  eexists. split; [vm_compute; reflexivity|]. split; [|vm_compute; reflexivity].
  intros Hs. refine (bool_decide_eq_false_1 (small_sets _) _ Hs). vm_compute. reflexivity.
Qed.

(** Three cards that are a pure straight are the one hand without a
    combination: the loop skips a first life that uses every card, so the
    assertion of [default_declare] on the combinations fails. *)
Theorem default_declare_three_cards :
  (exists st, search_all_group [spade 2; spade 3; spade 4] 0 7 [] = Ok (st, [])) /\
  default_declare [spade 2; spade 3; spade 4] 7 = Fault AssertFailed.
Proof. split; [eexists|]; vm_compute; reflexivity. Qed.
