(* ===== verification/PostCard.v ===== *)
(** * Choosing a card to post

    Models [post_best_card] of gamesvr/Combination.cpp with what it calls:
    [sort_combine_func], [post_valid_group_bigest_card],
    [post_less_relation_card] and [caculate_cards_relation].  [std::sort] is not
    stable, so the order of combinations of the same rank is left open: it is an
    interface, [SortCombs], that promises a permutation sorted for
    [sort_combine_func]; the theorems hold for every such sort, and a merge sort
    is an instance. *)
From Stdlib Require Import ZArith Lia.
From stdpp Require Import base tactics numbers sorting option sets list.
From S2P Require Import Prelude Cards Choices Dealer Straight Declare Search Found Hand.

(** ** Ranking combinations *)

Definition sort_combine_func (left_comb right_comb : CombinationInfo) : bool :=
  let size c := Z.of_nat (length (m_valid_cards c)) in
  if Bool.eqb (m_is_has_firtlife left_comb) (m_is_has_firtlife right_comb) then
    if m_is_has_firtlife left_comb &&
       negb (Bool.eqb (m_is_has_secondelife left_comb) (m_is_has_secondelife right_comb))
    then m_is_has_secondelife left_comb
    else if negb (size left_comb =? size right_comb) then size left_comb <? size right_comb
    else false
  else m_is_has_firtlife left_comb.

(** [std::sort(card_combs.begin(), card_combs.end(), sort_combine_func)]. *)
Class SortCombs := std_sort : list CombinationInfo -> list CombinationInfo.

Definition not_after (a b : CombinationInfo) : Prop := sort_combine_func b a = false.

(** What [std::sort] promises for a strict weak order. *)
Class SortLaws `{SortCombs} : Prop := {
  std_sort_perm : forall l, std_sort l ≡ₚ l;
  std_sort_sorted : forall l, StronglySorted not_after (std_sort l)
}.

(** ** Relations between loose cards *)

Record CardRelation : Set := mkRelation { m_card : PokerCard; m_relate_degree : Z }.

Definition add_degree (k : Z) (r : CardRelation) : CardRelation :=
  mkRelation (m_card r) (m_relate_degree r + k).

(** [it->m_relate_degree += k; it_next->m_relate_degree += k], at two positions
    of the vector. *)
Definition relate (k : Z) (i j : nat) (v : list CardRelation) : list CardRelation :=
  alter (add_degree k) j (alter (add_degree k) i v).

(** The body of the loop over [it_next]; [Return] is its [break]. *)
Definition relate_next (i : nat) (v : list CardRelation) (j : nat)
  : outcome (flow (list CardRelation)) :=
  it ← access (v !! i);
  it_next ← access (v !! j);
  let a := m_card it in let b := m_card it_next in
  let diff := Z.abs (m_point b - m_point a) in
  if m_point b =? m_point a then mret (Next (relate 2 i j v))
  else if (diff =? 2) && (m_color b =? m_color a) then mret (Next (relate 3 i j v))
  else if (diff =? 1) && (m_color b =? m_color a) then mret (Next (relate 4 i j v))
  else if 2 <? diff then mret (Return v)
  else mret (Next v).

(** The body of the loop from the front for an ace; its condition
    [m_point <= 3] is the [Return]. *)
Definition relate_ace (i : nat) (v : list CardRelation) (j : nat)
  : outcome (flow (list CardRelation)) :=
  it ← access (v !! i);
  it_next ← access (v !! j);
  let a := m_card it in let b := m_card it_next in
  if negb (m_point b <=? 3) then mret (Return v)
  else if (m_color b =? m_color a) && (m_point b =? PokerPoint.P2) then mret (Next (relate 4 i j v))
  else if (m_color b =? m_color a) && (m_point b =? PokerPoint.P3) then mret (Next (relate 3 i j v))
  else mret (Next v).

Definition relate_card (v : list CardRelation) (i : nat) : outcome (list CardRelation) :=
  let n := length v in
  r ← for_each (relate_next i) v (seq (S i) (n - S i));
  let v := flow_state r in
  it ← access (v !! i);
  if m_point (m_card it) =? PokerPoint.A then
    r ← for_each (relate_ace i) v (seq 0 n);
    mret (flow_state r)
  else mret v.

Definition caculate_cards_relation (card_relatin : list CardRelation) : outcome (list CardRelation) :=
  mfold relate_card card_relatin (seq 0 (length card_relatin)).

(** The loop of [post_less_relation_card] that separates equal neighbours. *)
Fixpoint split_repeats (jp : Z) (first_cards repeat_cards : list CardRelation) (cards : list PokerCard)
  : list CardRelation * list CardRelation :=
  match cards with
  | [] => (first_cards, repeat_cards)
  | it :: rest =>
      if is_joker it jp then split_repeats jp first_cards repeat_cards rest
      else match rest with
           | [] => (first_cards ++ [mkRelation it 0], repeat_cards)
           | it_next :: _ =>
               if card_eqb it_next it
               then split_repeats jp first_cards (repeat_cards ++ [mkRelation it (-1)]) rest
               else split_repeats jp (first_cards ++ [mkRelation it 0]) repeat_cards rest
           end
  end.

(** The loop that keeps the least related card, of the higher score. *)
Definition less_related (jp : Z) (it_min it : CardRelation) : CardRelation :=
  if m_relate_degree it <? m_relate_degree it_min then it
  else if (m_relate_degree it =? m_relate_degree it_min) &&
          (get_score (m_card it_min) jp <? get_score (m_card it) jp) then it
  else it_min.

Definition post_less_relation_card (hand_card : list PokerCard) (jp : Z) : outcome PokerCard :=
  _ ← assert_that (bool_decide (hand_card <> []));
  let cards := sort_cards hand_card in
  let '(first_cards, repeat_cards) := split_repeats jp [] [] cards in
  if decide (first_cards = []) then access (last cards)
  else
    first_cards ← caculate_cards_relation first_cards;
    repeat_cards ← caculate_cards_relation repeat_cards;
    match first_cards ++ repeat_cards with
    | [] => Fault OutOfBounds
    | it_min :: rest => mret (m_card (foldl (less_related jp) it_min rest))
    end.

(** ** A card from a full group *)

(** The scan of one group: the count of the cards that are not wild, the last
    of them and the last wild one; both start at the first card. *)
Definition scan_group (jp : Z) (s : Z * PokerCard * PokerCard) (itcard : PokerCard)
  : Z * PokerCard * PokerCard :=
  let '(nonjoker_count, itnojoker, itjoker) := s in
  if is_joker itcard jp then (nonjoker_count, itnojoker, itcard)
  else (nonjoker_count + 1, itcard, itjoker).

(** The body of the loop over the groups, on [score] and [card]. *)
Definition post_group_card (jp : Z) (s : Z * PokerCard) (it : CardGroup) : outcome (Z * PokerCard) :=
  let '(score, card) := s in
  if Z.of_nat (length (m_cards it)) <? 4 then mret s
  else
    match sort_cards (m_cards it) with
    | [] => Fault OutOfBounds
    | (front :: _) as list_cards =>
        let '(nonjoker_count, itnojoker, itjoker) := foldl (scan_group jp) (0, front, front) list_cards in
        let itpost := if nonjoker_count <=? 1 then itjoker else itnojoker in
        if score <? get_score itpost jp then mret (get_score itpost jp, itpost) else mret s
    end.

Definition post_valid_group_bigest_card (card_groups : list CardGroup) (jp : Z) (card : PokerCard)
  : outcome PokerCard :=
  '(_, card) ← mfold (post_group_card jp) (-1, card) card_groups;
  mret card.

(** ** The choice *)

Section post.
Context `{SortCombs}.

Definition same_rank (a b : CombinationInfo) : bool :=
  Bool.eqb (m_is_has_firtlife a) (m_is_has_firtlife b) &&
  Bool.eqb (m_is_has_secondelife a) (m_is_has_secondelife b) &&
  (Z.of_nat (length (m_valid_cards a)) =? Z.of_nat (length (m_valid_cards b))).

(** The loop over the combinations after the first. *)
Fixpoint post_best_loop (jp : Z) (itmin : CombinationInfo) (min_score : Z) (card : PokerCard)
    (rest : list CombinationInfo) : outcome (PokerCard * Z) :=
  match rest with
  | [] => mret (card, min_score)
  | it :: rest' =>
      if negb (same_rank itmin it) then mret (card, min_score)
      else if decide (m_valid_cards it = []) then
        card ← post_valid_group_bigest_card (m_card_group it) jp card;
        mret (card, 0)
      else
        postcard ← post_less_relation_card (m_valid_cards it) jp;
        let score := m_score it - get_score postcard jp in
        if score <? min_score then post_best_loop jp it score postcard rest'
        else post_best_loop jp itmin min_score card rest'
  end.

(** [card] is what the caller's variable holds before. *)
Definition post_best_card (hand_card : list PokerCard) (joker_point : Z) (card : PokerCard)
  : outcome (PokerCard * Z) :=
  '(_, card_combs) ← search_all_group hand_card 1 joker_point [];
  match std_sort card_combs with
  | [] => Fault AssertFailed
  | itmin :: rest =>
      if decide (m_valid_cards itmin = []) then
        card ← post_valid_group_bigest_card (m_card_group itmin) joker_point card;
        mret (card, 0)
      else
        card ← post_less_relation_card (m_valid_cards itmin) joker_point;
        post_best_loop joker_point itmin (m_score itmin - get_score card joker_point) card rest
  end.
End post.

(** ** The rank is a weak order *)

(** The flags and the count that [sort_combine_func] compares, as one number:
    a first life before none, a second life before none, fewer loose cards
    first. *)
Definition not_after_key (a b : CombinationInfo) : Prop :=
  let n c := Z.of_nat (length (m_valid_cards c)) in
  match m_is_has_firtlife a, m_is_has_firtlife b with
  | true, false => True
  | false, true => False
  | false, false => n a <= n b
  | true, true =>
      match m_is_has_secondelife a, m_is_has_secondelife b with
      | true, false => True
      | false, true => False
      | _, _ => n a <= n b
      end
  end.

Lemma not_after_key_iff a b : not_after a b <-> not_after_key a b.
Proof.
  unfold not_after, not_after_key, sort_combine_func.
  destruct (m_is_has_firtlife a), (m_is_has_firtlife b), (m_is_has_secondelife a),
    (m_is_has_secondelife b); simpl; try tauto; repeat case_match; split; (done || lia).
Qed.

#[export] Instance not_after_dec : RelDecision not_after.
Proof. intros a b. unfold not_after. apply _. Defined.

#[export] Instance not_after_total : Total not_after.
Proof.
  intros a b. rewrite !not_after_key_iff. unfold not_after_key.
  destruct (m_is_has_firtlife a), (m_is_has_firtlife b), (m_is_has_secondelife a),
    (m_is_has_secondelife b); try tauto; lia.
Qed.

#[export] Instance not_after_trans : Transitive not_after.
Proof.
  intros a b c. rewrite !not_after_key_iff. unfold not_after_key.
  destruct (m_is_has_firtlife a), (m_is_has_firtlife b), (m_is_has_firtlife c),
    (m_is_has_secondelife a), (m_is_has_secondelife b), (m_is_has_secondelife c); try tauto; lia.
Qed.

(** A merge sort implements the interface. *)
Definition merge_sort_combs : SortCombs := merge_sort not_after.

Lemma merge_sort_laws : SortLaws (H := merge_sort_combs).
Proof.
  split; intros l.
  - apply merge_sort_Permutation.
  - apply (StronglySorted_merge_sort _).
Qed.

Lemma same_rank_not_after a b c : same_rank a b = true -> not_after a c -> not_after b c.
Proof.
  unfold same_rank. rewrite !andb_true_iff, !Bool.eqb_true_iff, Z.eqb_eq. intros ((E1 & E2) & E3).
  rewrite !not_after_key_iff. unfold not_after_key. by rewrite E1, E2, E3.
Qed.

(** ** Relations keep the cards *)

Lemma relate_cards k i j (v : list CardRelation) : m_card <$> relate k i j v = m_card <$> v.
Proof.
  assert (forall i (v : list CardRelation), m_card <$> alter (add_degree k) i v = m_card <$> v) as Ha.
  { intros i'. induction i' as [|i' IH]; intros [|r v']; csimpl; try done. by rewrite IH. }
  unfold relate. by rewrite !Ha.
Qed.

Definition keeps_cards (v v' : list CardRelation) : Prop := m_card <$> v' = m_card <$> v.

Lemma keeps_cards_length v v' : keeps_cards v v' -> length v' = length v.
Proof. unfold keeps_cards. intros E. by rewrite <- (length_fmap m_card v'), E, length_fmap. Qed.

Lemma keeps_relate k i j v v' : keeps_cards v v' -> keeps_cards v (relate k i j v').
Proof. unfold keeps_cards. by rewrite relate_cards. Qed.

Definition flow_keeps (v : list CardRelation) (r : flow (list CardRelation)) : Prop :=
  match r with Next v' => keeps_cards v v' | Return v' => keeps_cards v v' end.

(** Either loop body at positions of the vector. *)
Lemma relate_at (v v' : list CardRelation) i j (f : CardRelation -> CardRelation -> outcome (flow (list CardRelation))) :
  keeps_cards v v' -> (i < length v)%nat -> (j < length v)%nat ->
  (forall a b, returns (f a b) (flow_keeps v)) ->
  returns (it ← access (v' !! i); it_next ← access (v' !! j); f it it_next) (flow_keeps v).
Proof.
  intros Hk Hi Hj Hf. rewrite <- (keeps_cards_length _ _ Hk) in Hi, Hj.
  destruct (lookup_lt_is_Some_2 v' i Hi) as [a Ha]. destruct (lookup_lt_is_Some_2 v' j Hj) as [b Hb].
  rewrite Ha, Hb. apply Hf.
Qed.

Lemma relate_next_keeps v v' i j :
  keeps_cards v v' -> (i < length v)%nat -> (j < length v)%nat ->
  returns (relate_next i v' j) (flow_keeps v).
Proof.
  intros Hk Hi Hj. apply relate_at; [done..|]. intros a b.
  repeat case_match; apply returns_ret; simpl; auto using keeps_relate.
Qed.

Lemma relate_ace_keeps v v' i j :
  keeps_cards v v' -> (i < length v)%nat -> (j < length v)%nat ->
  returns (relate_ace i v' j) (flow_keeps v).
Proof.
  intros Hk Hi Hj. apply relate_at; [done..|]. intros a b.
  repeat case_match; apply returns_ret; simpl; auto using keeps_relate.
Qed.

Lemma relate_card_keeps v v' i :
  keeps_cards v v' -> (i < length v)%nat -> returns (relate_card v' i) (keeps_cards v).
Proof.
  intros Hk Hi. unfold relate_card. pose proof (keeps_cards_length _ _ Hk) as Hl.
  eapply returns_bind.
  { apply (returns_for_each (keeps_cards v) (keeps_cards v)); [done|].
    intros v2 j Hj%elem_of_seq Hk2. apply relate_next_keeps; [done|done|lia]. }
  intros r Hr. assert (keeps_cards v (flow_state r)) as Hk2 by by destruct r.
  pose proof (keeps_cards_length _ _ Hk2) as Hl2.
  destruct (lookup_lt_is_Some_2 (flow_state r) i) as [a Ha]; [lia|]. rewrite Ha. simpl.
  case_match; [|by apply returns_ret]. eapply returns_bind.
  { apply (returns_for_each (keeps_cards v) (keeps_cards v)); [done|].
    intros v3 j Hj%elem_of_seq Hk3. apply relate_ace_keeps; [done|done|lia]. }
  intros r2 Hr2. apply returns_ret. by destruct r2.
Qed.

Lemma caculate_cards_relation_keeps v : returns (caculate_cards_relation v) (keeps_cards v).
Proof.
  unfold caculate_cards_relation. apply returns_mfold; [done|].
  intros v' i Hi%elem_of_seq Hk. apply relate_card_keeps; [done|lia].
Qed.

(** ** The least related card *)

Section least_related.
Context (jp : Z).

Abbreviation plain := (filter (fun c => is_joker c jp = false)).

(** [it] need not give way to [it']: its degree is smaller, or equal and its
    score is not. *)
Definition no_better (it it' : CardRelation) : Prop :=
  m_relate_degree it < m_relate_degree it' \/
  m_relate_degree it = m_relate_degree it' /\ get_score (m_card it') jp <= get_score (m_card it) jp.

(** The relations between the cards that are not wild: the first copies among
    themselves and the second copies among themselves. *)
Definition relations (cards : list PokerCard) (related : list CardRelation) : Prop :=
  exists first_cards repeat_cards firsts repeats,
    split_repeats jp [] [] (sort_cards cards) = (first_cards, repeat_cards) /\
    caculate_cards_relation first_cards = Ok firsts /\
    caculate_cards_relation repeat_cards = Ok repeats /\
    related = firsts ++ repeats /\ m_card <$> related ≡ₚ plain cards.

(** The card to give away of some loose cards: the last when all are wild, else
    a card that is not wild, of the least degree and of those of the highest
    score. *)
Definition least_related (cards : list PokerCard) (card : PokerCard) : Prop :=
  plain cards = [] /\ last (sort_cards cards) = Some card \/
  exists related it, relations cards related /\ it ∈ related /\ m_card it = card /\
    forall it', it' ∈ related -> no_better it it'.

Lemma split_repeats_grows f r cards :
  exists f' r', split_repeats jp f r cards = (f ++ f', r ++ r').
Proof.
  revert f r; induction cards as [|it rest IH]; intros f r; simpl.
  { exists [], []. by rewrite !app_nil_r. }
  destruct (is_joker it jp); [apply IH|]. destruct rest as [|it_next rest'].
  { exists [mkRelation it 0], []. by rewrite app_nil_r. }
  destruct (card_eqb it_next it).
  - destruct (IH f (r ++ [mkRelation it (-1)])) as (f' & r' & ->).
    exists f', ([mkRelation it (-1)] ++ r'). by rewrite (assoc_L (++) r).
  - destruct (IH (f ++ [mkRelation it 0]) r) as (f' & r' & ->).
    exists ([mkRelation it 0] ++ f'), r'. by rewrite (assoc_L (++) f).
Qed.

Lemma split_repeats_perm f r cards :
  let '(f', r') := split_repeats jp f r cards in
  m_card <$> f' ++ r' ≡ₚ (m_card <$> f ++ r) ++ plain cards.
Proof.
  revert f r; induction cards as [|it rest IH]; intros f r; simpl; [by rewrite app_nil_r|].
  rewrite filter_cons. destruct (is_joker it jp) eqn:Ej.
  { rewrite decide_False by done. apply IH. }
  rewrite decide_True by done. destruct rest as [|it_next rest'].
  { rewrite !fmap_app. csimpl. rewrite <- !(assoc_L (++)). apply Permutation_app_head. simpl.
    apply Permutation_cons_append. }
  destruct (card_eqb it_next it).
  - specialize (IH f (r ++ [mkRelation it (-1)])). destruct (split_repeats _ _ _ _) as [f' r'].
    rewrite IH, !fmap_app. csimpl. by rewrite <- !(assoc_L (++)).
  - specialize (IH (f ++ [mkRelation it 0]) r). destruct (split_repeats _ _ _ _) as [f' r'].
    rewrite IH, !fmap_app. csimpl. rewrite <- !(assoc_L (++)). apply Permutation_app_head. simpl.
    apply Permutation_middle.
Qed.

(** A card that is not wild has a first copy. *)
Lemma split_repeats_first r cards r' : split_repeats jp [] r cards = ([], r') -> plain cards = [].
Proof.
  revert r; induction cards as [|it rest IH]; intros r Hs; [done|]. cbn [split_repeats] in Hs.
  rewrite filter_cons. destruct (is_joker it jp) eqn:Ej.
  { rewrite decide_False by done. by apply (IH r). }
  destruct rest as [|it_next rest']; [done|]. destruct (card_eqb it_next it) eqn:Ee.
  - apply IH in Hs. apply card_eqb_eq in Ee as ->. rewrite filter_cons, decide_True in Hs; done.
  - destruct (split_repeats_grows ([] ++ [mkRelation it 0]) r (it_next :: rest')) as (f' & r2 & E).
    rewrite E in Hs. discriminate.
Qed.

Lemma less_related_elem it_min rest : foldl (less_related jp) it_min rest ∈ it_min :: rest.
Proof.
  revert it_min; induction rest as [|it rest IH]; intros it_min; simpl; [left|].
  specialize (IH (less_related jp it_min it)).
  assert (less_related jp it_min it = it \/ less_related jp it_min it = it_min) as [E|E]
    by (unfold less_related; repeat case_match; auto);
    rewrite E in IH |- *; rewrite !elem_of_cons in *; tauto.
Qed.

(** The chosen relation has the least degree, and the highest score of those. *)
Lemma less_related_least it_min rest it :
  it ∈ it_min :: rest -> no_better (foldl (less_related jp) it_min rest) it.
Proof.
  unfold no_better. revert it_min it; induction rest as [|it1 rest IH]; intros it_min it Hr; simpl.
  - apply list_elem_of_singleton in Hr as ->. right. split; [done|lia].
  - assert (forall x, x = it_min \/ x = it1 -> no_better (less_related jp it_min it1) x) as Hstep
      by (intros x [-> | ->]; unfold no_better, less_related;
          destruct (_ <? _) eqn:E1; try destruct (_ && _) eqn:E2; cbn; lia).
    unfold no_better in Hstep. pose proof (IH _ (less_related jp it_min it1) ltac:(left)) as Hbest.
    apply elem_of_cons in Hr as [-> |[-> |Hr]%elem_of_cons].
    + specialize (Hstep it_min ltac:(by left)). lia.
    + specialize (Hstep it1 ltac:(by right)). lia.
    + apply IH. by right.
Qed.

(** [post_less_relation_card] gives the least related card. *)
Lemma post_less_relation_least hand :
  hand <> [] -> returns (post_less_relation_card hand jp) (least_related hand).
Proof.
  intros Hne. unfold post_less_relation_card. rewrite bool_decide_eq_true_2 by done. simpl.
  pose proof (split_repeats_perm [] [] (sort_cards hand)) as Hperm. cbn [app fmap list_fmap] in Hperm.
  destruct (split_repeats _ _ _ _) as [f r] eqn:Es. rewrite (sort_cards_perm hand) in Hperm. case_decide as Ef.
  - subst f. pose proof (split_repeats_first _ _ _ Es) as Hnil.
    assert (plain hand = []) as Hn by (apply Permutation_nil_r; by rewrite <- Hnil, sort_cards_perm).
    destruct (last (sort_cards hand)) as [c|] eqn:El; simpl; [apply returns_ret; by left|].
    apply last_None in El. pose proof (sort_cards_length hand) as Hl. rewrite El in Hl. by destruct hand.
  - destruct (caculate_cards_relation_keeps f) as (f' & Ef' & Hf').
    destruct (caculate_cards_relation_keeps r) as (r' & Er' & Hr'). rewrite Ef', Er'. cbn [mbind outcome_bind].
    assert (m_card <$> f' ++ r' = m_card <$> f ++ r) as E by (rewrite !fmap_app; by rewrite Hf', Hr').
    destruct (f' ++ r') as [|it_min rest] eqn:Ea; [destruct f; [done|]; csimpl in E; discriminate|].
    apply returns_ret. right. exists (it_min :: rest). eexists. split_and!;
      [|apply less_related_elem|done|intros it'; apply less_related_least].
    exists f, r, f', r'. split_and!; [done|done|done|done|]. by rewrite E.
Qed.

Lemma least_related_elem cards card : least_related cards card -> card ∈ cards.
Proof.
  intros [[_ Hl]|(related & it & (? & ? & ? & ? & _ & _ & _ & _ & Hp) & Hin & <- & _)].
  - rewrite <- (sort_cards_perm cards). eapply list_elem_of_lookup_2. by rewrite <- last_lookup.
  - apply (list_elem_of_fmap_2 m_card) in Hin. rewrite Hp in Hin. by apply list_elem_of_filter in Hin as [_ ?].
Qed.

(** The choice among equals does not change the score. *)
Lemma least_related_score cards c c' :
  least_related cards c -> least_related cards c' -> get_score c jp = get_score c' jp.
Proof.
  assert (forall related it, relations cards related -> it ∈ related -> plain cards = [] -> False) as Hno.
  { intros related it (? & ? & ? & ? & _ & _ & _ & _ & Hp) Hin En. rewrite En in Hp.
    apply Permutation_nil_r in Hp. destruct related; [by apply not_elem_of_nil in Hin|done]. }
  intros [[H1 H2]|(v & it & Hv & Hin & <- & Hl)] [[H3 H4]|(v' & it' & Hv' & Hin' & <- & Hl')];
    [congruence|by exfalso; eapply Hno| by exfalso; eapply Hno|].
  assert (v' = v) as ->.
  { destruct Hv as (f & r & f' & r' & E1 & E2 & E3 & -> & _), Hv' as (f1 & r1 & f1' & r1' & G1 & G2 & G3 & -> & _).
    congruence. }
  specialize (Hl it' Hin'). specialize (Hl' it Hin). unfold no_better in *. lia.
Qed.
End least_related.

Lemma post_less_relation_elem hand jp :
  hand <> [] -> returns (post_less_relation_card hand jp) (fun card => card ∈ hand).
Proof.
  intros Hne. eapply returns_mono; [by apply post_less_relation_least|]. apply least_related_elem.
Qed.

(** ** A card of a full group *)

Section spare.
Context (jp : Z).

Abbreviation plain := (filter (fun c => is_joker c jp = false)).
Abbreviation wild := (filter (fun c => is_joker c jp = true)).

(** The card a group can do without: the highest of its cards that are not
    wild, or the highest wild card when at most one is not. *)
Definition spare (cards : list PokerCard) : option PokerCard :=
  if (length (plain cards) <=? 1)%nat then last (wild (sort_cards cards))
  else last (plain (sort_cards cards)).

(** The scan of a group. *)
Lemma scan_group_last n a b l :
  foldl (scan_group jp) (n, a, b) l =
    (n + Z.of_nat (length (plain l)), default a (last (plain l)), default b (last (wild l))).
Proof.
  revert n a b; induction l as [|c l IH]; intros n a b; [simpl; by rewrite Z.add_0_r|].
  cbn [foldl]. unfold scan_group at 2. rewrite !filter_cons. destruct (is_joker c jp); rewrite IH.
  - rewrite decide_False, decide_True by done. rewrite last_cons. by destruct (last (wild l)).
  - rewrite decide_True, decide_False by done. cbn [length]. rewrite Nat2Z.inj_succ.
    replace (n + 1 + Z.of_nat (length (plain l))) with (n + Z.succ (Z.of_nat (length (plain l)))) by lia.
    rewrite last_cons. by destruct (last (plain l)).
Qed.

Lemma plain_wild_length cards : (length (plain cards) + length (wild cards))%nat = length cards.
Proof.
  induction cards as [|c l IH]; [done|]. rewrite !filter_cons.
  destruct (is_joker c jp); repeat case_decide; (done || (simpl; lia)).
Qed.

(** The spare card of a group of four or more is what the scan posts. *)
Lemma spare_scan cards front :
  (4 <= length cards)%nat ->
  let '(nonjoker_count, itnojoker, itjoker) := foldl (scan_group jp) (0, front, front) (sort_cards cards) in
  spare cards = Some (if nonjoker_count <=? 1 then itjoker else itnojoker).
Proof.
  intros Hl. rewrite scan_group_last. unfold spare.
  assert (length (plain (sort_cards cards)) = length (plain cards)) as Ep by by rewrite sort_cards_perm.
  pose proof (plain_wild_length (sort_cards cards)) as Hsum. rewrite sort_cards_length in Hsum. rewrite Ep in Hsum |- *.
  destruct (Nat.leb_spec (length (plain cards)) 1), (Z.leb_spec (0 + Z.of_nat (length (plain cards))) 1); try lia.
  - destruct (last (wild (sort_cards cards))) eqn:E; [done|]. apply last_None in E. rewrite E in Hsum. simpl in Hsum. lia.
  - destruct (last (plain (sort_cards cards))) eqn:E; [done|]. apply last_None in E. rewrite E in Ep. simpl in Ep. lia.
Qed.

Lemma spare_elem cards card : spare cards = Some card -> card ∈ cards.
Proof.
  unfold spare. intros Hs. rewrite <- (sort_cards_perm cards).
  case_match; rewrite last_lookup in Hs; apply list_elem_of_lookup_2, list_elem_of_filter in Hs; apply Hs.
Qed.

(** [card] is the spare card of one of the groups of four or more, and no other
    such group has a spare card of a higher score. *)
Definition highest_spare (groups : list CardGroup) (card : PokerCard) : Prop :=
  (exists g, g ∈ groups /\ (4 <= length (m_cards g))%nat /\ spare (m_cards g) = Some card) /\
  forall g c, g ∈ groups -> (4 <= length (m_cards g))%nat -> spare (m_cards g) = Some c ->
    get_score c jp <= get_score card jp.

(** [score] and [card] after the groups [seen]. *)
Definition posted_from (card0 : PokerCard) (seen : list CardGroup) (s : Z * PokerCard) : Prop :=
  (s = (-1, card0) /\ Forall (fun g => (length (m_cards g) < 4)%nat) seen) \/
  (s.1 = get_score s.2 jp /\ highest_spare seen s.2).

Lemma post_group_card_from card0 seen s g :
  posted_from card0 seen s -> returns (post_group_card jp s g) (posted_from card0 (seen ++ [g])).
Proof.
  intros Hs. destruct s as [score card]. unfold post_group_card.
  destruct (Z.ltb_spec (Z.of_nat (length (m_cards g))) 4) as [Hlt|Hge].
  - apply returns_ret. destruct Hs as [[E Hf]|[H1 [(g' & Hg' & H2) H3]]]; [left|right; split; [done|split]].
    + split; [done|]. apply Forall_app. split; [done|]. constructor; [lia|constructor].
    + exists g'. split; [set_solver|done].
    + intros g1 c [Hin| ->%list_elem_of_singleton]%elem_of_app Hl; [by apply (H3 g1)|lia].
  - destruct (sort_cards (m_cards g)) as [|front l] eqn:Es.
    { pose proof (sort_cards_length (m_cards g)) as Hl. rewrite Es in Hl. simpl in Hl. lia. }
    pose proof (spare_scan (m_cards g) front ltac:(lia)) as Hsp. rewrite Es in Hsp.
    destruct (foldl _ _ _) as [[n a] b]. set (itpost := if n <=? 1 then b else a) in *.
    pose proof (get_score_bounds itpost jp) as Hb.
    destruct (Z.ltb_spec score (get_score itpost jp)) as [Hsc|Hsc]; apply returns_ret; right; cbn [fst snd].
    + split; [done|]. split; [exists g; split_and!; [set_solver|lia|done]|].
      intros g1 c [Hin| ->%list_elem_of_singleton]%elem_of_app Hl Hc; [|rewrite Hsp in Hc; by injection Hc as ->].
      destruct Hs as [[_ Hf]|[H1 [_ H3]]]; [rewrite Forall_forall in Hf; specialize (Hf g1 Hin); lia|].
      specialize (H3 g1 c Hin Hl Hc). simpl in H1, H3. lia.
    + destruct Hs as [[[= -> ->] Hf]|[H1 [(g' & Hg' & H2) H3]]]; [lia|]. cbn [fst snd] in *.
      split; [done|]. split; [exists g'; split; [set_solver|done]|].
      intros g1 c [Hin| ->%list_elem_of_singleton]%elem_of_app Hl Hc; [by apply (H3 g1)|].
      rewrite Hsp in Hc. injection Hc as <-. lia.
Qed.

Lemma post_valid_group_from card0 groups :
  returns (post_valid_group_bigest_card groups jp card0) (fun card =>
    highest_spare groups card \/
    card = card0 /\ Forall (fun g => (length (m_cards g) < 4)%nat) groups).
Proof.
  unfold post_valid_group_bigest_card.
  assert (forall l seen s, posted_from card0 seen s ->
    returns (mfold (post_group_card jp) s l) (posted_from card0 (seen ++ l))) as Hfold.
  { induction l as [|g l IH]; intros seen s Hs; simpl; [apply returns_ret; by rewrite app_nil_r|].
    eapply returns_bind; [by apply post_group_card_from|]. intros s' Hs'.
    rewrite cons_middle, (assoc_L (++)). by apply IH. }
  eapply returns_bind; [apply (Hfold _ []); left; split; [done|constructor]|].
  intros [score card] [[[= -> ->] Hf]|[_ He]]; apply returns_ret; [by right|by left].
Qed.
End spare.

(** ** The choice *)

(** What the choice guarantees: the card comes from a combination of the best
    rank.  It is the least related of its loose cards and the score is what the
    others are worth, which no combination of the best rank betters; or every
    card is melded, the score is zero, and the card is the highest spare card of
    the melds of four or more. *)
Definition posted (jp : Z) (combs : list CombinationInfo) (card0 : PokerCard) (r : PokerCard * Z) : Prop :=
  exists info, info ∈ combs /\ Forall (not_after_key info) combs /\
    ((least_related jp (m_valid_cards info) r.1 /\ r.2 = m_score info - get_score r.1 jp /\
      forall i c, i ∈ combs -> Forall (not_after_key i) combs -> least_related jp (m_valid_cards i) c ->
        r.2 <= m_score i - get_score c jp) \/
     (m_valid_cards info = [] /\ r.2 = 0 /\
      (highest_spare jp (m_card_group info) r.1 \/
       r.1 = card0 /\ Forall (fun g => (length (m_cards g) < 4)%nat) (m_card_group info)))).

Lemma comb_group_elem jp hand info g c :
  comb_ok jp hand info -> g ∈ m_card_group info -> c ∈ m_cards g -> c ∈ hand.
Proof.
  intros Hok Hg Hc. rewrite <- (comb_score_partition _ _ _ Hok).
  apply list_elem_of_split in Hg as (g1 & g2 & ->). rewrite fmap_app, concat_app. csimpl. set_solver.
Qed.

(** Two combinations of a hand that are not after each other rank the same: a
    second life comes with a first. *)
Lemma not_after_same_rank jp hand a b :
  comb_ok jp hand a -> comb_ok jp hand b -> not_after a b -> not_after b a -> same_rank a b = true.
Proof.
  assert (forall i, comb_ok jp hand i -> m_is_has_firtlife i = false -> m_is_has_secondelife i = false) as Hlife.
  { intros i (melds & loose & _ & _ & Hl & _) Hf. destruct melds as [|g1 [|g2 rest]]; simpl in Hl;
      destruct_and?; congruence. }
  intros Ha Hb. generalize (Hlife a Ha), (Hlife b Hb). rewrite !not_after_key_iff. unfold not_after_key, same_rank.
  destruct (m_is_has_firtlife a), (m_is_has_firtlife b), (m_is_has_secondelife a),
    (m_is_has_secondelife b); simpl; intros Ha' Hb'; try specialize (Ha' eq_refl);
    try specialize (Hb' eq_refl); (done || lia).
Qed.

Section best.
Context (jp : Z) (hand : list PokerCard) (combs : list CombinationInfo) (card0 : PokerCard).
Context (Hok : Forall (comb_ok jp hand) combs).

Definition of_best_rank (i : CombinationInfo) : Prop := i ∈ combs /\ Forall (not_after_key i) combs.

Lemma best_same_rank a b : of_best_rank a -> of_best_rank b -> same_rank a b = true.
Proof using Hok.
  rewrite Forall_forall in Hok. intros [Ha Hna] [Hb Hnb]. rewrite Forall_forall in Hna, Hnb.
  eapply not_after_same_rank; try apply not_after_key_iff; eauto.
Qed.

(** The combinations of the best rank come first: past one that is not, there
    is none. *)
Lemma rank_ends itmin it rest i :
  of_best_rank itmin -> it ∈ combs -> StronglySorted not_after (it :: rest) ->
  same_rank itmin it = false -> i ∈ it :: rest -> of_best_rank i -> False.
Proof using Hok.
  intros Hmin Hit Hs Hr Hi Hbi. enough (of_best_rank it) as Hbit by (rewrite best_same_rank in Hr; done).
  split; [done|]. apply Forall_forall. intros c Hc. apply not_after_key_iff. trans i.
  - apply StronglySorted_inv in Hs as [_ Hs]. rewrite Forall_forall in Hs.
    apply elem_of_cons in Hi as [-> |Hi]; [|by apply Hs]. destruct (total not_after it it); done.
  - destruct Hbi as [_ Hbi]. rewrite Forall_forall in Hbi. by apply not_after_key_iff, Hbi.
Qed.

(** No combination of the best rank leaves less than [score], but those of
    [rest]. *)
Definition bettered_in (rest : list CombinationInfo) (score : Z) : Prop :=
  forall i c, of_best_rank i -> least_related jp (m_valid_cards i) c ->
    i ∈ rest \/ score <= m_score i - get_score c jp.

Lemma post_best_loop_posted itmin card score rest :
  rest ⊆ combs -> StronglySorted not_after rest -> of_best_rank itmin -> m_valid_cards itmin <> [] ->
  least_related jp (m_valid_cards itmin) card -> score = m_score itmin - get_score card jp ->
  bettered_in rest score ->
  returns (post_best_loop jp itmin score card rest) (posted jp combs card0).
Proof using Hok.
  revert itmin card score. induction rest as [|it rest IH];
    intros itmin card score Hsub Hsort Hbest Hne Hcard Hscore Hbet; simpl.
  - apply returns_ret. exists itmin. split_and!; [apply Hbest..|]. left. split_and!; [done|done|].
    intros i c Hi Hn Hc. by destruct (Hbet i c (conj Hi Hn) Hc) as [?%not_elem_of_nil|?].
  - assert (it ∈ combs) as Hit by set_solver. destruct (same_rank itmin it) eqn:Er; simpl.
    2:{ apply returns_ret. exists itmin. split_and!; [apply Hbest..|]. left. split_and!; [done|done|].
        intros i c Hi Hn Hc. destruct (Hbet i c (conj Hi Hn) Hc) as [Hin|?]; [|done].
        exfalso. by eapply (rank_ends itmin it rest i). }
    assert (of_best_rank it) as Hbest'.
    { split; [done|]. eapply Forall_impl; [apply Hbest|]. intros c. rewrite <- !not_after_key_iff. by apply same_rank_not_after. }
    assert (m_valid_cards it <> []) as Hne'.
    { intros E. unfold same_rank in Er. rewrite E in Er. destruct (m_valid_cards itmin); [done|].
      simpl in Er. lia. }
    apply StronglySorted_inv in Hsort as [Hsort _]. assert (rest ⊆ combs) as Hsub' by set_solver.
    rewrite decide_False by done.
    eapply returns_bind; [by apply post_less_relation_least|]. intros postcard Hpost.
    assert (forall s, s <= score -> s <= m_score it - get_score postcard jp -> bettered_in rest s) as Hb.
    { intros s Hs1 Hs2 i c Hi Hc. destruct (Hbet i c Hi Hc) as [[-> |?]%elem_of_cons|?]; [|by left|right; lia].
      rewrite (least_related_score jp _ _ _ Hc Hpost). by right. }
    destruct (Z.ltb_spec (m_score it - get_score postcard jp) score); apply IH; auto; apply Hb; lia.
Qed.
End best.

Lemma comb_valid_elem jp hand info c : comb_ok jp hand info -> c ∈ m_valid_cards info -> c ∈ hand.
Proof.
  intros Hok Hc. pose proof Hok as (melds & loose & Hg & _ & _ & _ & _ & Hloose).
  destruct Hloose as [[_ E]|Hl]; [rewrite E in Hc; by apply not_elem_of_nil in Hc|].
  eapply (comb_group_elem jp hand info (mkGroup GroupType.GROUP_INVALID (m_valid_cards info)));
    [exact Hok| |exact Hc]. rewrite Hg, Hl. apply elem_of_app. right. left.
Qed.

(** Thirteen cards in at most four groups make a group of four. *)
Lemma comb_full_group jp hand info :
  comb_ok jp hand info -> m_valid_cards info = [] -> (13 <= length hand)%nat ->
  Forall (fun g => (length (m_cards g) < 4)%nat) (m_card_group info) -> False.
Proof.
  intros (melds & loose & Hg & H4 & _ & Hp & _ & Hloose) Hv Hl Hsmall.
  assert (forall gs, Forall (fun g => (length (m_cards g) < 4)%nat) gs ->
    (length (concat (m_cards <$> gs)) <= 3 * length gs)%nat) as Hsum.
  { induction 1 as [|g gs Hg' _ IH]; csimpl; [lia|]. rewrite length_app. lia. }
  apply Permutation_length in Hp. rewrite Hg in Hp, Hsmall. apply Forall_app in Hsmall as [Hs _].
  rewrite fmap_app, concat_app, length_app in Hp. specialize (Hsum melds Hs).
  assert (length (concat (m_cards <$> loose)) = 0%nat) by (destruct Hloose as [[-> _]| ->]; rewrite ?Hv; done).
  lia.
Qed.

Lemma post_best_card_returns `{SortLaws} hand jp card0 :
  hand ⊆+ deck -> (length hand <= 14)%nat -> length hand <> 3%nat ->
  exists card score st combs,
    post_best_card hand jp card0 = Ok (card, score) /\
    search_all_group hand 1 jp [] = Ok (st, combs) /\ Forall (comb_ok jp hand) combs /\
    posted jp combs card0 (card, score).
Proof.
  intros Hd Hl H3. pose proof (real_hand_of_deck hand Hd Hl) as Hr.
  destruct (search_all_group_inv jp hand 1 Hr) as ([st combs] & Hrun & Hok & Hne).
  cbn [snd] in *. specialize (Hne H3).
  enough (returns (post_best_card hand jp card0) (posted jp combs card0))
    as ([card score] & Hpost & Hres) by by exists card, score, st, combs.
  unfold post_best_card. rewrite Hrun. cbn [mbind outcome_bind].
  pose proof (std_sort_perm combs) as Hperm. pose proof (std_sort_sorted combs) as Hsorted.
  destruct (std_sort combs) as [|itmin rest]; [by apply Permutation_nil_l in Hperm|].
  apply StronglySorted_inv in Hsorted as [Hsorted Hfirst].
  assert (of_best_rank combs itmin) as Hbest.
  { split; [rewrite <- Hperm; left|]. rewrite <- Hperm. constructor.
    - apply not_after_key_iff. destruct (total not_after itmin itmin); done.
    - eapply Forall_impl; [exact Hfirst|]. intros c. apply not_after_key_iff. }
  case_decide as E.
  - eapply returns_bind; [apply post_valid_group_from|]. intros card Hc. apply returns_ret.
    exists itmin. split_and!; [apply Hbest..|]. by right.
  - eapply returns_bind; [by apply post_less_relation_least|]. intros card Hc.
    apply (post_best_loop_posted jp hand); auto; [intros i Hi; rewrite <- Hperm; by right|].
    intros i c [Hi _] Hci. rewrite <- Hperm in Hi. apply elem_of_cons in Hi as [-> |Hi]; [right|by left].
    by rewrite (least_related_score jp _ _ _ Hci Hc).
Qed.

(** C31: On every hand of up to 14 cards from the shoe that is not of three
    cards, and for every [std::sort], [post_best_card] returns a card and a
    score that come from a combination of the best rank (a first life before
    none, a second life before none, then the fewest loose cards).  When it has
    loose cards, the card is the least related of them: the last in order when
    all are wild, else one that is not wild, of the least degree as
    [caculate_cards_relation] counts it, and of those of the highest score; the
    score is what the other loose cards are worth, and no combination of the
    best rank leaves less.  When every card is melded, the score is zero and the
    card is the spare card of the highest score of the groups of four or more,
    the last in order that is not wild, or the last wild card where at most one
    is not; when no group has four cards the caller's variable keeps what it
    held. *)
Theorem post_best_card_correct `{SortLaws} hand jp card0 :
  hand ⊆+ deck -> (length hand <= 14)%nat -> length hand <> 3%nat ->
  exists card score st combs,
    post_best_card hand jp card0 = Ok (card, score) /\
    search_all_group hand 1 jp [] = Ok (st, combs) /\ Forall (comb_ok jp hand) combs /\
    posted jp combs card0 (card, score).
Proof.
  apply post_best_card_returns.
Qed.

Lemma post_best_card_correct_witness :
  let hand := [spade 2; spade 3; spade 4; spade 9; mkCard 2 9] in
  exists card score st combs,
    @post_best_card merge_sort_combs hand 7 default_card = Ok (card, score) /\
    search_all_group hand 1 7 [] = Ok (st, combs) /\ Forall (comb_ok 7 hand) combs /\
    posted 7 combs default_card (card, score).
Proof.
  intros hand. apply (@post_best_card_correct merge_sort_combs merge_sort_laws); [|simpl; lia|done].
  refine (bool_decide_eq_true_1 _ _). vm_compute. reflexivity.
Defined.

(** With the 13 or 14 cards of a seat the posted card is always one of the
    hand, whatever the caller's variable held. *)
Theorem post_best_card_in_hand `{SortLaws} hand jp card0 :
  hand ⊆+ deck -> (13 <= length hand <= 14)%nat ->
  exists card score, post_best_card hand jp card0 = Ok (card, score) /\ card ∈ hand.
Proof.
  intros Hd Hl. destruct (post_best_card_returns hand jp card0 Hd ltac:(lia) ltac:(lia))
    as (card & score & st & combs & Hpost & _ & Hok & info & Hin & _ & Hcase).
  rewrite Forall_forall in Hok. specialize (Hok info Hin).
  exists card, score. split; [done|]. cbn [fst snd] in Hcase.
  destruct Hcase as [[Hc _]|(Hv & _ & [[(g & Hg & _ & Hc) _]|[_ Hsmall]])].
  - apply (comb_valid_elem jp hand info); [done|by apply least_related_elem in Hc].
  - apply (comb_group_elem jp hand info g); [done|done|by apply spare_elem in Hc].
  - exfalso. apply (comb_full_group jp hand info); [done|done|lia|done].
Qed.

Lemma post_best_card_in_hand_witness :
  exists card score,
    @post_best_card merge_sort_combs sample_hand 10 default_card = Ok (card, score) /\
    card ∈ sample_hand.
Proof.
  apply (@post_best_card_in_hand merge_sort_combs merge_sort_laws); [apply sample_hand_deck|simpl; lia].
Defined.
