(* ===== verification/Player.v ===== *)
(** * Players

    Models [GG_Player] of "gamesvr - 副本"/GG_Player.cpp, the player object that
    the seats and the desk point to: the status word (a phase in its low four
    bits, flags above it), the chips a player carries to the table and those
    that stay on the account, and the calls that settle chips with the money
    server.  The money server is another process: its answers are the methods of
    [MoneyService]; nothing is assumed of them. *)
From Stdlib Require Import ZArith Lia String.
From stdpp Require Import base tactics numbers option gmap strings pretty list.
From S2P Require Import Prelude.

(** ** The status word *)

Definition PLAYER_MASK : Z := 0x000F.
Definition PLAYER_TRUSTEED : Z := 0x0080.
Definition PLAYER_OFFLINE : Z := 0x0100.
Definition PLAYER_ESCAPED : Z := 0x0200.

Definition PLAYER_WAIT_NEXT_GAME : Z := 1.
Definition PLAYER_UNREADY : Z := 2.
Definition PLAYER_PLAYING : Z := 3.
Definition PLAYER_DROP : Z := 4.
Definition PLAYER_DECLARE : Z := 5.
Definition PLAYER_STAND_UP : Z := 6.

(** [status & mask] as a condition. *)
Definition has (status mask : Z) : bool := negb (Z.land status mask =? 0).
(** [(status & ~mask) | bits] *)
Definition with_bits (status mask bits : Z) : Z := Z.lor (Z.land status (Z.lnot mask)) bits.

(** ** The object

    [m_pGameSeat] is the number of the seat it points to; [m_pGameDesk] and
    [m_pGameArea] are the desk the player is at. *)
Record Player : Set := mkPlayer {
  m_player_id : Z;
  m_player_name : string;
  m_cur_status : Z;
  m_online_check_time : Z;
  m_cur_carry : Z;
  m_active_chips : Z;
  m_is_recv_broadcast : bool;
  m_pGameSeat : option nat
}.

#[export] Instance Player_eta : Eta Player := fun p =>
  mkPlayer (m_player_id p) (m_player_name p) (m_cur_status p) (m_online_check_time p)
    (m_cur_carry p) (m_active_chips p) (m_is_recv_broadcast p) (m_pGameSeat p).

(** [GG_Player()], with its id, at the time [now]. *)
Definition new_player (player_id now : Z) : Player :=
  mkPlayer player_id "" PLAYER_UNREADY now 0 0 false None.

Implicit Type p : Player.

(** ** Status operations *)

Definition set_status (status : Z) p : Player :=
  if negb (status =? m_cur_status p) then p <| m_cur_status := status |> else p.

Definition is_player_trusteed_on p : bool := has (m_cur_status p) PLAYER_TRUSTEED.
Definition is_player_offline p : bool := has (m_cur_status p) PLAYER_OFFLINE.
Definition is_player_escaped p : bool := has (m_cur_status p) PLAYER_ESCAPED.

Definition set_offline p : Player :=
  if negb (is_player_offline p) then set_status (Z.lor (m_cur_status p) PLAYER_OFFLINE) p else p.

Definition set_online p : Player :=
  if is_player_offline p then set_status (Z.land (m_cur_status p) (Z.lnot PLAYER_OFFLINE)) p else p.

Definition set_trustee_on p : Player :=
  if negb (is_player_trusteed_on p) then set_status (Z.lor (m_cur_status p) PLAYER_TRUSTEED) p
  else p.

Definition set_trustee_off p : Player :=
  if is_player_trusteed_on p then set_status (Z.land (m_cur_status p) (Z.lnot PLAYER_TRUSTEED)) p
  else p.

Definition set_escaped p : Player :=
  if negb (is_player_escaped p) then
    let p := set_status (Z.lor (m_cur_status p) PLAYER_ESCAPED) p in
    let p := set_offline p in
    set_trustee_on p
  else p.

Definition set_unescaped p : Player :=
  if is_player_escaped p then
    let p := set_status (Z.land (m_cur_status p) (Z.lnot PLAYER_ESCAPED)) p in
    let p := set_online p in
    set_trustee_off p
  else p.

Definition is_player_need_standup p : bool :=
  is_player_offline p || is_player_trusteed_on p || is_player_escaped p.

Definition is_player_playing p : bool :=
  let status := Z.land (m_cur_status p) PLAYER_MASK in
  (status =? PLAYER_PLAYING) || (status =? PLAYER_DROP) || (status =? PLAYER_DECLARE).

Definition ready_for_game p : Player :=
  set_status (with_bits (m_cur_status p) PLAYER_MASK PLAYER_PLAYING) p.

Definition get_status_name (status : Z) : string :=
  (if has status PLAYER_TRUSTEED then "PLAYER_TRUSTEED|" else "") +:+
  (if has status PLAYER_OFFLINE then "PLAYER_OFFLINE|" else "") +:+
  let status := Z.land status PLAYER_MASK in
  (if status =? PLAYER_WAIT_NEXT_GAME then "PLAYER_WAIT_NEXT_GAME"
   else if status =? PLAYER_UNREADY then "PLAYER_UNREADY"
   else if status =? PLAYER_PLAYING then "PLAYER_PLAYING"
   else if status =? PLAYER_DROP then "PLAYER_DROP"
   else if status =? PLAYER_STAND_UP then "PLAYER_STAND_UP"
   else "UNKNOWN:" +:+ pretty status).

(** *** Presence *)

Definition flush_online_time (now : Z) p : Player :=
  set_online (p <| m_online_check_time := now |>).

(** [manager_online] is what the player manager answers for the user. *)
Definition is_online (manager_online : bool) (now : Z) p : bool :=
  manager_online && (now <? m_online_check_time p + 40).

(** ** Seat and carried chips *)

Definition is_seated_player p : bool := bool_decide (is_Some (m_pGameSeat p)).

Definition get_seat_number p : Z :=
  match m_pGameSeat p with Some seat => Z.of_nat seat | None => -1 end.

Definition set_carry (carry : Z) p : Player := p <| m_cur_carry := carry |>.
Definition carry_add (add_count : Z) p : Player := set_carry (m_cur_carry p + add_count) p.
Definition carry_sub (sub_count : Z) p : Player := set_carry (m_cur_carry p - sub_count) p.
Definition get_chips p : Z := m_active_chips p + m_cur_carry p.

Definition need_kickout_room (now : Z) (game_is_over : bool) p : bool :=
  (m_online_check_time p + 10 <? now) && (game_is_over || negb (is_seated_player p)).

Definition sit_down (seat : nat) p : Player := p <| m_pGameSeat := Some seat |>.

(** ** The money server *)

(** The answers to [deal_lose_account] and [bet_chips]: the carry, the chips on
    the account and the amount really taken; to [game_buy_chips_in], the amount
    bought and the chips left.  [None] is a failed request. *)
Class MoneyService (M : Type) := {
  deal_lose_account : M -> Z -> Z -> Z -> Z -> option (Z * Z * Z) * M;
  get_money : M -> Z -> option (option Z * option Z) * M;
  game_buy_chips_in : M -> Z -> Z -> Z -> option (Z * Z) * M;
  game_add_carry : M -> Z -> Z -> Z -> bool * M;
  game_bet_chips : M -> Z -> Z -> option (Z * Z * Z) * M;
  game_leave_account : M -> Z -> Z -> M;
  match_over_money : M -> Z -> Z -> Z -> M
}.

Section money.
Context {M : Type} `{MoneyService M}.
Implicit Type m : M.

(** [real_count] keeps the value of the caller when the request fails. *)
Definition deal_loser_account (buyin all_loser_count real_count : Z) p m : Z * Player * M :=
  let '(r, m) := deal_lose_account m (m_player_id p) (m_cur_carry p) buyin all_loser_count in
  match r with
  | None => (real_count, p, m)
  | Some (carry, chips, real_account) =>
      (real_account, p <| m_cur_carry := carry |> <| m_active_chips := chips |>, m)
  end.

Definition get_user_money p m : Z * Player * M :=
  let '(r, m) := get_money m (m_player_id p) in
  match r with
  | None => (0, p, m)
  | Some (chips, carry) =>
      let p := p <| m_active_chips := default (m_active_chips p) chips |>
                 <| m_cur_carry := default (m_cur_carry p) carry |> in
      (m_active_chips p + m_cur_carry p, p, m)
  end.

Definition buy_chips (buy_count min_count : Z) p m : outcome (Z * Player * M) :=
  _ ← assert_that (min_count <=? buy_count);
  let '(r, m) := game_buy_chips_in m (m_player_id p) buy_count min_count in
  match r with
  | None => mret (-1, p, m)
  | Some (buychipsreal, chipsleft) => mret (buychipsreal, p <| m_active_chips := chipsleft |>, m)
  end.

Definition buy_in (buy_count min_count : Z) p m : outcome (Z * Player * M) :=
  '(real_buy_count, p, m) ← buy_chips buy_count min_count p m;
  if real_buy_count <? min_count then mret (-1, p, m)
  else mret (real_buy_count, carry_add real_buy_count p, m).

Definition buy_add_carry_chips (need_add_carry : Z) p m : Z * Player * M :=
  let '(success, m) := game_add_carry m (m_player_id p) (m_cur_carry p) need_add_carry in
  if negb success then (-1, p, m)
  else if m_active_chips p <? need_add_carry then (-1, p, m)
  else (need_add_carry, p <| m_active_chips ::= fun c => c - need_add_carry |>, m).

Definition check_chips_carry (sitdown_buyin_count : Z) p m : bool * Player * M :=
  let need_add_carry := sitdown_buyin_count - m_cur_carry p in
  if need_add_carry <=? 0 then (true, p, m)
  else
    let '(real_buy_count, p, m) := buy_add_carry_chips need_add_carry p m in
    if real_buy_count <? need_add_carry then (false, p, m)
    else (true, carry_add real_buy_count p, m).

Definition bet_chips (chips real_bet : Z) p m : Z * Z * Player * M :=
  let '(r, m) := game_bet_chips m (m_player_id p) chips in
  match r with
  | None => (-1, real_bet, p, m)
  | Some (carry, active, bet) =>
      (0, bet, p <| m_active_chips := active |> <| m_cur_carry := carry |>, m)
  end.

Definition stand_up p m : outcome (Player * M) :=
  _ ← assert_that (is_seated_player p);
  let p := p <| m_pGameSeat := None |> in
  let p := set_status (with_bits (m_cur_status p) PLAYER_MASK PLAYER_STAND_UP) p in
  let m := game_leave_account m (m_player_id p) (m_cur_carry p) in
  mret (if 0 <? m_cur_carry p then carry_sub (m_cur_carry p) p else p, m).
End money.
