(* ===== verification/Seat.v ===== *)
(** * Seats

    Models [GameSeat] of "gamesvr - 副本"/GameSeat.h and GameSeat.cpp: the seat's
    status bits, the hand of the player who sits there, the card dug last, and
    the points and chips of the round.  An operation that goes through
    [m_player] takes the player it points to and returns it. *)
From Stdlib Require Import ZArith Lia String.
From stdpp Require Import base tactics numbers sorting option gmap strings list.
From S2P Require Import Prelude Cards Dealer Straight Declare Search Found Hand Player.

(** ** Status bits *)

Module Status.
Definition seated : Z := 0x0001.
Definition ingame : Z := 0x0002.
Definition leave : Z := 0x0004.
Definition win : Z := 0x0008.
Definition cur_join : Z := 0x0010.
Definition abort : Z := 0x0020.
Definition escape : Z := 0x0040.
Definition drop : Z := 0x0080.
Definition declared : Z := 0x0100.
End Status.

(** ** The object

    [m_player] is the identity of the player object it points to. *)
Record GameSeat : Set := mkSeat {
  m_player : option Z;
  m_seat_number : Z;
  m_seat_stauts : Z;
  m_ingame_player_id : Z;
  m_handcards_total : list PokerCard;
  m_match_over_account_chips : Z;
  seat_score : Z;
  m_card_score : Z;
  m_dig_card : PokerCard;
  seat_card_group : list CardGroup
}.

#[export] Instance GameSeat_eta : Eta GameSeat := fun s =>
  mkSeat (m_player s) (m_seat_number s) (m_seat_stauts s) (m_ingame_player_id s)
    (m_handcards_total s) (m_match_over_account_chips s) (seat_score s) (m_card_score s)
    (m_dig_card s) (seat_card_group s).

(** [GameSeat()] *)
Definition new_seat : GameSeat := mkSeat None (-1) 0 0 [] 0 0 0 default_card [].

Implicit Types (s : GameSeat) (p : Player).

Definition is_seated s : bool := has (m_seat_stauts s) Status.seated.
Definition is_in_game s : bool := has (m_seat_stauts s) Status.ingame.
Definition is_winner s : bool := has (m_seat_stauts s) Status.win.
Definition is_player_joined s : bool := has (m_seat_stauts s) Status.cur_join.
Definition is_player_escape s : bool := has (m_seat_stauts s) Status.escape.
Definition is_drop s : bool := has (m_seat_stauts s) Status.drop.
Definition is_declared s : bool := has (m_seat_stauts s) Status.declared.

Definition with_status (new_status : Z) s : GameSeat := s <| m_seat_stauts := new_status |>.

(** [seat_status(new_status)]: its log line adds the number of the room to the literal
    [") seat("], whatever the level of the log. *)
Definition seat_status (room_id new_status : Z) s : outcome GameSeat :=
  _ ← print_literal 7 room_id;
  mret (with_status new_status s).

Lemma seat_status_ok room_id new_status s :
  0 <= room_id <= 7 -> seat_status room_id new_status s = Ok (with_status new_status s).
Proof. intros. unfold seat_status. by rewrite print_literal_inside. Qed.

Definition seat_status_name (status : Z) : string :=
  let add (status_name : string) (bit : Z) (name : string) : string :=
    if has status bit then
      status_name +:+ (if decide (status_name = "") then "" else "|") +:+ name
    else status_name in
  let status_name := add "" Status.seated "seated"%string in
  let status_name := add status_name Status.ingame "ingame"%string in
  let status_name := add status_name Status.win "win"%string in
  let status_name := add status_name Status.cur_join "cur_join"%string in
  let status_name := add status_name Status.escape "escape"%string in
  if decide (status_name = "") then "idle"%string else status_name.

(** ** Operations *)

(** [get_seated_player()], dereferenced by its callers. *)
Definition get_seated_player s : outcome Z := deref (m_player s).

(** [ready_for_game]; [player] is what [m_player] points to. *)
Definition seat_ready_for_game (room_id : Z) s (player : option Player) : outcome (GameSeat * option Player) :=
  let s := s <| m_ingame_player_id := 0 |> <| seat_score := 20 |> <| m_card_score := 0 |> in
  '(s, player) ←
    (if is_seated s then
       s ← seat_status room_id (Z.lor (Z.lor Status.seated Status.ingame) Status.cur_join) s;
       p ← deref player;
       mret (s <| m_ingame_player_id := m_player_id p |>, Some (ready_for_game p))
     else s ← seat_status room_id 0 s; mret (s, player));
  mret (s <| m_match_over_account_chips := 0 |> <| m_handcards_total := [] |>, player).

Definition game_over (room_id : Z) s : outcome GameSeat :=
  seat_status room_id (Z.land (Z.land (m_seat_stauts s) (Z.lnot Status.ingame)) (Z.lnot Status.escape)) s.

(** Seat [i] of the desk. *)
Definition player_sit_down (room_id : Z) (i : nat) s p : outcome (GameSeat * Player) :=
  let s := s <| m_player := Some (m_player_id p) |> in
  s ← seat_status room_id (Z.lor (m_seat_stauts s) Status.seated) s;
  mret (s, sit_down i p).

Definition deal_cards (hand_cards : list PokerCard) s : GameSeat :=
  s <| m_handcards_total := sort_cards hand_cards |>.

Definition reset_seat s : GameSeat :=
  s <| m_match_over_account_chips := 0 |> <| m_handcards_total := [] |>
    <| m_dig_card := default_card |> <| seat_card_group := [] |>.

Definition dig_card (card : PokerCard) s : GameSeat :=
  s <| seat_score := 40 |> <| m_dig_card := card |>
    <| m_handcards_total ::= fun hand => sort_cards (hand ++ [card]) |>.

Definition discard_card (card : PokerCard) s : option GameSeat :=
  hand ← erase_first card (m_handcards_total s);
  Some (s <| m_handcards_total := hand |>).

(** The card posted is the one dug. *)
Definition post_default_card s : outcome (PokerCard * GameSeat) :=
  match erase_first (m_dig_card s) (m_handcards_total s) with
  | None => Fault AssertFailed
  | Some hand => mret (m_dig_card s, s <| m_handcards_total := hand |>)
  end.

Definition game_over_account (small_blind : Z) s : Z :=
  let accout_size := i32 (Z.of_nat (length (m_handcards_total s)) - 1) in
  if accout_size <=? 0 then 0 else accout_size * small_blind.

(** The best arrangement of the hand, with the joker point of the desk. *)
Definition arrange (joker_point : Z) s : outcome GameSeat :=
  '(score, groups) ← default_declare (m_handcards_total s) joker_point;
  mret (s <| m_card_score := score |> <| seat_card_group := groups |>).

Definition borning_over (joker_point : Z) s : outcome GameSeat :=
  arrange joker_point (s <| seat_score := 0 |>).

Definition drop_win (joker_point : Z) s : outcome GameSeat :=
  arrange joker_point (s <| seat_score := 0 |>).

Definition player_drop (room_id joker_point : Z) (drop_card : bool) s p : outcome (GameSeat * Player) :=
  s ← seat_status room_id (Z.lor (Z.land (m_seat_stauts s) (Z.lnot Status.ingame)) Status.drop) s;
  let p := set_status (with_bits (m_cur_status p) PLAYER_MASK PLAYER_DROP) p in
  s ← (if drop_card then
         match erase_first (m_dig_card s) (m_handcards_total s) with
         | None => Fault AssertFailed
         | Some hand => mret (s <| m_handcards_total := hand |>)
         end
       else mret s);
  s ← arrange joker_point s;
  mret (s, p).

(** The player's phase after a declaration. *)
Definition declare_phase p : Player :=
  set_status (with_bits (m_cur_status p) PLAYER_MASK PLAYER_DECLARE) p.

(** [check_declare]: the hand is sorted even when the request is refused. *)
Definition check_declare (room_id joker_point : Z) (declarecard : MsgCard) (cardgroup : list PB_CardGroup)
    s p : outcome (bool * GameSeat * Player) :=
  let deccard := parse_msg_card declarecard in
  let groups := ParseMsgGroup [] cardgroup in
  if negb (bool_decide (deccard ∈ m_handcards_total s)) then mret (false, s, p)
  else
    let decsequnce := concat (m_cards <$> groups) ++ [deccard] in
    let s := s <| m_handcards_total ::= sort_cards |> in
    let decsequnce := sort_cards decsequnce in
    if negb (bool_decide (decsequnce = m_handcards_total s)) then mret (false, s, p)
    else
      b ← is_groups_declare groups joker_point;
      if negb b then mret (false, s, p)
      else
        let s := s <| seat_score := 0 |> <| m_card_score := 0 |> <| seat_card_group := groups |> in
        s ← seat_status room_id (Z.lor (m_seat_stauts s) Status.declared) s;
        mret (true, s, declare_phase p).

(** The points a loser pays for, from the points of the loose cards. *)
Definition account_score (score : Z) s : Z * GameSeat :=
  if score =? 0 then (score, s <| m_card_score := 0 |> <| seat_score := 1 |>)
  else if 80 <? score then (80, s <| m_card_score := score |> <| seat_score := 80 |>)
  else (score, s <| seat_score := score |> <| m_card_score := score |>).

(** The status of a seat that has paid. *)
Definition lose_status (room_id : Z) s : outcome GameSeat :=
  seat_status room_id (Z.lor (Z.land (m_seat_stauts s) (Z.lnot Status.ingame)) Status.declared) s.

(** [check_lose_declare], with the score it leaves in its reference. *)
Definition seat_check_lose_declare (room_id joker_point : Z) (cardgroup : list PB_CardGroup) (score : Z)
    s p : outcome (bool * Z * GameSeat * Player) :=
  let groups := ParseMsgGroup [] cardgroup in
  let decsequnce := sort_cards (concat (m_cards <$> groups)) in
  let s := s <| m_handcards_total ::= sort_cards |> in
  if negb (bool_decide (decsequnce = m_handcards_total s)) then mret (false, score, s, p)
  else
    '(b, score) ← check_lose_declare groups joker_point;
    if negb b then mret (false, score, s, p)
    else
      let '(score, s) := account_score score s in
      let s := s <| seat_card_group := groups |> in
      s ← lose_status room_id s;
      mret (true, score, s, declare_phase p).

Definition seat_default_declare (room_id joker_point : Z) s p
  : outcome (Z * list CardGroup * GameSeat * Player) :=
  '(score, cardGroup) ← default_declare (m_handcards_total s) joker_point;
  let '(score, s) := account_score score s in
  let s := s <| seat_card_group := cardGroup |> in
  s ← lose_status room_id s;
  mret (score, cardGroup, s, declare_phase p).

Section account.
Context {M : Type} `{MoneyService M}.

(** [send_match_over_account]: what the player carries above the amount
    bought when sitting down goes back to the account. *)
Definition send_match_over_account (buy_carry : Z) p (m : M) : Player * M :=
  let cur_carray := m_cur_carry p in
  let temp_count := cur_carray - buy_carry in
  if temp_count <=? 0 then (p, match_over_money m (m_player_id p) 0 cur_carray)
  else
    let p := set_carry buy_carry p in
    (p, match_over_money m (m_player_id p) temp_count (m_cur_carry p)).

(** The winner is paid [chips] of the pool, a loser pays [-chips] into it. *)
Definition match_over_account (room_id buyin chips : Z) s p (m : M)
  : outcome (Z * GameSeat * Player * M) :=
  if chips <=? 0 then
    let '(real_count, p, m) := deal_loser_account buyin (- chips) 0 p m in
    mret (real_count, s <| m_match_over_account_chips ::= fun a => a - real_count |>, p, m)
  else
    s ← seat_status room_id (Z.lor (m_seat_stauts s) Status.win) s;
    let p := carry_add chips p in
    let s := s <| m_match_over_account_chips ::= fun a => a + chips |> in
    let '(p, m) := send_match_over_account buyin p m in
    let '(_, p, m) := get_user_money p m in
    mret (chips, s, p, m).

Definition player_stand_up (room_id : Z) (game_is_over : bool) s p (m : M) : outcome (GameSeat * Player * M) :=
  s ← (if negb game_is_over
       then seat_status room_id (Z.land (Z.land (m_seat_stauts s) (Z.lnot Status.ingame)) (Z.lnot Status.seated)) s
       else seat_status room_id 0 s);
  '(p, m) ← stand_up p m;
  mret (s <| m_player := None |> <| m_handcards_total := [] |>, p, m).
End account.
