(* ===== verification/Desk.v ===== *)
(** * The game desk: data and queries

    Models the state of [GameDesk] of "gamesvr - 副本"/GameDesk.h, the queries of
    GameDesk.cpp that do not change it, and the operations the handlers are
    built from (waiting for a round, notices, seat scans).  The handlers are in
    Play.v and Room.v.

    The player objects are shared between the desk's room, the seats and the
    handlers' arguments, so they live in a store, [m_objects], and a pointer to
    one is its user id.  [time(NULL)] is a member, set before a handler runs. *)
From Stdlib Require Import ZArith Lia String.
From stdpp Require Import base tactics numbers sorting option gmap strings sets pretty list.
From S2P Require Import Prelude Cards Dealer Straight Declare Hand Player Seat.

(** ** Constants *)

Definition GAME_WAIT_MASK : Z := 0x80000000.
Definition GAME_ROUND_MASK : Z := 0x0000FFFF.
Definition GAME_UNREADY : Z := 0x00000001.
Definition GAME_WAIT_PLAYING : Z := 0x00000002.
Definition GAME_DEALER_CARD : Z := 0x00000004.
Definition GAME_ACTIVE1 : Z := 0x00000008.
Definition GAME_ACTIVE2 : Z := 0x00000010.
Definition GAME_DECLARE : Z := 0x00000020.
Definition GAME_DISTRIBUTE : Z := 0x00000040.
Definition GAME_SHUFFLE_CARD : Z := 0x00000080.

Definition DIG_BOTTOM : Z := 0.
Definition DIG_POOL : Z := 1.

Definition NORMAL_OVER : Z := 0.
Definition DROP_OVER : Z := 1.
Definition BORNING_OVER : Z := 2.

Definition ENTER_SCORE1 : Z := 15.

(** The result codes the handlers answer with. *)
Inductive ErrorCode : Set :=
  | GG_ERROR_SUCCESS
  | GG_ERROR_INVALID_STATUS
  | GG_ERROR_PARAMETER_INVALID
  | GG_ERROR_USER_NOT_IN_ROOM
  | GG_ERROR_GAME_NOT_OVER
  | GG_ERROR_HAVE_NO_IDLE_SEAT
  | GG_ERROR_HAVE_NO_SEAT
  | GG_ERROR_USER_BUY_IN_FAILED
  | GG_ERROR_HAVENO_TOKEN_LOGIN.

(** ** Messages *)

Record LoserInfo : Set := mkLoser {
  l_userid : Z; l_isdrop : Z; l_loseaccount : Z; l_score : Z; l_cardscore : Z;
  l_cardgroup : list PB_CardGroup
}.

(** [GG_GameOverRequest]; the list of players' chips is [o_playerchips]. *)
Record GameOverRequest : Set := mkOver {
  o_gameovertype : Z; o_winnerid : Z; o_winaccount : Z; o_winnerscore : Z;
  o_winnercardgroup : list PB_CardGroup;
  o_loserinfo : list LoserInfo;
  o_playerchips : list (Z * Z)
}.

#[export] Instance GameOverRequest_eta : Eta GameOverRequest := fun r =>
  mkOver (o_gameovertype r) (o_winnerid r) (o_winaccount r) (o_winnerscore r)
    (o_winnercardgroup r) (o_loserinfo r) (o_playerchips r).

(** [GG_PlayerInfo]: a seated player, as everybody sees him. *)
Record PlayerInfo : Set := mkInfo {
  i_id : Z; i_name : string; i_totalchips : Z; i_status : Z; i_seatnumber : Z; i_score : Z;
  i_cardgroup : list PB_CardGroup; i_handcardcount : Z
}.

(** The status a client is shown. *)
Inductive AppStatus : Set :=
  | AppUnready | AppWaitPlaying | AppDealerCard | AppActive1 | AppActive2 | AppDeclare
  | AppDistribute | AppShuffleCard.

(** [GG_FlushRoomRequest]: the whole table for one player. *)
Record FlushRoomRequest : Set := mkFlush {
  f_roomtype : Z; f_smallblind : Z; f_mincarry : Z; f_gamestatus : AppStatus; f_maxplaying : Z;
  f_desktype : Z; f_cardpool : list PokerCard; f_bottomcardcount : Z; f_jokercard : PokerCard;
  f_chipspool : Z; f_dealerindex : Z; f_applydeclareseatnum : Z; f_active1sec : Z; f_active2sec : Z;
  f_distributsec : Z; f_declaresec : Z; f_waitgamesec : Z; f_dropscore1 : Z; f_dropscore2 : Z;
  f_ispoolcardcandig : Z; f_handcard : list PokerCard; f_currentactiveseat : Z; f_timeleft : Z;
  f_player : list PlayerInfo; f_ingameplayer : list (Z * Z)
}.

(** [GG_DealCardsReqeust] *)
Record DealCardsRequest : Set := mkDealCards {
  c_dealerseat : Z; c_dealcardcount : Z; c_dealcardsorder : list Z; c_handcard : list PokerCard;
  c_bottomcardcount : Z; c_firstpoolcard : PokerCard; c_jokercard : PokerCard
}.

(** [PlayerGameResult] *)
Record PlayerGameResult : Set := mkResult {
  g_userid : Z; g_chipsincrease : Z; g_expincrease : Z; g_statusmask : Z
}.

(** The messages sent to clients, by the request they carry. *)
Inductive Msg : Set :=
  | NotifyWaitGame (flag seconds : Z)
  | ActivePlayer (userid ispoolcardcandig : Z)
  | TrusteeOn (userid : Z)
  | TrusteeOff (userid : Z)
  | PlayerSitDown (userid seatnumber : Z)
  | PlayerStandUp (userid reason : Z)
  | DealCards (request : DealCardsRequest)
  | PlayerDigCard (userid : Z) (card : PokerCard) (digtype : Z)
  | PlayerPostCard (userid : Z) (card : PokerCard)
  | ShuffleCard (bottomcardcount poolcardcount : Z)
  | PlayerDeclare (userid : Z) (declarecard : MsgCard) (cardgroup : list PB_CardGroup)
  | PlayerLoseDeclare (userid : Z) (cardgroup : list PB_CardGroup) (score chips : Z)
  | PlayerDrop (userid : Z) (dropcard : PokerCard) (dropscore dropchips : Z)
  | CloseAccountBox (userid : Z)
  | GameOver (request : GameOverRequest)
  | FlushRoom (request : FlushRoomRequest)
  | PlayerChat (isshortcut : Z) (chatcontent : string) (chatuserid : Z) (chatusername : string)
  | PlayerFaceShow (userid faceid : Z)
  | PlayerUseProps (applyuserid acceptuserid : Z) (propsname : string)
  | PlayerPresentGift (presenterid giftid : Z) (acceptorid : list Z)
  | PlayerPresentGiftNewInter (presenterid giftid : Z) (gifturl : string) (acceptorid : list Z)
  | PlayerTransmitMessage (msgtype msgid : Z) (jsondata : string) (senduserid : Z).

(** What a handler sends, in order: an answer to the request, messages to
    clients by their user ids, the results of a game to the data center and a note
    of it to the notification server. *)
Inductive Event : Set :=
  | Reply (result : ErrorCode)
  | ReplyRoomStatus (status : AppStatus)
  | SendRequests (messages : list (Z * Msg))
  | SubmitGameResult (results : list PlayerGameResult)
  | NotifyPlayerGameover (room_id room_type desk_type small_blind : Z) (user_id : list Z).

(** ** The room's settings *)

Record RoomInfo : Set := mkRoom {
  m_room_id : Z;
  m_small_blind : Z;
  m_min_carry : Z;
  m_max_carry : Z;
  m_max_playing : Z;
  m_room_type : Z;
  m_base_exp_win : Z;
  m_base_exp_lose : Z;
  m_tips_persent : Z;
  m_desk_type : Z;
  m_draw_tips : Z
}.

(** The rooms whose seats can print their status. *)
Class PrintableRoom (room : RoomInfo) : Prop := { printable : 0 <= m_room_id room <= 7 }.

#[export] Hint Extern 0 (0 <= m_room_id _ <= 7) => apply printable : core.

(** [TimeInterval], in milliseconds. *)
Record TimeInterval : Set := mkInterval {
  m_time_deal_card : Z; m_time_active1 : Z; m_time_active2 : Z; m_time_post_card : Z;
  m_time_shuffle_card : Z; m_time_drop : Z; m_time_distribute : Z; m_time_declare : Z;
  m_time_account_animat : Z; m_time_wait_next_game : Z; m_time_declare_animat : Z
}.

(** [TimeInterval()] *)
Definition default_interval : TimeInterval :=
  mkInterval 8400 15000 20000 500 750 1000 10000 20000 3000 5000 3000.

(** ** The desk *)

Definition m_max_seat_num : nat := 5.

Record GameDesk (M G : Type) : Type := mkDesk {
  m_seats : list GameSeat;
  m_dealer_index : Z;
  m_game_status : Z;
  m_wait_ms : option Z;
  m_active_seatnum : Z;
  m_joker_card : PokerCard;
  m_pokercard_pool : list PokerCard;
  m_bottom_cards : list PokerCard;
  m_last_winner_seatnum : Z;
  m_wait_begin : Z;
  m_chips_pool : Z;
  m_apply_declare_seatnum : Z;
  m_time_game_begin : Z;
  m_is_first_pool_card : bool;
  m_gameover_type : Z;
  m_notify_room_type : Z;
  m_wait_game_sec : Z;
  m_draw_sec : Z;
  (* the room and what lies outside the desk *)
  m_all_player : gset Z;
  m_objects : gmap Z Player;
  m_card_dealer : CardDealer;
  m_money : M;
  m_rand : G;
  m_now : Z;
  m_sent : list Event
}.
Arguments mkDesk {M G}.
Arguments m_seats {M G}.
Arguments m_dealer_index {M G}.
Arguments m_game_status {M G}.
Arguments m_wait_ms {M G}.
Arguments m_active_seatnum {M G}.
Arguments m_joker_card {M G}.
Arguments m_pokercard_pool {M G}.
Arguments m_bottom_cards {M G}.
Arguments m_last_winner_seatnum {M G}.
Arguments m_wait_begin {M G}.
Arguments m_chips_pool {M G}.
Arguments m_apply_declare_seatnum {M G}.
Arguments m_time_game_begin {M G}.
Arguments m_is_first_pool_card {M G}.
Arguments m_gameover_type {M G}.
Arguments m_notify_room_type {M G}.
Arguments m_wait_game_sec {M G}.
Arguments m_draw_sec {M G}.
Arguments m_all_player {M G}.
Arguments m_objects {M G}.
Arguments m_card_dealer {M G}.
Arguments m_money {M G}.
Arguments m_rand {M G}.
Arguments m_now {M G}.
Arguments m_sent {M G}.

#[export] Instance GameDesk_eta M G : Eta (GameDesk M G) := fun d =>
  mkDesk (m_seats d) (m_dealer_index d) (m_game_status d) (m_wait_ms d) (m_active_seatnum d)
    (m_joker_card d) (m_pokercard_pool d) (m_bottom_cards d) (m_last_winner_seatnum d)
    (m_wait_begin d) (m_chips_pool d) (m_apply_declare_seatnum d) (m_time_game_begin d)
    (m_is_first_pool_card d) (m_gameover_type d) (m_notify_room_type d) (m_wait_game_sec d)
    (m_draw_sec d) (m_all_player d) (m_objects d) (m_card_dealer d) (m_money d) (m_rand d)
    (m_now d) (m_sent d).

Section desk.
Context {M G : Type}.
Abbreviation desk := (GameDesk M G).
Implicit Type d : desk.

(** The constructor and [init_seats]. *)
Definition new_desk (dealer : CardDealer) (money : M) (gen : G) (now : Z) : desk :=
  mkDesk ((fun i => new_seat <| m_seat_number := Z.of_nat i |>) <$> seq 0 m_max_seat_num)
    0 GAME_UNREADY None (-1) default_card [] [] (-1) 0 0 (-1) (-1) true (-1) 0 0 0
    ∅ ∅ dealer money gen now [].

(** *** Queries *)

Definition is_game_wait_over d : bool := has (m_game_status d) GAME_WAIT_MASK.
Definition is_waiting_for_round d : bool := has (m_game_status d) GAME_WAIT_MASK.
Definition is_game_over d : bool :=
  has (m_game_status d) GAME_UNREADY || has (m_game_status d) GAME_WAIT_PLAYING ||
  has (m_game_status d) GAME_DISTRIBUTE.
Definition is_wait_active1 d : bool := has (m_game_status d) GAME_ACTIVE1.
Definition is_wait_active2 d : bool := has (m_game_status d) GAME_ACTIVE2.
Definition is_wait_active d : bool := is_wait_active1 d || is_wait_active2 d.
Definition is_distribut d : bool := has (m_game_status d) GAME_DISTRIBUTE.
Definition is_wait_game d : bool := has (m_game_status d) GAME_WAIT_PLAYING.
Definition is_declareing d : bool := has (m_game_status d) GAME_DECLARE.
Definition is_game_declare d : bool := has (m_game_status d) GAME_DECLARE.
Definition is_dealer_card d : bool := has (m_game_status d) GAME_DEALER_CARD.
Definition is_game_unready d : bool := has (m_game_status d) GAME_UNREADY.
Definition is_game_wait_playing d : bool :=
  is_waiting_for_round d && has (m_game_status d) GAME_WAIT_PLAYING.

Definition get_seated_count d : Z := Z.of_nat (length (filter (fun s => is_seated s = true) (m_seats d))).
Definition get_ingame_count d : Z := Z.of_nat (length (filter (fun s => is_in_game s = true) (m_seats d))).
Definition is_game_can_start d : bool := 1 <? get_seated_count d.

(** The first seat that passes a test, by its number. *)
Fixpoint first_seat_number (test : GameSeat -> bool) (seats : list GameSeat) : Z :=
  match seats with
  | [] => -1
  | s :: seats' => if test s then m_seat_number s else first_seat_number test seats'
  end.

Definition get_idle_seat_number d : Z :=
  first_seat_number (fun s => negb (is_seated s)) (m_seats d).
Definition get_last_ingame_seatnum d : Z :=
  first_seat_number (fun s => is_seated s && is_in_game s) (m_seats d).

(** *** Objects and seats *)

Definition get_player (uid : Z) d : outcome Player := deref (m_objects d !! uid).
Definition put_player (uid : Z) (p : Player) d : desk := d <| m_objects ::= <[uid := p]> |>.
Definition put_seat (i : nat) (s : GameSeat) d : desk := d <| m_seats ::= <[i := s]> |>.

(** [m_seats[n]] for an [int] subscript. *)
Definition seat_at (n : Z) d : outcome GameSeat :=
  if 0 <=? n then access (m_seats d !! Z.to_nat n) else Fault OutOfBounds.

Definition is_seat_idle (seat_number : Z) d : outcome bool :=
  if (seat_number <? 0) || (Z.of_nat m_max_seat_num - 1 <? seat_number) then mret false
  else s ← seat_at seat_number d; mret (negb (is_seated s)).

(** [player->get_seat()], dereferenced. *)
Definition player_seat (p : Player) d : outcome (nat * GameSeat) :=
  i ← deref (m_pGameSeat p);
  s ← access (m_seats d !! i);
  mret (i, s).

(** [m_player] of a seat, dereferenced. *)
Definition seat_player (s : GameSeat) d : outcome (Z * Player) :=
  uid ← get_seated_player s;
  p ← get_player uid d;
  mret (uid, p).

(** A loop over [m_seats]: the body sees the seat as it is when the iterator
    reaches it. *)
Definition for_seats (body : desk -> nat -> GameSeat -> outcome desk) d : outcome desk :=
  mfold (fun d i => s ← access (m_seats d !! i); body d i s) d (seq 0 (length (m_seats d))).

Definition is_active_player (p : Player) d : bool :=
  if m_active_seatnum d =? -1 then false else get_seat_number p =? m_active_seatnum d.

Definition is_seated_player_at (p : Player) d : outcome bool :=
  match m_pGameSeat p with
  | None => mret false
  | Some i => s ← access (m_seats d !! i); mret (bool_decide (m_player s = Some (m_player_id p)))
  end.

(** [true] when no seated player is still playing. *)
Fixpoint all_over_account (objects : gmap Z Player) (seats : list GameSeat) : outcome bool :=
  match seats with
  | [] => mret true
  | s :: seats' =>
      if negb (is_seated s) then all_over_account objects seats'
      else
        uid ← get_seated_player s;
        p ← deref (objects !! uid);
        if is_player_playing p then mret false else all_over_account objects seats'
  end.
Definition is_all_player_over_account d : outcome bool :=
  all_over_account (m_objects d) (m_seats d).

(** *** Seat scans

    The [while] loops go round the table at most once; the fuel of the
    callers is the number of seats. *)
Definition next_seat_number (d : desk) (seat_number : Z) : Z :=
  Z.rem (seat_number + 1) (Z.of_nat m_max_seat_num).

Fixpoint scan_seats (fuel : nat) (test : GameSeat -> bool) (start_seat next_seat : Z) d
  : outcome Z :=
  match fuel with
  | O => Fault NoFuel
  | S fuel' =>
      if next_seat =? start_seat then mret next_seat
      else
        s ← seat_at next_seat d;
        if test s then mret next_seat
        else scan_seats fuel' test start_seat (next_seat_number d next_seat) d
  end.

Definition next_seated_number (seat_number : Z) d : outcome Z :=
  scan_seats m_max_seat_num is_seated seat_number (next_seat_number d seat_number) d.
Definition next_ingame_seat_number (number : Z) d : outcome Z :=
  scan_seats m_max_seat_num is_in_game number (next_seat_number d number) d.

(** The [do ... while] of [get_player_deal_order]. *)
Fixpoint deal_order_loop (fuel : nat) (dealer seat : Z) (order : list Z) d : outcome (list Z) :=
  match fuel with
  | O => Fault NoFuel
  | S fuel' =>
      s ← seat_at seat d;
      let order := if is_seated s then order ++ [seat] else order in
      let seat := next_seat_number d seat in
      if seat =? dealer then mret order else deal_order_loop fuel' dealer seat order d
  end.
Definition get_player_deal_order d : outcome (list Z) :=
  deal_order_loop m_max_seat_num (m_dealer_index d) (m_dealer_index d) [] d.

(** *** Status and notices *)

Definition set_game_status (status : Z) d : desk := d <| m_game_status := status |>.

Definition wait_for_round (round wait_ms : Z) d : desk :=
  set_game_status (Z.lor (Z.lor GAME_WAIT_MASK round)
                     (Z.land (m_game_status d) (Z.lnot GAME_ROUND_MASK))) d
    <| m_wait_ms := Some wait_ms |>.

Definition send (e : Event) d : desk := d <| m_sent ::= fun l => l ++ [e] |>.

(** The players who get broadcasts, in the unspecified order of the map. *)
Definition receives d (uid : Z) : bool :=
  match m_objects d !! uid with Some p => m_is_recv_broadcast p | None => false end.
Definition recipients d : list Z :=
  filter (fun uid => receives d uid = true) (elements (m_all_player d)).

Definition broadcast (m : Msg) d : desk := send (SendRequests ((fun uid => (uid, m)) <$> recipients d)) d.
Definition reply (result : ErrorCode) d : desk := send (Reply result) d.

Definition notify_room_status (type : Z) d : desk := d <| m_notify_room_type := type |>.

Definition notify_player_wait_nextgame (flag : Z) d : desk :=
  let seat_count := get_seated_count d in
  let sec := if seat_count =? 2 then 10 else if seat_count =? 3 then 8 else 5 in
  broadcast (NotifyWaitGame flag sec) (d <| m_wait_game_sec := sec |>).

Definition round_name (round : Z) : string :=
  if round =? GAME_UNREADY then "GAME_UNREADY"
  else if round =? GAME_WAIT_PLAYING then "GAME_WAIT_PLAYING"
  else if round =? GAME_DEALER_CARD then "GAME_DEALER_CARD"
  else if round =? GAME_ACTIVE1 then "GAME_ACTIVE1"
  else if round =? GAME_ACTIVE2 then "GAME_ACTIVE2"
  else if round =? GAME_DECLARE then "GAME_DECLARE"
  else if round =? GAME_DISTRIBUTE then "GAME_DISTRIBUTE"
  else if round =? GAME_SHUFFLE_CARD then "GAME_SHUFFLE_CARD"
  else "UNKNOWN:" +:+ pretty round.

Definition desk_status_name (status : Z) : string :=
  if has status GAME_WAIT_MASK
  then "WAIT_FOR* " +:+ round_name (Z.land (Z.land status (Z.lnot GAME_WAIT_MASK)) GAME_ROUND_MASK)
  else round_name (Z.land status GAME_ROUND_MASK).

(** [set_trustee_on] and [set_trustee_off] tell the room when they change the
    status. *)
Definition desk_trustee_on (uid : Z) d : outcome desk :=
  p ← get_player uid d;
  let d := put_player uid (set_trustee_on p) d in
  mret (if negb (is_player_trusteed_on p) then broadcast (TrusteeOn uid) d else d).

Definition desk_trustee_off (uid : Z) d : outcome desk :=
  p ← get_player uid d;
  let d := put_player uid (set_trustee_off p) d in
  mret (if is_player_trusteed_on p then broadcast (TrusteeOff uid) d else d).

Definition set_player_phase (uid phase : Z) d : outcome desk :=
  p ← get_player uid d;
  mret (put_player uid (set_status (with_bits (m_cur_status p) PLAYER_MASK phase) p) d).
End desk.
