(* ===== verification/Snapshot.v ===== *)
(** * What a client is told

    The messages that GameDesk.cpp, GG_Player.cpp and "GameRoom - 副本.cpp" make up
    for one client: the table as it stands ([player_flush_room]), the cards dealt
    ([send_deal_cards]) and a card that is dug; and the results of a game for the
    data center ([submit_game_result]). *)
From Stdlib Require Import ZArith Lia String.
From stdpp Require Import base tactics numbers sorting option gmap strings sets list.
From S2P Require Import Prelude Cards Dealer Straight Declare Hand Player Seat Desk.

Section snapshot.
Context {M G : Type}.
Variables (room : RoomInfo) (iv : TimeInterval).
Abbreviation desk := (GameDesk M G).
Implicit Type d : desk.

Definition get_game_status_for_app d : AppStatus :=
  let gamestatus := m_game_status d in
  let game_round := Z.land gamestatus GAME_ROUND_MASK in
  if has gamestatus GAME_WAIT_MASK then
    if game_round =? GAME_UNREADY then AppUnready
    else if game_round =? GAME_WAIT_PLAYING then AppWaitPlaying
    else if game_round =? GAME_DEALER_CARD then AppDealerCard
    else if game_round =? GAME_ACTIVE1 then AppActive1
    else if game_round =? GAME_ACTIVE2 then AppActive2
    else if game_round =? GAME_DECLARE then AppDeclare
    else if game_round =? GAME_DISTRIBUTE then AppDistribute
    else if game_round =? GAME_SHUFFLE_CARD then AppShuffleCard
    else AppUnready
  else AppUnready.

Definition get_joingame_player d : list (Z * Z) :=
  if is_game_over d then []
  else (fun s => (m_ingame_player_id s, m_seat_number s)) <$> filter (fun s => is_player_joined s = true) (m_seats d).

Definition player_info (s : GameSeat) d : outcome PlayerInfo :=
  '(_, p) ← seat_player s d;
  let status := m_cur_status p in
  let plays := negb (status =? PLAYER_WAIT_NEXT_GAME) && negb (status =? PLAYER_UNREADY) &&
               negb (status =? PLAYER_STAND_UP) in
  mret (mkInfo (m_player_id p) (m_player_name p) (get_chips p) status (m_seat_number s)
          (if plays then seat_score s else 0)
          (if plays then copy_group_to_msg (seat_card_group s) [] else [])
          (Z.of_nat (length (m_handcards_total s)))).

Definition get_seat_player d : outcome (list PlayerInfo) :=
  mfold (fun l s => if negb (is_seated s) then mret l else i ← player_info s d; mret (l ++ [i]))
    [] (m_seats d).

(** The seconds left to act: the durations are in milliseconds, their [sec()]
    in seconds. *)
Definition time_left d : Z :=
  let sec (ms : Z) := Z.quot ms 1000 in
  let passed := m_now d - m_wait_begin d in
  let tLeft :=
    if is_wait_active1 d then Z.min (sec (m_time_active1 iv) - passed) (sec (m_time_active1 iv))
    else if is_wait_active2 d then Z.min (sec (m_time_active2 iv) - passed) (sec (m_time_active2 iv))
    else if is_distribut d then sec (m_time_distribute iv + m_time_account_animat iv) - passed
    else if is_declareing d then sec (m_time_declare iv) - passed
    else if is_wait_game d then Z.min (m_wait_game_sec d - passed) (m_wait_game_sec d)
    else 0 in
  if tLeft <=? 0 then 1 else tLeft.

(** The hand that goes with a message to a player. *)
Definition shown_hand (in_game_only : bool) (p : Player) d : outcome (list PokerCard) :=
  match m_pGameSeat p with
  | None => mret []
  | Some i =>
      s ← access (m_seats d !! i);
      mret (if negb in_game_only || is_in_game s then m_handcards_total s else [])
  end.

Definition is_pool_card_can_dig d : bool :=
  match last (m_pokercard_pool d) with
  | None => false
  | Some back => negb (is_joker back (m_point (m_joker_card d)) && negb (m_is_first_pool_card d))
  end.

(** [waitgamesec] is set twice. *)
Definition flush_room_request (p : Player) d : outcome FlushRoomRequest :=
  handcard ← shown_hand true p d;
  players ← get_seat_player d;
  mret (mkFlush (m_room_type room) (m_small_blind room) (m_min_carry room)
          (get_game_status_for_app d) (m_max_playing room) (m_desk_type room) (m_pokercard_pool d)
          (if is_game_over d then Z.of_nat CARD_COUNT else Z.of_nat (length (m_bottom_cards d)))
          (m_joker_card d) (m_chips_pool d) (m_dealer_index d) (m_apply_declare_seatnum d)
          (Z.quot (m_time_active1 iv) 1000) (Z.quot (m_time_active2 iv) 1000)
          (Z.quot (m_time_distribute iv) 1000) (Z.quot (m_time_declare iv) 1000)
          (Z.quot (m_time_declare iv) 1000) 20 40 (if is_pool_card_can_dig d then 1 else 0)
          handcard (if is_wait_active d then m_active_seatnum d else -1) (time_left d)
          players (get_joingame_player d)).

Definition player_flush_room (uid : Z) d : outcome desk :=
  p ← get_player uid d;
  request ← flush_room_request p d;
  mret (send (SendRequests [(uid, FlushRoom request)]) d).

(** [GG_Player::send_deal_cards] *)
Definition send_deal_cards (uid : Z) d : outcome (Z * Msg) :=
  p ← get_player uid d;
  order ← get_player_deal_order d;
  handcard ← shown_hand false p d;
  front ← access (head (m_pokercard_pool d));
  mret (uid, DealCards (mkDealCards (m_dealer_index d) HAND_CARD_COUNT order handcard
                          (Z.of_nat (length (m_bottom_cards d))) front (m_joker_card d))).

Definition broadcast_deal_cards d : outcome desk :=
  messages ← mfold (fun l uid => m ← send_deal_cards uid d; mret (l ++ [m])) [] (recipients d);
  mret (send (SendRequests messages) d).

(** Only the player who digs a card sees it. *)
Definition broadcast_player_digcard (uid : Z) (card : PokerCard) (digtype : Z) d : desk :=
  send (SendRequests ((fun to =>
    (to, PlayerDigCard uid (if to =? uid then card else mkCard 0 0) digtype)) <$> recipients d)) d.

Definition submit_game_result d : desk :=
  let joined := filter (fun s => is_player_joined s = true) (m_seats d) in
  let d := send (SubmitGameResult ((fun s =>
             mkResult (m_ingame_player_id s) (m_match_over_account_chips s)
               (if is_winner s then m_base_exp_win room else m_base_exp_lose room)
               (Z.land (m_seat_stauts s) Status.win)) <$> joined)) d in
  send (NotifyPlayerGameover (m_room_id room) (m_room_type room) (m_desk_type room) (m_small_blind room)
          (m_ingame_player_id <$> joined)) d.
End snapshot.
