(* ===== verification/Play.v ===== *)
(** * The game desk: handlers

    Models the operations of GameDesk.cpp that change the desk, from a player
    sitting down to the distribution of the chips: one definition per C++
    function, in the order of their calls.  The settings of the room and the
    values of the generated room-status enumeration are the section's
    variables. *)
From Stdlib Require Import ZArith Lia String.
From stdpp Require Import base tactics numbers sorting option gmap strings list.
From S2P Require Import Prelude Cards Dealer Straight Declare Hand Player Seat Desk Snapshot.

Section play.
Context {M G : Type} `{MoneyService M} `{RandGen G}.
Variables (room : RoomInfo) (iv : TimeInterval) (ROOM_IDLE ROOM_PLAYING ROOM_END1 : Z).
Abbreviation desk := (GameDesk M G).
Implicit Type d : desk.

(** [GG_GameArea::get_game_desk_tips] *)
Definition get_game_desk_tips (chips : Z) : Z := Z.quot (chips * m_tips_persent room) 100.
Definition get_sitdown_buyin_count : Z := m_min_carry room.
Definition joker_point d : Z := m_point (m_joker_card d).

(** *** The end of a game *)

Definition clear_desk d : desk :=
  d <| m_bottom_cards := [] |> <| m_joker_card := default_card |> <| m_pokercard_pool := [] |>
    <| m_chips_pool := 0 |> <| m_apply_declare_seatnum := -1 |> <| m_active_seatnum := -1 |>
    <| m_gameover_type := -1 |> <| m_seats ::= fmap reset_seat |>.

(** A seat's [match_over_account], through the player it points to. *)
Definition seat_account (i : nat) (chips : Z) d : outcome (Z * desk) :=
  s ← access (m_seats d !! i);
  '(uid, p) ← seat_player s d;
  '(real, s, p, money) ← match_over_account (m_room_id room) get_sitdown_buyin_count chips s p (m_money d);
  mret (real, put_seat i s (put_player uid p (d <| m_money := money |>))).

(** [currentchips] of a seat in the game-over message. *)
Definition current_chips (s : GameSeat) d : outcome Z :=
  if is_seated s then
    '(_, p) ← seat_player s d;
    mret (if m_ingame_player_id s =? m_player_id p then get_chips p else 0)
  else mret 0.

(** The body of the loop over the seats in [caculate_over_account]. *)
Definition over_seat (r : GameOverRequest * desk) (i : nat) : outcome (GameOverRequest * desk) :=
  let '(req, d) := r in
  s ← access (m_seats d !! i);
  if negb (is_player_joined s) then mret (req, d)
  else if m_seat_number s =? m_apply_declare_seatnum d then
    chips ← current_chips s d;
    mret (req <| o_playerchips ::= fun l => l ++ [(m_ingame_player_id s, chips)] |>, d)
  else
    let account := m_match_over_account_chips s in
    s ← (if m_apply_declare_seatnum d =? -1 then borning_over (joker_point d) s else mret s);
    let info := mkLoser (m_ingame_player_id s) (if is_drop s then 1 else 0) account
                  (seat_score s) (m_card_score s) (copy_group_to_msg (seat_card_group s) []) in
    chips ← current_chips s d;
    mret (req <| o_loserinfo ::= fun l => l ++ [info] |>
              <| o_playerchips ::= fun l => l ++ [(m_ingame_player_id s, chips)] |>,
          put_seat i s d).

Definition caculate_over_account d : outcome (GameOverRequest * desk) :=
  let d := d <| m_last_winner_seatnum := m_apply_declare_seatnum d |> in
  let req := mkOver (m_gameover_type d) 0 0 0 [] [] [] in
  '(req, d) ←
    (if m_apply_declare_seatnum d =? -1 then mret (req <| o_winnerid := -1 |>, d)
     else
       let tips_persent := get_game_desk_tips (m_chips_pool d) in
       let real_chips := m_chips_pool d - tips_persent in
       _ ← seat_at (m_apply_declare_seatnum d) d;
       '(real_chips, d) ← seat_account (Z.to_nat (m_apply_declare_seatnum d)) real_chips d;
       s ← seat_at (m_apply_declare_seatnum d) d;
       mret (req <| o_winaccount := real_chips |> <| o_winnerid := m_ingame_player_id s |>
                 <| o_winnercardgroup := copy_group_to_msg (seat_card_group s) [] |>
                 <| o_winnerscore := m_card_score s |>, d));
  mfold over_seat (req, d) (seq 0 (length (m_seats d))).

(** The mask is complemented: the flags of the status are compared with the
    phases. *)
Definition set_ingame_player_over_status : desk -> outcome desk :=
  for_seats (fun d i s =>
    if negb (is_seated s) then mret d
    else
      '(uid, p) ← seat_player s d;
      let player_status := Z.land (m_cur_status p) (Z.lnot PLAYER_MASK) in
      if is_player_joined s && negb (player_status =? PLAYER_UNREADY)
           && negb (player_status =? PLAYER_WAIT_NEXT_GAME)
      then set_player_phase uid PLAYER_PLAYING d
      else mret d).

Definition set_player_matchover_status : desk -> outcome desk :=
  for_seats (fun d i s =>
    if negb (is_seated s) then mret d
    else if is_player_joined s then
      uid ← get_seated_player s; set_player_phase uid PLAYER_UNREADY d
    else mret d).

Definition step_gameover_distrbute d : outcome desk :=
  '(req, d) ← caculate_over_account d;
  let d := broadcast (GameOver req) d in
  let d := submit_game_result room d in
  let d := d <| m_wait_begin := m_now d |> in
  let d := wait_for_round GAME_DISTRIBUTE
             (m_time_distribute iv + m_time_account_animat iv +
              if m_gameover_type d =? DROP_OVER then 3000 else 0) d in
  d ← set_ingame_player_over_status d;
  mret (clear_desk d).

(** *** Declarations of the losers *)

(** The loser at seat [i] pays [lose_chips] into the pool. *)
Definition lose_account (i : nat) (lose_chips : Z) d : outcome (Z * desk) :=
  '(real_chips, d) ← seat_account i (- lose_chips) d;
  mret (real_chips, d <| m_chips_pool ::= Z.add real_chips |>).

Definition default_decalre (uid : Z) d : outcome desk :=
  p ← get_player uid d;
  '(i, s) ← player_seat p d;
  '(owner, p) ← seat_player s d;
  '(score, cg, s, p) ← seat_default_declare (m_room_id room) (joker_point d) s p;
  let d := put_player owner p (put_seat i s d) in
  '(real_chips, d) ← lose_account i (m_small_blind room * seat_score s) d;
  let d := broadcast (PlayerLoseDeclare uid (copy_group_to_msg cg []) score real_chips) d in
  if get_ingame_count d =? 1 then step_gameover_distrbute d else mret d.

Definition player_lose_declare (uid : Z) (cardgroup : list PB_CardGroup) d : outcome desk :=
  p ← get_player uid d;
  if negb (is_seated_player p) then mret (reply GG_ERROR_PARAMETER_INVALID d)
  else
    '(i, s) ← player_seat p d;
    if negb (is_in_game s) || negb (is_declareing d) then
      mret (reply GG_ERROR_PARAMETER_INVALID d)
    else
      '(owner, p) ← seat_player s d;
      '(b, score, s, p) ← seat_check_lose_declare (m_room_id room) (joker_point d) cardgroup 0 s p;
      let d := put_player owner p (put_seat i s d) in
      if negb b then mret (reply GG_ERROR_PARAMETER_INVALID d)
      else
        let d := reply GG_ERROR_SUCCESS d in
        let lose_chips := m_small_blind room * seat_score s in
        '(real_chips, d) ← seat_account i (- lose_chips) d;
        let d := broadcast (PlayerLoseDeclare uid cardgroup score real_chips) d in
        let d := d <| m_chips_pool ::= Z.add real_chips |> in
        if get_ingame_count d =? 1 then step_gameover_distrbute d else mret d.

Definition step_declare_timeout : desk -> outcome desk :=
  for_seats (fun d i s =>
    if is_seated s && is_in_game s && negb (is_declared s)
    then uid ← get_seated_player s; default_decalre uid d
    else mret d).

Definition player_declare (uid : Z) (declarecard : MsgCard) (cardgroup : list PB_CardGroup) d
  : outcome desk :=
  p ← get_player uid d;
  if negb (is_seated_player p) then mret (reply GG_ERROR_PARAMETER_INVALID d)
  else
    '(i, s) ← player_seat p d;
    if negb (is_in_game s) || negb (is_wait_active2 d) || negb (is_active_player p d) then
      mret (reply GG_ERROR_PARAMETER_INVALID d)
    else
      '(owner, q) ← seat_player s d;
      '(b, s, q) ← check_declare (m_room_id room) (joker_point d) declarecard cardgroup s q;
      let d := put_player owner q (put_seat i s d) in
      if negb b then mret (reply GG_ERROR_PARAMETER_INVALID d)
      else
        let d := reply GG_ERROR_SUCCESS d in
        let d := broadcast (PlayerDeclare uid declarecard cardgroup) d in
        let d := d <| m_wait_begin := m_now d |> in
        let d := wait_for_round GAME_DECLARE
                   (m_time_declare iv + m_time_declare_animat iv + 3000) d in
        let d := d <| m_apply_declare_seatnum := get_seat_number p |> in
        mret (notify_room_status ROOM_IDLE d <| m_gameover_type := NORMAL_OVER |>).

(** *** Standing up and sitting down *)

(** The end of [player_stand_up]: the rounds that end early. *)
Definition stand_up_tail (is_playing : bool) d : outcome (Z * desk) :=
  over ← (if is_distribut d && is_playing then is_all_player_over_account d else mret false);
  if over : bool then
    let d := wait_for_round GAME_DISTRIBUTE 0 d in
    d ← set_player_matchover_status d;
    mret (0, d)
  else if negb (is_game_can_start d) && is_game_wait_playing d then
    let d := notify_player_wait_nextgame 0 d in
    let d := wait_for_round GAME_UNREADY 0 d in
    mret (0, notify_room_status ROOM_IDLE d)
  else mret (0, d).

(** What follows when the player may leave. *)
Definition leave_seat (uid stand_up_reason seat_number : Z) d : outcome (Z * desk) :=
  let d := if seat_number =? m_last_winner_seatnum d
           then d <| m_last_winner_seatnum := -1 |> else d in
  p ← get_player uid d;
  let is_playing := is_player_playing p in
  let d := broadcast (PlayerStandUp uid stand_up_reason) d in
  '(i, s) ← player_seat p d;
  '(s, p, money) ← Seat.player_stand_up (m_room_id room) (is_game_over d) s p (m_money d);
  let d := put_seat i s (put_player uid p (d <| m_money := money |>)) in
  stand_up_tail is_playing d.

(** The result is 0, or -1 when the player has to stay. *)
Definition player_stand_up (uid : Z) (stand_up_reason : Z) d : outcome (Z * desk) :=
  p ← get_player uid d;
  _ ← assert_that ((0 <=? get_seat_number p) &&
                   (get_seat_number p <=? Z.of_nat m_max_seat_num - 1));
  '(i, s) ← player_seat p d;
  _ ← assert_that (bool_decide (m_player s = Some uid));
  let is_ingame := is_in_game s in
  r ← (if negb (is_game_over d) && is_ingame then
         if is_declareing d then
           if get_seat_number p =? m_apply_declare_seatnum d then mret None
           else if is_in_game s then d ← default_decalre uid d; mret (Some d)
           else mret (Some d)
         else mret None
       else mret (Some d));
  match r with
  | None => mret (-1, d)
  | Some d => leave_seat uid stand_up_reason (get_seat_number p) d
  end.

Definition player_sit_down (uid : Z) (seat_number : Z) d : outcome (Z * desk) :=
  if (seat_number <? 0) || (Z.of_nat m_max_seat_num - 1 <? seat_number) then mret (-1, d)
  else
    s ← seat_at seat_number d;
    if is_seated s then mret (-1, d)
    else
      p ← get_player uid d;
      '(s, p) ← Seat.player_sit_down (m_room_id room) (Z.to_nat seat_number) s p;
      let d := put_seat (Z.to_nat seat_number) s (put_player uid p d) in
      d ← desk_trustee_off uid d;
      d ← (if negb (is_game_over d) then set_player_phase uid PLAYER_WAIT_NEXT_GAME d
           else
             d ← set_player_phase uid PLAYER_UNREADY d;
             mret (if has (m_game_status d) GAME_UNREADY
                   then wait_for_round GAME_UNREADY 0 d else d));
      mret (seat_number, broadcast (PlayerSitDown uid seat_number) d).

(** [m_room->destroy_player(player)] *)
Definition destroy_player (uid : Z) d : desk := d <| m_all_player ::= fun l => l ∖ {[uid]} |>.

(** *** Between games *)

Definition OTHER_REASON : Z := 0.
Definition NO_MORE_CHIPS : Z := 1.

Definition check_player_status : desk -> outcome desk :=
  for_seats (fun d i s =>
    if negb (is_seated s) then mret d
    else
      '(uid, p) ← seat_player s d;
      if is_player_need_standup p then
        '(_, d) ← player_stand_up uid OTHER_REASON d;
        mret (destroy_player uid d)
      else mret d).

Definition check_player_chips : desk -> outcome desk :=
  for_seats (fun d i s =>
    match m_player s with
    | None => mret d
    | Some uid =>
        p ← get_player uid d;
        let '(b, p, money) := check_chips_carry get_sitdown_buyin_count p (m_money d) in
        let d := put_player uid p (d <| m_money := money |>) in
        if negb b then
          '(_, d) ← player_stand_up uid NO_MORE_CHIPS d;
          mret (destroy_player uid d)
        else mret d
    end).

Definition ready_for_next_game d : outcome desk :=
  let d := wait_for_round GAME_UNREADY 0 d in
  d ← check_player_status d;
  set_player_matchover_status d.

Definition step_unready d : outcome desk :=
  d ← check_player_chips d;
  if is_game_can_start d then
    let d := notify_player_wait_nextgame 1 d in
    let d := d <| m_wait_begin := m_now d |> in
    mret (wait_for_round GAME_WAIT_PLAYING (m_wait_game_sec d * 1000) d)
  else mret d.

Definition player_close_account_box (uid : Z) d : outcome desk :=
  p ← get_player uid d;
  if negb (is_seated_player p) then mret d
  else if negb (is_distribut d) then mret d
  else if negb (is_player_playing p) then mret d
  else
    d ← set_player_phase uid PLAYER_UNREADY d;
    let d := broadcast (CloseAccountBox uid) d in
    over ← is_all_player_over_account d;
    if negb over then mret d else ready_for_next_game d.
End play.
