(* ===== verification/Round.v ===== *)
(** * The rounds of a game

    Models the rest of GameDesk.cpp: readying the desk, dealing, the active
    player's turn (digging a card, posting one, dropping), the reshuffle of the
    pool, the time-outs and the dispatch [step_new_round]; and the messages that
    describe the desk to a client. *)
From Stdlib Require Import ZArith Lia String.
From stdpp Require Import base tactics numbers sorting option gmap strings list.
From S2P Require Import Prelude Cards Dealer Straight Declare Hand Player Seat Desk Snapshot Play.

(** ** A prepared deal

    The content of hand_card_rummy.txt, as the JSON library reads it. *)
Record CardFile : Set := mkCardFile {
  f_available : bool;
  f_small_blind : list Z;
  f_draw_sec : option Z;
  f_left_count : option Z;
  f_cards : list (list string);
  f_bottom_cards : list string
}.

(** The first card of the colour and the point of [pc], and the cards without it. *)
Fixpoint find_card (cards : list PokerCard) (pc : PokerCard) : option (PokerCard * list PokerCard) :=
  match cards with
  | [] => None
  | it :: rest =>
      if (m_color it =? m_color pc) && (m_point it =? m_point pc) then Some (it, rest)
      else '(c, rest') ← find_card rest pc; Some (c, it :: rest')
  end.

(** Take the named cards out of [all_card]; on a card that is not there the
    cards already taken stay out. *)
Fixpoint take_cards (names : list string) (taken all_card : list PokerCard)
  : list PokerCard + (list PokerCard * list PokerCard) :=
  match names with
  | [] => inr (taken, all_card)
  | name :: names' =>
      match find_card all_card (parse_string default_card name) with
      | None => inl all_card
      | Some (c, all_card) => take_cards names' (taken ++ [c]) all_card
      end
  end.

Fixpoint take_hands (hands : list (list string)) (taken : list (list PokerCard))
    (all_card : list PokerCard) : list PokerCard + (list (list PokerCard) * list PokerCard) :=
  match hands with
  | [] => inr (taken, all_card)
  | names :: hands' =>
      match take_cards (take 13 names) [] all_card with
      | inl all_card => inl all_card
      | inr (cards, all_card) => take_hands hands' (taken ++ [cards]) all_card
      end
  end.

(** Fill each prepared hand up to thirteen cards from the front of [all_card]. *)
Definition fill_hand (r : list PokerCard * list PokerCard) (hand : list PokerCard)
  : outcome (list PokerCard * list PokerCard) :=
  let '(vec_card, all_card) := r in
  let missing := (13 - length hand)%nat in
  _ ← access (if decide (missing <= length all_card)%nat then Some tt else None);
  mret (vec_card ++ hand ++ take missing all_card, drop missing all_card).

(** [vec_card], [draw_sec] and [left_bottom_count]. *)
Definition get_card_from_file (file : option CardFile) (all_card : list PokerCard)
    (draw_sec left_bottom_count smallblind : Z) : outcome (list PokerCard * Z * Z) :=
  match file with
  | None => mret (all_card, draw_sec, left_bottom_count)
  | Some f =>
      if negb (f_available f) then mret (all_card, draw_sec, left_bottom_count)
      else if negb (bool_decide (f_small_blind f = [])) &&
              negb (bool_decide (smallblind ∈ f_small_blind f))
      then mret (all_card, draw_sec, left_bottom_count)
      else
        let draw_sec := default draw_sec (f_draw_sec f) in
        let left_bottom_count := default left_bottom_count (f_left_count f) in
        match take_hands (take 5 (f_cards f)) [] all_card with
        | inl all_card => mret (all_card, draw_sec, left_bottom_count)
        | inr (vecHandCard, all_card) =>
            match take_cards (f_bottom_cards f) [] all_card with
            | inl all_card => mret (all_card, draw_sec, left_bottom_count)
            | inr (bottomCard, all_card) =>
                '(vec_card, all_card) ← mfold fill_hand ([], all_card) vecHandCard;
                mret (vec_card ++ bottomCard ++ all_card, draw_sec, left_bottom_count)
            end
        end
  end.

Section round.
Context {M G : Type} `{MoneyService M} `{RandGen G}.
Variables (room : RoomInfo) (iv : TimeInterval) (ROOM_IDLE ROOM_PLAYING ROOM_END1 : Z).
(** [card_from_file] of the configuration, and the file. *)
Variables (is_from_file : bool) (card_file : option CardFile).
Abbreviation desk := (GameDesk M G).
Implicit Type d : desk.

Definition notify_room_will_over (cur_score : Z) d : desk :=
  if (cur_score <=? ENTER_SCORE1) && (0 <=? cur_score) && (m_notify_room_type d =? ROOM_PLAYING)
  then notify_room_status ROOM_END1 d else d.

(** *** A new game *)

Definition step_desk_ready d : outcome desk :=
  for_seats (fun d i s =>
    player ← (match m_player s with
              | None => mret None
              | Some uid => p ← get_player uid d; mret (Some p)
              end);
    '(s', player) ← seat_ready_for_game (m_room_id room) s player;
    let d := put_seat i s' d in
    mret (match m_player s, player with
          | Some uid, Some p => put_player uid p d
          | _, _ => d
          end))
    (d <| m_wait_ms := None |> <| m_pokercard_pool := [] |> <| m_is_first_pool_card := true |>).

Definition step_dealer_seat d : outcome desk :=
  keep ← (if negb (m_last_winner_seatnum d =? -1) then
            s ← seat_at (m_last_winner_seatnum d) d; mret (is_seated s)
          else mret false);
  if keep : bool then mret (d <| m_dealer_index := m_last_winner_seatnum d |>)
  else
    let seated_seats := m_seat_number <$> filter (fun s => is_seated s = true) (m_seats d) in
    _ ← assert_that (negb (bool_decide (seated_seats = [])));
    let '(r, g) := rand (m_rand d) in
    n ← access (seated_seats !! Z.to_nat (r `mod` Z.of_nat (length seated_seats)));
    mret (d <| m_dealer_index := n |> <| m_rand := g |>).

(** [GameRoom::deal_card] *)
Definition room_deal_card (lstCard : list PokerCard) (count : Z) d
  : outcome (list PokerCard * desk) :=
  '(dealer, lst, g) ← deal_card (m_card_dealer d) (m_now d) lstCard count;
  mret (lst, d <| m_card_dealer := dealer |> <| m_rand := g |>).

(** Thirteen times [front] and [erase(begin)]. *)
Fixpoint take_front (n : nat) (handcards bottom : list PokerCard)
  : outcome (list PokerCard * list PokerCard) :=
  match n, bottom with
  | O, _ => mret (handcards, bottom)
  | S _, [] => Fault OutOfBounds
  | S n', c :: bottom' => take_front n' (handcards ++ [c]) bottom'
  end.

Definition deal_hands : desk -> outcome desk :=
  for_seats (fun d i s =>
    if negb (is_seated s) then mret d
    else
      '(handcards, bottom) ← take_front (Z.to_nat HAND_CARD_COUNT) [] (m_bottom_cards d);
      mret (put_seat i (deal_cards handcards s) (d <| m_bottom_cards := bottom |>))).

(** The first card that is not a joker, taken out. *)
Fixpoint turn_joker (bottom : list PokerCard) : outcome (PokerCard * list PokerCard) :=
  match bottom with
  | [] => Fault OutOfBounds
  | it :: rest =>
      if PokerPoint.JOKER1 <=? m_point it then
        '(c, rest) ← turn_joker rest; mret (c, it :: rest)
      else mret (it, rest)
  end.

Definition step_deal_cards d : outcome desk :=
  let d := d <| m_draw_sec := 20 * 60 |> in
  '(bottom, d) ← room_deal_card [] (Z.of_nat CARD_COUNT) d;
  '(bottom, draw_sec, left_count) ←
    (if is_from_file then get_card_from_file card_file bottom (m_draw_sec d) 0 (m_small_blind room)
     else mret (bottom, m_draw_sec d, 0));
  d ← deal_hands (d <| m_bottom_cards := bottom |> <| m_draw_sec := draw_sec |>);
  '(first, bottom) ← take_front 1 [] (m_bottom_cards d);
  let d := d <| m_pokercard_pool ::= fun pool => pool ++ first |> in
  '(joker, bottom) ← turn_joker bottom;
  bottom ← (if 0 <? left_count then
              _ ← access (if decide (left_count <= Z.of_nat (length bottom)) then Some tt else None);
              mret (take (Z.to_nat left_count) bottom)
            else mret bottom);
  broadcast_deal_cards (d <| m_joker_card := joker |> <| m_bottom_cards := bottom |>).

Definition start_new_game d : outcome desk :=
  d ← step_desk_ready d;
  d ← step_dealer_seat d;
  _ ← assert_that (negb (m_dealer_index d =? -1));
  d ← step_deal_cards d;
  let d := wait_for_round GAME_DEALER_CARD (m_time_deal_card iv) d in
  mret (d <| m_time_game_begin := m_now d |>).

Definition step_playing_begin d : outcome desk :=
  if negb (is_game_can_start d) then
    mret (wait_for_round GAME_UNREADY 0 (notify_room_status ROOM_IDLE d))
  else start_new_game (notify_room_status ROOM_PLAYING d).

(** *** The active player *)

Definition deduct_draw_tips d : outcome desk :=
  let one_tips := m_draw_tips room in
  if one_tips =? 0 then mret d
  else
    for_seats (fun d i s =>
      if is_in_game s then
        '(uid, p) ← seat_player s d;
        let '(_, realchips, p, money) := bet_chips one_tips 0 p (m_money d) in
        mret (put_player uid p (d <| m_money := money |>))
      else mret d) d.

Definition active_player (extra_time : Z) d : outcome desk :=
  seat ← (if m_active_seatnum d =? -1 then mret (m_dealer_index d)
          else next_ingame_seat_number (m_active_seatnum d) d);
  let d := d <| m_active_seatnum := seat |> in
  if m_time_game_begin d + m_draw_sec d <? m_now d then
    let d := notify_room_status ROOM_IDLE (d <| m_gameover_type := BORNING_OVER |>) in
    d ← deduct_draw_tips d;
    step_gameover_distrbute room iv d
  else
    s ← seat_at (m_active_seatnum d) d;
    '(_, p) ← seat_player s d;
    back ← access (last (m_pokercard_pool d));
    let candig := if is_joker back (joker_point d) && negb (m_is_first_pool_card d) then 0 else 1 in
    let d := broadcast (ActivePlayer (m_player_id p) candig) d in
    let d := if is_player_trusteed_on p then wait_for_round GAME_ACTIVE1 (extra_time + 1000) d
             else wait_for_round GAME_ACTIVE1 (m_time_active1 iv + extra_time + 1500) d in
    mret (d <| m_wait_begin := m_now d |>).

Definition player_dig_card (uid digtype : Z) d : outcome desk :=
  p ← get_player uid d;
  if negb (is_active_player p d) || negb (is_wait_active1 d) then
    mret (reply GG_ERROR_INVALID_STATUS d)
  else
    _ ← assert_that (negb (bool_decide (m_bottom_cards d = [])) &&
                     negb (bool_decide (m_pokercard_pool d = [])));
    r ← (if digtype =? DIG_BOTTOM then
           '(front, bottom) ← take_front 1 [] (m_bottom_cards d);
           card ← access (last front);
           mret (Some (card, d <| m_bottom_cards := bottom |>))
         else
           card ← access (last (m_pokercard_pool d));
           if is_joker card (joker_point d) && negb (m_is_first_pool_card d) then mret None
           else mret (Some (card, d <| m_pokercard_pool ::= fun pool => take (pred (length pool)) pool |>)));
    match r with
    | None => mret d
    | Some (card, d) =>
        let d := reply GG_ERROR_SUCCESS d in
        let d := d <| m_is_first_pool_card := false |> in
        s ← seat_at (m_active_seatnum d) d;
        let d := put_seat (Z.to_nat (m_active_seatnum d)) (dig_card card s) d in
        let d := broadcast_player_digcard uid card digtype d in
        let d := d <| m_wait_begin := m_now d |> in
        mret (if is_player_trusteed_on p then wait_for_round GAME_ACTIVE2 1000 d
              else wait_for_round GAME_ACTIVE2 (m_time_active2 iv + 1500) d)
    end.

(** *** The reshuffle *)

(** Move random cards of [cards] to the back of [bottom] until none is left. *)
Fixpoint shuffle_loop (fuel : nat) (cards bottom : list PokerCard) (g : G)
  : outcome (list PokerCard * G) :=
  match cards, fuel with
  | [], _ => mret (bottom, g)
  | _, O => Fault NoFuel
  | _, S fuel' =>
      let '(r, g) := rand g in
      let index := Z.to_nat (r `mod` Z.of_nat (length cards)) in
      card ← access (cards !! index);
      cards ← (if 1 <? Z.of_nat (length cards) then
                 back ← access (last cards);
                 mret (<[index := back]> cards)
               else mret cards);
      shuffle_loop fuel' (take (pred (length cards)) cards) (bottom ++ [card]) g
  end.

Definition step_shuffle_card d : outcome desk :=
  let pool := m_pokercard_pool d in
  let moved := Z.of_nat (length pool) - 2 in
  _ ← access (if decide (0 <= moved) then Some tt else None);
  '(bottom, g) ← shuffle_loop (length pool) (take (Z.to_nat moved) pool) (m_bottom_cards d) (m_rand d);
  let d := d <| m_pokercard_pool := drop (Z.to_nat moved) pool |>
             <| m_bottom_cards := bottom |> <| m_rand := g |> in
  mret (broadcast (ShuffleCard (Z.of_nat (length (m_bottom_cards d)))
                               (Z.of_nat (length (m_pokercard_pool d)))) d).

(** *** Posting *)

(** What follows a posted card: a reshuffle when one bottom card is left. *)
Definition after_post d : outcome desk :=
  if Z.of_nat (length (m_bottom_cards d)) =? 1 then
    d ← step_shuffle_card d;
    mret (wait_for_round GAME_SHUFFLE_CARD (m_time_shuffle_card iv + m_time_post_card iv) d)
  else active_player (m_time_post_card iv) d.

Definition desk_post_default_card d : outcome desk :=
  s ← seat_at (m_active_seatnum d) d;
  uid ← get_seated_player s;
  '(card, s) ← post_default_card s;
  let d := put_seat (Z.to_nat (m_active_seatnum d)) s d in
  let d := d <| m_pokercard_pool ::= fun pool => pool ++ [card] |> in
  after_post (broadcast (PlayerPostCard uid card) d).

Definition player_post_card (uid : Z) (pbcard : MsgCard) (appscore : Z) d : outcome desk :=
  p ← get_player uid d;
  _ ← player_seat p d;
  if negb (is_active_player p d) || negb (is_wait_active2 d) then
    mret (reply GG_ERROR_INVALID_STATUS d)
  else
    let card := parse_msg_card pbcard in
    s ← seat_at (m_active_seatnum d) d;
    match discard_card card s with
    | None => mret (reply GG_ERROR_PARAMETER_INVALID d)
    | Some s =>
        let d := put_seat (Z.to_nat (m_active_seatnum d)) s d in
        let d := reply GG_ERROR_SUCCESS d in
        let d := d <| m_pokercard_pool ::= fun pool => pool ++ [card] |> in
        d ← after_post (broadcast (PlayerPostCard uid card) d);
        mret (notify_room_will_over appscore d)
    end.

(** *** Dropping *)

Definition step_player_drop (uid : Z) d : outcome desk :=
  p ← get_player uid d;
  '(i, s) ← player_seat p d;
  '(owner, q) ← seat_player s d;
  let drop_card := is_wait_active2 d && is_active_player p d in
  '(s, q) ← player_drop (m_room_id room) (joker_point d) drop_card s q;
  let d := put_player owner q (put_seat i s d) in
  let dropcard := if drop_card then m_dig_card s else default_card in
  '(real_chips, d) ← seat_account room i (- m_small_blind room * seat_score s) d;
  let d := d <| m_chips_pool ::= Z.add real_chips |> in
  let d := broadcast (PlayerDrop uid dropcard (seat_score s) real_chips) d in
  if get_ingame_count d =? 1 then
    let d := d <| m_gameover_type := DROP_OVER |>
               <| m_apply_declare_seatnum := get_last_ingame_seatnum d |> in
    s ← seat_at (m_apply_declare_seatnum d) d;
    s ← drop_win (joker_point d) s;
    let d := put_seat (Z.to_nat (m_apply_declare_seatnum d)) s d in
    _ ← assert_that (0 <=? m_apply_declare_seatnum d);
    step_gameover_distrbute room iv (notify_room_status ROOM_IDLE d)
  else
    p ← get_player uid d;
    if is_wait_active d && is_active_player p d then active_player (m_time_drop iv) d
    else mret d.

Definition desk_player_drop (uid : Z) d : outcome desk :=
  if is_game_over d || is_game_declare d || is_dealer_card d then
    mret (reply GG_ERROR_INVALID_STATUS d)
  else
    p ← get_player uid d;
    if negb (is_seated_player p) then mret (reply GG_ERROR_INVALID_STATUS d)
    else
      '(_, s) ← player_seat p d;
      if negb (is_in_game s) || is_drop s then mret (reply GG_ERROR_INVALID_STATUS d)
      else step_player_drop uid (reply GG_ERROR_SUCCESS d).

(** *** Time-outs *)

Definition step_active1_timeout d : outcome desk :=
  s ← seat_at (m_active_seatnum d) d;
  _ ← assert_that (bool_decide (is_Some (m_player s)));
  uid ← get_seated_player s;
  d ← desk_trustee_on uid d;
  active_player 0 d.

Definition step_rand2_timeout d : outcome desk :=
  s ← seat_at (m_active_seatnum d) d;
  uid ← get_seated_player s;
  d ← desk_trustee_on uid d;
  desk_post_default_card d.

Definition player_trusteeoff (uid : Z) d : outcome desk :=
  p ← get_player uid d;
  if negb (is_seated_player p) then mret d
  else
    let d :=
      if is_wait_active d && is_active_player p d && is_player_trusteed_on p then
        let lefttime := if is_wait_active1 d then m_time_active1 iv else m_time_active2 iv in
        let lefttime := Z.quot lefttime 1000 - (m_now d - m_wait_begin d) in
        let lefttime := if lefttime <=? 0 then 0 else lefttime in
        if is_wait_active1 d then wait_for_round GAME_ACTIVE1 (lefttime * 1000 + 1500) d
        else wait_for_round GAME_ACTIVE2 (lefttime * 1000 + 1500) d
      else d in
    desk_trustee_off uid d.

Definition step_new_round d : outcome desk :=
  let wait_round := Z.land (m_game_status d) GAME_ROUND_MASK in
  let d := set_game_status (Z.land (m_game_status d) (Z.lnot GAME_WAIT_MASK)) d in
  if wait_round =? GAME_UNREADY then step_unready room iv ROOM_IDLE d
  else if wait_round =? GAME_WAIT_PLAYING then step_playing_begin d
  else if wait_round =? GAME_DEALER_CARD then active_player 0 d
  else if wait_round =? GAME_ACTIVE1 then step_active1_timeout d
  else if wait_round =? GAME_ACTIVE2 then step_rand2_timeout d
  else if wait_round =? GAME_DECLARE then step_declare_timeout room iv d
  else if wait_round =? GAME_SHUFFLE_CARD then active_player 0 d
  else if wait_round =? GAME_DISTRIBUTE then ready_for_next_game room iv ROOM_IDLE d
  else mret d.

Definition on_wait_round_timeout (err : bool) d : outcome desk :=
  if negb err then step_new_round (d <| m_wait_ms := None |>) else mret d.
End round.
