(* ===== verification/Room.v ===== *)
(** * The room: requests

    Models the message handlers of "gamesvr - 副本"/"GameRoom - 副本.cpp" that act
    on the desk: who is in the room ([m_all_player]), entering, sitting down,
    standing up and leaving, and the guards before each operation of the desk.
    The message tables are the constructors of [Request]. *)
From Stdlib Require Import ZArith Lia String.
From stdpp Require Import base tactics numbers sorting option gmap strings sets list.
From S2P Require Import Prelude Cards Dealer Straight Declare Hand Player Seat Desk Snapshot Play Round.

(** The messages of the clients; [EnterRoom] carries what the player manager
    answers to [make_player]. *)
Inductive Request : Set :=
  | ApplyEnterRoom (userid : Z) (playername : string) (made : bool)
  | ApplySeat (userid seatnumber : Z)
  | ApplyQuitRoom (userid : Z)
  | ApplyStandup (userid : Z)
  | ApplyDigCard (userid digtype : Z)
  | ApplyPostCard (userid : Z) (card : MsgCard) (appscore : Z)
  | ApplyDrop (userid : Z)
  | ApplyDeclare (userid : Z) (declarecard : MsgCard) (cardgroup : list PB_CardGroup)
  | ApplyLoseDeclare (userid : Z) (cardgroup : list PB_CardGroup)
  | ApplyTrusteeOff (userid : Z)
  | ApplyCloseAccountBox (userid : Z)
  | ApplyFlushRoom (userid : Z)
  | ApplyRoomStatus (userid : Z)
  | ApplyChat (userid isshortcut : Z) (chatcontent : string)
  | ApplyFaceShow (userid faceid : Z)
  | ApplyUseProps (userid acceptuserid : Z) (propsname : string)
  | ApplyPresentGift (userid giftid : Z) (acceptorid : list Z)
  | ApplyPresentGiftNewInter (userid giftid : Z) (gifturl : string) (acceptorid : list Z)
  | ApplyPresentChips (userid giftid : Z) (acceptorid : list Z)
  | ApplyTransmitMessage (userid : Z) (recvuserid : list Z) (msgtype msgid : Z) (jsondata : string).

Definition APPLY_STAND_UP : Z := 2.
Definition QUIT_ROOM : Z := 3.

Section room.
Context {M G : Type} `{MoneyService M} `{RandGen G} `{Logging}.
Variables (room : RoomInfo) (iv : TimeInterval) (ROOM_IDLE ROOM_PLAYING ROOM_END1 : Z).
Abbreviation desk := (GameDesk M G).
Implicit Type d : desk.

(** [find_player] and [check_player_exist]: the pointer, or null. *)
Definition find_player (uid : Z) d : option Z :=
  if decide (uid ∈ m_all_player d) then Some uid else None.

(** [player->flush_online_time()] *)
Definition desk_flush_online (uid : Z) d : outcome desk :=
  p ← get_player uid d;
  mret (put_player uid (flush_online_time (m_now d) p) d).

(** The handlers that return when the user is not in the room. *)
Definition with_player (uid : Z) (handler : desk -> outcome desk) d : outcome desk :=
  match find_player uid d with
  | None => mret (reply GG_ERROR_USER_NOT_IN_ROOM d)
  | Some uid => d ← desk_flush_online uid d; handler d
  end.

(** Two handlers answer but go on with the null pointer. *)
Definition without_return (uid : Z) (handler : desk -> outcome desk) d : outcome desk :=
  let player := find_player uid d in
  let d := match player with
           | None => reply GG_ERROR_USER_NOT_IN_ROOM d
           | Some _ => d
           end in
  let d := reply GG_ERROR_SUCCESS d in
  uid ← deref player;
  d ← desk_flush_online uid d;
  handler d.

Definition on_apply_close_account_box (uid : Z) : desk -> outcome desk :=
  without_return uid (player_close_account_box room iv ROOM_IDLE uid).
Definition on_apply_trustee_off (uid : Z) : desk -> outcome desk :=
  without_return uid (player_trusteeoff iv uid).
Definition on_apply_lose_declare (uid : Z) (cardgroup : list PB_CardGroup) : desk -> outcome desk :=
  with_player uid (player_lose_declare room iv uid cardgroup).
Definition on_apply_declare (uid : Z) (declarecard : MsgCard) (cardgroup : list PB_CardGroup)
  : desk -> outcome desk :=
  with_player uid (player_declare room iv ROOM_IDLE uid declarecard cardgroup).
Definition on_apply_drop (uid : Z) : desk -> outcome desk :=
  with_player uid (desk_player_drop room iv ROOM_IDLE uid).
Definition on_apply_dig_card (uid digtype : Z) : desk -> outcome desk :=
  with_player uid (player_dig_card iv uid digtype).
Definition on_apply_post_card (uid : Z) (card : MsgCard) (appscore : Z) : desk -> outcome desk :=
  with_player uid (player_post_card room iv ROOM_IDLE ROOM_PLAYING ROOM_END1 uid card appscore).

(** [player->buy_in(n, n)] with the sit-down amount. *)
Definition desk_buy_in (uid : Z) d : outcome (Z * desk) :=
  p ← get_player uid d;
  let buy_in_count := get_sitdown_buyin_count room in
  '(r, p, money) ← buy_in buy_in_count buy_in_count p (m_money d);
  mret (r, put_player uid p (d <| m_money := money |>)).

Definition on_apply_seat (uid seatnumber : Z) d : outcome desk :=
  match find_player uid d with
  | None => mret (reply GG_ERROR_USER_NOT_IN_ROOM d)
  | Some uid =>
      d ← desk_flush_online uid d;
      p ← get_player uid d;
      if negb (get_seat_number p =? -1) then mret (reply GG_ERROR_SUCCESS d)
      else
        idle ← is_seat_idle seatnumber d;
        if negb idle then mret (reply GG_ERROR_HAVE_NO_IDLE_SEAT d)
        else
          '(r, d) ← desk_buy_in uid d;
          if r =? -1 then mret (reply GG_ERROR_USER_BUY_IN_FAILED d)
          else
            '(seat_num, d) ← player_sit_down room uid seatnumber (reply GG_ERROR_SUCCESS d);
            _ ← assert_that (negb (seat_num =? -1));
            mret d
  end.

Definition on_apply_exit (uid : Z) d : outcome desk :=
  match find_player uid d with
  | None => mret (reply GG_ERROR_USER_NOT_IN_ROOM d)
  | Some uid =>
      p ← get_player uid d;
      '(r, d) ← (if negb (get_seat_number p =? -1)
                 then player_stand_up room iv ROOM_IDLE uid APPLY_STAND_UP d
                 else mret (0, d));
      if r =? -1 then mret (reply GG_ERROR_GAME_NOT_OVER d)
      else mret (destroy_player uid (reply GG_ERROR_SUCCESS d))
  end.

Definition on_apply_standup (uid : Z) d : outcome desk :=
  match find_player uid d with
  | None => mret (reply GG_ERROR_USER_NOT_IN_ROOM d)
  | Some uid =>
      d ← desk_flush_online uid (reply GG_ERROR_SUCCESS d);
      p ← get_player uid d;
      if negb (get_seat_number p =? -1) then
        '(r, d) ← player_stand_up room iv ROOM_IDLE uid APPLY_STAND_UP d;
        mret (if negb (r =? -1) then destroy_player uid d else d)
      else mret d
  end.

(** [add_player] puts a new object in the room, unless the player manager
    refuses to make one. *)
Definition add_player (uid : Z) (made : bool) d : option desk :=
  if decide (uid ∈ m_all_player d) then Some d
  else if made then
    Some (put_player uid (new_player uid (m_now d)) (d <| m_all_player ::= fun l => {[uid]} ∪ l |>))
  else None.

Definition on_new_player_enter (uid : Z) (playername : string) (made : bool) d : outcome desk :=
  match add_player uid made d with
  | None => mret (reply GG_ERROR_HAVENO_TOKEN_LOGIN d)
  | Some d =>
      p ← get_player uid d;
      let d := put_player uid (p <| m_player_name := playername |>) d in
      let idle_seat_number := get_idle_seat_number d in
      if idle_seat_number =? -1 then
        mret (destroy_player uid (reply GG_ERROR_HAVE_NO_SEAT d))
      else
        '(r, d) ← desk_buy_in uid d;
        if r =? -1 then mret (destroy_player uid (reply GG_ERROR_USER_BUY_IN_FAILED d))
        else
          '(seat_num, d) ← player_sit_down room uid idle_seat_number (reply GG_ERROR_SUCCESS d);
          _ ← assert_that (seat_num =? idle_seat_number);
          mret d
  end.

(** The log line reads what was found, or the end of the map, if the level is on.  A
    user whom the player manager has in another room is made to quit that one first. *)
Definition on_apply_enter_room (uid : Z) (playername : string) (made : bool) d : outcome desk :=
  _ ← log_value LogLevel.debug (find_player uid d);
  match find_player uid d with
  | None => on_new_player_enter uid playername made d
  | Some _ => mret (reply GG_ERROR_SUCCESS d)
  end.

(** *** Looking and talking *)

Definition recv_broadcast (is_recv : bool) (p : Player) : Player := p <| m_is_recv_broadcast := is_recv |>.

(** The handlers that answer and flush before they do anything. *)
Definition with_reply (uid : Z) (handler : desk -> outcome desk) d : outcome desk :=
  match find_player uid d with
  | None => mret (reply GG_ERROR_USER_NOT_IN_ROOM d)
  | Some uid => d ← desk_flush_online uid (reply GG_ERROR_SUCCESS d); handler d
  end.

(** From here on the client follows the table. *)
Definition on_apply_flush_room (uid : Z) : desk -> outcome desk :=
  with_reply uid (fun d =>
    d ← player_flush_room room iv uid d;
    p ← get_player uid d;
    mret (put_player uid (recv_broadcast true p) d)).

(** This handler, too, goes on with the null pointer. *)
Definition on_apply_room_status (uid : Z) d : outcome desk :=
  let player := find_player uid d in
  let d := match player with
           | None => reply GG_ERROR_USER_NOT_IN_ROOM d
           | Some _ => d
           end in
  uid ← deref player;
  d ← desk_flush_online uid d;
  mret (send (ReplyRoomStatus (get_game_status_for_app d)) d).

Definition on_apply_chat (uid isshortcut : Z) (chatcontent : string) : desk -> outcome desk :=
  with_reply uid (fun d =>
    p ← get_player uid d;
    mret (broadcast (PlayerChat isshortcut chatcontent uid (m_player_name p)) d)).
Definition on_apply_face_show (uid faceid : Z) : desk -> outcome desk :=
  with_reply uid (fun d => mret (broadcast (PlayerFaceShow uid faceid) d)).
Definition on_apply_use_props (uid acceptuserid : Z) (propsname : string) : desk -> outcome desk :=
  with_reply uid (fun d => mret (broadcast (PlayerUseProps uid acceptuserid propsname) d)).
Definition on_apply_present_chips (uid giftid : Z) (acceptorid : list Z) : desk -> outcome desk :=
  with_reply uid (fun d => mret (broadcast (PlayerPresentGift uid giftid acceptorid) d)).

(** These two do not flush the online time. *)
Definition on_apply_present_gift (uid giftid : Z) (acceptorid : list Z) d : outcome desk :=
  match find_player uid d with
  | None => mret (reply GG_ERROR_USER_NOT_IN_ROOM d)
  | Some uid => mret (broadcast (PlayerPresentGift uid giftid acceptorid) (reply GG_ERROR_SUCCESS d))
  end.
Definition on_apply_present_gift_newinter (uid giftid : Z) (gifturl : string) (acceptorid : list Z) d
  : outcome desk :=
  match find_player uid d with
  | None => mret (reply GG_ERROR_USER_NOT_IN_ROOM d)
  | Some uid =>
      mret (broadcast (PlayerPresentGiftNewInter uid giftid gifturl acceptorid) (reply GG_ERROR_SUCCESS d))
  end.

(** [broadcast_message] to the users it is given. *)
Definition send_to (recv_user_id : list Z) (m : Msg) d : desk :=
  send (SendRequests ((fun to => (to, m)) <$> filter (fun to => to ∈ m_all_player d) recv_user_id)) d.

(** Nobody checks who sends. *)
Definition on_apply_transmit_message (uid : Z) (recvuserid : list Z) (msgtype msgid : Z) (jsondata : string) d
  : outcome desk :=
  let d := reply GG_ERROR_SUCCESS d in
  let m := PlayerTransmitMessage msgtype msgid jsondata uid in
  mret (if negb (bool_decide (recvuserid = [])) then send_to recvuserid m d
        else send (SendRequests ((fun to => (to, m)) <$> filter (fun to => to <> uid) (recipients d))) d).

(** The sweep over the players of the room; [manager_online] is what the
    player manager knows. *)
Definition check_player_online (manager_online : Z -> bool) d : outcome desk :=
  mfold (fun d uid =>
    p ← get_player uid d;
    if is_online (manager_online uid) (m_now d) p then mret (put_player uid (set_online p) d)
    else if need_kickout_room (m_now d) (is_game_over d) p then
      let d := destroy_player uid d in
      if negb (get_seat_number p =? -1) then
        '(_, d) ← player_stand_up room iv ROOM_IDLE uid QUIT_ROOM d; mret d
      else mret d
    else mret (put_player uid (set_offline p) d))
    d (elements (m_all_player d)).

Definition handle_msg (r : Request) : desk -> outcome desk :=
  match r with
  | ApplyEnterRoom uid name made => on_apply_enter_room uid name made
  | ApplySeat uid n => on_apply_seat uid n
  | ApplyQuitRoom uid => on_apply_exit uid
  | ApplyStandup uid => on_apply_standup uid
  | ApplyDigCard uid t => on_apply_dig_card uid t
  | ApplyPostCard uid card score => on_apply_post_card uid card score
  | ApplyDrop uid => on_apply_drop uid
  | ApplyDeclare uid card groups => on_apply_declare uid card groups
  | ApplyLoseDeclare uid groups => on_apply_lose_declare uid groups
  | ApplyTrusteeOff uid => on_apply_trustee_off uid
  | ApplyCloseAccountBox uid => on_apply_close_account_box uid
  | ApplyFlushRoom uid => on_apply_flush_room uid
  | ApplyRoomStatus uid => on_apply_room_status uid
  | ApplyChat uid shortcut content => on_apply_chat uid shortcut content
  | ApplyFaceShow uid face => on_apply_face_show uid face
  | ApplyUseProps uid acceptor props => on_apply_use_props uid acceptor props
  | ApplyPresentGift uid gift acceptors => on_apply_present_gift uid gift acceptors
  | ApplyPresentGiftNewInter uid gift url acceptors => on_apply_present_gift_newinter uid gift url acceptors
  | ApplyPresentChips uid gift acceptors => on_apply_present_chips uid gift acceptors
  | ApplyTransmitMessage uid to t id json => on_apply_transmit_message uid to t id json
  end.
End room.
