(* ===== verification/Table.v ===== *)
(** * The table invariant

    What holds of the desk between two handlers, stated on a view of it that
    forgets the messages, the clock, the money server and the phases of the
    players: the links between seats and players, where the cards are, the
    accounts, and what each round needs. *)
From Stdlib Require Import ZArith Lia String.
From stdpp Require Import base tactics numbers sorting option gmap strings sets list.
From S2P Require Import Prelude Cards Dealer Straight Declare Search Found Hand.
From S2P Require Import Player Seat Desk Play Round Room.

(** ** Lists updated at an index *)

Section insert.
Context {A : Type}.
Implicit Type l : list A.

Lemma insert_split (l : list A) i x y :
  l !! i = Some x -> exists l1 l2, l = l1 ++ x :: l2 /\ <[i := y]> l = l1 ++ y :: l2.
Proof.
  intros Hi. exists (take i l), (drop (S i) l). split.
  - symmetry. by apply take_drop_middle.
  - apply insert_take_drop. by eapply lookup_lt_Some.
Qed.

Lemma concat_insert (f : A -> list PokerCard) l i x y :
  l !! i = Some x ->
  concat (f <$> <[i := y]> l) ++ f x ≡ₚ concat (f <$> l) ++ f y.
Proof.
  intros (l1 & l2 & -> & ->)%(insert_split l i x y).
  rewrite !fmap_app, !fmap_cons, !concat_app. simpl. solve_Permutation.
Qed.
End insert.

(** The sum of a member over the seats. *)
Definition sum_of (f : GameSeat -> Z) (seats : list GameSeat) : Z :=
  foldr (fun s acc => f s + acc) 0 seats.

Lemma sum_of_app f l1 l2 : sum_of f (l1 ++ l2) = sum_of f l1 + sum_of f l2.
Proof. induction l1; simpl; lia. Qed.

Lemma sum_of_insert f l i x y :
  l !! i = Some x -> sum_of f (<[i := y]> l) = sum_of f l - f x + f y.
Proof.
  intros (l1 & l2 & -> & ->)%(insert_split l i x y). rewrite !sum_of_app. simpl. lia.
Qed.

Lemma sum_of_zero f l : (forall s, s ∈ l -> f s = 0) -> sum_of f l = 0.
Proof.
  induction l as [|s l IH]; intros Hz; simpl; [done|].
  rewrite (Hz s), IH by (by left || (intros; apply Hz; by right)). done.
Qed.

(** The number of seats that pass a test. *)
Definition count_of (test : GameSeat -> bool) (seats : list GameSeat) : nat :=
  length (filter (fun s => test s = true) seats).

Lemma count_of_insert test l i x y :
  l !! i = Some x ->
  (count_of test (<[i := y]> l) + Nat.b2n (test x) = count_of test l + Nat.b2n (test y))%nat.
Proof.
  intros (l1 & l2 & -> & ->)%(insert_split l i x y). unfold count_of.
  rewrite !filter_app, !filter_cons, !length_app.
  destruct (test x) eqn:?, (test y) eqn:?; simpl; lia.
Qed.

Lemma count_of_elem test l i x : l !! i = Some x -> test x = true -> (1 <= count_of test l)%nat.
Proof.
  intros Hi Ht. unfold count_of. apply list_elem_of_lookup_2 in Hi.
  assert (x ∈ filter (fun s => test s = true) l) as Hin by (by apply list_elem_of_filter).
  destruct (filter _ l); [by apply elem_of_nil in Hin|simpl; lia].
Qed.

(** If only one seat passes, it is the one known. *)
Lemma count_of_one test l i x j y :
  count_of test l = 1%nat -> l !! i = Some x -> test x = true ->
  l !! j = Some y -> test y = true -> j = i.
Proof.
  revert i j; induction l as [|z l IH]; intros i j Hc Hx Htx Hy Hty; [done|].
  assert (count_of test (z :: l) = (Nat.b2n (test z) + count_of test l)%nat) as Hz.
  { unfold count_of. rewrite filter_cons. destruct (test z); simpl; done. }
  rewrite Hz in Hc.
  destruct i as [|i], j as [|j]; simpl in *; simplify_eq; [done| | |].
  - pose proof (count_of_elem _ _ _ _ Hy Hty). rewrite Htx in Hc. simpl in Hc. lia.
  - pose proof (count_of_elem _ _ _ _ Hx Htx). rewrite Hty in Hc. simpl in Hc. lia.
  - f_equal. apply (IH i j); try done. pose proof (count_of_elem _ _ _ _ Hx Htx). lia.
Qed.

(** If several do, there is another one. *)
Lemma count_of_other test l i :
  (2 <= count_of test l)%nat ->
  exists j y, j <> i /\ l !! j = Some y /\ test y = true.
Proof.
  revert i; induction l as [|z l IH]; intros i Hc; [unfold count_of in Hc; simpl in Hc; lia|].
  assert (count_of test (z :: l) = (Nat.b2n (test z) + count_of test l)%nat) as Hz.
  { unfold count_of. rewrite filter_cons. destruct (test z); simpl; done. }
  rewrite Hz in Hc. destruct (decide (i = 0%nat)) as [->|Hi].
  - destruct (test z); simpl in Hc.
    + unfold count_of in Hc. destruct (filter (fun s => test s = true) l) as [|y l'] eqn:E; [simpl in Hc; lia|].
      assert (y ∈ filter (fun s => test s = true) l) as Hin by (rewrite E; left).
      apply list_elem_of_filter in Hin as [Hy [j Hj]%list_elem_of_lookup]. by exists (S j), y.
    + destruct (IH 0%nat Hc) as (j & y & _ & Hj & Hy). by exists (S j), y.
  - destruct (test z) eqn:Htz; simpl in Hc; [by exists 0%nat, z|].
    destruct (IH (pred i) Hc) as (j & y & Hne & Hj & Hy). exists (S j), y. split_and!; [lia|done|done].
Qed.

(** ** The view *)

Record View : Type := mkView {
  v_seats : list GameSeat;
  v_links : gmap Z (Z * option nat);
  v_room : gset Z;
  v_status : Z;
  v_active : Z;
  v_dealer : Z;
  v_pool : list PokerCard;
  v_bottom : list PokerCard;
  v_winner : Z;
  v_chips : Z;
  v_apply : Z;
  v_shoe : CardDealer
}.

#[export] Instance View_eta : Eta View := fun v =>
  mkView (v_seats v) (v_links v) (v_room v) (v_status v) (v_active v) (v_dealer v) (v_pool v)
    (v_bottom v) (v_winner v) (v_chips v) (v_apply v) (v_shoe v).

(** What the seats need to know of the player objects. *)
Definition links (objects : gmap Z Player) : gmap Z (Z * option nat) :=
  (fun p => (m_player_id p, m_pGameSeat p)) <$> objects.

Definition view {M G} (d : GameDesk M G) : View :=
  mkView (m_seats d) (links (m_objects d)) (m_all_player d) (m_game_status d) (m_active_seatnum d)
    (m_dealer_index d) (m_pokercard_pool d) (m_bottom_cards d) (m_last_winner_seatnum d)
    (m_chips_pool d) (m_apply_declare_seatnum d) (m_card_dealer d).

(** The longest game is over: nobody wins.  The view leaves the clock out. *)
Definition drawn_out {M G} (d : GameDesk M G) : bool :=
  m_time_game_begin d + m_draw_sec d <? m_now d.

(** ** The invariant *)

(** Seats and players point to each other, and nobody plays without a seat. *)
Record linked (seats : list GameSeat) (lk : gmap Z (Z * option nat)) : Prop := mkLinked {
  linked_number : forall i s, seats !! i = Some s -> m_seat_number s = Z.of_nat i;
  linked_empty : forall i s, seats !! i = Some s -> m_player s = None ->
    is_seated s = false /\ is_in_game s = false;
  linked_seat : forall i s uid, seats !! i = Some s -> m_player s = Some uid ->
    is_seated s = true /\ lk !! uid = Some (uid, Some i);
  linked_player : forall uid id o, lk !! uid = Some (id, o) ->
    id = uid /\ forall i, o = Some i -> exists s, seats !! i = Some s /\ m_player s = Some uid
}.

(** The players of the room exist, and every seated one is in the room. *)
Record in_room (seats : list GameSeat) (lk : gmap Z (Z * option nat)) (room : gset Z) : Prop := {
  room_object : forall uid, uid ∈ room -> is_Some (lk !! uid);
  room_seated : forall i s uid, seats !! i = Some s -> m_player s = Some uid -> uid ∈ room
}.

(** Every card that is not out of the game. *)
Definition hands (seats : list GameSeat) : list PokerCard := concat (m_handcards_total <$> seats).

Lemma hands_nil seats : (forall s, s ∈ seats -> m_handcards_total s = []) -> hands seats = [].
Proof.
  induction seats as [|s seats IH]; intros Hall; [done|]. unfold hands in *. simpl.
  rewrite (Hall s) by left. apply IH. intros t Ht. apply Hall. by right.
Qed.

Definition table_cards (v : View) : list PokerCard := hands (v_seats v) ++ v_bottom v ++ v_pool v.

Definition hand_sizes (seats : list GameSeat) : Prop :=
  forall s, s ∈ seats -> length (m_handcards_total s) ∈ [0; 13; 14]%nat.

Record core (v : View) : Prop := mkCore {
  core_seats : length (v_seats v) = m_max_seat_num;
  core_linked : linked (v_seats v) (v_links v);
  core_room : in_room (v_seats v) (v_links v) (v_room v);
  core_shoe : full_shoe (v_shoe v);
  core_winner : -1 <= v_winner v <= 4;
  core_cards : table_cards v ⊆+ deck;
  core_sizes : hand_sizes (v_seats v);
  core_scores : forall s, s ∈ v_seats v -> 0 <= seat_score s
}.

(** What is in the pool of chips is what the accounts of the seats lack, and
    only players who joined the game and are out of it have paid. *)
Record balanced (v : View) : Prop := mkBalanced {
  bal_sum : v_chips v + sum_of m_match_over_account_chips (v_seats v) = 0;
  bal_ingame : forall s, s ∈ v_seats v -> is_in_game s = true ->
    is_player_joined s = true /\ m_match_over_account_chips s = 0;
  bal_joined : forall s, s ∈ v_seats v -> is_player_joined s = false ->
    m_match_over_account_chips s = 0
}.

(** A player who has dropped or declared shows his cards in groups; nobody else has any. *)
Definition laid_down (s : GameSeat) : bool := is_drop s || is_declared s.

Definition concealed (s : GameSeat) : Prop := laid_down s = false -> seat_card_group s = [].

Definition all_concealed (seats : list GameSeat) : Prop := forall s, s ∈ seats -> concealed s.

Lemma declared_concealed (s : GameSeat) : is_declared s = true -> concealed s.
Proof. unfold concealed, laid_down. intros ->. by rewrite orb_true_r. Qed.

Lemma dropped_concealed (s : GameSeat) : is_drop s = true -> concealed s.
Proof. unfold concealed, laid_down. by intros ->. Qed.

Lemma concealed_same (s s' : GameSeat) :
  laid_down s' = laid_down s -> seat_card_group s' = seat_card_group s -> concealed s -> concealed s'.
Proof. unfold concealed. by intros -> ->. Qed.

(** *** Rounds *)

Definition rounds : list Z :=
  [GAME_UNREADY; GAME_WAIT_PLAYING; GAME_DEALER_CARD; GAME_ACTIVE1; GAME_ACTIVE2; GAME_DECLARE;
   GAME_DISTRIBUTE; GAME_SHUFFLE_CARD].

(** A closed membership. *)
Ltac by_decision := solve [assumption | refine (bool_decide_eq_true_1 _ _); vm_compute; reflexivity].

(** The status word names a round, with or without the waiting bit. *)
Definition in_round (round status : Z) : Prop :=
  status = round \/ status = Z.lor GAME_WAIT_MASK round.

(** Between games. *)
Record over (v : View) : Prop := mkOverPhase {
  over_seat_clear : forall s, s ∈ v_seats v ->
    m_handcards_total s = [] /\ m_match_over_account_chips s = 0 /\ seat_card_group s = [];
  over_bottom : v_bottom v = [];
  over_pool : v_pool v = [];
  over_chips : v_chips v = 0;
  over_apply : v_apply v = -1;
  over_active : v_active v = -1
}.

(** Nobody has declared, two players are in the game, and those in the game
    other than [except] hold thirteen cards. *)
Record turns (except : Z) (v : View) : Prop := {
  turns_apply : v_apply v = -1;
  turns_count : (2 <= count_of is_in_game (v_seats v))%nat;
  turns_undeclared : forall i s, v_seats v !! i = Some s -> is_in_game s = true ->
    is_declared s = false;
  turns_hands : forall i s, v_seats v !! i = Some s -> is_in_game s = true ->
    Z.of_nat i <> except -> length (m_handcards_total s) = 13%nat;
  turns_concealed : all_concealed (v_seats v)
}.

(** Enough cards to go on: of the 107 cards that are not the joker card, each
    player in the game holds thirteen, and one may be lost with each who has
    dropped. *)
Definition stocked (v : View) : Prop :=
  (2 <= length (v_bottom v) /\ 1 <= length (v_pool v) /\
   37 + count_of is_in_game (v_seats v) <= length (v_bottom v) + length (v_pool v))%nat.

(** Seat number [n] is in the game. *)
Definition plays (n : Z) (v : View) : Prop :=
  exists i s, n = Z.of_nat i /\ v_seats v !! i = Some s /\ is_in_game s = true.

Inductive phase (v : View) : Z -> Prop :=
  | phase_unready : over v -> phase v GAME_UNREADY
  | phase_wait_playing : over v -> phase v GAME_WAIT_PLAYING
  | phase_distribute : over v -> phase v GAME_DISTRIBUTE
  | phase_dealer :
      turns (-1) v -> stocked v -> v_active v = -1 -> plays (v_dealer v) v ->
      phase v GAME_DEALER_CARD
  | phase_active1 :
      turns (-1) v -> stocked v -> plays (v_active v) v -> phase v GAME_ACTIVE1
  | phase_shuffle :
      turns (-1) v -> stocked v -> 0 <= v_active v <= 4 -> phase v GAME_SHUFFLE_CARD
  | phase_active2 i s :
      turns (v_active v) v ->
      v_active v = Z.of_nat i -> v_seats v !! i = Some s -> is_in_game s = true ->
      length (m_handcards_total s) = 14%nat -> m_dig_card s ∈ m_handcards_total s ->
      (1 <= length (v_bottom v))%nat ->
      (36 + count_of is_in_game (v_seats v) <= length (v_bottom v) + length (v_pool v))%nat ->
      phase v GAME_ACTIVE2
  | phase_declare i s :
      v_apply v = Z.of_nat i -> v_seats v !! i = Some s ->
      is_in_game s = true -> is_declared s = true ->
      (2 <= count_of is_in_game (v_seats v))%nat ->
      (forall j t, v_seats v !! j = Some t -> is_in_game t = true -> j <> i -> is_declared t = false) ->
      all_concealed (v_seats v) ->
      phase v GAME_DECLARE.

Definition inv (v : View) : Prop :=
  core v /\ balanced v /\ exists round, in_round round (v_status v) /\ phase v round.

(** Between the requests, the cards in groups are those that have been laid down. *)
Lemma inv_concealed v : inv v -> all_concealed (v_seats v).
Proof.
  intros (_ & _ & r & _ & Hph). destruct Hph as [Ho|Ho|Ho|Ht|Ht|Ht|i s Ht| ]; try done; try apply Ht;
    intros t Hs _; by apply (over_seat_clear _ Ho).
Qed.

(** ** Status words *)

Lemma has_bit status k : 0 <= k -> has status (2 ^ k) = Z.testbit status k.
Proof.
  intros Hk. unfold has. destruct (Z.testbit status k) eqn:E.
  - apply negb_true_iff, Z.eqb_neq. intros Hz.
    assert (Z.testbit (Z.land status (2 ^ k)) k = false) as Hb by (rewrite Hz; apply Z.bits_0).
    rewrite Z.land_spec, Z.pow2_bits_true, E in Hb by done. done.
  - apply negb_false_iff, Z.eqb_eq, Z.bits_inj'. intros n Hn.
    rewrite Z.land_spec, Z.bits_0. destruct (decide (n = k)) as [->|Hne]; [by rewrite E|].
    by rewrite Z.pow2_bits_false, andb_false_r.
Qed.

(** Decide a question about one bit of a seat's status. *)
Ltac seat_bits :=
  unfold is_seated, is_in_game, is_declared, is_drop, is_player_joined, is_winner in *;
  change Status.seated with (2 ^ 0) in *; change Status.ingame with (2 ^ 1) in *;
  change Status.win with (2 ^ 3) in *; change Status.cur_join with (2 ^ 4) in *;
  change Status.escape with (2 ^ 6) in *; change Status.drop with (2 ^ 7) in *;
  change Status.declared with (2 ^ 8) in *;
  rewrite ?has_bit in * by done;
  cbn [m_seat_stauts with_status update] in *;
  rewrite ?Z.lor_spec, ?Z.land_spec, ?Z.lnot_spec, ?Z.pow2_bits_eqb in * by done;
  cbn [Z.eqb Pos.eqb negb] in *;
  rewrite ?andb_true_r, ?andb_false_r, ?orb_true_r, ?orb_false_r in *.

Lemma in_round_cases round status :
  in_round round status -> round ∈ rounds ->
  forall round', round' ∈ rounds -> has status round' = bool_decide (round = round').
Proof.
  intros Hs Hr round' Hr'. unfold rounds in *.
  repeat (apply elem_of_cons in Hr as [->|Hr]); [..|by apply elem_of_nil in Hr];
    (repeat (apply elem_of_cons in Hr' as [->|Hr']); [..|by apply elem_of_nil in Hr']);
    destruct Hs as [->| ->]; reflexivity.
Qed.

Lemma in_round_wait round status :
  in_round round status -> round ∈ rounds -> has status GAME_WAIT_MASK = bool_decide (status <> round).
Proof.
  intros Hs Hr. unfold rounds in *.
  repeat (apply elem_of_cons in Hr as [->|Hr]); [..|by apply elem_of_nil in Hr];
    destruct Hs as [->| ->]; reflexivity.
Qed.

Lemma in_round_next round status round' :
  in_round round status -> round ∈ rounds ->
  Z.lor (Z.lor GAME_WAIT_MASK round') (Z.land status (Z.lnot GAME_ROUND_MASK)) =
  Z.lor GAME_WAIT_MASK round'.
Proof.
  intros Hs Hr. unfold rounds in *.
  assert (Z.land status (Z.lnot GAME_ROUND_MASK) = 0 \/
          Z.land status (Z.lnot GAME_ROUND_MASK) = GAME_WAIT_MASK) as [-> | ->].
  { repeat (apply elem_of_cons in Hr as [->|Hr]); [..|by apply elem_of_nil in Hr];
      destruct Hs as [->| ->]; auto. }
  - apply Z.lor_0_r.
  - rewrite <- Z.lor_assoc, (Z.lor_comm round'), Z.lor_assoc. done.
Qed.

(** The status [step_new_round] dispatches on. *)
Lemma in_round_now round status :
  in_round round status -> round ∈ rounds ->
  Z.land status GAME_ROUND_MASK = round /\ Z.land status (Z.lnot GAME_WAIT_MASK) = round.
Proof.
  intros Hs Hr. unfold rounds in *.
  repeat (apply elem_of_cons in Hr as [->|Hr]); [..|by apply elem_of_nil in Hr];
    destruct Hs as [->| ->]; done.
Qed.

Lemma phase_round v round : phase v round -> round ∈ rounds.
Proof. intros []; by_decision. Qed.

(** ** Links *)

Lemma links_lookup objects uid :
  links objects !! uid = (fun p => (m_player_id p, m_pGameSeat p)) <$> objects !! uid.
Proof. apply lookup_fmap. Qed.

Lemma links_insert objects uid p :
  links (<[uid := p]> objects) = <[uid := (m_player_id p, m_pGameSeat p)]> (links objects).
Proof. unfold links. by rewrite fmap_insert. Qed.

(** Replacing a player by one with the same seat is not seen. *)
Lemma links_same objects uid p p' :
  objects !! uid = Some p -> m_player_id p' = m_player_id p -> m_pGameSeat p' = m_pGameSeat p ->
  links (<[uid := p']> objects) = links objects.
Proof.
  intros Hp Hi Hs. rewrite links_insert, Hi, Hs. apply insert_id.
  by rewrite links_lookup, Hp.
Qed.

(** An update of a seat that keeps its player. *)
Record seat_link (s s' : GameSeat) : Prop := mkSeatLink {
  link_player : m_player s' = m_player s;
  link_number : m_seat_number s' = m_seat_number s;
  link_seated : is_seated s' = is_seated s;
  link_ingame : is_in_game s' = true -> is_in_game s = true
}.

Lemma linked_insert seats lk i s s' :
  linked seats lk -> seats !! i = Some s -> seat_link s s' -> linked (<[i := s']> seats) lk.
Proof.
  intros [Hn He Hs Hp] Hi [Lp Ln Ls Lg].
  assert (forall j t, <[i := s']> seats !! j = Some t ->
            (j = i /\ t = s') \/ (j <> i /\ seats !! j = Some t)) as Hj.
  { intros j t Ht. apply list_lookup_insert_Some in Ht as [(-> & -> & _)|[Hne Ht]]; auto. }
  split.
  - intros j t [[-> ->]|[_ Ht]]%Hj; [rewrite Ln|]; eauto.
  - intros j t [[-> ->]|[_ Ht]]%Hj Hpl; [|by eapply He].
    rewrite Lp in Hpl. destruct (He i s Hi Hpl) as [H1 H2]. split; [by rewrite Ls|].
    destruct (is_in_game s') eqn:E; [|done]. rewrite Lg in H2; done.
  - intros j t uid [[-> ->]|[_ Ht]]%Hj Hpl; [|by eapply Hs].
    rewrite Lp in Hpl. rewrite Ls. by eapply Hs.
  - intros uid id o Hl. destruct (Hp uid id o Hl) as [Hid Ho]. split; [done|].
    intros j Hj'. destruct (Ho j Hj') as (t & Ht & Hpl). destruct (decide (j = i)) as [->|Hne].
    + exists s'. rewrite list_lookup_insert_eq by by eapply lookup_lt_Some.
      split; [done|]. rewrite Lp. congruence.
    + exists t. by rewrite list_lookup_insert_ne.
Qed.

Lemma in_room_insert seats lk room i s s' :
  in_room seats lk room -> seats !! i = Some s -> m_player s' = m_player s ->
  in_room (<[i := s']> seats) lk room.
Proof.
  intros [Ho Hs] Hi Hp. split; [done|]. intros j t uid Ht Hpl.
  apply list_lookup_insert_Some in Ht as [(-> & -> & _)|[_ Ht]]; [rewrite Hp in Hpl|]; eauto.
Qed.

Lemma elem_of_insert {A} (l : list A) i x y : y ∈ <[i := x]> l -> y = x \/ y ∈ l.
Proof.
  intros [j Hj]%list_elem_of_lookup.
  apply list_lookup_insert_Some in Hj as [(-> & -> & _)|[_ Hj]]; [by left|].
  right. by eapply list_elem_of_lookup_2.
Qed.

Lemma hands_insert seats i s s' :
  seats !! i = Some s ->
  hands (<[i := s']> seats) ++ m_handcards_total s ≡ₚ hands seats ++ m_handcards_total s'.
Proof. apply concat_insert. Qed.

Lemma all_concealed_insert seats i (s' : GameSeat) :
  all_concealed seats -> concealed s' -> all_concealed (<[i := s']> seats).
Proof. intros Hall Hs t [->|Ht]%elem_of_insert; auto. Qed.

(** The invariant of a view that differs in one seat. *)
Lemma core_insert v v' i s s' :
  core v -> v_seats v !! i = Some s -> seat_link s s' ->
  v_seats v' = <[i := s']> (v_seats v) -> v_links v' = v_links v -> v_room v' = v_room v ->
  v_shoe v' = v_shoe v -> -1 <= v_winner v' <= 4 -> table_cards v' ⊆+ table_cards v ->
  length (m_handcards_total s') ∈ [0; 13; 14]%nat -> 0 <= seat_score s' ->
  core v'.
Proof.
  intros [Hlen Hlk Hrm Hsh Hw Hc Hz Hsc] Hi Hl Es El Er Eh Ew Hcards Hsize Hscore.
  split; rewrite ?Es, ?El, ?Er, ?Eh; try done.
  - by rewrite length_insert.
  - by eapply linked_insert.
  - eapply in_room_insert; [done..|]. apply Hl.
  - by etrans.
  - intros t [->|Ht]%elem_of_insert; auto.
  - intros t [->|Ht]%elem_of_insert; auto.
Qed.

(** One seat's account changes together with the pool. *)
Lemma balanced_insert v v' i s s' :
  balanced v -> v_seats v !! i = Some s -> v_seats v' = <[i := s']> (v_seats v) ->
  v_chips v' = v_chips v + m_match_over_account_chips s - m_match_over_account_chips s' ->
  (is_in_game s' = true -> is_player_joined s' = true /\ m_match_over_account_chips s' = 0) ->
  (is_player_joined s' = false -> m_match_over_account_chips s' = 0) ->
  balanced v'.
Proof.
  intros [Hb Hg Hj] Hi Es Ec Hg' Hj'. split; rewrite ?Es.
  - rewrite (sum_of_insert _ _ _ s) by done. lia.
  - intros t [->|Ht]%elem_of_insert; auto.
  - intros t [->|Ht]%elem_of_insert; auto.
Qed.

(** Two views with the same cards, players, seats and so on. *)
Lemma core_same v v' :
  core v ->
  v_seats v' = v_seats v -> v_links v' = v_links v -> v_room v' = v_room v ->
  v_shoe v' = v_shoe v -> -1 <= v_winner v' <= 4 -> table_cards v' ⊆+ table_cards v ->
  core v'.
Proof.
  intros [Hlen Hlk Hrm Hsh Hw Hc Hz Hsc] Es El Er Eh Ew Hcards.
  split; rewrite ?Es, ?El, ?Er, ?Eh; try done. by etrans.
Qed.

(** A seat whose hand is rearranged keeps the cards of the table. *)
Lemma table_cards_same v v' i s s' :
  v_seats v !! i = Some s -> v_seats v' = <[i := s']> (v_seats v) ->
  m_handcards_total s' ≡ₚ m_handcards_total s ->
  v_bottom v' = v_bottom v -> v_pool v' = v_pool v ->
  table_cards v' ≡ₚ table_cards v.
Proof.
  intros Hi Es Hh Eb Ep. unfold table_cards. rewrite Es, Eb, Ep. apply Permutation_app_tail.
  pose proof (hands_insert _ _ _ s' Hi) as Hp. rewrite Hh in Hp.
  by apply Permutation_app_inv_r in Hp.
Qed.

Lemma hand_in_deck v s : core v -> s ∈ v_seats v -> m_handcards_total s ⊆+ deck.
Proof.
  intros Hc (l1 & l2 & Hs)%list_elem_of_split. etrans; [|apply (core_cards _ Hc)].
  unfold table_cards, hands. rewrite Hs, fmap_app, fmap_cons, concat_app. simpl.
  rewrite <- !(assoc_L (++)). apply submseteq_inserts_l, submseteq_inserts_r. done.
Qed.

(** A hand on the table can be arranged. *)
Lemma arrange_returns v s jp :
  core v -> s ∈ v_seats v ->
  returns (default_declare (m_handcards_total s) jp) (fun r => 0 <= r.1).
Proof.
  intros Hc Hs. pose proof (core_sizes _ Hc s Hs) as Hz.
  eapply returns_mono; [apply default_declare_returns|].
  - by eapply hand_in_deck.
  - repeat (apply elem_of_cons in Hz as [->|Hz]); [lia..|by apply elem_of_nil in Hz].
  - repeat (apply elem_of_cons in Hz as [->|Hz]); [lia..|by apply elem_of_nil in Hz].
  - intros r (_ & _ & H0). exact H0.
Qed.
