(* ===== verification/Protocol.v ===== *)
(** * The protocol of the table

    What a spectator sees of a desk: nothing between two games, and during a game
    the round, the number of the active seat, that of the seat that has declared,
    and which seats are still in the game.  [protocol] are the rules of rummy on
    these states; the handlers refine them. *)
From Stdlib Require Import ZArith Lia String.
From stdpp Require Import base tactics numbers sorting option gmap strings sets list.
From S2P Require Import Prelude Cards Dealer Straight Declare Search Found Hand.
From S2P Require Import Player Seat Desk Play Round Room Table.

(** ** Spectator states *)

Inductive Spectator : Type :=
  | Idle
  | Playing (round active declarer : Z) (players : list bool).

(** The number of seats still in the game. *)
Definition in_play (players : list bool) : nat := length (filter (fun b => b = true) players).

(** [k] places after [n], at the table. *)
Definition seat_after (n : Z) (k : nat) : nat := Z.to_nat ((n + Z.of_nat k) mod 5).

(** The first seat after [n] that is in the game. *)
Definition next_player (players : list bool) (n m : Z) : Prop :=
  exists k, (1 <= k <= 5)%nat /\ m = Z.of_nat (seat_after n k) /\
    players !! seat_after n k = Some true /\
    forall j, (1 <= j < k)%nat -> players !! seat_after n j = Some false.

(** Who gets the turn: the dealer first. *)
Definition turn_of (players : list bool) (active m : Z) : Prop :=
  if active =? -1 then exists i, m = Z.of_nat i /\ players !! i = Some true
  else next_player players active m.

Inductive protocol : Spectator -> Spectator -> Prop :=
  | proto_deal players :
      (2 <= in_play players)%nat ->
      protocol Idle (Playing GAME_DEALER_CARD (-1) (-1) players)
  | proto_turn r a n players :
      r ∈ [GAME_DEALER_CARD; GAME_ACTIVE1; GAME_SHUFFLE_CARD] -> turn_of players a n ->
      protocol (Playing r a (-1) players) (Playing GAME_ACTIVE1 n (-1) players)
  | proto_dig a players :
      protocol (Playing GAME_ACTIVE1 a (-1) players) (Playing GAME_ACTIVE2 a (-1) players)
  | proto_post a n players :
      next_player players a n ->
      protocol (Playing GAME_ACTIVE2 a (-1) players) (Playing GAME_ACTIVE1 n (-1) players)
  | proto_refill a players :
      protocol (Playing GAME_ACTIVE2 a (-1) players) (Playing GAME_SHUFFLE_CARD a (-1) players)
  | proto_drop r a i players :
      r ∈ [GAME_ACTIVE1; GAME_ACTIVE2; GAME_SHUFFLE_CARD] -> players !! i = Some true ->
      r <> GAME_SHUFFLE_CARD -> a <> Z.of_nat i -> (2 <= in_play (<[i := false]> players))%nat ->
      protocol (Playing r a (-1) players) (Playing r a (-1) (<[i := false]> players))
  | proto_drop_shuffling a i players :
      players !! i = Some true -> (2 <= in_play (<[i := false]> players))%nat ->
      protocol (Playing GAME_SHUFFLE_CARD a (-1) players)
               (Playing GAME_SHUFFLE_CARD a (-1) (<[i := false]> players))
  | proto_drop_turn r i n players :
      r ∈ [GAME_ACTIVE1; GAME_ACTIVE2] -> players !! i = Some true ->
      next_player (<[i := false]> players) (Z.of_nat i) n ->
      protocol (Playing r (Z.of_nat i) (-1) players)
               (Playing GAME_ACTIVE1 n (-1) (<[i := false]> players))
  | proto_declare i players :
      players !! i = Some true ->
      protocol (Playing GAME_ACTIVE2 (Z.of_nat i) (-1) players)
               (Playing GAME_DECLARE (Z.of_nat i) (Z.of_nat i) players)
  | proto_lose a c i players :
      players !! i = Some true -> c <> Z.of_nat i -> (2 <= in_play (<[i := false]> players))%nat ->
      protocol (Playing GAME_DECLARE a c players) (Playing GAME_DECLARE a c (<[i := false]> players))
  | proto_over r a c players :
      protocol (Playing r a c players) Idle.

(** At most one move. *)
Definition follows (p p' : Spectator) : Prop := p' = p \/ protocol p p'.

Lemma follows_refl p : follows p p.
Proof. by left. Qed.

Lemma follows_over p : follows p Idle.
Proof. destruct p; [by left|right; constructor]. Qed.

#[export] Hint Resolve follows_refl follows_over : core.

(** ** The spectator's view of a desk *)

Definition over_status (status : Z) : bool :=
  has status GAME_UNREADY || has status GAME_WAIT_PLAYING || has status GAME_DISTRIBUTE.

Definition spectate (v : View) : Spectator :=
  if over_status (v_status v) then Idle
  else Playing (Z.land (v_status v) GAME_ROUND_MASK) (v_active v) (v_apply v)
         (is_in_game <$> v_seats v).

Lemma in_play_count seats : in_play (is_in_game <$> seats) = count_of is_in_game seats.
Proof.
  unfold in_play, count_of. induction seats as [|s seats IH]; [done|].
  rewrite fmap_cons, !filter_cons. destruct (is_in_game s); simpl; lia.
Qed.

Lemma over_status_round r status :
  in_round r status -> r ∈ rounds ->
  over_status status = bool_decide (r ∈ [GAME_UNREADY; GAME_WAIT_PLAYING; GAME_DISTRIBUTE]).
Proof.
  intros Hst Hr. unfold over_status. rewrite !(in_round_cases r) by (done || by_decision).
  unfold rounds in Hr.
  repeat (apply elem_of_cons in Hr as [->|Hr]); [..|by apply elem_of_nil in Hr]; done.
Qed.

(** In a round of a game the spectator sees it. *)
Lemma spectate_round v r :
  in_round r (v_status v) -> r ∈ rounds ->
  r ∉ [GAME_UNREADY; GAME_WAIT_PLAYING; GAME_DISTRIBUTE] ->
  spectate v = Playing r (v_active v) (v_apply v) (is_in_game <$> v_seats v).
Proof.
  intros Hst Hr Hn. unfold spectate. rewrite (over_status_round r) by done.
  rewrite bool_decide_eq_false_2 by done. by destruct (in_round_now _ _ Hst Hr) as [-> _].
Qed.

Lemma spectate_over v r :
  in_round r (v_status v) -> r ∈ [GAME_UNREADY; GAME_WAIT_PLAYING; GAME_DISTRIBUTE] ->
  spectate v = Idle.
Proof.
  intros Hst Hr. unfold spectate. rewrite (over_status_round r); [|done|].
  - by rewrite bool_decide_eq_true_2.
  - repeat (apply elem_of_cons in Hr as [->|Hr]); [..|by apply elem_of_nil in Hr]; by_decision.
Qed.

(** Nothing the spectator sees has changed. *)
Lemma spectate_same v v' :
  v_status v' = v_status v -> v_active v' = v_active v -> v_apply v' = v_apply v ->
  is_in_game <$> v_seats v' = is_in_game <$> v_seats v -> spectate v' = spectate v.
Proof. unfold spectate. by intros -> -> -> ->. Qed.

(** A seat replaced by one that plays, or does not, like it. *)
Lemma players_insert_same (seats : list GameSeat) i s s' :
  seats !! i = Some s -> is_in_game s' = is_in_game s ->
  is_in_game <$> <[i := s']> seats = is_in_game <$> seats.
Proof.
  intros Hi Hg. rewrite list_fmap_insert, Hg. apply list_insert_id.
  by rewrite list_lookup_fmap, Hi.
Qed.

(** One input leads from [v] to [v']: the invariant holds, and the spectator has
    seen at most one move. *)
Definition goes_on (v v' : View) : Prop := inv v' /\ follows (spectate v) (spectate v').

Lemma goes_on_refl v : inv v -> goes_on v v.
Proof. by split. Qed.

Lemma goes_on_same v v' : inv v -> v' = v -> goes_on v v'.
Proof. intros ? ->. by apply goes_on_refl. Qed.

Lemma goes_on_quiet v v' : inv v' -> spectate v' = spectate v -> goes_on v v'.
Proof. intros ? Hs. split; [done|by left]. Qed.

Lemma goes_on_over v v' : inv v' -> spectate v' = Idle -> goes_on v v'.
Proof. intros ? Hs. split; [done|]. rewrite Hs. auto. Qed.

Lemma goes_on_from v v1 v' : spectate v1 = spectate v -> goes_on v1 v' -> goes_on v v'.
Proof. unfold goes_on. by intros ->. Qed.

#[export] Hint Resolve goes_on_refl : core.

(** The rounds a spectator sees. *)
Definition shown_rounds : list Z :=
  [GAME_DEALER_CARD; GAME_ACTIVE1; GAME_ACTIVE2; GAME_DECLARE; GAME_SHUFFLE_CARD].

Lemma shown_round r : r ∈ shown_rounds -> r ∈ rounds.
Proof.
  intros Hr. unfold shown_rounds in Hr.
  repeat (apply elem_of_cons in Hr as [->|Hr]); [by_decision..|by apply elem_of_nil in Hr].
Qed.

Lemma spectate_shown v r :
  in_round r (v_status v) -> r ∈ shown_rounds ->
  spectate v = Playing r (v_active v) (v_apply v) (is_in_game <$> v_seats v).
Proof.
  intros Hst Hr. unfold shown_rounds in Hr.
  repeat (apply elem_of_cons in Hr as [->|Hr]); [..|by apply elem_of_nil in Hr];
    (apply spectate_round; [done|by_decision|apply (bool_decide_eq_false_1 _); reflexivity]).
Qed.

Lemma players_lookup (seats : list GameSeat) i s :
  seats !! i = Some s -> (is_in_game <$> seats) !! i = Some (is_in_game s).
Proof. intros Hi. by rewrite list_lookup_fmap, Hi. Qed.
