(* ===== verification/Settle.v ===== *)
(** * Settling accounts

    The operations of Play.v keep the table invariant and run without a fault:
    the accounts of one seat, the distribution at the end of a game, the
    declarations of the losers, standing up and sitting down.  The amount the
    money server takes is arbitrary; the small blind is not negative. *)
From Stdlib Require Import ZArith Lia String.
From stdpp Require Import base tactics numbers sorting option gmap strings sets list.
From S2P Require Import Prelude Cards Dealer Straight Declare Search Found Hand.
From S2P Require Import Player Seat Desk Play Round Room Table Protocol.

(** ** Seats *)

(** Two states of a seat that differ in the chips of the round and in the win
    bit only. *)
Record same_seat (s s' : GameSeat) : Prop := mkSameSeat {
  same_player : m_player s' = m_player s;
  same_number : m_seat_number s' = m_seat_number s;
  same_ingame_id : m_ingame_player_id s' = m_ingame_player_id s;
  same_hand : m_handcards_total s' = m_handcards_total s;
  same_score : seat_score s' = seat_score s;
  same_card_score : m_card_score s' = m_card_score s;
  same_dig : m_dig_card s' = m_dig_card s;
  same_group : seat_card_group s' = seat_card_group s;
  same_seated : is_seated s' = is_seated s;
  same_ingame : is_in_game s' = is_in_game s;
  same_declared : is_declared s' = is_declared s;
  same_joined : is_player_joined s' = is_player_joined s;
  same_drop : is_drop s' = is_drop s
}.

Lemma same_seat_refl_win s :
  same_seat s (with_status (Z.lor (m_seat_stauts s) Status.win) s).
Proof. split; try done; seat_bits; done. Qed.

Lemma same_seat_account s f : same_seat s (s <| m_match_over_account_chips ::= f |>).
Proof. by split. Qed.

Lemma same_seat_trans s1 s2 s3 : same_seat s1 s2 -> same_seat s2 s3 -> same_seat s1 s3.
Proof. intros [] []. split; congruence. Qed.

Lemma same_seat_link s s' : same_seat s s' -> seat_link s s'.
Proof. intros []. split; congruence. Qed.

(** *** The status of a seat after each operation *)

(** What [lose_status] leaves. *)
Definition lost_status s : GameSeat :=
  with_status (Z.lor (Z.land (m_seat_stauts s) (Z.lnot Status.ingame)) Status.declared) s.

Lemma lose_status_ok room_id s : 0 <= room_id <= 7 -> lose_status room_id s = Ok (lost_status s).
Proof. apply seat_status_ok. Qed.

Lemma lost_status_bits s :
  is_seated (lost_status s) = is_seated s /\ is_in_game (lost_status s) = false /\
  is_declared (lost_status s) = true.
Proof. unfold lost_status. seat_bits. done. Qed.

Lemma ready_bits :
  has (Z.lor (Z.lor Status.seated Status.ingame) Status.cur_join) Status.seated = true /\
  has (Z.lor (Z.lor Status.seated Status.ingame) Status.cur_join) Status.ingame = true /\
  has (Z.lor (Z.lor Status.seated Status.ingame) Status.cur_join) Status.declared = false.
Proof. done. Qed.

(** ** The account of a seat *)

Section account.
Context {M : Type} `{MoneyService M}.

(** A loser's account is charged what the money server took, a winner's is
    credited the whole amount. *)
Lemma match_over_account_spec room_id buyin chips s p (m : M) :
  0 <= room_id <= 7 ->
  returns (match_over_account room_id buyin chips s p m) (fun r => let '(real, s', p', _) := r in
  same_seat s s' /\ m_player_id p' = m_player_id p /\ m_pGameSeat p' = m_pGameSeat p /\
  m_match_over_account_chips s' =
    m_match_over_account_chips s + (if chips <=? 0 then - real else real) /\
  (0 < chips -> real = chips)).
Proof.
  intros Hroom. unfold match_over_account. destruct (chips <=? 0) eqn:Hc.
  - unfold deal_loser_account. destruct (deal_lose_account _ _ _ _ _) as [[[[carry chips'] real]|] m'];
      apply returns_ret; (split_and!; [by split|done|done|simpl; lia|lia]).
  - rewrite seat_status_ok by done. cbn [mbind outcome_bind]. unfold send_match_over_account.
    assert (same_seat s (with_status (Z.lor (m_seat_stauts s) Status.win) s
                           <| m_match_over_account_chips ::= fun a => a + chips |>)) as Hs.
    { eapply same_seat_trans; [apply same_seat_refl_win|by split]. }
    destruct (_ - _ <=? 0); unfold get_user_money;
      destruct (get_money _ _) as [[[? ?]|] m']; apply returns_ret; split_and!; try done; simpl; lia.
Qed.
End account.

(** ** A loser's declaration *)

(** The seat of a loser who has declared, before the chips are taken. *)
Record lost (s s' : GameSeat) : Prop := mkLost {
  lost_player : m_player s' = m_player s;
  lost_number : m_seat_number s' = m_seat_number s;
  lost_hand : m_handcards_total s' ≡ₚ m_handcards_total s;
  lost_account : m_match_over_account_chips s' = m_match_over_account_chips s;
  lost_seated : is_seated s' = is_seated s;
  lost_joined : is_player_joined s' = is_player_joined s;
  lost_ingame : is_in_game s' = false;
  lost_declared : is_declared s' = true;
  lost_score : 1 <= seat_score s' <= 80
}.

Lemma lost_link s s' : lost s s' -> seat_link s s'.
Proof. intros []. split; congruence. Qed.

(** The player keeps his seat. *)
Definition same_place (p p' : Player) : Prop :=
  m_player_id p' = m_player_id p /\ m_pGameSeat p' = m_pGameSeat p.

Lemma declare_phase_place p : same_place p (declare_phase p).
Proof. unfold declare_phase, set_status, same_place. by case_match. Qed.

Lemma account_score_bounds score s :
  0 <= score -> 1 <= seat_score (account_score score s).2 <= 80.
Proof. intros. unfold account_score. repeat case_match; simpl; lia. Qed.

(** Both declarations end alike: the points, the groups and the status. *)
Lemma lost_intro score groups s s0 :
  m_player s0 = m_player s -> m_seat_number s0 = m_seat_number s ->
  m_handcards_total s0 ≡ₚ m_handcards_total s ->
  m_match_over_account_chips s0 = m_match_over_account_chips s ->
  m_seat_stauts s0 = m_seat_stauts s -> 0 <= score ->
  lost s (lost_status ((account_score score s0).2 <| seat_card_group := groups |>)).
Proof.
  intros Hp Hn Hh Ha Hst H0. pose proof (account_score_bounds score s0 H0) as Hs.
  unfold account_score in *.
  split; [..|repeat case_match; simpl in *; exact Hs].
  5-8: unfold lost_status; repeat case_match; seat_bits; simpl; rewrite ?Hst; done.
  all: repeat case_match; simpl; done.
Qed.

Lemma groups_in_deck v s groups :
  core v -> s ∈ v_seats v -> concat (m_cards <$> groups) ≡ₚ m_handcards_total s ->
  Forall card_points groups.
Proof.
  intros Hc Hs Hp. apply (hand_card_points (m_handcards_total s)); [|done].
  apply real_hand_of_deck; [by eapply hand_in_deck|].
  pose proof (core_sizes _ Hc s Hs) as Hz.
  change MAX_CARD_COUNT with 14%nat.
  repeat (apply elem_of_cons in Hz as [->|Hz]); [lia..|by apply elem_of_nil in Hz].
Qed.

Lemma seat_default_declare_returns v s p room_id jp :
  core v -> s ∈ v_seats v -> 0 <= room_id <= 7 ->
  returns (seat_default_declare room_id jp s p) (fun r =>
    lost s r.1.2 /\ same_place p r.2).
Proof.
  intros Hc Hs Hroom. unfold seat_default_declare.
  eapply returns_bind; [by apply (arrange_returns v)|]. intros [score groups] H0.
  destruct (account_score score s) as [score' s'] eqn:E. rewrite lose_status_ok by done.
  apply returns_ret. simpl.
  split; [|apply declare_phase_place].
  replace s' with (account_score score s).2 by by rewrite E. by apply lost_intro.
Qed.

(** A refused declaration only sorts the hand. *)
Lemma seat_check_lose_declare_returns v s p room_id jp cardgroup score :
  core v -> s ∈ v_seats v -> 0 <= room_id <= 7 ->
  returns (seat_check_lose_declare room_id jp cardgroup score s p) (fun r =>
    (if r.1.1.1 : bool then lost s r.1.2 else r.1.2 = s <| m_handcards_total ::= sort_cards |>) /\
    same_place p r.2).
Proof.
  intros Hc Hs Hroom. unfold seat_check_lose_declare.
  set (s0 := s <| m_handcards_total ::= sort_cards |>).
  destruct (bool_decide _) eqn:Eb; simpl; [|by apply returns_ret].
  apply bool_decide_eq_true in Eb.
  assert (concat (m_cards <$> ParseMsgGroup [] cardgroup) ≡ₚ m_handcards_total s) as Hp.
  { rewrite <- (sort_cards_perm (concat _)), Eb. simpl. apply sort_cards_perm. }
  destruct (check_lose_declare_spec (ParseMsgGroup [] cardgroup) jp) as (b & sc & -> & _ & Hscore);
    [by eapply groups_in_deck|].
  cbn [mbind outcome_bind]. destruct b; simpl; [|by apply returns_ret].
  rewrite (Hscore eq_refl). destruct (account_score _ s0) as [score' s'] eqn:E.
  rewrite lose_status_ok by done. apply returns_ret. simpl. split; [|apply declare_phase_place].
  replace s' with (account_score (loose_score jp (ParseMsgGroup [] cardgroup)) s0).2 by by rewrite E.
  apply lost_intro; try done; [apply sort_cards_perm|apply loose_score_nonneg].
Qed.

(** ** Sorting a hand *)

(** Two states of a seat that differ in the order of the hand only, as far as
    the invariant is concerned. *)
Record reordered (s s' : GameSeat) : Prop := mkReordered {
  re_player : m_player s' = m_player s;
  re_number : m_seat_number s' = m_seat_number s;
  re_hand : m_handcards_total s' ≡ₚ m_handcards_total s;
  re_account : m_match_over_account_chips s' = m_match_over_account_chips s;
  re_score : seat_score s' = seat_score s;
  re_dig : m_dig_card s' = m_dig_card s;
  re_seated : is_seated s' = is_seated s;
  re_joined : is_player_joined s' = is_player_joined s;
  re_ingame : is_in_game s' = is_in_game s;
  re_declared : is_declared s' = is_declared s;
  re_laid : laid_down s' = laid_down s;
  re_group : seat_card_group s' = seat_card_group s
}.

Lemma reordered_sort s : reordered s (s <| m_handcards_total ::= sort_cards |>).
Proof. split; try done. apply sort_cards_perm. Qed.

Section reorder.
Context (v : View) (i : nat) (s s' : GameSeat).
Hypotheses (Hi : v_seats v !! i = Some s) (Hr : reordered s s').
Let v' : View := v <| v_seats := <[i := s']> (v_seats v) |>.

Lemma reorder_lookup j t' :
  v_seats v' !! j = Some t' -> exists t, v_seats v !! j = Some t /\ reordered t t'.
Proof.
  intros Hj. apply list_lookup_insert_Some in Hj as [(-> & -> & _)|[_ Hj]]; [by exists s|].
  exists t'. split; [done|by split].
Qed.

Lemma reorder_lookup_r j t :
  v_seats v !! j = Some t -> exists t', v_seats v' !! j = Some t' /\ reordered t t'.
Proof.
  intros Hj. simpl. destruct (decide (i = j)) as [->|Hne].
  - exists s'. rewrite list_lookup_insert_eq by by eapply lookup_lt_Some.
    split; [done|]. by simplify_eq.
  - exists t. rewrite list_lookup_insert_ne by done. split; [done|by split].
Qed.

Lemma reorder_elem t' : t' ∈ v_seats v' -> exists t, t ∈ v_seats v /\ reordered t t'.
Proof.
  intros [j Hj]%list_elem_of_lookup. destruct (reorder_lookup j t' Hj) as (t & Ht & Hre).
  exists t. split; [by eapply list_elem_of_lookup_2|done].
Qed.

Lemma reorder_count : count_of is_in_game (v_seats v') = count_of is_in_game (v_seats v).
Proof.
  pose proof (count_of_insert is_in_game _ _ _ s' Hi) as Hc. rewrite (re_ingame _ _ Hr) in Hc.
  simpl. lia.
Qed.

Lemma reorder_core : core v -> core v'.
Proof.
  intros Hc. apply (core_insert v _ i s s'); try done.
  - destruct Hr. split; congruence.
  - apply Hc.
  - rewrite (table_cards_same v _ i s s'); try done. apply Hr.
  - rewrite (re_hand _ _ Hr). by apply (core_sizes _ Hc), (list_elem_of_lookup_2 _ i).
  - rewrite (re_score _ _ Hr). by apply (core_scores _ Hc), (list_elem_of_lookup_2 _ i).
Qed.

Lemma reorder_balanced : balanced v -> balanced v'.
Proof.
  intros Hb. pose proof (list_elem_of_lookup_2 _ _ _ Hi) as Hin.
  apply (balanced_insert v _ i s s'); try done; simpl; rewrite ?(re_account _ _ Hr); [lia|..].
  - rewrite (re_ingame _ _ Hr), (re_joined _ _ Hr). by apply Hb.
  - rewrite (re_joined _ _ Hr). by apply Hb.
Qed.

Lemma reorder_concealed : all_concealed (v_seats v) -> all_concealed (v_seats v').
Proof.
  intros Hall t' Ht'. destruct (reorder_elem t' Ht') as (t & Ht & Hre).
  apply (concealed_same t); [apply Hre..|by apply Hall].
Qed.

Lemma reorder_over : over v -> over v'.
Proof.
  intros [Hs Hb Hp Hc Ha Hact]. split; simpl; try done.
  intros t' Ht'. destruct (reorder_elem t' Ht') as (t & Ht & Hre).
  destruct (Hs t Ht) as (H1 & H2 & H3). rewrite (re_account _ _ Hre), (re_group _ _ Hre). split; [|done].
  apply Permutation_nil. by rewrite (re_hand _ _ Hre), H1.
Qed.

Lemma reorder_turns n : turns n v -> turns n v'.
Proof.
  intros [Ha Hc Hd Hh Hq]. split; [done|by rewrite reorder_count| | |by apply reorder_concealed].
  - intros j t' Ht' Hg. destruct (reorder_lookup j t' Ht') as (t & Ht & Hre).
    rewrite (re_declared _ _ Hre). rewrite (re_ingame _ _ Hre) in Hg. by apply (Hd j).
  - intros j t' Ht' Hg Hne. destruct (reorder_lookup j t' Ht') as (t & Ht & Hre).
    rewrite (re_hand _ _ Hre). rewrite (re_ingame _ _ Hre) in Hg. by apply (Hh j).
Qed.

Lemma reorder_plays n : plays n v -> plays n v'.
Proof.
  intros (j & t & -> & Ht & Hg). destruct (reorder_lookup_r j t Ht) as (t' & Ht' & Hre).
  exists j, t'. split_and!; [done..|]. by rewrite (re_ingame _ _ Hre).
Qed.

Lemma reorder_stocked : stocked v -> stocked v'.
Proof. unfold stocked. by rewrite reorder_count. Qed.

Lemma reorder_phase r : phase v r -> phase v' r.
Proof.
  intros [Ho|Ho|Ho|Ht Hs Ha Hp|Ht Hs Hp|Ht Hs Ha|j t Ht Ha Hj Hg Hl Hdig Hb Hn|j t Ha Hj Hg Hd Hc Ho Hq].
  - by apply phase_unready, reorder_over.
  - by apply phase_wait_playing, reorder_over.
  - by apply phase_distribute, reorder_over.
  - by apply phase_dealer; [apply reorder_turns|apply reorder_stocked|..|apply reorder_plays].
  - by apply phase_active1; [apply reorder_turns|apply reorder_stocked|apply reorder_plays].
  - by apply phase_shuffle; [apply reorder_turns|apply reorder_stocked|..].
  - destruct (reorder_lookup_r j t Hj) as (t' & Hj' & Hre).
    apply (phase_active2 _ j t'); try done; [by apply reorder_turns|by rewrite (re_ingame _ _ Hre)|..].
    + by rewrite (re_hand _ _ Hre).
    + by rewrite (re_hand _ _ Hre), (re_dig _ _ Hre).
    + by rewrite reorder_count.
  - destruct (reorder_lookup_r j t Hj) as (t' & Hj' & Hre).
    apply (phase_declare _ j t'); try done.
    + by rewrite (re_ingame _ _ Hre).
    + by rewrite (re_declared _ _ Hre).
    + by rewrite reorder_count.
    + intros k u' Hk Hgk Hne. destruct (reorder_lookup k u' Hk) as (u & Hu & Hreu).
      rewrite (re_declared _ _ Hreu). rewrite (re_ingame _ _ Hreu) in Hgk. by apply (Ho k).
    + by apply reorder_concealed.
Qed.

Lemma reorder_inv : inv v -> inv v'.
Proof.
  intros (Hc & Hb & r & Hst & Hph). split_and!; [by apply reorder_core|by apply reorder_balanced|].
  exists r. split; [done|by apply reorder_phase].
Qed.
End reorder.

Section settle.
Context {M G : Type} `{MoneyService M} `{RandGen G}.
Context (room : RoomInfo) `{!PrintableRoom room}.
Variables (iv : TimeInterval) (ROOM_IDLE : Z).
Abbreviation desk := (GameDesk M G).
Implicit Type d : desk.

(** *** Operations the view does not see *)

Lemma view_put_player uid p p' d :
  m_objects d !! uid = Some p -> m_player_id p' = m_player_id p -> m_pGameSeat p' = m_pGameSeat p ->
  view (put_player uid p' d) = view d.
Proof. intros. unfold view, put_player. simpl. by rewrite (links_same _ _ p). Qed.

Lemma view_put_seat i s d :
  view (put_seat i s d) = (view d) <| v_seats := <[i := s]> (m_seats d) |>.
Proof. done. Qed.

(** The player a linked seat points to. *)
Lemma player_of_seat d i s uid :
  linked (m_seats d) (links (m_objects d)) -> m_seats d !! i = Some s -> m_player s = Some uid ->
  exists p, m_objects d !! uid = Some p /\ m_player_id p = uid /\ m_pGameSeat p = Some i.
Proof.
  intros Hl Hi Hu. destruct (linked_seat _ _ Hl _ _ _ Hi Hu) as [_ Hlk].
  rewrite links_lookup in Hlk. destruct (m_objects d !! uid) as [p|]; [|done].
  injection Hlk as Hid Hseat. by exists p.
Qed.

Lemma seat_player_Ok d i s uid :
  linked (m_seats d) (links (m_objects d)) -> m_seats d !! i = Some s -> m_player s = Some uid ->
  exists p, seat_player s d = Ok (uid, p) /\ m_objects d !! uid = Some p /\
    m_player_id p = uid /\ m_pGameSeat p = Some i.
Proof.
  intros Hl Hi Hu. destruct (player_of_seat _ _ _ _ Hl Hi Hu) as (p & Hp & Hid & Hs).
  exists p. split_and!; [|done..]. unfold seat_player, get_seated_player, get_player.
  rewrite Hu. simpl. by rewrite Hp.
Qed.

(** The seat of a seated player. *)
Lemma seat_of_player d uid p i :
  linked (m_seats d) (links (m_objects d)) -> m_objects d !! uid = Some p ->
  m_pGameSeat p = Some i ->
  m_player_id p = uid /\ exists s, m_seats d !! i = Some s /\ m_player s = Some uid.
Proof.
  intros Hl Hp Hs. destruct (linked_player _ _ Hl uid (m_player_id p) (m_pGameSeat p)) as [Hid Ho].
  - by rewrite links_lookup, Hp.
  - split; [done|]. by apply Ho.
Qed.

Lemma set_player_phase_returns d uid ph :
  is_Some (m_objects d !! uid) ->
  returns (set_player_phase uid ph d) (fun d' =>
    view d' = view d /\ is_Some (m_objects d' !! uid)).
Proof.
  intros [p Hp]. unfold set_player_phase, get_player. rewrite Hp. simpl. apply returns_ret.
  split; [apply (view_put_player _ p); [done|unfold set_status; by case_match..]|].
  simpl. by rewrite lookup_insert_eq.
Qed.

(** A loop over the seats whose body the view does not see. *)
Lemma for_seats_returns (I : desk -> Prop) body d :
  I d -> (forall d', I d' -> length (m_seats d') = length (m_seats d)) ->
  (forall d' i s, I d' -> m_seats d' !! i = Some s -> returns (body d' i s) I) ->
  returns (for_seats body d) I.
Proof.
  intros Hd Hlen Hbody. unfold for_seats. apply returns_mfold; [done|].
  intros d' i Hi HI. apply elem_of_seq in Hi.
  destruct (lookup_lt_is_Some_2 (m_seats d') i) as [s Hs]; [rewrite (Hlen d' HI); lia|].
  rewrite Hs. simpl. by apply Hbody.
Qed.

(** The same with an invariant that says how far the loop has come. *)
Lemma for_seats_seq (I : nat -> desk -> Prop) body d n :
  length (m_seats d) = n -> I 0%nat d ->
  (forall k d', I k d' -> length (m_seats d') = n) ->
  (forall k d' s, (k < n)%nat -> I k d' -> m_seats d' !! k = Some s -> returns (body d' k s) (I (S k))) ->
  returns (for_seats body d) (I n).
Proof.
  intros Hn Hstart Hlen Hbody. unfold for_seats. rewrite Hn.
  assert (forall m k d', (k + m = n)%nat -> I k d' ->
            returns (mfold (fun d i => s ← access (m_seats d !! i); body d i s) d' (seq k m)) (I n)) as Hloop.
  { induction m as [|m IH]; intros k d' Hk HI; simpl.
    - apply returns_ret. by rewrite Nat.add_0_r in Hk; subst.
    - destruct (lookup_lt_is_Some_2 (m_seats d') k) as [s Hs]; [rewrite (Hlen k d' HI); lia|].
      apply (returns_bind _ _ (I (S k))).
      + rewrite Hs. cbn [access mbind outcome_bind]. apply Hbody; [lia|done..].
      + intros d'' HI'. apply IH; [lia|done]. }
  by apply Hloop.
Qed.

Lemma for_seats_quiet body d :
  (forall d' i s, view d' = view d -> m_seats d' !! i = Some s ->
     returns (body d' i s) (fun d'' => view d'' = view d)) ->
  returns (for_seats body d) (fun d' => view d' = view d).
Proof.
  intros Hbody. apply for_seats_returns; [done| |done].
  intros d' Hv. by injection Hv as ->.
Qed.

(** *** [match_over_account] through the desk *)

Lemma seat_account_returns d i s uid chips :
  linked (m_seats d) (links (m_objects d)) -> m_seats d !! i = Some s -> m_player s = Some uid ->
  returns (seat_account room i chips d) (fun r => exists s',
    view r.2 = (view d) <| v_seats := <[i := s']> (m_seats d) |> /\ same_seat s s' /\
    m_match_over_account_chips s' =
      m_match_over_account_chips s + (if chips <=? 0 then - r.1 else r.1) /\
    (0 < chips -> r.1 = chips)).
Proof.
  intros Hl Hi Hu. destruct (seat_player_Ok _ _ _ _ Hl Hi Hu) as (p & Hsp & Hp & Hid & Hs).
  unfold seat_account. rewrite Hi. cbn [access mbind outcome_bind]. rewrite Hsp.
  cbn [mbind outcome_bind].
  eapply returns_bind; [by apply match_over_account_spec|].
  intros [[[real s'] p'] money] (Hsame & Hid' & Hseat' & Hacc & Hreal). apply returns_ret. exists s'.
  split_and!; try done. unfold view. simpl. by rewrite (links_same _ _ p).
Qed.

Lemma current_chips_returns d i s :
  linked (m_seats d) (links (m_objects d)) -> m_seats d !! i = Some s ->
  returns (current_chips s d) (fun _ => True).
Proof.
  intros Hl Hi. unfold current_chips. destruct (is_seated s) eqn:Hs; [|by apply returns_ret].
  destruct (m_player s) as [uid|] eqn:Hu.
  - destruct (seat_player_Ok _ _ _ _ Hl Hi Hu) as (p & -> & _). by apply returns_ret.
  - by rewrite (proj1 (linked_empty _ _ Hl _ _ Hi Hu)) in Hs.
Qed.

(** *** The end of a game *)

(** What the loop over the seats changes: points and groups. *)
Record kept (s s' : GameSeat) : Prop := mkKept {
  kept_player : m_player s' = m_player s;
  kept_number : m_seat_number s' = m_seat_number s;
  kept_hand : m_handcards_total s' = m_handcards_total s;
  kept_seated : is_seated s' = is_seated s;
  kept_ingame : is_in_game s' = is_in_game s;
  kept_declared : is_declared s' = is_declared s;
  kept_joined : is_player_joined s' = is_player_joined s;
  kept_score : 0 <= seat_score s -> 0 <= seat_score s'
}.

#[local] Instance kept_refl : Reflexive kept.
Proof. intros s. by split. Qed.

#[local] Instance kept_trans : Transitive kept.
Proof. intros s1 s2 s3 [] []. split; try congruence; auto. Qed.

Lemma same_seat_kept s s' : same_seat s s' -> kept s s'.
Proof. intros []. split; congruence. Qed.

Lemma kept_all_insert seats0 seats i s s' :
  Forall2 kept seats0 seats -> seats !! i = Some s -> kept s s' ->
  Forall2 kept seats0 (<[i := s']> seats).
Proof.
  intros Hall Hi Hk. destruct (Forall2_lookup_r _ _ _ _ _ Hall Hi) as (s0 & Hi0 & Hk0).
  rewrite <- (list_insert_id seats0 i s0 Hi0). apply Forall2_insert; [done|]. by etrans.
Qed.

Lemma kept_linked seats seats' lk :
  Forall2 kept seats seats' -> linked seats lk -> linked seats' lk.
Proof.
  intros Hall [Hn He Hs Hp]. split.
  - intros i s' Hi. destruct (Forall2_lookup_r _ _ _ _ _ Hall Hi) as (s & Hi0 & []).
    rewrite kept_number0. by apply Hn.
  - intros i s' Hi Hpl. destruct (Forall2_lookup_r _ _ _ _ _ Hall Hi) as (s & Hi0 & []).
    rewrite kept_seated0, kept_ingame0. apply (He i); [done|congruence].
  - intros i s' uid Hi Hpl. destruct (Forall2_lookup_r _ _ _ _ _ Hall Hi) as (s & Hi0 & []).
    rewrite kept_seated0. apply (Hs i); [done|congruence].
  - intros uid id o Hl. destruct (Hp uid id o Hl) as [Hid Ho]. split; [done|].
    intros i Hi. destruct (Ho i Hi) as (s & Hi0 & Hpl).
    destruct (Forall2_lookup_l _ _ _ _ _ Hall Hi0) as (s' & Hi1 & []). exists s'. split; congruence.
Qed.

Lemma kept_elem seats seats' s' :
  Forall2 kept seats seats' -> s' ∈ seats' -> exists s, s ∈ seats /\ kept s s'.
Proof.
  intros Hall [i Hi]%list_elem_of_lookup.
  destruct (Forall2_lookup_r _ _ _ _ _ Hall Hi) as (s & Hi0 & Hk).
  exists s. split; [by eapply list_elem_of_lookup_2|done].
Qed.

Lemma kept_hands seats seats' :
  Forall2 kept seats seats' -> m_handcards_total <$> seats' = m_handcards_total <$> seats.
Proof.
  induction 1 as [|s s' l l' Hk _ IH]; [done|]. rewrite !fmap_cons, IH. f_equal. apply Hk.
Qed.

Lemma kept_players seats seats' :
  Forall2 kept seats seats' -> m_player <$> seats' = m_player <$> seats.
Proof.
  induction 1 as [|s s' l l' Hk _ IH]; [done|]. rewrite !fmap_cons, IH. f_equal. apply Hk.
Qed.

Lemma kept_core v seats' :
  core v -> Forall2 kept (v_seats v) seats' -> core (v <| v_seats := seats' |>).
Proof.
  intros [Hlen Hlk Hrm Hsh Hw Hc Hz Hsc] Hall. split; simpl; try done.
  - by rewrite <- (Forall2_length _ _ _ Hall).
  - by eapply kept_linked.
  - destruct Hrm as [Ho Hs]. split; [done|]. intros i s' uid Hi Hpl.
    destruct (Forall2_lookup_r _ _ _ _ _ Hall Hi) as (s & Hi0 & []). apply (Hs i s); [done|congruence].
  - unfold table_cards, hands in *. simpl. by rewrite (kept_hands _ _ Hall).
  - intros s' Hs'. destruct (kept_elem _ _ _ Hall Hs') as (s & Hin & []). rewrite kept_hand0. auto.
  - intros s' Hs'. destruct (kept_elem _ _ _ Hall Hs') as (s & Hin & []). auto.
Qed.

Lemma borning_over_returns v s jp :
  core v -> s ∈ v_seats v -> returns (borning_over jp s) (kept s).
Proof.
  intros Hc Hs. unfold borning_over, arrange. simpl.
  eapply returns_bind; [by apply (arrange_returns v)|]. intros [score groups] _.
  apply returns_ret. by split.
Qed.

Lemma over_seat_returns d0 seats0 req d i :
  core ((view d0) <| v_seats := seats0 |>) -> (i < length seats0)%nat ->
  (exists seats, view d = (view d0) <| v_seats := seats |> /\ Forall2 kept seats0 seats) ->
  returns (over_seat (req, d) i) (fun r =>
    exists seats, view r.2 = (view d0) <| v_seats := seats |> /\ Forall2 kept seats0 seats).
Proof.
  intros Hc Hi (seats & Hv & Hall).
  assert (m_seats d = seats) as Hseats by (injection Hv; congruence).
  assert (core (view d)) as Hcd by (rewrite Hv; exact (kept_core _ seats Hc Hall)).
  pose proof (core_linked _ Hcd) as Hl. simpl in Hl.
  destruct (lookup_lt_is_Some_2 (m_seats d) i) as [s Hs].
  { by rewrite Hseats, <- (Forall2_length _ _ _ Hall). }
  unfold over_seat. rewrite Hs. cbn [access mbind outcome_bind].
  assert (exists seats1, view d = (view d0) <| v_seats := seats1 |> /\ Forall2 kept seats0 seats1) as Hd
    by by exists seats.
  destruct (negb (is_player_joined s)); [by apply returns_ret|].
  destruct (m_seat_number s =? m_apply_declare_seatnum d).
  - eapply returns_bind; [by eapply current_chips_returns|]. intros chips _. by apply returns_ret.
  - eapply (returns_bind _ _ (kept s)).
    { destruct (_ =? -1); [|by apply returns_ret].
      apply (borning_over_returns (view d)); [done|]. by eapply list_elem_of_lookup_2. }
    intros s' Hk. eapply (returns_bind _ _ (fun _ => True)).
    { unfold current_chips. destruct (is_seated s') eqn:Hseated; [|by apply returns_ret].
      destruct Hk as [Hp _ _ Hse _ _ _ _].
      destruct (m_player s) as [uid|] eqn:Hu.
      - destruct (seat_player_Ok _ _ _ _ Hl Hs Hu) as (p & Hsp & _).
        unfold seat_player, get_seated_player in *. rewrite Hu in Hsp. rewrite Hp, Hsp. by apply returns_ret.
      - rewrite Hse in Hseated. by rewrite (proj1 (linked_empty _ _ Hl _ _ Hs Hu)) in Hseated. }
    intros chips _. apply returns_ret. cbn [snd]. exists (<[i := s']> seats). split.
    + by rewrite view_put_seat, Hv, Hseats.
    + subst seats. by eapply kept_all_insert.
Qed.

(** The seat [m_apply_declare_seatnum], if there is one, has a player. *)
Definition apply_seat (v : View) : Prop :=
  v_apply v = -1 \/
  exists i s uid, v_apply v = Z.of_nat i /\ v_seats v !! i = Some s /\ m_player s = Some uid.

Lemma kept_refl_all seats : Forall2 kept seats seats.
Proof. by apply Forall_Forall2_diag, Forall_true. Qed.

Lemma apply_range v : core v -> apply_seat v -> -1 <= v_apply v <= 4.
Proof.
  intros Hc [->|(i & s & uid & -> & Hi & _)]; [lia|].
  apply lookup_lt_Some in Hi. rewrite (core_seats _ Hc) in Hi. unfold m_max_seat_num in Hi. lia.
Qed.

Lemma winner_account_returns d :
  core (view d) -> apply_seat (view d) -> m_apply_declare_seatnum d <> -1 ->
  forall req,
  returns (let tips_persent := get_game_desk_tips room (m_chips_pool d) in
           let real_chips := m_chips_pool d - tips_persent in
           _ ← seat_at (m_apply_declare_seatnum d) d;
           '(real_chips, d) ← seat_account room (Z.to_nat (m_apply_declare_seatnum d)) real_chips d;
           s ← seat_at (m_apply_declare_seatnum d) d;
           mret (req <| o_winaccount := real_chips |> <| o_winnerid := m_ingame_player_id s |>
                     <| o_winnercardgroup := copy_group_to_msg (seat_card_group s) [] |>
                     <| o_winnerscore := m_card_score s |>, d))
    (fun r => exists seats, view r.2 = (view d) <| v_seats := seats |> /\ Forall2 kept (m_seats d) seats).
Proof.
  intros Hc [Ha|(i & s & uid & Ha & Hi & Hu)] Hne req; [done|]. simpl in Ha, Hi. cbn zeta.
  assert (forall d', m_apply_declare_seatnum d' = Z.of_nat i -> forall s', m_seats d' !! i = Some s' ->
    seat_at (m_apply_declare_seatnum d') d' = Ok s') as Hat.
  { intros d' Ha' s' Hs'. unfold seat_at. rewrite Ha'. destruct (0 <=? Z.of_nat i) eqn:E; [|lia].
    by rewrite Nat2Z.id, Hs'. }
  rewrite (Hat _ Ha _ Hi). cbn [mbind outcome_bind]. rewrite Ha, Nat2Z.id.
  eapply returns_bind; [apply (seat_account_returns d i s uid _ (core_linked _ Hc) Hi Hu)|].
  intros [real d'] (s' & Hv & Hsame & _). cbn [snd] in Hv.
  assert (m_apply_declare_seatnum d' = Z.of_nat i) as Ha' by (injection Hv; congruence).
  assert (m_seats d' = <[i := s']> (m_seats d)) as Hs' by by injection Hv as ->.
  rewrite (Hat _ Ha' s') by (rewrite Hs'; by rewrite list_lookup_insert_eq by by eapply lookup_lt_Some).
  cbn [mbind outcome_bind]. apply returns_ret. cbn [snd]. exists (<[i := s']> (m_seats d)).
  split; [done|]. eapply kept_all_insert; [apply kept_refl_all|done|by apply same_seat_kept].
Qed.

Lemma caculate_over_account_returns d :
  core (view d) -> apply_seat (view d) ->
  returns (caculate_over_account room d) (fun r => exists seats,
    view r.2 = (view d) <| v_winner := m_apply_declare_seatnum d |> <| v_seats := seats |> /\
    Forall2 kept (m_seats d) seats).
Proof.
  intros Hc Ha. unfold caculate_over_account. pose proof (apply_range _ Hc Ha) as Hr. simpl in Hr.
  set (d1 := d <| m_last_winner_seatnum := m_apply_declare_seatnum d |>).
  assert (core (view d1)) as Hc1 by by apply (core_same _ _ Hc).
  assert (apply_seat (view d1)) as Ha1 by done.
  eapply (returns_bind _ _ (fun r => exists seats,
    view r.2 = (view d1) <| v_seats := seats |> /\ Forall2 kept (m_seats d1) seats)).
  - destruct (m_apply_declare_seatnum d1 =? -1) eqn:E.
    + apply returns_ret. exists (m_seats d1). split; [done|apply kept_refl_all].
    + apply winner_account_returns; [done..|lia].
  - intros [req d2] (seats0 & Hv & Hk). cbn [snd] in Hv.
    pose proof (kept_core _ seats0 Hc1 Hk) as Hc2. rewrite <- Hv in Hc2.
    assert (m_seats d2 = seats0) as Hs2 by by injection Hv as ->.
    eapply returns_mono; [apply (returns_mfold (fun r => exists seats,
      view r.2 = (view d2) <| v_seats := seats |> /\ Forall2 kept (m_seats d2) seats))|].
    + exists (m_seats d2). split; [done|apply kept_refl_all].
    + intros [req' d'] i Hi Hd'. apply elem_of_seq in Hi.
      apply (over_seat_returns d2 (m_seats d2)); [done|lia|done].
    + intros [req' d'] (seats & Hv' & Hk'). cbn [snd] in *. exists seats. split.
      * by rewrite Hv', Hv.
      * rewrite Hs2 in Hk'. clear -Hk Hk'. change (m_seats d1) with (m_seats d) in Hk.
        revert Hk Hk'. apply transitivity.
Qed.

Lemma set_ingame_player_over_status_returns d :
  core (view d) ->
  returns (set_ingame_player_over_status d) (fun d' => view d' = view d).
Proof.
  intros Hc. apply for_seats_quiet. intros d' i s Hv Hi.
  destruct (is_seated s) eqn:Hs; simpl; [|by apply returns_ret].
  assert (linked (m_seats d') (links (m_objects d'))) as Hl.
  { change (linked (v_seats (view d')) (v_links (view d'))). rewrite Hv. apply Hc. }
  destruct (m_player s) as [uid|] eqn:Hu.
  - destruct (seat_player_Ok _ _ _ _ Hl Hi Hu) as (p & -> & Hp & _). cbn [mbind outcome_bind].
    destruct (_ && _); [|by apply returns_ret].
    eapply returns_mono; [apply set_player_phase_returns; by rewrite Hp|].
    intros d'' [Hv' _]. by rewrite Hv'.
  - by rewrite (proj1 (linked_empty _ _ Hl _ _ Hi Hu)) in Hs.
Qed.

Lemma set_player_matchover_status_returns d :
  core (view d) ->
  returns (set_player_matchover_status d) (fun d' => view d' = view d).
Proof.
  intros Hc. apply for_seats_quiet. intros d' i s Hv Hi.
  destruct (is_seated s) eqn:Hs; simpl; [|by apply returns_ret].
  destruct (is_player_joined s); [|by apply returns_ret].
  assert (linked (m_seats d') (links (m_objects d'))) as Hl.
  { change (linked (v_seats (view d')) (v_links (view d'))). rewrite Hv. apply Hc. }
  destruct (m_player s) as [uid|] eqn:Hu.
  - destruct (player_of_seat _ _ _ _ Hl Hi Hu) as (p & Hp & _).
    unfold get_seated_player. rewrite Hu. cbn [deref mbind outcome_bind].
    eapply returns_mono; [apply set_player_phase_returns; by rewrite Hp|].
    intros d'' [Hv' _]. by rewrite Hv'.
  - by rewrite (proj1 (linked_empty _ _ Hl _ _ Hi Hu)) in Hs.
Qed.

(** Readying the desk for the next game. *)
Lemma clear_seats seats :
  hands (reset_seat <$> seats) = [] /\
  sum_of m_match_over_account_chips (reset_seat <$> seats) = 0.
Proof. induction seats as [|s seats [IH1 IH2]]; [done|]. split; [exact IH1|exact IH2]. Qed.

Lemma reset_linked seats lk : linked seats lk -> linked (reset_seat <$> seats) lk.
Proof.
  intros [Hn He Hs Hp]. split.
  - intros i s' (s & -> & Hi)%list_lookup_fmap_Some. exact (Hn i s Hi).
  - intros i s' (s & -> & Hi)%list_lookup_fmap_Some. exact (He i s Hi).
  - intros i s' uid (s & -> & Hi)%list_lookup_fmap_Some. exact (Hs i s uid Hi).
  - intros uid id o Hl. destruct (Hp uid id o Hl) as [Hid Ho]. split; [done|].
    intros i Hi. destruct (Ho i Hi) as (s & Hs' & Hpl). exists (reset_seat s).
    by rewrite list_lookup_fmap, Hs'.
Qed.

Lemma clear_desk_inv d :
  core (view d) -> (forall s, s ∈ m_seats d -> is_in_game s = true -> is_player_joined s = true) ->
  core (view (clear_desk d)) /\ balanced (view (clear_desk d)) /\
  over (view (clear_desk d)).
Proof.
  intros [Hlen Hlk Hrm Hsh Hw Hc Hz Hsc] Hj. destruct (clear_seats (m_seats d)) as [Hh Ha].
  assert (forall s', s' ∈ reset_seat <$> m_seats d -> exists s, s ∈ m_seats d /\ s' = reset_seat s) as Hin.
  { intros s' (s & -> & Hs)%list_elem_of_fmap. by exists s. }
  split_and!.
  - split; simpl; try done.
    + by rewrite length_fmap.
    + by apply reset_linked.
    + destruct Hrm as [Ho Hs]. split; [done|]. intros i s' uid Hi.
      apply list_lookup_fmap_Some in Hi as (s & -> & Hi). exact (Hs i s uid Hi).
    + unfold table_cards. simpl. rewrite Hh. apply submseteq_nil_l.
    + intros s' (s & _ & ->)%Hin. simpl. left.
    + intros s' (s & Hs & ->)%Hin. exact (Hsc s Hs).
  - split; simpl; [lia|..].
    + intros s' (s & Hs & ->)%Hin Hg. split; [by apply (Hj s Hs)|done].
    + by intros s' (s & Hs & ->)%Hin.
  - split; simpl; try done. by intros s' (s & _ & ->)%Hin.
Qed.

Definition statused (v : View) : Prop := exists round, in_round round (v_status v) /\ round ∈ rounds.

Lemma wait_for_round_view round ms d :
  statused (view d) ->
  view (wait_for_round round ms d) = (view d) <| v_status := Z.lor GAME_WAIT_MASK round |>.
Proof.
  intros (r & Hr & Hin). unfold view, wait_for_round, set_game_status. simpl.
  by rewrite (in_round_next r).
Qed.

(** [step_gameover_distrbute] returns from every well-formed table, leaves it
    between games, and moves no player. *)
Lemma step_gameover_distrbute_returns d :
  core (view d) -> balanced (view d) -> apply_seat (view d) -> statused (view d) ->
  returns (step_gameover_distrbute room iv d) (fun d' =>
    core (view d') /\ balanced (view d') /\ over (view d') /\
    m_game_status d' = Z.lor GAME_WAIT_MASK GAME_DISTRIBUTE /\
    exists seats, Forall2 kept (m_seats d) seats /\ m_seats d' = reset_seat <$> seats).
Proof.
  intros Hc Hb Ha Hst. unfold step_gameover_distrbute. pose proof (apply_range _ Hc Ha) as Hr.
  eapply returns_bind; [by apply caculate_over_account_returns|].
  intros [req d1] (seats & Hv & Hk). cbn [snd] in Hv.
  match goal with |- returns (set_ingame_player_over_status ?x ≫= _) _ => set (d2 := x) end.
  assert (view d2 = (view d1) <| v_status := Z.lor GAME_WAIT_MASK GAME_DISTRIBUTE |>) as Hv2.
  { unfold d2. rewrite wait_for_round_view; [done|]. change (statused (view d1)). by rewrite Hv. }
  assert (core (view d1)) as Hc1.
  { rewrite Hv. apply (kept_core ((view d) <| v_winner := m_apply_declare_seatnum d |>)); [|done].
    by apply (core_same _ _ Hc). }
  assert (core (view d2)) as Hc2 by (rewrite Hv2; apply (core_same _ _ Hc1); try done; apply Hc1).
  eapply returns_bind; [by apply set_ingame_player_over_status_returns|].
  intros d3 Hv3. apply returns_ret. rewrite <- Hv3 in Hc2.
  assert (m_seats d3 = seats) as Hs3.
  { change (v_seats (view d3) = seats). by rewrite Hv3, Hv2, Hv. }
  destruct (clear_desk_inv d3 Hc2) as (H1 & H2 & H3).
  { intros s' Hs' Hg. rewrite Hs3 in Hs'. destruct (kept_elem _ _ _ Hk Hs') as (s & Hs & Hks).
    rewrite (kept_joined _ _ Hks). apply (bal_ingame _ Hb s Hs). by rewrite <- (kept_ingame _ _ Hks). }
  split_and!; [done..| |].
  - change (v_status (view d3) = Z.lor GAME_WAIT_MASK GAME_DISTRIBUTE). by rewrite Hv3, Hv2.
  - exists seats. split; [done|]. simpl. by rewrite Hs3.
Qed.

(** *** The losers of a declaration *)

(** Seat [a] has declared; nobody else in the game has. *)
Record declarer (a : nat) (v : View) : Prop := mkDeclarer {
  declarer_apply : v_apply v = Z.of_nat a;
  declarer_seat : exists s, v_seats v !! a = Some s /\ is_in_game s = true /\ is_declared s = true;
  declarer_others : forall j t, v_seats v !! j = Some t -> is_in_game t = true -> j <> a ->
    is_declared t = false;
  declarer_concealed : all_concealed (v_seats v)
}.

(** Waiting for the losers. *)
Definition declaring (a : nat) (d : desk) : Prop :=
  core (view d) /\ balanced (view d) /\ in_round GAME_DECLARE (m_game_status d) /\
  declarer a (view d).

(** The game is over, and nobody is left who could be asked to declare. *)
Definition all_declared (d : desk) : Prop :=
  core (view d) /\ balanced (view d) /\ over (view d) /\
  in_round GAME_DISTRIBUTE (m_game_status d) /\
  forall j t, m_seats d !! j = Some t -> is_in_game t = true -> is_declared t = true.

(** Two or more players are left, or the game is over. *)
Definition settled (a : nat) (d : desk) : Prop :=
  (declaring a d /\ (2 <= count_of is_in_game (m_seats d))%nat) \/ all_declared d.

Lemma settled_inv a d : settled a d -> inv (view d).
Proof.
  intros [[(Hc & Hb & Hr & [Ha (s & Hs & Hg & Hd) Ho Hq]) Hn]|(Hc & Hb & Ho & Hr & _)].
  - split_and!; [done..|]. exists GAME_DECLARE. split; [done|]. by eapply phase_declare.
  - split_and!; [done..|]. exists GAME_DISTRIBUTE. split; [done|]. by apply phase_distribute.
Qed.

(** What a spectator sees of the declaration round and of the end of the game. *)
Lemma declaring_spectate a d :
  declaring a d ->
  spectate (view d) = Playing GAME_DECLARE (m_active_seatnum d) (Z.of_nat a) (is_in_game <$> m_seats d).
Proof.
  intros (_ & _ & Hr & [Ha _ _]). rewrite (spectate_round _ GAME_DECLARE); [|done|by_decision|].
  - by rewrite Ha.
  - apply (bool_decide_eq_false_1 _). reflexivity.
Qed.

Lemma all_declared_spectate d : all_declared d -> spectate (view d) = Idle.
Proof. intros (_ & _ & _ & Hr & _). apply (spectate_over _ GAME_DISTRIBUTE); [done|by_decision]. Qed.

(** A loser is out of the game, or it is over. *)
Lemma declaring_follows a i s s' d d' :
  declaring a d -> m_seats d !! i = Some s -> is_in_game s = true -> i <> a ->
  (declaring a d' /\ (2 <= count_of is_in_game (m_seats d'))%nat /\
   m_seats d' = <[i := s']> (m_seats d) /\ is_in_game s' = false /\
   m_active_seatnum d' = m_active_seatnum d) \/ all_declared d' ->
  follows (spectate (view d)) (spectate (view d')).
Proof.
  intros Hd Hi Hg Hne [(Hd' & Hn & Hs & Hg' & Ha)|Hall].
  - rewrite (declaring_spectate a d), (declaring_spectate a d'), Ha by done. right.
    rewrite <- in_play_count in Hn. rewrite Hs, list_fmap_insert, Hg' in Hn |- *.
    apply proto_lose; [|lia|done]. by rewrite list_lookup_fmap, Hi; simpl; rewrite Hg.
  - rewrite (all_declared_spectate d') by done. auto.
Qed.

Lemma get_ingame_count_of d : get_ingame_count d = Z.of_nat (count_of is_in_game (m_seats d)).
Proof. done. Qed.

Lemma declaring_apply a d : declaring a d -> apply_seat (view d).
Proof.
  intros (Hc & _ & _ & [Ha (s & Hs & Hg & _) _]). right.
  destruct (m_player s) as [uid|] eqn:Hu; [by exists a, s, uid|].
  by rewrite (proj2 (linked_empty _ _ (core_linked _ Hc) _ _ Hs Hu)) in Hg.
Qed.

(** The test that ends the game. *)
Lemma after_loser_returns a d :
  declaring a d ->
  returns (if get_ingame_count d =? 1 then step_gameover_distrbute room iv d else mret d)
    (fun d' => (d' = d /\ (2 <= count_of is_in_game (m_seats d))%nat) \/
               (all_declared d' /\ m_player <$> m_seats d' = m_player <$> m_seats d)).
Proof.
  intros Hd. pose proof Hd as (Hc & Hb & Hr & [Ha (s & Hs & Hg & Hdec) Ho]).
  rewrite get_ingame_count_of.
  pose proof (count_of_elem is_in_game _ _ _ Hs Hg) as H1. simpl in H1, Hs.
  destruct (_ =? 1) eqn:E.
  - eapply returns_mono; [apply step_gameover_distrbute_returns|].
    + done.
    + done.
    + by eapply declaring_apply.
    + exists GAME_DECLARE. split; [done|]. unfold rounds. set_solver.
    + intros d' (Hc' & Hb' & Ho' & Hst & seats & Hk & Hseats). right.
      split; [|by rewrite Hseats, <- list_fmap_compose, <- (kept_players _ _ Hk)].
      split_and!; [done..|by right|]. intros j t Hj Htg. rewrite Hseats in Hj.
      apply list_lookup_fmap_Some in Hj as (t1 & -> & Hj).
      destruct (Forall2_lookup_r _ _ _ _ _ Hk Hj) as (t0 & Hj0 & [_ _ _ _ Hig Hdc _ _]).
      change (is_in_game t1 = true) in Htg. change (is_declared t1 = true). rewrite Hdc.
      rewrite Hig in Htg.
      assert (j = a) as -> by (by eapply (count_of_one is_in_game (m_seats d)); [lia|..]).
      congruence.
  - apply returns_ret. left. split; [done|]. lia.
Qed.

(** The seat of a loser is settled: the points, then the chips. *)
Lemma declaring_paid a d i s s1 s2 real d' :
  declaring a d -> m_seats d !! i = Some s -> is_in_game s = true -> i <> a ->
  lost s s1 -> same_seat s1 s2 ->
  m_match_over_account_chips s2 = m_match_over_account_chips s1 - real ->
  view d' = (view d) <| v_seats := <[i := s2]> (m_seats d) |> <| v_chips := real + m_chips_pool d |> ->
  declaring a d'.
Proof.
  intros (Hc & Hb & Hr & [Ha (t & Ht & Hg & Hdec) Ho Hq]) Hi Hgs Hne Hl Hs2 Hacc Hv.
  assert (seat_link s s2) as Hlink.
  { destruct (lost_link _ _ Hl), (same_seat_link _ _ Hs2). split; first [congruence | auto]. }
  unfold declaring. change (m_game_status d') with (v_status (view d')). rewrite Hv.
  split_and!; [| |done|].
  - apply (core_insert (view d) _ i s s2); try done.
    + apply Hc.
    + rewrite (table_cards_same (view d) _ i s s2); try done.
      rewrite (same_hand _ _ Hs2). apply Hl.
    + pose proof (core_sizes _ Hc s (list_elem_of_lookup_2 _ _ _ Hi)) as Hz.
      rewrite (same_hand _ _ Hs2), (lost_hand _ _ Hl). exact Hz.
    + rewrite (same_score _ _ Hs2). pose proof (lost_score _ _ Hl). lia.
  - apply (balanced_insert (view d) _ i s s2); try done; simpl.
    + rewrite Hacc, (lost_account _ _ Hl). lia.
    + rewrite (same_ingame _ _ Hs2), (lost_ingame _ _ Hl). done.
    + rewrite (same_joined _ _ Hs2), (lost_joined _ _ Hl).
      by rewrite (proj1 (bal_ingame _ Hb s (list_elem_of_lookup_2 _ _ _ Hi) Hgs)).
  - split; simpl; [done| | |].
    + exists t. by rewrite list_lookup_insert_ne by done.
    + intros j u Hj Hu Hja. apply list_lookup_insert_Some in Hj as [(-> & -> & _)|[_ Hj]].
      * rewrite (same_ingame _ _ Hs2), (lost_ingame _ _ Hl) in Hu. done.
      * by apply (Ho j).
    + apply all_concealed_insert; [done|]. apply declared_concealed.
      by rewrite (same_declared _ _ Hs2), (lost_declared _ _ Hl).
Qed.

Lemma inv_declaring d :
  inv (view d) -> is_declareing d = true ->
  exists a, declaring a d /\ (2 <= count_of is_in_game (m_seats d))%nat.
Proof.
  intros (Hc & Hb & r & Hr & Hph) Hd. unfold is_declareing in Hd.
  rewrite (in_round_cases r) in Hd; [|done|by eapply phase_round|by_decision].
  apply bool_decide_eq_true in Hd. subst r.
  inversion Hph as [| | | | | | |i s Ha Hi Hg Hdec Hn Ho Hq].
  exists i. split; [|done]. split_and!; [done..|]. split; [done|by exists s|done|done].
Qed.

Hypothesis small_blind_nonneg : 0 <= m_small_blind room.

Lemma default_decalre_returns a d i s uid :
  declaring a d -> m_seats d !! i = Some s -> is_in_game s = true -> m_player s = Some uid ->
  i <> a ->
  returns (default_decalre room iv uid d) (fun d' =>
    m_player <$> m_seats d' = m_player <$> m_seats d /\
    ((declaring a d' /\ (2 <= count_of is_in_game (m_seats d'))%nat /\
      exists s', m_seats d' = <[i := s']> (m_seats d) /\ is_in_game s' = false /\
        m_active_seatnum d' = m_active_seatnum d) \/
     all_declared d')).
Proof.
  intros Hd Hi Hgs Hu Hne. pose proof Hd as (Hc & _ & _ & _). pose proof (core_linked _ Hc) as Hl.
  destruct (seat_player_Ok _ _ _ _ Hl Hi Hu) as (p & Hsp & Hp & Hid & Hseat).
  unfold default_decalre. unfold get_player at 1. rewrite Hp. cbn [deref mbind outcome_bind].
  unfold player_seat. rewrite Hseat. cbn [deref mbind outcome_bind]. rewrite Hi.
  cbn [access mbind outcome_bind mret outcome_ret]. rewrite Hsp. cbn [mbind outcome_bind].
  eapply returns_bind;
    [apply (seat_default_declare_returns (view d)); [done|by eapply list_elem_of_lookup_2|auto]|].
  intros [[[score cg] s1] p1] [Hlost [Hid1 Hseat1]]. cbn [fst snd] in *.
  set (d1 := put_player uid p1 (put_seat i s1 d)).
  assert (view d1 = (view d) <| v_seats := <[i := s1]> (m_seats d) |>) as Hv1.
  { unfold d1. by rewrite (view_put_player uid p). }
  assert (linked (m_seats d1) (links (m_objects d1))) as Hl1.
  { change (linked (v_seats (view d1)) (v_links (view d1))). rewrite Hv1.
    by apply (linked_insert _ _ i s); [..|apply lost_link]. }
  assert (m_seats d1 !! i = Some s1) as Hi1.
  { by apply list_lookup_insert_eq; eapply lookup_lt_Some. }
  eapply (returns_bind _ _ (fun r => declaring a r.2 /\
    exists s', m_seats r.2 = <[i := s']> (m_seats d) /\ is_in_game s' = false /\
      m_player s' = m_player s /\ m_active_seatnum r.2 = m_active_seatnum d)).
  - unfold lose_account. eapply returns_bind; [exact (seat_account_returns d1 i s1 uid _ Hl1 Hi1 (eq_trans (lost_player _ _ Hlost) Hu))|].
    intros [real d2] (s2 & Hv2 & Hs2 & Hacc & _). apply returns_ret. cbn [fst snd] in *.
    pose proof (lost_score _ _ Hlost). destruct (_ <=? 0) eqn:E in Hacc; [|lia].
    assert (view (d2 <| m_chips_pool ::= Z.add real |>) =
      (view d) <| v_seats := <[i := s2]> (m_seats d) |> <| v_chips := real + m_chips_pool d |>) as Hv3.
    { change (view (d2 <| m_chips_pool ::= Z.add real |>)) with ((view d2) <| v_chips ::= Z.add real |>).
      rewrite Hv2, Hv1. unfold d1. simpl. by rewrite list_insert_insert_eq. }
    split; [by apply (declaring_paid a d i s s1 s2 real)|]. exists s2. split.
    + by injection Hv3.
    + rewrite (same_ingame _ _ Hs2), (same_player _ _ Hs2). split_and!; [apply Hlost..|].
      change (v_active (view (d2 <| m_chips_pool ::= Z.add real |>)) = m_active_seatnum d). by rewrite Hv3.
  - intros [real d3] [Hd3 (s3 & Hs3 & Hg3 & Hp3 & Ha3)]. cbn [snd] in Hd3, Hs3.
    assert (m_player <$> m_seats d3 = m_player <$> m_seats d) as Hpl.
    { rewrite Hs3, list_fmap_insert, Hp3. apply list_insert_id. by rewrite list_lookup_fmap, Hi. }
    eapply returns_mono; [by apply (after_loser_returns a)|].
    intros d4 [[-> Hn]|[Hover Hpl']]; (split; [by etrans|]); [left|by right].
    split_and!; [done..|by exists s3].
Qed.

(** *** Requests of the losers, and their time-out *)

(** The declarer himself must not declare a loss (see the findings). *)
Lemma player_lose_declare_returns d uid cardgroup :
  inv (view d) -> is_Some (m_objects d !! uid) ->
  (forall p, is_declareing d = true -> m_objects d !! uid = Some p ->
     get_seat_number p <> m_apply_declare_seatnum d) ->
  returns (player_lose_declare room iv uid cardgroup d) (fun d' =>
    inv (view d') /\ follows (spectate (view d)) (spectate (view d'))).
Proof.
  intros Hinv [p Hp] Hlegal. pose proof Hinv as (Hc & _). pose proof (core_linked _ Hc) as Hl.
  unfold player_lose_declare, get_player. rewrite Hp. cbn [deref mbind outcome_bind].
  unfold is_seated_player, player_seat. destruct (m_pGameSeat p) as [i|] eqn:Hseat;
    [|by apply returns_ret].
  rewrite bool_decide_eq_true_2 by done. cbn [negb].
  destruct (seat_of_player _ _ _ _ Hl Hp Hseat) as (Hid & s & Hi & Hu).
  cbn [deref mbind outcome_bind]. rewrite Hi. cbn [access mbind outcome_bind mret outcome_ret].
  destruct (is_in_game s) eqn:Hg; [|by apply returns_ret]. cbn [negb orb].
  destruct (is_declareing d) eqn:Hdec; [|by apply returns_ret]. cbn [negb].
  destruct (inv_declaring d Hinv Hdec) as (a & Hd & Hn).
  assert (i <> a) as Hne.
  { pose proof Hd as (_ & _ & _ & [Ha _ _]). specialize (Hlegal p eq_refl Hp).
    unfold get_seat_number in Hlegal. rewrite Hseat in Hlegal. simpl in Ha. lia. }
  destruct (seat_player_Ok _ _ _ _ Hl Hi Hu) as (q & Hsp & Hq & _). rewrite Hsp.
  assert (q = p) as -> by congruence. cbn [mbind outcome_bind].
  eapply returns_bind;
    [apply (seat_check_lose_declare_returns (view d)); [done|by eapply list_elem_of_lookup_2|auto]|].
  intros [[[b score] s1] p1] [Hs1 [Hid1 Hseat1]]. cbn [fst snd] in *.
  set (d1 := put_player uid p1 (put_seat i s1 d)).
  assert (view d1 = (view d) <| v_seats := <[i := s1]> (m_seats d) |>) as Hv1.
  { unfold d1. by rewrite (view_put_player uid p). }
  destruct b; cbn [negb].
  - assert (linked (m_seats d1) (links (m_objects d1))) as Hl1.
    { change (linked (v_seats (view d1)) (v_links (view d1))). rewrite Hv1.
      by apply (linked_insert _ _ i s); [..|apply lost_link]. }
    assert (m_seats d1 !! i = Some s1) as Hi1.
    { by apply list_lookup_insert_eq; eapply lookup_lt_Some. }
    eapply returns_bind;
      [exact (seat_account_returns (reply GG_ERROR_SUCCESS d1) i s1 uid _ Hl1 Hi1
                (eq_trans (lost_player _ _ Hs1) Hu))|].
    intros [real d2] (s2 & Hv2 & Hs2 & Hacc & _). cbn [fst snd] in *.
    pose proof (lost_score _ _ Hs1). destruct (_ <=? 0) eqn:E in Hacc; [|lia].
    match goal with |- returns (if get_ingame_count ?x =? 1 then _ else _) _ => set (d3 := x) end.
    assert (view d3 = (view d) <| v_seats := <[i := s2]> (m_seats d) |> <| v_chips := real + m_chips_pool d |>) as Hv3.
    { change ((view d2) <| v_chips ::= Z.add real |> =
        (view d) <| v_seats := <[i := s2]> (m_seats d) |> <| v_chips := real + m_chips_pool d |>).
      rewrite Hv2. change (view (reply GG_ERROR_SUCCESS d1)) with (view d1). rewrite Hv1.
      unfold d1. simpl. by rewrite list_insert_insert_eq. }
    assert (declaring a d3) as Hd3 by by apply (declaring_paid a d i s s1 s2 real).
    eapply returns_mono; [by apply (after_loser_returns a)|].
    intros d4 Hd4. split.
    + destruct Hd4 as [[-> Hn4]|[Hover _]]; apply (settled_inv a); [by left|by right].
    + apply (declaring_follows a i s s2); try done. destruct Hd4 as [[-> Hn4]|[Hover _]]; [left|by right].
      split_and!; [done|done|by injection Hv3| |].
      * rewrite (same_ingame _ _ Hs2). apply Hs1.
      * change (v_active (view d3) = m_active_seatnum d). by rewrite Hv3.
  - apply returns_ret. change (view (reply _ d1)) with (view d1). rewrite Hv1, Hs1. split.
    + by apply (reorder_inv (view d) i s); [|apply reordered_sort|].
    + left. apply spectate_same; [done..|]. by apply (players_insert_same _ i s).
Qed.

(** One step of the time-out: the seats before [k] are out of the game. *)
Definition timed_out (a n k : nat) (d : desk) : Prop :=
  length (m_seats d) = n /\
  (all_declared d \/
   (declaring a d /\ (2 <= count_of is_in_game (m_seats d))%nat /\
    forall j t, m_seats d !! j = Some t -> is_in_game t = true -> (j < k)%nat -> j = a)).

Lemma all_declared_length d : all_declared d -> length (m_seats d) = m_max_seat_num.
Proof. intros [Hc _]. exact (core_seats _ Hc). Qed.

Lemma timeout_body_returns a k d s :
  timed_out a m_max_seat_num k d -> m_seats d !! k = Some s ->
  returns (if is_seated s && is_in_game s && negb (is_declared s)
           then uid ← get_seated_player s; default_decalre room iv uid d
           else mret d) (timed_out a m_max_seat_num (S k)).
Proof.
  intros [Hlen HJ] Hs. destruct HJ as [Hover|(Hd & Hn & Hj)].
  { assert (is_in_game s && negb (is_declared s) = false) as Hf.
    { destruct (is_in_game s) eqn:Hg; [|done]. destruct Hover as (_ & _ & _ & _ & Hall).
      by rewrite (Hall k s). }
    rewrite <- andb_assoc, Hf, andb_false_r. apply returns_ret. split; [done|by left]. }
  pose proof Hd as (Hc & _ & _ & [_ (t & Ht & Htg & Htd) Hothers]).
  pose proof (core_linked _ Hc) as Hl.
  destruct (is_seated s && is_in_game s && negb (is_declared s)) eqn:Hcond.
  - assert (is_seated s = true /\ is_in_game s = true /\ is_declared s = false) as (Hst & Hg & Hdec).
    { by destruct (is_seated s), (is_in_game s), (is_declared s). }
    destruct (m_player s) as [uid|] eqn:Hu;
      [|by rewrite (proj1 (linked_empty _ _ Hl _ _ Hs Hu)) in Hst].
    unfold get_seated_player. rewrite Hu. cbn [deref mbind outcome_bind].
    assert (k <> a) as Hne by (intros ->; simpl in Ht; congruence).
    eapply returns_mono; [by apply (default_decalre_returns a d k s uid)|].
    intros d' [_ [(Hd' & Hn' & s' & Hs' & Hg' & _)|Hover]].
    + split; [by rewrite Hs', length_insert|]. right. split_and!; [done..|].
      intros j u Hju Hug Hlt. rewrite Hs' in Hju.
      apply list_lookup_insert_Some in Hju as [(-> & -> & _)|[Hjk Hju]]; [congruence|].
      apply (Hj j u); [done..|lia].
    + split; [by apply all_declared_length|by left].
  - apply returns_ret. split; [done|]. right. split_and!; [done..|].
    intros j u Hju Hug Hlt. destruct (decide (j = k)) as [->|Hjk]; [|apply (Hj j u); [done..|lia]].
    assert (u = s) as -> by congruence. rewrite Hug in Hcond.
    destruct (decide (k = a)) as [|Hka]; [done|]. rewrite (Hothers k s Hs Hug Hka) in Hcond.
    destruct (m_player s) as [uid|] eqn:Hu.
    + by rewrite (proj1 (linked_seat _ _ Hl _ _ _ Hs Hu)) in Hcond.
    + by rewrite (proj2 (linked_empty _ _ Hl _ _ Hs Hu)) in Hug.
Qed.

(** The time-out: every loser who has not answered declares by default, and
    the game ends. *)
Lemma step_declare_timeout_returns a d :
  declaring a d -> (2 <= count_of is_in_game (m_seats d))%nat ->
  returns (step_declare_timeout room iv d) all_declared.
Proof.
  intros Hd Hn. unfold step_declare_timeout.
  assert (length (m_seats d) = m_max_seat_num) as Hlen by (destruct Hd as [Hc _]; exact (core_seats _ Hc)).
  eapply returns_mono; [apply (for_seats_seq (timed_out a m_max_seat_num) _ d m_max_seat_num Hlen)|].
  - split; [done|]. right. split_and!; [done..|]. lia.
  - by intros k d' [Hlen' _].
  - intros k d' s _ Hd' Hs. by apply timeout_body_returns.
  - intros d' [Hlen' [Hover|(Hd' & Hn' & Hj)]]; [done|]. exfalso.
    destruct (count_of_other is_in_game (m_seats d') a Hn') as (j & t & Hne & Ht & Hg).
    apply Hne, (Hj j t); [done..|]. apply lookup_lt_Some in Ht. simpl. lia.
Qed.
End settle.
