(* ===== verification/Seating.v ===== *)
(** * Coming and going

    Standing up, sitting down and the steps between two games keep the table
    invariant and run without a fault. *)
From Stdlib Require Import ZArith Lia String.
From stdpp Require Import base tactics numbers sorting option gmap strings sets list.
From S2P Require Import Prelude Cards Dealer Straight Declare Search Found Hand.
From S2P Require Import Player Seat Desk Play Round Room Table Protocol Settle.

(** ** Seats that leave or join *)

(** The phase of a table does not depend on who sits at a seat that is not in
    the game. *)
Lemma phase_replace v v' i s s' r :
  phase v r -> v_seats v !! i = Some s ->
  v_seats v' = <[i := s']> (v_seats v) -> v_active v' = v_active v -> v_dealer v' = v_dealer v ->
  v_pool v' = v_pool v -> v_bottom v' = v_bottom v -> v_chips v' = v_chips v ->
  v_apply v' = v_apply v ->
  m_match_over_account_chips s' = m_match_over_account_chips s -> is_in_game s' = false ->
  m_handcards_total s' = m_handcards_total s \/ m_handcards_total s' = [] ->
  is_in_game s = false \/ over v ->
  seat_card_group s' = seat_card_group s -> laid_down s' = laid_down s \/ seat_card_group s = [] ->
  phase v' r.
Proof.
  intros Hph Hi Es Ea Ed Ep Eb Ec Eap Hacc Hg Hh Hor Hgr Hlaid.
  assert (forall j t, v_seats v' !! j = Some t -> (j = i /\ t = s') \/ v_seats v !! j = Some t) as Hj.
  { intros j t Ht. rewrite Es in Ht. apply list_lookup_insert_Some in Ht as [(-> & -> & _)|[_ Ht]]; auto. }
  assert (over v -> over v') as Hover.
  { intros [Hs Hb Hp Hc Hap Hac]. split; try congruence.
    intros t Ht. rewrite Es in Ht. apply elem_of_insert in Ht as [->|Ht]; [|by apply Hs].
    rewrite Hacc, Hgr. destruct (Hs s (list_elem_of_lookup_2 _ _ _ Hi)) as (Hs1 & Hs2 & Hs3).
    split; [|done]. destruct Hh; congruence. }
  assert (all_concealed (v_seats v) -> all_concealed (v_seats v')) as Hconc.
  { intros Hall. rewrite Es. apply all_concealed_insert; [done|]. intros Hl'. rewrite Hgr.
    destruct Hlaid as [E|?]; [|done]. rewrite E in Hl'.
    by apply (Hall s); [by eapply list_elem_of_lookup_2|]. }
  assert (is_in_game s = false -> forall j t, v_seats v !! j = Some t -> is_in_game t = true ->
            v_seats v' !! j = Some t) as Hkeep.
  { intros Hg0 j t Ht Hgt. rewrite Es. rewrite list_lookup_insert_ne; [done|]. intros ->. congruence. }
  assert (is_in_game s = false -> count_of is_in_game (v_seats v') = count_of is_in_game (v_seats v)) as Hcount.
  { intros Hg0. pose proof (count_of_insert is_in_game _ _ _ s' Hi) as Hc.
    rewrite Hg, Hg0 in Hc. rewrite Es. lia. }
  assert (is_in_game s = false -> forall n, turns n v -> turns n v') as Hturns.
  { intros Hg0 n [Ta Tc Td Th Tq]. split; [by rewrite Eap|by rewrite Hcount| | |by apply Hconc].
    - intros j t [[-> ->]|Ht]%Hj Hgt; [congruence|]. by apply (Td j).
    - intros j t [[-> ->]|Ht]%Hj Hgt Hne; [congruence|]. by apply (Th j). }
  assert (is_in_game s = false -> forall n, plays n v -> plays n v') as Hplays.
  { intros Hg0 n (j & t & -> & Ht & Hgt). exists j, t. split_and!; [done|by apply Hkeep|done]. }
  assert (is_in_game s = false -> stocked v -> stocked v') as Hstock.
  { intros Hg0. unfold stocked. by rewrite Eb, Ep, Hcount. }
  destruct Hph as [Ho|Ho|Ho|Ht Hs Ha Hp|Ht Hs Hp|Ht Hs Ha|j t Ht Ha Hjt Hgt Hl Hdig Hb Hn|j t Ha Hjt Hgt Hd Hc Ho Hq].
  - by apply phase_unready, Hover.
  - by apply phase_wait_playing, Hover.
  - by apply phase_distribute, Hover.
  - destruct Hor as [Hg0|Hov]; [|destruct Hs as (_ & Hq & _); rewrite (over_pool _ Hov) in Hq; simpl in Hq; lia].
    apply phase_dealer; [by apply Hturns|by apply (Hstock Hg0)|congruence|rewrite Ed; by apply Hplays].
  - destruct Hor as [Hg0|Hov]; [|destruct Hs as (_ & Hq & _); rewrite (over_pool _ Hov) in Hq; simpl in Hq; lia].
    apply phase_active1; [by apply Hturns|by apply (Hstock Hg0)|rewrite Ea; by apply Hplays].
  - destruct Hor as [Hg0|Hov]; [|destruct Hs as (_ & Hq & _); rewrite (over_pool _ Hov) in Hq; simpl in Hq; lia].
    apply phase_shuffle; [by apply Hturns|by apply (Hstock Hg0)|by rewrite Ea].
  - destruct Hor as [Hg0|Hov]; [|rewrite (over_bottom _ Hov) in Hb; simpl in Hb; lia].
    apply (phase_active2 _ j t); try done; [rewrite Ea; by apply Hturns|congruence|by apply Hkeep|by rewrite Eb|by rewrite Eb, Ep, Hcount].
  - destruct Hor as [Hg0|Hov]; [|pose proof (over_apply _ Hov); lia].
    apply (phase_declare _ j t); try done; [congruence|by apply Hkeep|by rewrite Hcount| |by apply Hconc].
    intros k u [[-> ->]|Hu]%Hj Hgu Hne; [congruence|]. by apply (Ho k).
Qed.

(** A seat is emptied. *)
Lemma linked_remove seats lk i s s' uid :
  linked seats lk -> seats !! i = Some s -> m_player s = Some uid ->
  m_player s' = None -> m_seat_number s' = m_seat_number s ->
  is_seated s' = false -> is_in_game s' = false ->
  linked (<[i := s']> seats) (<[uid := (uid, None)]> lk).
Proof.
  intros [Hn He Hs Hp] Hi Hu Hp' Hn' Hs' Hg'.
  assert (forall j t, <[i := s']> seats !! j = Some t ->
            (j = i /\ t = s') \/ (j <> i /\ seats !! j = Some t)) as Hj.
  { intros j t Ht. apply list_lookup_insert_Some in Ht as [(-> & -> & _)|[Hne Ht]]; auto. }
  split.
  - intros j t [[-> ->]|[_ Ht]]%Hj; [rewrite Hn'|]; eauto.
  - intros j t [[-> ->]|[_ Ht]]%Hj Hpl; [done|by eapply He].
  - intros j t u [[-> ->]|[Hne Ht]]%Hj Hpl; [congruence|].
    destruct (Hs j t u Ht Hpl) as [H1 H2]. split; [done|].
    rewrite lookup_insert_ne; [done|]. intros ->.
    destruct (Hs i s u Hi Hu) as [_ H3]. congruence.
  - intros u id o Hl. apply lookup_insert_Some in Hl as [[<- Hl]|[Hne Hl]]; [by simplify_eq|].
    destruct (Hp u id o Hl) as [Hid Ho]. split; [done|]. intros j Hj'.
    destruct (Ho j Hj') as (t & Ht & Hpl). exists t. rewrite list_lookup_insert_ne; [done|].
    intros ->. congruence.
Qed.

(** A player sits down at an empty seat. *)
Lemma linked_add seats lk i s s' uid :
  linked seats lk -> seats !! i = Some s -> m_player s = None -> lk !! uid = Some (uid, None) ->
  m_player s' = Some uid -> m_seat_number s' = m_seat_number s -> is_seated s' = true ->
  linked (<[i := s']> seats) (<[uid := (uid, Some i)]> lk).
Proof.
  intros [Hn He Hs Hp] Hi Hu Hlk Hp' Hn' Hs'.
  assert (forall j t, <[i := s']> seats !! j = Some t ->
            (j = i /\ t = s') \/ (j <> i /\ seats !! j = Some t)) as Hj.
  { intros j t Ht. apply list_lookup_insert_Some in Ht as [(-> & -> & _)|[Hne Ht]]; auto. }
  split.
  - intros j t [[-> ->]|[_ Ht]]%Hj; [rewrite Hn'|]; eauto.
  - intros j t [[-> ->]|[_ Ht]]%Hj Hpl; [congruence|by eapply He].
  - intros j t u [[-> ->]|[Hne Ht]]%Hj Hpl.
    + assert (u = uid) as -> by congruence. split; [done|]. by rewrite lookup_insert_eq.
    + destruct (Hs j t u Ht Hpl) as [H1 H2]. split; [done|].
      rewrite lookup_insert_ne; [done|]. intros ->. congruence.
  - intros u id o Hl. apply lookup_insert_Some in Hl as [[<- Hl]|[Hne Hl]].
    + simplify_eq. split; [done|]. intros j [= <-]. exists s'.
      by rewrite list_lookup_insert_eq by by eapply lookup_lt_Some.
    + destruct (Hp u id o Hl) as [Hid Ho]. split; [done|]. intros j Hj'.
      destruct (Ho j Hj') as (t & Ht & Hpl). exists t. rewrite list_lookup_insert_ne; [done|].
      intros ->. congruence.
Qed.

(** Nobody is at two seats, and a player who left is at none. *)
Definition unseated (uid : Z) (seats : list GameSeat) : Prop :=
  forall j t, seats !! j = Some t -> m_player t <> Some uid.

Lemma remove_unseated seats lk i s s' uid :
  linked seats lk -> seats !! i = Some s -> m_player s = Some uid -> m_player s' = None ->
  unseated uid (<[i := s']> seats).
Proof.
  intros Hl Hi Hu Hp' j t Ht Hpl.
  apply list_lookup_insert_Some in Ht as [(-> & -> & _)|[Hne Ht]]; [congruence|].
  destruct (linked_seat _ _ Hl j t uid Ht Hpl) as [_ H1].
  destruct (linked_seat _ _ Hl i s uid Hi Hu) as [_ H2]. congruence.
Qed.

(** The invariant after a seat has been emptied. *)
Lemma core_remove v v' i s s' uid :
  core v -> v_seats v !! i = Some s -> m_player s = Some uid ->
  m_player s' = None -> m_seat_number s' = m_seat_number s ->
  is_seated s' = false -> is_in_game s' = false ->
  m_handcards_total s' = [] -> seat_score s' = seat_score s ->
  v_seats v' = <[i := s']> (v_seats v) -> v_links v' = <[uid := (uid, None)]> (v_links v) ->
  v_room v' = v_room v -> v_shoe v' = v_shoe v -> -1 <= v_winner v' <= 4 ->
  v_bottom v' = v_bottom v -> v_pool v' = v_pool v ->
  core v'.
Proof.
  intros [Hlen Hlk Hrm Hsh Hw Hc Hz Hsc] Hi Hu Hp' Hn' Hs' Hg' Hh' Hsc' Es El Er Eh Ew Eb Ep.
  split; rewrite ?Es, ?El, ?Er, ?Eh; try done.
  - by rewrite length_insert.
  - by eapply linked_remove.
  - destruct Hrm as [Ho Hs]. split.
    + intros u Hin. destruct (decide (uid = u)) as [->|Hne]; [by rewrite lookup_insert_eq|].
      rewrite lookup_insert_ne by done. by apply Ho.
    + intros j t u Ht Hpl. apply list_lookup_insert_Some in Ht as [(-> & -> & _)|[_ Ht]];
        [congruence|by eapply Hs].
  - etrans; [|exact Hc]. unfold table_cards. rewrite Es, Eb, Ep.
    pose proof (hands_insert _ _ _ s' Hi) as Hperm. rewrite Hh', app_nil_r in Hperm.
    rewrite <- Hperm, <- !(assoc_L (++)). apply submseteq_skips_l, submseteq_inserts_l. done.
  - intros t [->|Ht]%elem_of_insert; [|by apply Hz]. rewrite Hh'. left.
  - intros t [->|Ht]%elem_of_insert; [|by apply Hsc]. rewrite Hsc'.
    by apply Hsc, (list_elem_of_lookup_2 _ i).
Qed.

Section seating.
Context {M G : Type} `{MoneyService M} `{RandGen G}.
Context (room : RoomInfo) `{!PrintableRoom room}.
Variables (iv : TimeInterval) (ROOM_IDLE : Z).
Abbreviation desk := (GameDesk M G).
Implicit Type d : desk.

Definition between_rounds : list Z := [GAME_UNREADY; GAME_WAIT_PLAYING; GAME_DISTRIBUTE].

(** Between two games. *)
Definition between (d : desk) : Prop :=
  core (view d) /\ balanced (view d) /\ over (view d) /\
  exists r, r ∈ between_rounds /\ in_round r (m_game_status d).

Lemma between_round_in r : r ∈ between_rounds -> r ∈ rounds.
Proof. clear. unfold between_rounds, rounds. set_solver. Qed.

Lemma between_inv d : between d -> inv (view d).
Proof.
  intros (Hc & Hb & Ho & r & Hr & Hst). split_and!; [done..|]. exists r. split; [done|].
  unfold between_rounds in Hr.
  repeat (apply elem_of_cons in Hr as [->|Hr]); [..|by apply elem_of_nil in Hr];
    [by apply phase_unready|by apply phase_wait_playing|by apply phase_distribute].
Qed.

Lemma is_game_over_between r status :
  in_round r status -> r ∈ rounds ->
  has status GAME_UNREADY || has status GAME_WAIT_PLAYING || has status GAME_DISTRIBUTE =
  bool_decide (r ∈ between_rounds).
Proof.
  intros Hst Hr. rewrite !(in_round_cases r) by (done || (by_decision)).
  unfold rounds in Hr.
  repeat (apply elem_of_cons in Hr as [->|Hr]); [..|by apply elem_of_nil in Hr]; done.
Qed.

(** [is_game_over] tells the phases between games apart. *)
Lemma inv_is_game_over d : inv (view d) -> is_game_over d = true -> between d.
Proof.
  intros (Hc & Hb & r & Hst & Hph) Ho. unfold is_game_over in Ho.
  rewrite (is_game_over_between r) in Ho by (done || by eapply phase_round).
  apply bool_decide_eq_true in Ho. split_and!; [done..| |by exists r].
  unfold between_rounds in Ho. inversion Hph; subst; try done;
    exfalso; revert Ho; by apply (bool_decide_eq_false_1 _).
Qed.

Lemma between_is_game_over d : between d -> is_game_over d = true.
Proof.
  intros (_ & _ & _ & r & Hr & Hst). unfold is_game_over.
  rewrite (is_game_over_between r) by (done || by apply between_round_in).
  by apply bool_decide_eq_true_2.
Qed.

Lemma between_spectate d : between d -> spectate (view d) = Idle.
Proof. intros (_ & _ & _ & r & Hr & Hst). by apply (spectate_over _ r). Qed.

Lemma between_goes_on v d : between d -> goes_on v (view d).
Proof. intros Hd. apply goes_on_over; [by apply between_inv|by apply between_spectate]. Qed.

(** *** Standing up *)

Lemma stand_up_returns room_id s p (m : M) b uid :
  0 <= room_id <= 7 -> m_player s = Some uid -> is_Some (m_pGameSeat p) ->
  returns (Seat.player_stand_up room_id b s p m) (fun r =>
    let s' := r.1.1 in let p' := r.1.2 in
    m_player s' = None /\ m_seat_number s' = m_seat_number s /\ is_seated s' = false /\
    is_in_game s' = false /\ m_handcards_total s' = [] /\ seat_score s' = seat_score s /\
    m_match_over_account_chips s' = m_match_over_account_chips s /\
    is_player_joined s' = (if b then false else is_player_joined s) /\
    m_player_id p' = m_player_id p /\ m_pGameSeat p' = None /\
    seat_card_group s' = seat_card_group s /\ (b = false -> laid_down s' = laid_down s)).
Proof.
  intros Hroom Hu Hs. unfold Seat.player_stand_up, stand_up, is_seated_player.
  rewrite !seat_status_ok by done.
  replace (if negb b then _ else _) with (Ok (with_status (if b then 0 else
    Z.land (Z.land (m_seat_stauts s) (Z.lnot Status.ingame)) (Z.lnot Status.seated)) s)) by by destruct b.
  cbn [mbind outcome_bind]. rewrite bool_decide_eq_true_2 by done. cbn [assert_that mbind outcome_bind mret outcome_ret].
  apply returns_ret. cbn [fst snd]. split_and!; try done.
  - destruct b; [done|]. unfold is_seated. simpl. seat_bits. done.
  - destruct b; [done|]. unfold is_in_game. simpl. seat_bits. done.
  - destruct b; [done|]. simpl. seat_bits. done.
  - unfold set_status. by repeat case_match.
  - unfold set_status. by repeat case_match.
  - intros ->. unfold laid_down. simpl. seat_bits. done.
Qed.

Lemma all_over_account_returns d :
  linked (m_seats d) (links (m_objects d)) ->
  returns (is_all_player_over_account d) (fun _ => True).
Proof.
  intros Hl. unfold is_all_player_over_account.
  assert (forall seats, (forall s, s ∈ seats -> s ∈ m_seats d) ->
            returns (all_over_account (m_objects d) seats) (fun _ => True)) as Hall;
    [|by apply Hall].
  induction seats as [|s seats IH]; intros Hsub; simpl; [by apply returns_ret|].
  destruct (is_seated s) eqn:Hs; simpl; [|apply IH; intros; apply Hsub; by right].
  pose proof (Hsub s ltac:(left)) as Hin. apply list_elem_of_lookup in Hin as [i Hi].
  destruct (m_player s) as [uid|] eqn:Hu;
    [|by rewrite (proj1 (linked_empty _ _ Hl _ _ Hi Hu)) in Hs].
  destruct (player_of_seat _ _ _ _ Hl Hi Hu) as (p & Hp & _).
  unfold get_seated_player. rewrite Hu. cbn [deref mbind outcome_bind]. rewrite Hp.
  cbn [deref mbind outcome_bind]. destruct (is_player_playing p); [by apply returns_ret|].
  apply IH. intros; apply Hsub; by right.
Qed.

Lemma stand_up_tail_returns is_playing d :
  inv (view d) ->
  returns (stand_up_tail ROOM_IDLE is_playing d) (fun r =>
    r.1 = 0 /\ inv (view r.2) /\ m_seats r.2 = m_seats d /\ m_all_player r.2 = m_all_player d /\
    (between d -> between r.2) /\ spectate (view r.2) = spectate (view d)).
Proof.
  intros Hinv. pose proof Hinv as (Hc & Hb & r & Hst & Hph).
  pose proof (phase_round _ _ Hph) as Hr. unfold stand_up_tail.
  eapply (returns_bind _ _ (fun b : bool => b = true -> is_distribut d = true)).
  { destruct (is_distribut d && is_playing) eqn:E; [|by apply returns_ret].
    eapply returns_mono; [exact (all_over_account_returns d (core_linked _ Hc))|].
    intros b _ _. by destruct (is_distribut d). }
  intros over_now Hdist. destruct over_now.
  - specialize (Hdist eq_refl). unfold is_distribut in Hdist.
    rewrite (in_round_cases r) in Hdist by (done || (by_decision)).
    apply bool_decide_eq_true in Hdist. subst r.
    assert (view (wait_for_round GAME_DISTRIBUTE 0 d) =
      (view d) <| v_status := Z.lor GAME_WAIT_MASK GAME_DISTRIBUTE |>) as Hv.
    { apply wait_for_round_view. by exists GAME_DISTRIBUTE. }
    assert (core (view (wait_for_round GAME_DISTRIBUTE 0 d))) as Hc'.
    { rewrite Hv. apply (core_same _ _ Hc); try done. apply Hc. }
    eapply returns_bind; [by apply set_player_matchover_status_returns|].
    intros d' Hv'. apply returns_ret. cbn [fst snd].
    assert (between d') as Hbt.
    { inversion Hph as [| |Ho| | | | |]. unfold between.
      change (m_game_status d') with (v_status (view d')). rewrite Hv', Hv.
      split_and!; [by rewrite Hv in Hc'|by destruct Hb|by destruct Ho|].
      exists GAME_DISTRIBUTE. split; [by_decision|by right]. }
    split_and!; [done|by apply between_inv| | |done|].
    + change (v_seats (view d') = m_seats d). by rewrite Hv', Hv.
    + change (v_room (view d') = m_all_player d). by rewrite Hv', Hv.
    + rewrite (between_spectate d' Hbt). symmetry. by apply (spectate_over _ GAME_DISTRIBUTE); [|by_decision].
  - destruct (negb (is_game_can_start d) && is_game_wait_playing d) eqn:E;
      [|by apply returns_ret].
    apply andb_true_iff in E as [_ E]. unfold is_game_wait_playing in E.
    apply andb_true_iff in E as [_ E].
    rewrite (in_round_cases r) in E by (done || (by_decision)).
    apply bool_decide_eq_true in E. subst r. apply returns_ret. cbn [fst snd].
    set (d1 := notify_player_wait_nextgame 0 d).
    assert (view (wait_for_round GAME_UNREADY 0 d1) =
      (view d) <| v_status := Z.lor GAME_WAIT_MASK GAME_UNREADY |>) as Hv.
    { rewrite wait_for_round_view; [done|]. by exists GAME_WAIT_PLAYING. }
    assert (between (notify_room_status ROOM_IDLE (wait_for_round GAME_UNREADY 0 d1))) as Hbt.
    { unfold between.
      change (view (notify_room_status ROOM_IDLE (wait_for_round GAME_UNREADY 0 d1)))
        with (view (wait_for_round GAME_UNREADY 0 d1)).
      change (m_game_status (notify_room_status ROOM_IDLE (wait_for_round GAME_UNREADY 0 d1)))
        with (v_status (view (wait_for_round GAME_UNREADY 0 d1))). rewrite Hv.
      inversion Hph as [|Ho| | | | | |].
      split_and!; [apply (core_same _ _ Hc); try done; apply Hc|by destruct Hb|by destruct Ho|].
      exists GAME_UNREADY. split; [by_decision|by right]. }
    split_and!; [done|by apply between_inv|done|done|done|].
    etransitivity; [by apply between_spectate|]. symmetry.
    by apply (spectate_over _ GAME_WAIT_PLAYING); [|by_decision].
Qed.

Lemma leave_seat_returns d i s uid reason q :
  inv (view d) -> m_seats d !! i = Some s -> m_player s = Some uid ->
  is_in_game s = false \/ between d ->
  returns (leave_seat room ROOM_IDLE uid reason q d) (fun r =>
    r.1 = 0 /\ inv (view r.2) /\ unseated uid (m_seats r.2) /\ m_all_player r.2 = m_all_player d /\
    (between d -> between r.2) /\ spectate (view r.2) = spectate (view d)).
Proof.
  intros Hinv Hi Hu Hor. unfold leave_seat.
  set (d1 := if q =? m_last_winner_seatnum d
             then d <| m_last_winner_seatnum := -1 |> else d).
  assert (exists w, -1 <= w <= 4 /\ view d1 = (view d) <| v_winner := w |>) as (w & Hw & Hv1).
  { unfold d1. destruct (_ =? _); [by exists (-1)|]. exists (m_last_winner_seatnum d).
    split; [|done]. apply Hinv. }
  clearbody d1. pose proof Hinv as (Hc & Hb & r & Hst & Hph).
  assert (m_seats d1 = m_seats d) as Hseats by by injection Hv1.
  assert (links (m_objects d1) = links (m_objects d)) as Hlinks by by injection Hv1.
  assert (linked (m_seats d1) (links (m_objects d1))) as Hl.
  { rewrite Hseats, Hlinks. exact (core_linked _ Hc). }
  rewrite <- Hseats in Hi.
  destruct (player_of_seat _ _ _ _ Hl Hi Hu) as (p & Hp & Hid & Hps).
  unfold get_player. rewrite Hp. cbn [deref mbind outcome_bind].
  unfold player_seat. rewrite Hps. cbn [deref mbind outcome_bind].
  change (m_seats (broadcast (PlayerStandUp uid reason) d1)) with (m_seats d1). rewrite Hi.
  cbn [access mbind outcome_bind mret outcome_ret].
  eapply returns_bind; [by apply (stand_up_returns _ s p _ _ uid); [auto| |rewrite Hps]|].
  intros [[s' p'] money] (Hp1 & Hn1 & Hs1 & Hg1 & Hh1 & Hsc1 & Ha1 & Hj1 & Hid1 & Hps1 & Hgr1 & Hlaid1). cbn [fst snd] in *.
  match goal with |- returns (stand_up_tail _ _ ?x) _ => set (d2 := x) end.
  assert (view d2 = (view d) <| v_winner := w |> <| v_seats := <[i := s']> (m_seats d) |>
                    <| v_links := <[uid := (uid, None)]> (links (m_objects d)) |>) as Hv2.
  { transitivity ((view d1) <| v_seats := <[i := s']> (m_seats d) |>
                    <| v_links := <[uid := (uid, None)]> (links (m_objects d)) |>).
    - unfold d2, view. simpl. by rewrite links_insert, Hid1, Hps1, Hid, Hlinks, Hseats.
    - by rewrite Hv1. }
  rewrite Hseats in Hi.
  assert (core (view d2)) as Hc2.
  { apply (core_remove (view d) _ i s s' uid); try done; by rewrite Hv2. }
  assert (is_game_over (broadcast (PlayerStandUp uid reason) d1) = true -> over (view d)) as Hover.
  { intros Eo. assert (between d) as (_ & _ & Ho & _); [|done].
    apply inv_is_game_over; [done|]. rewrite <- Eo. unfold is_game_over.
    change (m_game_status (broadcast (PlayerStandUp uid reason) d1)) with (v_status (view d1)).
    by rewrite Hv1. }
  assert (balanced (view d2)) as Hb2.
  { apply (balanced_insert (view d) _ i s s'); try done; try (by rewrite Hv2).
    - rewrite Hv2. simpl. lia.
    - by rewrite Hg1.
    - rewrite Hj1, Ha1. destruct (is_game_over _) eqn:Eo.
      + intros _. pose proof (Hover eq_refl) as Ho.
        by destruct (over_seat_clear _ Ho s (list_elem_of_lookup_2 _ i _ Hi)) as (_ & ? & _).
      + by apply (bal_joined _ Hb), (list_elem_of_lookup_2 _ i). }
  assert (is_in_game s = false \/ over (view d)) as Hor2.
  { destruct Hor as [Hor|(_ & _ & Ho & _)]; auto. }
  assert (forall r', phase (view d) r' -> phase (view d2) r') as Hph2.
  { intros r' Hph'. apply (phase_replace (view d) _ i s s' r'); try done; try (by rewrite Hv2); [by right|].
    destruct (is_game_over (broadcast (PlayerStandUp uid reason) d1)) eqn:Eo; [right|by left; apply Hlaid1].
    pose proof (Hover eq_refl) as Ho. by destruct (over_seat_clear _ Ho s (list_elem_of_lookup_2 _ i _ Hi)) as (_ & _ & ?). }
  assert (v_status (view d2) = v_status (view d)) as Hst2 by by rewrite Hv2.
  assert (inv (view d2)) as Hinv2.
  { split_and!; [done..|]. exists r. split; [by rewrite Hst2|by apply Hph2]. }
  eapply returns_mono; [by apply stand_up_tail_returns|].
  intros [x d3] (H1 & H2 & H3 & H5 & H4 & H6). cbn [fst snd] in *. split_and!; [done..| | | |].
  - rewrite H3. change (m_seats d2) with (v_seats (view d2)). rewrite Hv2. simpl.
    by apply (remove_unseated _ (links (m_objects d)) i s); [exact (core_linked _ Hc)|..].
  - rewrite H5. change (m_all_player d2) with (v_room (view d2)). by rewrite Hv2.
  - intros Hbt. apply H4. destruct Hbt as (_ & _ & Ho & r0 & Hr0 & Hst0).
    split_and!; [done..| |exists r0; split; [done|]].
    + assert (phase (view d) GAME_UNREADY) as Hphu by by apply phase_unready.
      apply Hph2 in Hphu. by inversion Hphu.
    + change (m_game_status d2) with (v_status (view d2)). by rewrite Hst2.
  - rewrite H6. destruct Hor as [Hg|Hbt].
    + apply spectate_same; try (by rewrite Hv2). rewrite Hv2. apply (players_insert_same _ i s); [done|congruence].
    + rewrite (between_spectate d Hbt). destruct Hbt as (_ & _ & _ & r0 & Hr0 & Hst0).
      apply (spectate_over _ r0); [by rewrite Hst2|done].
Qed.

(** Standing up returns -1 and changes nothing while the player is in a
    running game, except that in the declaration round a loser may leave:
    his declaration by default comes first. *)
Lemma player_stand_up_returns d uid p i reason :
  0 <= m_small_blind room -> inv (view d) -> m_objects d !! uid = Some p -> m_pGameSeat p = Some i ->
  returns (player_stand_up room iv ROOM_IDLE uid reason d) (fun r =>
    (r = (-1, d) /\ is_game_over d = false) \/
    (r.1 = 0 /\ inv (view r.2) /\ unseated uid (m_seats r.2) /\ (between d -> between r.2) /\
     follows (spectate (view d)) (spectate (view r.2)))).
Proof.
  intros small_blind_nonneg Hinv Hp Hseat. pose proof Hinv as (Hc & _). pose proof (core_linked _ Hc) as Hl.
  destruct (seat_of_player _ _ _ _ Hl Hp Hseat) as (Hid & s & Hi & Hu).
  assert (i < m_max_seat_num)%nat as Hrange.
  { pose proof (core_seats _ Hc) as Hlen. apply lookup_lt_Some in Hi. simpl in Hlen. lia. }
  unfold m_max_seat_num in Hrange.
  assert (get_player uid d = Ok p) as Hgp by (unfold get_player; by rewrite Hp).
  assert (player_seat p d = Ok (i, s)) as Hps by (unfold player_seat; rewrite Hseat; simpl; by rewrite Hi).
  assert (get_seat_number p = Z.of_nat i) as Hnum by (unfold get_seat_number; by rewrite Hseat).
  unfold player_stand_up. rewrite Hgp. cbn [mbind outcome_bind]. rewrite Hnum.
  destruct ((0 <=? Z.of_nat i) && (Z.of_nat i <=? Z.of_nat m_max_seat_num - 1)) eqn:E;
    [|unfold m_max_seat_num in E; lia].
  cbn [assert_that mbind outcome_bind]. rewrite Hps. cbn [mbind outcome_bind].
  rewrite bool_decide_eq_true_2 by done. cbn [assert_that mbind outcome_bind].
  destruct (is_game_over d) eqn:Hover; cbn [negb andb].
  { pose proof (inv_is_game_over d Hinv Hover) as Hbt. cbn [mbind outcome_bind mret outcome_ret].
    eapply returns_mono; [by apply (leave_seat_returns d i s uid); [..|right]|].
    intros r (? & ? & ? & _ & ? & Hsp). right. split_and!; [done..|by left]. }
  destruct (is_in_game s) eqn:Hg.
  2: { cbn [mbind outcome_bind mret outcome_ret].
    eapply returns_mono; [by apply (leave_seat_returns d i s uid); [..|left]|].
    intros r (? & ? & ? & _ & ? & Hsp). right. split_and!; [done..|by left]. }
  destruct (is_declareing d) eqn:Hdec; [|by apply returns_ret; left].
  destruct (inv_declaring d Hinv Hdec) as (a & Hd & Hn).
  pose proof Hd as (_ & _ & _ & [Ha _ _]). simpl in Ha.
  destruct (Z.of_nat i =? m_apply_declare_seatnum d) eqn:Eq; [by apply returns_ret; left|].
  eapply (returns_bind _ _ (fun r => exists d', r = Some d' /\ inv (view d') /\
    follows (spectate (view d)) (spectate (view d')) /\
    exists s', m_seats d' !! i = Some s' /\ m_player s' = Some uid /\
      (is_in_game s' = false \/ between d'))).
  - eapply returns_bind; [apply (default_decalre_returns _ _ small_blind_nonneg a d i s uid Hd Hi Hg Hu); lia|].
    intros d' [Hpl Hd']. apply returns_ret. exists d'. split; [done|].
    assert (exists s', m_seats d' !! i = Some s' /\ m_player s' = Some uid) as (s' & Hs' & Hu').
    { assert ((m_player <$> m_seats d') !! i = Some (Some uid)) as Hli.
      { by rewrite Hpl, list_lookup_fmap, Hi; simpl; rewrite Hu. }
      apply list_lookup_fmap_Some in Hli as (s' & Hs' & Hli). by exists s'. }
    split; [apply (settled_inv a); destruct Hd' as [(? & ? & _)|?]; [by left|by right]|].
    split.
    { destruct Hd' as [(? & ? & s2 & ? & ? & ?)|Hall].
      - apply (declaring_follows a i s s2); try done; [lia|by left].
      - apply (declaring_follows a i s s); try done; [lia|by right]. }
    exists s'. split_and!; [done..|]. destruct Hd' as [(_ & _ & s2 & Es & Hg2 & _)|Hall].
    + left. rewrite Es, list_lookup_insert_eq in Hs' by by eapply lookup_lt_Some. congruence.
    + right. destruct Hall as (Hc' & Hb' & Ho' & Hst' & _). split_and!; [done..|].
      exists GAME_DISTRIBUTE. split; [by_decision|done].
  - intros r' (d' & -> & Hinv' & Hfo & s' & Hs' & Hu' & Hor).
    eapply returns_mono; [by apply (leave_seat_returns d' i s' uid)|].
    intros r (H1 & H2 & H3 & _ & _ & H4). right. split_and!; [done..| |by rewrite H4].
    intros Hbt. apply between_is_game_over in Hbt. congruence.
Qed.

(** *** Sitting down *)

Lemma desk_trustee_off_returns d uid :
  is_Some (m_objects d !! uid) ->
  returns (desk_trustee_off uid d) (fun d' =>
    view d' = view d /\ is_Some (m_objects d' !! uid)).
Proof.
  intros [p Hp]. unfold desk_trustee_off, get_player. rewrite Hp. cbn [deref mbind outcome_bind].
  apply returns_ret.
  assert (view (put_player uid (set_trustee_off p) d) = view d) as Hv.
  { apply (view_put_player _ p); [done|unfold set_trustee_off, set_status; by repeat case_match..]. }
  destruct (is_player_trusteed_on p); (split; [exact Hv|]); simpl; by rewrite lookup_insert_eq.
Qed.

Lemma desk_trustee_on_returns d uid :
  is_Some (m_objects d !! uid) ->
  returns (desk_trustee_on uid d) (fun d' =>
    view d' = view d /\ drawn_out d' = drawn_out d).
Proof.
  intros [p Hp]. unfold desk_trustee_on, get_player. rewrite Hp. cbn [deref mbind outcome_bind].
  apply returns_ret.
  assert (view (put_player uid (set_trustee_on p) d) = view d) as Hv.
  { apply (view_put_player _ p); [done|unfold set_trustee_on, set_status; by repeat case_match..]. }
  by destruct (is_player_trusteed_on p).
Qed.

(** The invariant after a player has sat down. *)
Lemma core_add v v' i s s' uid :
  core v -> v_seats v !! i = Some s -> m_player s = None ->
  v_links v !! uid = Some (uid, None) -> uid ∈ v_room v ->
  m_player s' = Some uid -> m_seat_number s' = m_seat_number s -> is_seated s' = true ->
  m_handcards_total s' = m_handcards_total s -> seat_score s' = seat_score s ->
  v_seats v' = <[i := s']> (v_seats v) -> v_links v' = <[uid := (uid, Some i)]> (v_links v) ->
  v_room v' = v_room v -> v_shoe v' = v_shoe v -> v_winner v' = v_winner v ->
  v_bottom v' = v_bottom v -> v_pool v' = v_pool v ->
  core v'.
Proof.
  intros [Hlen Hlk Hrm Hsh Hw Hc Hz Hsc] Hi Hu Hlkp Hroom Hp' Hn' Hs' Hh' Hsc' Es El Er Eh Ew Eb Ep.
  split; rewrite ?Es, ?El, ?Er, ?Eh, ?Ew; try done.
  - by rewrite length_insert.
  - by eapply linked_add.
  - destruct Hrm as [Ho Hs]. split.
    + intros u Hin. destruct (decide (uid = u)) as [->|Hne]; [by rewrite lookup_insert_eq|].
      rewrite lookup_insert_ne by done. by apply Ho.
    + intros j t u Ht Hpl. apply list_lookup_insert_Some in Ht as [(-> & -> & _)|[_ Ht]];
        [congruence|by eapply Hs].
  - by rewrite (table_cards_same v v' i s s' Hi Es) by (done || by rewrite Hh').
  - intros t [->|Ht]%elem_of_insert; [|by apply Hz]. rewrite Hh'. by apply Hz, (list_elem_of_lookup_2 _ i).
  - intros t [->|Ht]%elem_of_insert; [|by apply Hsc]. rewrite Hsc'.
    by apply Hsc, (list_elem_of_lookup_2 _ i).
Qed.

Definition seat_free (n : Z) d : Prop :=
  0 <= n <= 4 /\ exists s, m_seats d !! Z.to_nat n = Some s /\ is_seated s = false.

Lemma player_sit_down_returns d uid p n :
  inv (view d) -> m_objects d !! uid = Some p -> m_pGameSeat p = None -> uid ∈ m_all_player d ->
  returns (player_sit_down room uid n d) (fun r =>
    inv (view r.2) /\ (seat_free n d -> r.1 = n) /\ spectate (view r.2) = spectate (view d)).
Proof.
  intros Hinv Hp Hps Hroom. pose proof Hinv as (Hc & Hb & r & Hst & Hph).
  pose proof (core_linked _ Hc) as Hl. unfold player_sit_down.
  destruct ((n <? 0) || (Z.of_nat m_max_seat_num - 1 <? n)) eqn:E.
  { apply returns_ret. split_and!; [done| |done]. intros [Hn _]. unfold m_max_seat_num in E. lia. }
  assert (exists s, m_seats d !! Z.to_nat n = Some s) as [s Hi].
  { apply lookup_lt_is_Some_2. pose proof (core_seats _ Hc) as Hlen. simpl in Hlen. rewrite Hlen.
    unfold m_max_seat_num in *. lia. }
  assert (seat_at n d = Ok s) as Hat.
  { unfold seat_at. destruct (0 <=? n) eqn:E0; [|lia]. by rewrite Hi. }
  rewrite Hat. cbn [mbind outcome_bind]. destruct (is_seated s) eqn:Hs.
  { apply returns_ret. split_and!; [done| |done]. intros [_ (s0 & Hs0 & Hf)]. congruence. }
  assert (m_player s = None) as Hu.
  { destruct (m_player s) as [u|] eqn:Hu; [|done].
    by rewrite (proj1 (linked_seat _ _ Hl _ _ _ Hi Hu)) in Hs. }
  assert (m_player_id p = uid) as Hid.
  { apply (linked_player _ _ Hl uid (m_player_id p) (m_pGameSeat p)).
    simpl. by rewrite links_lookup, Hp. }
  assert (get_player uid d = Ok p) as Hgp by (unfold get_player; by rewrite Hp).
  rewrite Hgp. cbn [mbind outcome_bind]. unfold Seat.player_sit_down.
  rewrite seat_status_ok by auto. cbn [mbind outcome_bind mret outcome_ret].
  set (s' := with_status _ _). set (i := Z.to_nat n) in *.
  match goal with |- returns (desk_trustee_off uid ?x ≫= _) _ => set (d1 := x) end.
  assert (view d1 = (view d) <| v_seats := <[i := s']> (m_seats d) |>
            <| v_links := <[uid := (uid, Some i)]> (links (m_objects d)) |>) as Hv1.
  { unfold d1, view. simpl. rewrite links_insert. simpl. by rewrite Hid. }
  assert (is_in_game s' = false) as Hg'.
  { unfold s', is_in_game, with_status. simpl. pose proof (proj2 (linked_empty _ _ Hl _ _ Hi Hu)) as Hg.
    seat_bits. exact Hg. }
  assert (is_seated s' = true) as Hs'.
  { unfold s', is_seated, with_status. simpl. seat_bits. done. }
  assert (is_player_joined s' = is_player_joined s) as Hj'.
  { unfold s', is_player_joined, with_status. simpl. seat_bits. done. }
  assert (core (view d1)) as Hc1.
  { apply (core_add (view d) _ i s s' uid); try done; try (by rewrite Hv1).
    - simpl. by rewrite links_lookup, Hp; simpl; rewrite Hid, Hps.
    - unfold s'. simpl. by rewrite Hid. }
  assert (balanced (view d1)) as Hb1.
  { apply (balanced_insert (view d) _ i s s'); try done; try (by rewrite Hv1).
    - rewrite Hv1. simpl. lia.
    - by rewrite Hg'.
    - rewrite Hj'. exact (bal_joined _ Hb s (list_elem_of_lookup_2 _ i _ Hi)). }
  assert (phase (view d1) r) as Hph1.
  { apply (phase_replace (view d) _ i s s' r); try done; try (by rewrite Hv1); [by left| |].
    - left. apply (linked_empty _ _ Hl _ _ Hi Hu).
    - left. unfold s', laid_down, with_status. simpl. seat_bits. done. }
  assert (inv (view d1)) as Hinv1.
  { split_and!; [done..|]. exists r. split; [|done]. by rewrite Hv1. }
  assert (spectate (view d1) = spectate (view d)) as Hsp1.
  { apply spectate_same; try (by rewrite Hv1). rewrite Hv1. apply (players_insert_same _ i s); [done|].
    by rewrite Hg', (proj2 (linked_empty _ _ Hl _ _ Hi Hu)). }
  eapply returns_bind; [apply desk_trustee_off_returns; simpl; by rewrite lookup_insert_eq|].
  intros d2 [Hv2 Ho2].
  assert (is_game_over d2 = is_game_over d) as Hover.
  { unfold is_game_over. change (m_game_status d2) with (v_status (view d2)).
    rewrite Hv2. by rewrite Hv1. }
  eapply (returns_bind _ _ (fun d' => inv (view d') /\ spectate (view d') = spectate (view d))).
  - destruct (is_game_over d2) eqn:Eo; cbn [negb].
    + eapply returns_bind; [by apply set_player_phase_returns|]. intros d3 [Hv3 _].
      apply returns_ret. destruct (has (m_game_status d3) GAME_UNREADY) eqn:Eu.
      * change (m_game_status d3) with (v_status (view d3)) in Eu. rewrite Hv3, Hv2 in Eu.
        rewrite (in_round_cases r) in Eu; [| |by eapply phase_round|by_decision];
          [|by rewrite Hv1]. apply bool_decide_eq_true in Eu. subst r.
        rewrite wait_for_round_view.
        -- rewrite Hv3, Hv2. split; [split_and!; [|by destruct Hb1|]|].
           3: { etransitivity; [apply (spectate_over _ GAME_UNREADY); [by right|by_decision]|].
                symmetry. apply (spectate_over _ GAME_UNREADY); [exact Hst|by_decision]. }
           ++ apply (core_same _ _ Hc1); try done. apply Hc1.
           ++ exists GAME_UNREADY. split; [by right|]. inversion Hph1 as [Ho| | | | | | |].
              apply phase_unready. by destruct Ho.
        -- exists GAME_UNREADY. rewrite Hv3, Hv2, Hv1. split; [done|by_decision].
      * by rewrite Hv3, Hv2.
    + eapply returns_mono; [by apply set_player_phase_returns|]. intros d3 [Hv3 _].
      by rewrite Hv3, Hv2.
  - intros d4 [Hinv4 Hsp4]. apply returns_ret. split_and!; [exact Hinv4|done|exact Hsp4].
Qed.
End seating.
