(* ===== verification/Between.v ===== *)
(** * Between two games

    The steps from the end of a game to the next deal, and the operations that
    do not depend on the round: they keep the table invariant and run without
    a fault. *)
From Stdlib Require Import ZArith Lia String.
From stdpp Require Import base tactics numbers sorting option gmap strings sets list.
From S2P Require Import Prelude Cards Dealer Straight Declare Search Found Hand.
From S2P Require Import Player Seat Desk Play Round Room Table Protocol Settle Seating.

(** *** Calls that settle chips keep the player's seat *)

Section money.
Context {M : Type} `{MoneyService M}.
Implicit Types (p : Player) (m : M).

Lemma buy_in_place n p m :
  returns (buy_in n n p m) (fun r => same_place p r.1.2).
Proof.
  unfold buy_in, buy_chips. rewrite Z.leb_refl. cbn [assert_that mbind outcome_bind].
  destruct (game_buy_chips_in _ _ _ _) as [[[real left]|] m']; cbn [mbind outcome_bind mret outcome_ret];
    case_match; by apply returns_ret.
Qed.

Lemma check_chips_carry_place n p m : same_place p (check_chips_carry n p m).1.2.
Proof.
  unfold check_chips_carry, buy_add_carry_chips. repeat case_match; simplify_eq; by split.
Qed.

Lemma bet_chips_place chips real p m : same_place p (bet_chips chips real p m).1.2.
Proof. unfold bet_chips. repeat case_match; by split. Qed.
End money.

Section between_games.
Context {M G : Type} `{MoneyService M} `{RandGen G}.
Context (room : RoomInfo) `{!PrintableRoom room}.
Variables (iv : TimeInterval) (ROOM_IDLE : Z).
Abbreviation desk := (GameDesk M G).
Implicit Type d : desk.

(** *** Leaving the room *)

Lemma destroy_player_core uid d :
  core (view d) -> unseated uid (m_seats d) -> core (view (destroy_player uid d)).
Proof.
  intros [Hlen Hlk [Ho Hs] Hsh Hw Hc Hz Hsc] Hun. split; try done. simpl. split.
  - intros u Hu. apply Ho. simpl. clear PrintableRoom0. set_solver.
  - intros i s u Hi Hu. apply elem_of_difference. split; [by eapply Hs|].
    rewrite elem_of_singleton. intros ->. by apply (Hun i s Hi).
Qed.

Lemma destroy_player_phase uid d r : phase (view d) r -> phase (view (destroy_player uid d)) r.
Proof.
  intros [Ho|Ho|Ho|Ht|Ht|Ht|i s Ht|i s]; [apply phase_unready|apply phase_wait_playing|
    apply phase_distribute|apply phase_dealer|apply phase_active1|apply phase_shuffle|
    apply (phase_active2 _ i s)|apply (phase_declare _ i s)]; try done; by destruct Ho || by destruct Ht.
Qed.

Lemma destroy_player_inv uid d :
  inv (view d) -> unseated uid (m_seats d) -> inv (view (destroy_player uid d)).
Proof.
  intros (Hc & Hb & r & Hst & Hph) Hun. split_and!; [by apply destroy_player_core|by destruct Hb|].
  exists r. split; [done|by apply destroy_player_phase].
Qed.

Lemma destroy_player_goes_on v uid d :
  goes_on v (view d) -> unseated uid (m_seats d) -> goes_on v (view (destroy_player uid d)).
Proof. intros [Hinv Hf] Hun. split; [by apply destroy_player_inv|done]. Qed.

Lemma destroy_player_between uid d :
  between d -> unseated uid (m_seats d) -> between (destroy_player uid d).
Proof.
  intros (Hc & Hb & Ho & Hr) Hun. split_and!; [by apply destroy_player_core|by destruct Hb|by destruct Ho|done].
Qed.

Lemma between_linked d : between d -> linked (m_seats d) (links (m_objects d)).
Proof. intros [Hc _]. exact (core_linked _ Hc). Qed.

Lemma between_length d d' : between d -> between d' -> length (m_seats d') = length (m_seats d).
Proof. intros [Hc _] [Hc' _]. etrans; [exact (core_seats _ Hc')|symmetry; exact (core_seats _ Hc)]. Qed.

Lemma between_same d d' : between d -> view d' = view d -> between d'.
Proof.
  intros (Hc & Hb & Ho & Hr) Hv. unfold between. rewrite Hv.
  change (m_game_status d') with (v_status (view d')). by rewrite Hv.
Qed.

(** Between two games every loop over the seats that keeps the table between
    two games returns. *)
Lemma for_seats_between body d :
  between d ->
  (forall d' i s, between d' -> m_seats d' !! i = Some s -> returns (body d' i s) between) ->
  returns (for_seats body d) between.
Proof. intros Hd Hbody. apply for_seats_returns; [done| |done]. intros d'. by apply between_length. Qed.

Lemma wait_for_round_between round ms d :
  between d -> round ∈ between_rounds -> between (wait_for_round round ms d).
Proof.
  intros (Hc & Hb & Ho & r & Hr & Hst) Hround.
  assert (view (wait_for_round round ms d) =
    (view d) <| v_status := Z.lor GAME_WAIT_MASK round |>) as Hv.
  { apply wait_for_round_view. exists r. split; [done|by apply between_round_in]. }
  unfold between. change (m_game_status (wait_for_round round ms d))
    with (v_status (view (wait_for_round round ms d))). rewrite Hv.
  split_and!; [apply (core_same _ _ Hc); try done; apply Hc|by destruct Hb|by destruct Ho|].
  exists round. split; [done|by right].
Qed.

(** *** Operations that only touch the player object *)
Lemma desk_flush_online_returns d uid :
  is_Some (m_objects d !! uid) ->
  returns (desk_flush_online uid d) (fun d' =>
    view d' = view d /\ is_Some (m_objects d' !! uid)).
Proof.
  intros [p Hp]. unfold desk_flush_online, get_player. rewrite Hp. cbn [deref mbind outcome_bind].
  apply returns_ret. split.
  - apply (view_put_player _ p); [done|unfold flush_online_time, set_online, set_status;
      by repeat case_match..].
  - simpl. by rewrite lookup_insert_eq.
Qed.

Lemma desk_buy_in_returns d uid :
  is_Some (m_objects d !! uid) ->
  returns (desk_buy_in room uid d) (fun r =>
    view r.2 = view d /\ is_Some (m_objects r.2 !! uid)).
Proof.
  intros [p Hp]. unfold desk_buy_in.
  assert (get_player uid d = Ok p) as -> by (unfold get_player; by rewrite Hp).
  cbn [mbind outcome_bind]. eapply returns_bind; [apply buy_in_place|].
  intros [[r p'] money] [Hid Hps]. cbn [fst snd] in *. apply returns_ret. cbn [fst snd]. split.
  - by rewrite <- (view_put_player uid p p' d).
  - simpl. by rewrite lookup_insert_eq.
Qed.
(** *** The sweeps over the seated players *)

Hypothesis small_blind_nonneg : 0 <= m_small_blind room.

(** Standing up between two games always succeeds; the player then leaves. *)
Lemma stand_up_leave_returns d uid p i reason :
  between d -> m_objects d !! uid = Some p -> m_pGameSeat p = Some i ->
  returns ('(_, d) ← player_stand_up room iv ROOM_IDLE uid reason d;
           mret (destroy_player uid d)) between.
Proof.
  intros Hbt Hp Hseat. eapply returns_bind.
  - by apply (player_stand_up_returns room iv ROOM_IDLE d uid p i); [|apply between_inv|..].
  - intros [r d'] [[_ Hover]|(_ & _ & Hun & Hbt')].
    + by rewrite between_is_game_over in Hover.
    + apply returns_ret. apply destroy_player_between; [by apply Hbt'|done].
Qed.

Lemma check_player_status_returns d :
  between d -> returns (check_player_status room iv ROOM_IDLE d) between.
Proof.
  intros Hd. apply for_seats_between; [done|]. clear d Hd. intros d i s Hd Hi.
  pose proof (between_linked _ Hd) as Hl.
  destruct (is_seated s) eqn:Hs; cbn [negb]; [|by apply returns_ret].
  destruct (m_player s) as [uid|] eqn:Hu;
    [|by rewrite (proj1 (linked_empty _ _ Hl _ _ Hi Hu)) in Hs].
  destruct (seat_player_Ok _ _ _ _ Hl Hi Hu) as (p & -> & Hp & _ & Hseat).
  cbn [mbind outcome_bind]. destruct (is_player_need_standup p); [|by apply returns_ret].
  by apply (stand_up_leave_returns d uid p i).
Qed.

Lemma check_player_chips_returns d :
  between d -> returns (check_player_chips room iv ROOM_IDLE d) between.
Proof.
  intros Hd. apply for_seats_between; [done|]. clear d Hd. intros d i s Hd Hi.
  pose proof (between_linked _ Hd) as Hl.
  destruct (m_player s) as [uid|] eqn:Hu; [|by apply returns_ret].
  destruct (player_of_seat _ _ _ _ Hl Hi Hu) as (p & Hp & _ & Hseat).
  assert (get_player uid d = Ok p) as -> by (unfold get_player; by rewrite Hp).
  cbn [mbind outcome_bind].
  pose proof (check_chips_carry_place (get_sitdown_buyin_count room) p (m_money d)) as [Hid Hps].
  destruct (check_chips_carry _ _ _) as [[b p'] money]. cbn [fst snd] in Hid, Hps.
  set (d1 := put_player uid p' (d <| m_money := money |>)).
  assert (between d1) as Hd1.
  { apply (between_same d); [done|]. by rewrite <- (view_put_player uid p p' d). }
  destruct b; cbn [negb]; [by apply returns_ret|].
  apply (stand_up_leave_returns d1 uid p' i); [done| |by rewrite Hps].
  simpl. by rewrite lookup_insert_eq.
Qed.

Lemma ready_for_next_game_returns d :
  between d -> returns (ready_for_next_game room iv ROOM_IDLE d) between.
Proof.
  intros Hd. unfold ready_for_next_game. eapply returns_bind.
  - apply check_player_status_returns, wait_for_round_between; [done|].
    unfold between_rounds. set_solver.
  - intros d' Hd'. eapply returns_mono; [apply set_player_matchover_status_returns, Hd'|].
    intros d'' Hv. by apply (between_same d').
Qed.

Lemma step_unready_returns d :
  between d -> returns (step_unready room iv ROOM_IDLE d) between.
Proof.
  intros Hd. unfold step_unready. eapply returns_bind; [by apply check_player_chips_returns|].
  intros d1 Hd1. destruct (is_game_can_start d1); apply returns_ret; [|done].
  apply wait_for_round_between; [exact Hd1|]. unfold between_rounds. set_solver.
Qed.

(** *** Requests *)

Lemma player_close_account_box_returns d uid :
  inv (view d) -> is_Some (m_objects d !! uid) ->
  returns (player_close_account_box room iv ROOM_IDLE uid d) (fun d' => goes_on (view d) (view d')).
Proof.
  intros Hinv [p Hp]. unfold player_close_account_box.
  assert (get_player uid d = Ok p) as -> by (unfold get_player; by rewrite Hp).
  cbn [mbind outcome_bind]. destruct (is_seated_player p); cbn [negb]; [|by apply returns_ret].
  destruct (is_distribut d) eqn:Hdist; cbn [negb]; [|by apply returns_ret].
  destruct (is_player_playing p); cbn [negb]; [|by apply returns_ret].
  assert (between d) as Hd.
  { apply inv_is_game_over; [done|]. unfold is_game_over. unfold is_distribut in Hdist.
    by rewrite Hdist, !orb_true_r. }
  eapply returns_bind; [apply set_player_phase_returns; by rewrite Hp|]. intros d1 [Hv1 _].
  assert (between (broadcast (CloseAccountBox uid) d1)) as Hd1 by by apply (between_same d).
  eapply returns_bind; [apply all_over_account_returns; exact (between_linked _ Hd1)|].
  intros over_now _. destruct over_now; cbn [negb].
  - eapply returns_mono; [by apply ready_for_next_game_returns|]. intros d2. apply between_goes_on.
  - apply returns_ret. by apply between_goes_on.
Qed.

End between_games.
