(* ===== verification/Scan.v ===== *)
(** * Going round the table

    The loops of GameDesk.cpp that look for the next seat: they stop after at
    most one round, at the first seat that passes the test. *)
From Stdlib Require Import ZArith Lia String.
From stdpp Require Import base tactics numbers sorting option gmap strings sets list.
From S2P Require Import Prelude Cards Dealer Straight Declare Search Found Hand.
From S2P Require Import Player Seat Desk Play Round Room Table Protocol.

(** [m] is the first seat after [n] that passes the test, or [n] itself when no
    other seat does. *)
Definition first_after (test : GameSeat -> bool) (seats : list GameSeat) (n m : Z) : Prop :=
  exists k, (1 <= k <= 5)%nat /\ m = Z.of_nat (seat_after n k) /\
    (k = 5%nat \/ exists s, seats !! seat_after n k = Some s /\ test s = true) /\
    forall j s, (1 <= j < k)%nat -> seats !! seat_after n j = Some s -> test s = false.

Lemma seat_after_lt n k : (seat_after n k < 5)%nat.
Proof. unfold seat_after. pose proof (Z.mod_pos_bound (n + Z.of_nat k) 5). lia. Qed.

Lemma seat_after_5 n : 0 <= n <= 4 -> Z.of_nat (seat_after n 5) = n.
Proof.
  intros Hn. unfold seat_after. change (Z.of_nat 5) with (1 * 5). rewrite Z.mod_add by done.
  rewrite Z.mod_small by lia. lia.
Qed.

Lemma seat_after_ne n k : 0 <= n <= 4 -> (1 <= k <= 4)%nat -> Z.of_nat (seat_after n k) <> n.
Proof.
  intros Hn Hk. unfold seat_after. rewrite Z2Nat.id by by apply Z.mod_pos_bound.
  destruct (decide (n + Z.of_nat k < 5)).
  - rewrite Z.mod_small by lia. lia.
  - replace (n + Z.of_nat k) with ((n + Z.of_nat k - 5) + 1 * 5) by lia.
    rewrite Z.mod_add, Z.mod_small by lia. lia.
Qed.

(** Every other seat is met on the way. *)
Lemma seat_after_surj n i :
  0 <= n <= 4 -> (i < 5)%nat -> Z.of_nat i <> n -> exists k, (1 <= k <= 4)%nat /\ seat_after n k = i.
Proof.
  intros Hn Hi Hne. exists (Z.to_nat ((Z.of_nat i - n) mod 5)).
  assert ((Z.of_nat i - n) mod 5 <> 0) as Hz.
  { intros Hz%Z.mod_divide; [|done]. destruct Hz as [q Hq]. lia. }
  pose proof (Z.mod_pos_bound (Z.of_nat i - n) 5). split; [lia|].
  unfold seat_after. rewrite Z2Nat.id by lia. rewrite Zplus_mod_idemp_r.
  replace (n + (Z.of_nat i - n)) with (Z.of_nat i) by lia. rewrite Z.mod_small by lia. lia.
Qed.

Section scan.
Context {M G : Type}.
Abbreviation desk := (GameDesk M G).
Implicit Type d : desk.

Lemma next_seat_number_after d n k :
  0 <= n -> next_seat_number d (Z.of_nat (seat_after n k)) = Z.of_nat (seat_after n (S k)).
Proof.
  intros Hn. unfold next_seat_number, seat_after, m_max_seat_num.
  pose proof (Z.mod_pos_bound (n + Z.of_nat k) 5).
  pose proof (Z.mod_pos_bound (n + Z.of_nat (S k)) 5).
  rewrite Z.rem_mod_nonneg by lia. rewrite !Z2Nat.id by lia.
  change (Z.of_nat 5) with 5. rewrite Zplus_mod_idemp_l. f_equal. lia.
Qed.

Lemma next_seat_number_first d n :
  0 <= n -> next_seat_number d n = Z.of_nat (seat_after n 1).
Proof.
  intros Hn. unfold next_seat_number, seat_after, m_max_seat_num.
  pose proof (Z.mod_pos_bound (n + Z.of_nat 1) 5).
  rewrite Z.rem_mod_nonneg, Z2Nat.id by lia. done.
Qed.

Lemma seat_at_nat d i s : m_seats d !! i = Some s -> seat_at (Z.of_nat i) d = Ok s.
Proof.
  intros Hi. unfold seat_at. destruct (0 <=? Z.of_nat i) eqn:E; [|lia]. by rewrite Nat2Z.id, Hi.
Qed.

Lemma scan_seats_spec fuel test n k d :
  length (m_seats d) = m_max_seat_num -> 0 <= n <= 4 ->
  (1 <= k <= 5)%nat -> (6 <= fuel + k)%nat ->
  (forall j s, (1 <= j < k)%nat -> m_seats d !! seat_after n j = Some s -> test s = false) ->
  returns (scan_seats fuel test n (Z.of_nat (seat_after n k)) d)
    (fun m => first_after test (m_seats d) n m).
Proof.
  intros Hlen Hn. revert k; induction fuel as [|fuel IH]; intros k Hk Hfuel Hbefore; [lia|].
  cbn [scan_seats]. destruct (_ =? n) eqn:E.
  - apply Z.eqb_eq in E. apply returns_ret. exists k. split_and!; [lia..|done| |done].
    left. destruct (decide (k = 5%nat)) as [|Hk5]; [done|]. exfalso.
    by apply (seat_after_ne n k); [done|lia|].
  - apply Z.eqb_neq in E.
    assert (k <> 5%nat) as Hk5 by (intros ->; rewrite seat_after_5 in E; done).
    destruct (lookup_lt_is_Some_2 (m_seats d) (seat_after n k)) as [s Hs].
    { rewrite Hlen. apply seat_after_lt. }
    rewrite (seat_at_nat _ _ _ Hs). cbn [mbind outcome_bind]. destruct (test s) eqn:Ht.
    + apply returns_ret. exists k. split_and!; [lia..|done| |done]. right. by exists s.
    + rewrite next_seat_number_after by lia. apply IH; [lia..|].
      intros j t Hj Ht'. destruct (decide (j = k)) as [->|]; [congruence|].
      apply (Hbefore j); [lia|done].
Qed.

Lemma next_test_returns test n d :
  length (m_seats d) = m_max_seat_num -> 0 <= n <= 4 ->
  returns (scan_seats m_max_seat_num test n (next_seat_number d n) d)
    (fun m => first_after test (m_seats d) n m).
Proof.
  intros Hlen Hn. rewrite next_seat_number_first by lia.
  apply scan_seats_spec; [done..|lia|unfold m_max_seat_num; lia|]. intros; lia.
Qed.

(** With another seat that passes, the scan finds one. *)
Lemma first_after_found test seats n m i s :
  length seats = m_max_seat_num -> 0 <= n <= 4 ->
  first_after test seats n m -> seats !! i = Some s -> test s = true -> Z.of_nat i <> n ->
  exists j t, m = Z.of_nat j /\ m <> n /\ seats !! j = Some t /\ test t = true.
Proof.
  intros Hlen Hn (k & Hk & -> & Hor & Hbefore) Hi Ht Hne.
  assert (i < 5)%nat as Hi5 by (apply lookup_lt_Some in Hi; by rewrite Hlen in Hi).
  destruct (seat_after_surj n i Hn Hi5 Hne) as (k' & Hk' & Hik).
  destruct Hor as [->|(t & Ht1 & Ht2)].
  - exfalso. rewrite <- Hik in Hi. specialize (Hbefore k' s ltac:(lia) Hi). congruence.
  - assert (k <> 5%nat) as Hk5.
    { intros ->. rewrite <- Hik in Hi. specialize (Hbefore k' s ltac:(lia) Hi). congruence. }
    exists (seat_after n k), t. split_and!; [done|apply seat_after_ne; [done|lia]|done|done].
Qed.

(** *** The order of the deal *)

Definition seated_at d (i : nat) : bool :=
  match m_seats d !! i with Some s => is_seated s | None => false end.

Lemma deal_order_loop_spec fuel n k order d :
  length (m_seats d) = m_max_seat_num -> 0 <= n <= 4 -> (fuel + k = 5)%nat -> (1 <= fuel)%nat ->
  returns (deal_order_loop fuel n (Z.of_nat (seat_after n k)) order d) (fun r =>
    r = order ++ (Z.of_nat <$>
      filter (fun i => seated_at d i = true) (seat_after n <$> seq k fuel))).
Proof.
  intros Hlen Hn. revert k order; induction fuel as [|fuel IH]; intros k order Hk Hf; [lia|].
  cbn [deal_order_loop seq fmap list_fmap].
  destruct (lookup_lt_is_Some_2 (m_seats d) (seat_after n k)) as [s Hs].
  { rewrite Hlen. apply seat_after_lt. }
  rewrite (seat_at_nat _ _ _ Hs). cbn [mbind outcome_bind]. rewrite next_seat_number_after by lia.
  assert (seated_at d (seat_after n k) = is_seated s) as Hse by (unfold seated_at; by rewrite Hs).
  rewrite filter_cons, Hse.
  destruct (_ =? n) eqn:E.
  - apply Z.eqb_eq in E. assert (fuel = 0%nat) as ->.
    { destruct (decide (fuel = 0%nat)) as [|Hne]; [done|]. exfalso.
      by apply (seat_after_ne n (S k)); [done|lia|]. }
    apply returns_ret. destruct (is_seated s); simpl; [done|by rewrite app_nil_r].
  - apply Z.eqb_neq in E. destruct (decide (fuel = 0%nat)) as [->|Hne].
    { exfalso. apply E. replace (S k) with 5%nat by lia. by apply seat_after_5. }
    eapply returns_mono; [apply IH; lia|]. intros r ->.
    destruct (is_seated s); simpl; [by rewrite <- (assoc_L (++))|done].
Qed.

Lemma seat_after_0 n : 0 <= n <= 4 -> Z.of_nat (seat_after n 0) = n.
Proof. intros Hn. unfold seat_after. rewrite Z.mod_small by lia. lia. Qed.

(** C39: The turn passes to the first seat after the active one, going round the
    table, that is in the game; the loop stops after one round at most, and
    comes back to the seat it started from only when no other is in the game. *)
Theorem next_ingame_seat_number_correct d n :
  length (m_seats d) = m_max_seat_num -> 0 <= n <= 4 ->
  exists m, next_ingame_seat_number n d = Ok m /\ first_after is_in_game (m_seats d) n m.
Proof. intros Hlen Hn. exact (next_test_returns is_in_game n d Hlen Hn). Qed.

Lemma get_player_deal_order_eq d :
  length (m_seats d) = m_max_seat_num -> 0 <= m_dealer_index d <= 4 ->
  get_player_deal_order d =
    Ok (Z.of_nat <$> filter (fun i => seated_at d i = true)
          (seat_after (m_dealer_index d) <$> seq 0 5)).
Proof.
  intros Hlen Hn. unfold get_player_deal_order.
  rewrite <- (seat_after_0 (m_dealer_index d)) at 2 by done.
  by destruct (deal_order_loop_spec m_max_seat_num (m_dealer_index d) 0 [] d Hlen Hn eq_refl
                 ltac:(unfold m_max_seat_num; lia)) as (r & -> & ->).
Qed.

(** [get_player_deal_order] returns the numbers of the occupied seats, each
    once, beginning with the dealer's and going round the table. *)
Theorem get_player_deal_order_correct d :
  length (m_seats d) = m_max_seat_num -> 0 <= m_dealer_index d <= 4 ->
  get_player_deal_order d =
    Ok (Z.of_nat <$> filter (fun i => seated_at d i = true)
          (seat_after (m_dealer_index d) <$> seq 0 5)).
Proof. exact (get_player_deal_order_eq d). Qed.
End scan.

(** A table of five seats, the third one occupied and playing. *)
Definition one_playing : GameDesk unit Z :=
  put_seat 2 (with_status (Z.lor Status.seated Status.ingame) new_seat)
    (new_desk (mkDealer [] []) tt 0 0).

Lemma next_ingame_seat_number_correct_witness :
  length (m_seats one_playing) = m_max_seat_num /\ 0 <= 0 <= 4 /\
  next_ingame_seat_number 0 one_playing = Ok 2 /\
  exists m, next_ingame_seat_number 0 one_playing = Ok m /\
    first_after is_in_game (m_seats one_playing) 0 m.
Proof.
  split_and!; [done..|]. by apply (next_ingame_seat_number_correct one_playing 0).
Defined.

Lemma get_player_deal_order_correct_witness :
  length (m_seats one_playing) = m_max_seat_num /\ 0 <= m_dealer_index one_playing <= 4 /\
  get_player_deal_order one_playing =
    Ok (Z.of_nat <$> filter (fun i => seated_at one_playing i = true)
          (seat_after (m_dealer_index one_playing) <$> seq 0 5)) /\
  get_player_deal_order one_playing = Ok [2].
Proof.
  split_and!; [done..| |vm_compute; reflexivity].
  by apply (get_player_deal_order_correct one_playing).
Defined.
