(* ===== verification/Secrecy.v ===== *)
(** * The messages for one client can be built

    Lemmas on Snapshot.v: none of its messages follows a null pointer or looks
    outside of a container, on a desk whose seats and players are linked. *)
From Stdlib Require Import ZArith Lia String.
From stdpp Require Import base tactics numbers sorting option gmap strings sets list.
From S2P Require Import Prelude Cards Dealer Straight Declare Search Found Hand.
From S2P Require Import Player Seat Desk Snapshot Play Round Room Table Protocol Settle Scan.

Section told.
Context {M G : Type}.
Variables (room : RoomInfo) (iv : TimeInterval).
Abbreviation desk := (GameDesk M G).
Implicit Type d : desk.

(** ** The messages can be built *)

(** The seats that players point to exist. *)
Definition seats_exist d : Prop :=
  forall uid p i, m_objects d !! uid = Some p -> m_pGameSeat p = Some i -> is_Some (m_seats d !! i).

Lemma linked_seats_exist d : linked (m_seats d) (links (m_objects d)) -> seats_exist d.
Proof.
  intros Hl uid p i Hp Hi. destruct (linked_player _ _ Hl uid (m_player_id p) (Some i)) as [_ Hs].
  { by rewrite links_lookup, Hp, <- Hi. }
  destruct (Hs i eq_refl) as (s & Hs' & _). by exists s.
Qed.

Lemma seats_exist_same d d' :
  links (m_objects d') = links (m_objects d) -> length (m_seats d') = length (m_seats d) ->
  seats_exist d -> seats_exist d'.
Proof.
  intros Hlk Hlen He uid p' i Hp' Hi. pose proof (links_lookup (m_objects d') uid) as Hl'.
  rewrite Hlk, links_lookup, Hp' in Hl'. destruct (m_objects d !! uid) as [p|] eqn:Hp; [|done].
  injection Hl' as _ Hs. rewrite Hi in Hs. apply lookup_lt_is_Some. rewrite Hlen.
  apply lookup_lt_is_Some. exact (He uid p i Hp Hs).
Qed.

Lemma shown_hand_returns b d uid p :
  seats_exist d -> m_objects d !! uid = Some p -> returns (shown_hand b p d) (fun _ => True).
Proof.
  intros He Hp. unfold shown_hand. destruct (m_pGameSeat p) as [i|] eqn:Hi; [|by apply returns_ret].
  destruct (He uid p i Hp Hi) as [s ->]. by apply returns_ret.
Qed.

Lemma get_seat_player_returns d :
  linked (m_seats d) (links (m_objects d)) -> returns (get_seat_player d) (fun _ => True).
Proof.
  intros Hl. unfold get_seat_player. apply (returns_mfold (fun _ => True)); [done|].
  intros l s [i Hi]%list_elem_of_lookup _. destruct (is_seated s) eqn:Hs; cbn [negb]; [|by apply returns_ret].
  destruct (m_player s) as [uid|] eqn:Hu.
  - destruct (seat_player_Ok d i s uid Hl Hi Hu) as (p & Hp & _). unfold player_info. rewrite Hp.
    by apply returns_ret.
  - destruct (linked_empty _ _ Hl i s Hi Hu). congruence.
Qed.

Lemma player_flush_room_returns uid d :
  linked (m_seats d) (links (m_objects d)) -> is_Some (m_objects d !! uid) ->
  returns (player_flush_room room iv uid d) (fun d' =>
    exists request, d' = send (SendRequests [(uid, FlushRoom request)]) d).
Proof.
  intros Hl [p Hp]. unfold player_flush_room, get_player. rewrite Hp. cbn [deref mbind outcome_bind].
  eapply (returns_bind _ _ (fun _ => True)); [|intros r _; apply returns_ret; by exists r].
  unfold flush_room_request.
  eapply returns_bind; [exact (shown_hand_returns true d uid p (linked_seats_exist d Hl) Hp)|]. intros hand _.
  eapply returns_bind; [by apply get_seat_player_returns|]. intros players _. by apply returns_ret.
Qed.

Lemma broadcast_deal_cards_returns d :
  length (m_seats d) = m_max_seat_num -> 0 <= m_dealer_index d <= 4 -> m_pokercard_pool d <> [] ->
  seats_exist d ->
  returns (broadcast_deal_cards d) (fun d' => exists messages, d' = send (SendRequests messages) d).
Proof.
  intros Hlen Hdl Hpool He. unfold broadcast_deal_cards.
  eapply (returns_bind _ _ (fun _ => True)); [|intros ms _; apply returns_ret; by exists ms].
  apply (returns_mfold (fun _ => True)); [done|]. intros l uid Huid _.
  unfold recipients in Huid. apply list_elem_of_filter in Huid as [Hr _]. unfold receives in Hr.
  destruct (m_objects d !! uid) as [p|] eqn:Hp; [|done].
  unfold send_deal_cards, get_player. rewrite Hp. cbn [deref mbind outcome_bind].
  rewrite (get_player_deal_order_eq d Hlen Hdl). cbn [mbind outcome_bind].
  eapply (returns_bind _ _ (fun _ => True)); [|intros m _; by apply returns_ret].
  eapply returns_bind; [by apply (shown_hand_returns _ _ uid)|]. intros hand _.
  destruct (m_pokercard_pool d) as [|front pool]; [done|]. cbn [head access mbind outcome_bind].
  by apply returns_ret.
Qed.
End told.
