(* ===== verification/Turn.v ===== *)
(** * Turns

    The active player's turn keeps the table invariant and runs without a
    fault: digging a card, posting one, the reshuffle of the pool, and the
    passing of the turn. *)
From Stdlib Require Import ZArith Lia String.
From stdpp Require Import base tactics numbers sorting option gmap strings sets list.
From S2P Require Import Prelude Cards Dealer Straight Declare Search Found Hand.
From S2P Require Import Player Seat Desk Play Round Room Table Protocol Settle Seating Between Scan.

(** ** The reshuffle *)

Section shuffle.
Context {M G : Type} `{RandGen G}.
Abbreviation desk := (GameDesk M G).
Implicit Type d : desk.

(** The loop empties [cards] into [bottom], in some order. *)
Lemma shuffle_loop_perm fuel cards bottom (g : G) :
  (length cards <= fuel)%nat ->
  returns (shuffle_loop fuel cards bottom g) (fun r =>
    exists moved, r.1 = bottom ++ moved /\ moved ≡ₚ cards).
Proof.
  revert cards bottom g; induction fuel as [|fuel IH]; intros cards bottom g Hf.
  { destruct cards; [|simpl in Hf; lia]. apply returns_ret. exists []. by rewrite app_nil_r. }
  destruct cards as [|c0 cards']; [apply returns_ret; exists []; by rewrite app_nil_r|].
  cbn [shuffle_loop]. set (cards := c0 :: cards').
  pose proof (rand_index g (length cards) ltac:(simpl; lia)) as Hi.
  destruct (rand g) as [r g']. cbn [fst] in Hi.
  destruct (lookup_lt_is_Some_2 cards _ Hi) as [c Hc]. rewrite Hc. cbn [access mbind outcome_bind].
  destruct (last cards) as [back|] eqn:Hl; [|by apply last_None in Hl].
  set (i := Z.to_nat _) in *.
  eapply (returns_bind _ _ (fun l => c :: take (pred (length l)) l ≡ₚ cards)).
  { case_match eqn:Hsize.
    - cbn [access mbind outcome_bind]. apply returns_ret. rewrite length_insert.
      by apply take_insert_last.
    - apply returns_ret. apply Z.ltb_ge in Hsize. unfold cards in *. destruct cards'; [|simpl in *; lia].
      simpl in *. destruct i; [|done]. simpl in Hc. by injection Hc as ->. }
  intros l Hperm. eapply returns_mono; [apply IH|].
  - apply Permutation_length in Hperm. simpl in *. lia.
  - intros r' (moved & -> & Hm). exists (c :: moved). split; [by rewrite <- (assoc_L (++))|].
    by rewrite Hm.
Qed.

Lemma step_shuffle_card_returns d :
  (2 <= length (m_pokercard_pool d))%nat ->
  returns (step_shuffle_card d) (fun d' => exists moved,
    view d' = (view d) <| v_bottom := m_bottom_cards d ++ moved |>
                <| v_pool := drop (length (m_pokercard_pool d) - 2) (m_pokercard_pool d) |> /\
    moved ≡ₚ take (length (m_pokercard_pool d) - 2) (m_pokercard_pool d) /\
    drawn_out d' = drawn_out d).
Proof.
  intros Hp. unfold step_shuffle_card. rewrite decide_True by lia.
  cbn [access mbind outcome_bind].
  replace (Z.to_nat (Z.of_nat (length (m_pokercard_pool d)) - 2))
    with (length (m_pokercard_pool d) - 2)%nat by lia.
  eapply returns_bind; [apply shuffle_loop_perm; rewrite length_take; lia|].
  intros [bottom g] (moved & Hb & Hm). cbn [fst] in Hb. subst bottom. apply returns_ret.
  by exists moved.
Qed.
End shuffle.

(** ** Passing the turn *)

Section turn.
Context {M G : Type} `{MoneyService M} `{RandGen G}.
Context (room : RoomInfo) `{!PrintableRoom room}.
Variables (iv : TimeInterval) (ROOM_IDLE ROOM_PLAYING ROOM_END1 : Z).
Abbreviation desk := (GameDesk M G).
Implicit Type d : desk.

Lemma phase_statused d r : phase (view d) r -> in_round r (m_game_status d) -> statused (view d).
Proof. intros Hph Hst. exists r. split; [done|by eapply phase_round]. Qed.

(** The round of a desk, from its status bits. *)
Lemma inv_phase d round :
  inv (view d) -> has (m_game_status d) round = true -> round ∈ rounds ->
  phase (view d) round /\ in_round round (m_game_status d).
Proof.
  intros (_ & _ & r & Hst & Hph) Hhas Hin.
  rewrite (in_round_cases r) in Hhas by (done || by eapply phase_round).
  by apply bool_decide_eq_true in Hhas as ->.
Qed.

(** The seat of the active player. *)
Lemma active_player_seat d uid p :
  linked (m_seats d) (links (m_objects d)) -> m_objects d !! uid = Some p ->
  is_active_player p d = true ->
  exists i s, m_active_seatnum d = Z.of_nat i /\ m_pGameSeat p = Some i /\
    m_seats d !! i = Some s /\ m_player s = Some uid /\ seat_at (m_active_seatnum d) d = Ok s.
Proof.
  intros Hl Hp Hact. unfold is_active_player in Hact.
  destruct (m_active_seatnum d =? -1) eqn:E; [done|].
  apply Z.eqb_eq in Hact. apply Z.eqb_neq in E. unfold get_seat_number in Hact.
  destruct (m_pGameSeat p) as [i|] eqn:Hs; [|lia].
  destruct (seat_of_player _ _ _ _ Hl Hp Hs) as (_ & s & Hi & Hu).
  exists i, s. split_and!; [done..|]. rewrite <- Hact. by apply seat_at_nat.
Qed.

(** What the next player needs: the game goes on, and there are cards. *)
Definition turning (d : desk) : Prop :=
  core (view d) /\ balanced (view d) /\ statused (view d) /\ turns (-1) (view d) /\
  stocked (view d) /\
  (m_active_seatnum d = -1 /\ plays (m_dealer_index d) (view d) \/ 0 <= m_active_seatnum d <= 4).

Lemma turning_view d d' : turning d -> view d' = view d -> turning d'.
Proof.
  unfold turning. change (m_active_seatnum d') with (v_active (view d')).
  change (m_dealer_index d') with (v_dealer (view d')). by intros H1 ->.
Qed.

(** The seat that gets the turn. *)
Definition turn_to (n : Z) (d : desk) : Prop :=
  plays n (view d) /\
  if m_active_seatnum d =? -1 then n = m_dealer_index d
  else first_after is_in_game (m_seats d) (m_active_seatnum d) n.

Lemma turn_to_view d d' n : turn_to n d -> view d' = view d -> turn_to n d'.
Proof.
  unfold turn_to. change (m_active_seatnum d') with (v_active (view d')).
  change (m_dealer_index d') with (v_dealer (view d')).
  change (m_seats d') with (v_seats (view d')). by intros H1 ->.
Qed.

Lemma turning_next d :
  turning d ->
  returns (if m_active_seatnum d =? -1 then mret (m_dealer_index d)
           else next_ingame_seat_number (m_active_seatnum d) d) (fun n => turn_to n d).
Proof.
  intros (Hc & _ & _ & Ht & _ & Hor). unfold turn_to. destruct (_ =? -1) eqn:E.
  - apply returns_ret. destruct Hor as [[_ Hp]|]; [done|lia].
  - apply Z.eqb_neq in E. destruct Hor as [[? _]|Hrange]; [done|].
    pose proof (core_seats _ Hc) as Hlen. simpl in Hlen.
    eapply returns_mono; [by apply next_test_returns|]. intros m Hm. split; [|done].
    destruct (count_of_other is_in_game (m_seats d) (Z.to_nat (m_active_seatnum d)) (turns_count _ _ Ht))
      as (j & t & Hne & Hj & Hg).
    destruct (first_after_found _ _ _ _ _ _ Hlen Hrange Hm Hj Hg ltac:(lia)) as (k & u & -> & _ & Hk & Hu).
    by exists k, u.
Qed.

Lemma ingame_player d i s :
  linked (m_seats d) (links (m_objects d)) -> m_seats d !! i = Some s -> is_in_game s = true ->
  exists uid, m_player s = Some uid.
Proof.
  intros Hl Hi Hg. destruct (m_player s) as [uid|] eqn:Hu; [by exists uid|].
  by rewrite (proj2 (linked_empty _ _ Hl _ _ Hi Hu)) in Hg.
Qed.

Lemma deduct_draw_tips_returns d :
  core (view d) -> returns (deduct_draw_tips room d) (fun d' => view d' = view d).
Proof.
  intros Hc. unfold deduct_draw_tips. destruct (_ =? 0); [by apply returns_ret|].
  apply for_seats_quiet. intros d' i s Hv Hi.
  destruct (is_in_game s) eqn:Hg; [|by apply returns_ret].
  assert (linked (m_seats d') (links (m_objects d'))) as Hl.
  { change (linked (v_seats (view d')) (v_links (view d'))). rewrite Hv. apply Hc. }
  destruct (ingame_player _ _ _ Hl Hi Hg) as [uid Hu].
  destruct (seat_player_Ok _ _ _ _ Hl Hi Hu) as (p & -> & Hp & _). cbn [mbind outcome_bind].
  pose proof (bet_chips_place (m_draw_tips room) 0 p (m_money d')) as [Hid Hps].
  destruct (bet_chips _ _ _ _) as [[[x real] p'] money]. cbn [fst snd] in *. apply returns_ret.
  by rewrite <- Hv, <- (view_put_player uid p p' d').
Qed.

(** The turn has passed, or the game is drawn. *)
Definition turned d d' : Prop :=
  if drawn_out d then between d'
  else exists n, turn_to n d /\
    view d' = (view d) <| v_active := n |> <| v_status := Z.lor GAME_WAIT_MASK GAME_ACTIVE1 |>.

Lemma active_player_returns extra d :
  turning d ->
  returns (active_player room iv ROOM_IDLE extra d) (fun d' => turned d d').
Proof.
  intros Hd. unfold active_player, turned. eapply returns_bind; [by apply turning_next|]. intros n Hn.
  pose proof Hd as (Hc & Hb & Hst & Ht & Hsk & _).
  set (d1 := d <| m_active_seatnum := n |>).
  assert (core (view d1)) as Hc1 by (apply (core_same _ _ Hc); try done; apply Hc).
  change (m_time_game_begin d1 + m_draw_sec d1 <? m_now d1) with (drawn_out d).
  destruct (drawn_out d).
  - eapply returns_bind; [by apply deduct_draw_tips_returns|]. intros d2 Hv2.
    eapply returns_mono; [apply (step_gameover_distrbute_returns room); rewrite Hv2|].
    + done.
    + by destruct Hb.
    + left. apply (turns_apply _ _ Ht).
    + done.
    + intros d3 (H1 & H2 & H3 & H4 & _). split_and!; [done..|]. exists GAME_DISTRIBUTE.
      split; [by_decision|by right].
  - pose proof Hn as [(i & s & Hni & Hi & Hg) _]. subst n. simpl in Hi.
    change (seat_at (m_active_seatnum d1) d1) with (seat_at (Z.of_nat i) d1).
    rewrite (seat_at_nat d1 i s Hi). cbn [mbind outcome_bind].
    pose proof (core_linked _ Hc1) as Hl. destruct (ingame_player d1 i s Hl Hi Hg) as [uid Hu].
    destruct (seat_player_Ok d1 i s uid Hl Hi Hu) as (p & -> & _). cbn [mbind outcome_bind].
    destruct (last (m_pokercard_pool d1)) as [back|] eqn:Hlast.
    2: { apply last_None in Hlast. destruct Hsk as (_ & Hpool & _). simpl in *. rewrite Hlast in Hpool.
         simpl in Hpool. lia. }
    cbn [access mbind outcome_bind]. apply returns_ret. exists (Z.of_nat i). split; [done|].
    assert (statused (view d1)) as Hst1 by done.
    destruct (is_player_trusteed_on p); by rewrite <- (wait_for_round_view _ 0 d1 Hst1).
Qed.

Lemma turn_to_inv n d d' :
  turning d -> turn_to n d ->
  view d' = (view d) <| v_active := n |> <| v_status := Z.lor GAME_WAIT_MASK GAME_ACTIVE1 |> ->
  inv (view d').
Proof.
  intros (Hc & Hb & Hst & Ht & Hsk & _) [Hp _] ->. split_and!.
  - apply (core_same _ _ Hc); try done. apply Hc.
  - by destruct Hb.
  - exists GAME_ACTIVE1. split; [by right|]. by apply phase_active1; [destruct Ht|..].
Qed.

(** The turn goes to the next player. *)
Lemma first_after_next seats a n :
  length seats = m_max_seat_num -> first_after is_in_game seats a n ->
  (exists i s, n = Z.of_nat i /\ seats !! i = Some s /\ is_in_game s = true) ->
  next_player (is_in_game <$> seats) a n.
Proof.
  intros Hlen (k & Hk & -> & _ & Hbefore) (i & s & Hi%Nat2Z.inj & Hs & Hg). subst i.
  exists k. split_and!; [lia..|done| |].
  - by rewrite (players_lookup _ _ s), Hg.
  - intros j Hj. destruct (lookup_lt_is_Some_2 seats (seat_after a j)) as [t Ht].
    { rewrite Hlen. apply seat_after_lt. }
    by rewrite (players_lookup _ _ t), (Hbefore j t).
Qed.

Lemma turn_to_turn n d :
  core (view d) -> turn_to n d -> turn_of (is_in_game <$> m_seats d) (m_active_seatnum d) n.
Proof.
  intros Hc [Hp Hn]. unfold turn_of. destruct (_ =? -1).
  - destruct Hp as (i & s & -> & Hi & Hg). exists i. by rewrite (players_lookup _ _ s), Hg.
  - apply first_after_next; [exact (core_seats _ Hc)|done|exact Hp].
Qed.

(** What a spectator sees of it. *)
Lemma turn_to_spectate n d d' :
  m_apply_declare_seatnum d = -1 ->
  view d' = (view d) <| v_active := n |> <| v_status := Z.lor GAME_WAIT_MASK GAME_ACTIVE1 |> ->
  spectate (view d') = Playing GAME_ACTIVE1 n (-1) (is_in_game <$> m_seats d).
Proof.
  intros Ha ->. rewrite (spectate_shown _ GAME_ACTIVE1); [|by right|by_decision].
  simpl. by rewrite Ha.
Qed.

Lemma turned_goes_on d r d' :
  turning d -> in_round r (m_game_status d) ->
  r ∈ [GAME_DEALER_CARD; GAME_ACTIVE1; GAME_SHUFFLE_CARD] ->
  turned d d' -> goes_on (view d) (view d').
Proof.
  intros Hd Hr Hin. unfold turned.
  destruct (drawn_out d); [apply between_goes_on|].
  intros (n & Hn & Hv). split; [by eapply turn_to_inv|]. right.
  pose proof Hd as (Hc & _ & _ & Ht & _).
  rewrite (turn_to_spectate n d d') by (done || apply (turns_apply _ _ Ht)).
  rewrite (spectate_shown (view d) r).
  - rewrite (turns_apply _ _ Ht). constructor; [done|]. by apply turn_to_turn.
  - done.
  - repeat (apply elem_of_cons in Hin as [->|Hin]); [by_decision..|by apply elem_of_nil in Hin].
Qed.

Lemma active_player_goes_on extra d r :
  turning d -> in_round r (m_game_status d) ->
  r ∈ [GAME_DEALER_CARD; GAME_ACTIVE1; GAME_SHUFFLE_CARD] ->
  returns (active_player room iv ROOM_IDLE extra d) (fun d' => goes_on (view d) (view d')).
Proof.
  intros Hd Hr Hin. eapply returns_mono; [by apply active_player_returns|]. intros d'.
  by apply (turned_goes_on d r).
Qed.

(** The rounds from which the turn passes. *)
Lemma phase_turning d r :
  core (view d) -> balanced (view d) -> in_round r (m_game_status d) -> phase (view d) r ->
  r ∈ [GAME_DEALER_CARD; GAME_ACTIVE1; GAME_SHUFFLE_CARD] -> turning d.
Proof.
  intros Hc Hb Hst Hph Hr.
  assert (statused (view d)) as Hstat by by apply (phase_statused d r).
  inversion Hph; subst; try (exfalso; clear -Hr; set_solver).
  - split_and!; [done..|]. by left.
  - split_and!; [done..|]. right. destruct H3 as (i & s & Ha & Hi & _). simpl in Ha.
    apply lookup_lt_Some in Hi. pose proof (core_seats _ Hc) as Hlen. rewrite Hlen in Hi.
    unfold m_max_seat_num in Hi. lia.
  - split_and!; [done..|]. by right.
Qed.
End turn.
