(* ===== verification/DigPost.v ===== *)
(** * Digging and posting

    The two halves of a turn keep the table invariant and run without a fault:
    the active player digs a card from the bottom or the pool, then posts one,
    himself or by the time-out; then the turn passes, or the pool is
    reshuffled. *)
From Stdlib Require Import ZArith Lia String.
From stdpp Require Import base tactics numbers sorting option gmap strings sets list.
From S2P Require Import Prelude Cards Dealer Straight Declare Search Found Hand.
From S2P Require Import Player Seat Desk Play Round Room Table Protocol Settle Seating Between Scan Turn.

(** ** The view after a card has changed hands *)

Lemma hand_size_cases v s :
  core v -> s ∈ v_seats v ->
  length (m_handcards_total s) = 0%nat \/ length (m_handcards_total s) = 13%nat \/
  length (m_handcards_total s) = 14%nat.
Proof.
  intros Hc Hs. pose proof (core_sizes _ Hc s Hs) as Hz.
  repeat (apply elem_of_cons in Hz as [Hz|Hz]; [tauto|]). by apply elem_of_nil in Hz.
Qed.

(** The seat after it has dug the card. *)
Lemma dig_card_seat card s :
  m_handcards_total (dig_card card s) ≡ₚ card :: m_handcards_total s /\
  length (m_handcards_total (dig_card card s)) = S (length (m_handcards_total s)) /\
  card ∈ m_handcards_total (dig_card card s).
Proof.
  assert (m_handcards_total (dig_card card s) ≡ₚ card :: m_handcards_total s) as Hp.
  { simpl. rewrite sort_cards_perm. symmetry. apply Permutation_cons_append. }
  split_and!; [done|by rewrite Hp|]. rewrite Hp. left.
Qed.

(** A turn moves a card between a seat and the table. *)
Lemma core_move v v' i s s' :
  core v -> v_seats v !! i = Some s -> seat_link s s' ->
  v_seats v' = <[i := s']> (v_seats v) -> v_links v' = v_links v -> v_room v' = v_room v ->
  v_shoe v' = v_shoe v -> v_winner v' = v_winner v ->
  m_handcards_total s' ++ v_bottom v' ++ v_pool v' ≡ₚ
    m_handcards_total s ++ v_bottom v ++ v_pool v ->
  length (m_handcards_total s') ∈ [0; 13; 14]%nat -> 0 <= seat_score s' ->
  core v'.
Proof.
  intros Hc Hi Hl Es El Er Eh Ew Hcards Hsize Hscore.
  apply (core_insert v v' i s s'); try done; [rewrite Ew; apply Hc|].
  unfold table_cards. rewrite Es. pose proof (hands_insert _ _ _ s' Hi) as Hh.
  apply Permutation_submseteq. apply (Permutation_app_inv_r (m_handcards_total s)).
  set (H1 := hands (<[i := s']> (v_seats v))) in *. set (H2 := hands (v_seats v)) in *.
  transitivity ((H1 ++ m_handcards_total s) ++ v_bottom v' ++ v_pool v'); [solve_Permutation|].
  rewrite Hh. transitivity (H2 ++ m_handcards_total s' ++ v_bottom v' ++ v_pool v'); [solve_Permutation|].
  rewrite Hcards. solve_Permutation.
Qed.

(** A seat that stays in the game under another hand. *)
Lemma turns_replace v v' i s s' e :
  turns e v -> v_seats v !! i = Some s -> v_seats v' = <[i := s']> (v_seats v) ->
  v_apply v' = v_apply v -> is_in_game s = true -> is_in_game s' = true -> is_declared s' = false ->
  laid_down s' = laid_down s -> seat_card_group s' = seat_card_group s ->
  forall e', (e' = e \/ e = -1 /\ e' = Z.of_nat i \/ e = Z.of_nat i) ->
  (Z.of_nat i <> e' -> length (m_handcards_total s') = 13%nat) ->
  turns e' v'.
Proof.
  intros [Ta Tc Td Th Tq] Hi Es Ea Hg Hg' Hd' Hlaid Hgr e' He Hh'. split; rewrite ?Es, ?Ea; try done.
  - pose proof (count_of_insert is_in_game _ _ _ s' Hi) as Hc. rewrite Hg, Hg' in Hc. lia.
  - intros j t Hj Hgt. apply list_lookup_insert_Some in Hj as [(-> & -> & _)|[_ Hj]]; [done|].
    by apply (Td j).
  - intros j t Hj Hgt Hne. apply list_lookup_insert_Some in Hj as [(-> & -> & _)|[Hji Hj]]; [auto|].
    apply (Th j t Hj Hgt). destruct He as [->|[[-> _]| ->]]; lia.
  - apply all_concealed_insert; [done|].
    by apply (concealed_same s), (Tq s), (list_elem_of_lookup_2 _ i).
Qed.

Section dig_post.
Context {M G : Type} `{MoneyService M} `{RandGen G}.
Context (room : RoomInfo) `{!PrintableRoom room}.
Variables (iv : TimeInterval) (ROOM_IDLE ROOM_PLAYING ROOM_END1 : Z).
Abbreviation desk := (GameDesk M G).
Implicit Type d : desk.

Lemma count_insert_same (l : list GameSeat) i s s' :
  l !! i = Some s -> is_in_game s' = is_in_game s ->
  count_of is_in_game (<[i := s']> l) = count_of is_in_game l.
Proof. intros Hi Hg. pose proof (count_of_insert is_in_game _ _ _ s' Hi) as Hc. rewrite Hg in Hc. lia. Qed.

(** *** Digging *)

(** The card, and where it came from: the front of the bottom cards or the back
    of the pool. *)
Definition dug_from (digtype : Z) (card : PokerCard) (bottom pool : list PokerCard) d : Prop :=
  if digtype =? DIG_BOTTOM then m_bottom_cards d = card :: bottom /\ pool = m_pokercard_pool d
  else m_pokercard_pool d = pool ++ [card] /\ bottom = m_bottom_cards d.

(** The active player holds the card. *)
Definition dug (uid digtype : Z) d d' : Prop :=
  is_wait_active1 d = true /\
  exists i s card bottom pool,
    m_active_seatnum d = Z.of_nat i /\ m_seats d !! i = Some s /\ m_player s = Some uid /\
    dug_from digtype card bottom pool d /\
    view d' = (view d) <| v_seats := <[i := dig_card card s]> (m_seats d) |>
                <| v_bottom := bottom |> <| v_pool := pool |>
                <| v_status := Z.lor GAME_WAIT_MASK GAME_ACTIVE2 |>.

(** The request is answered by a refusal, or the card may not be dug. *)
Definition dig_refused (uid digtype : Z) d : Prop :=
  (forall p, m_objects d !! uid = Some p -> is_active_player p d = false) \/
  is_wait_active1 d = false \/
  (digtype <> DIG_BOTTOM /\ m_is_first_pool_card d = false /\
   exists card, last (m_pokercard_pool d) = Some card /\ is_joker card (joker_point d) = true).

Lemma player_dig_card_returns uid digtype d :
  inv (view d) -> is_Some (m_objects d !! uid) ->
  returns (player_dig_card iv uid digtype d) (fun d' =>
    (dig_refused uid digtype d /\ view d' = view d) \/ dug uid digtype d d').
Proof.
  intros Hinv [p Hp]. pose proof Hinv as (Hc & Hb & _). pose proof (core_linked _ Hc) as Hl.
  unfold player_dig_card.
  assert (get_player uid d = Ok p) as -> by (unfold get_player; by rewrite Hp).
  cbn [mbind outcome_bind]. destruct (is_active_player p d) eqn:Hact; cbn [negb orb].
  2: { apply returns_ret. left. split; [|done]. left. intros; congruence. }
  destruct (is_wait_active1 d) eqn:H1; cbn [negb].
  2: { apply returns_ret. left. split; [|done]. by right; left. }
  destruct (inv_phase d GAME_ACTIVE1 Hinv H1) as [Hph Hst]; [by_decision|].
  assert (turns (-1) (view d) /\ stocked (view d)) as [Ht Hsk] by by inversion Hph.
  destruct (active_player_seat _ _ _ Hl Hp Hact) as (i & s & Ha & Hps & Hi & Hu & Hat).
  pose proof Hsk as (Hsk1 & Hsk2 & _). simpl in Hsk1, Hsk2.
  destruct (m_bottom_cards d) as [|front bottom] eqn:Hbot; [simpl in Hsk1; lia|].
  assert (exists pool back, m_pokercard_pool d = pool ++ [back]) as (pool & back & Hpool).
  { destruct (m_pokercard_pool d) as [|x l] eqn:E using rev_ind; [simpl in Hsk2; lia|by eauto]. }
  rewrite !bool_decide_eq_false_2; [|first [done|rewrite Hpool; by destruct pool]..].
  cbn [negb andb assert_that mbind outcome_bind].
  assert (statused (view d)) as Hstat by by apply (phase_statused d GAME_ACTIVE1).
  eapply (returns_bind _ _ (fun r => match r with
    | None => dig_refused uid digtype d
    | Some (card, d1) => exists bottom pool, dug_from digtype card bottom pool d /\
        d1 = d <| m_bottom_cards := bottom |> <| m_pokercard_pool := pool |>
    end)).
  { unfold dug_from. destruct (digtype =? DIG_BOTTOM) eqn:Ed.
    - cbn [take_front app mbind outcome_bind mret outcome_ret last access]. apply returns_ret.
      exists bottom, (m_pokercard_pool d). split; [by rewrite Hbot|]. by destruct d.
    - rewrite Hpool, last_snoc. cbn [access mbind outcome_bind].
      destruct (is_joker back (joker_point d) && negb (m_is_first_pool_card d)) eqn:Ej; apply returns_ret.
      + right; right. apply Z.eqb_neq in Ed. split; [done|]. apply andb_true_iff in Ej as [Ej Ef].
        apply negb_true_iff in Ef. split; [done|]. exists back. by rewrite Hpool, last_snoc.
      + exists (m_bottom_cards d), pool. split; [done|].
        destruct d; simpl in *. subst. unfold update; simpl. f_equal.
        rewrite length_app. simpl length. rewrite Nat.add_1_r. apply take_app_length. }
  intros [[card d1]|] Hr.
  - destruct Hr as (bottom' & pool' & Hfrom & ->).
    match goal with |- context [seat_at (m_active_seatnum ?x) ?x] => set (d2 := x) end.
    change (seat_at (m_active_seatnum d2) d2) with (seat_at (m_active_seatnum d) d).
    rewrite Hat. cbn [mbind outcome_bind]. apply returns_ret. right.
    split; [done|]. exists i, s, card, bottom', pool'. split_and!; [done..|].
    match goal with |- context [wait_for_round GAME_ACTIVE2 1000 ?x] => set (d3 := x) end.
    assert (view d3 = (view d) <| v_seats := <[i := dig_card card s]> (m_seats d) |>
              <| v_bottom := bottom' |> <| v_pool := pool' |>) as Hv3.
    { unfold d3, view. simpl. by rewrite Ha, Nat2Z.id. }
    assert (statused (view d3)) as Hst3 by by rewrite Hv3.
    destruct (is_player_trusteed_on p); rewrite wait_for_round_view by done; by rewrite Hv3.
  - apply returns_ret. by left.
Qed.

Lemma dug_inv uid digtype d d' :
  inv (view d) -> dug uid digtype d d' -> inv (view d').
Proof.
  intros Hinv (H1 & i & s & card & bottom & pool & Ha & Hi & Hu & Hfrom & Hv).
  destruct (inv_phase d GAME_ACTIVE1 Hinv H1) as [Hph _]; [by_decision|].
  destruct Hinv as (Hc & Hb & _).
  rewrite Hv. assert (turns (-1) (view d) /\ stocked (view d) /\ plays (m_active_seatnum d) (view d))
    as (Ht & Hsk & j & t & Hj & Hjt & Hg) by by inversion Hph.
  assert (j = i) as -> by lia. simpl in Hjt. assert (t = s) as -> by congruence.
  assert (length (m_handcards_total s) = 13%nat) as Hlen by (apply (turns_hands _ _ Ht i s); [done..|lia]).
  destruct (dig_card_seat card s) as (Hhand & Hhl & Hin). rewrite Hlen in Hhl.
  assert (card :: bottom ++ pool ≡ₚ m_bottom_cards d ++ m_pokercard_pool d) as Hcards.
  { unfold dug_from in Hfrom. destruct (_ =? _).
    - destruct Hfrom as [-> ->]. done.
    - destruct Hfrom as [-> ->]. rewrite (Permutation_app_comm pool [card]). apply Permutation_middle. }
  pose proof Hsk as (Hs1 & Hs2 & Hs3). simpl in Hs1, Hs2, Hs3.
  assert (1 <= length bottom)%nat as Hbot.
  { unfold dug_from in Hfrom. destruct (_ =? _); destruct Hfrom as [E1 E2]; subst; [rewrite E1 in Hs1|];
      simpl in *; lia. }
  split_and!.
  - apply (core_move (view d) _ i s (dig_card card s)); try done.
    + simpl. rewrite Hhand, <- Hcards. rewrite <- Permutation_middle. done.
    + rewrite Hhl. clear PrintableRoom0. set_solver.
  - apply (balanced_insert (view d) _ i s (dig_card card s)); try done; simpl; [lia|..].
    + intros _. by apply (bal_ingame _ Hb s (list_elem_of_lookup_2 _ _ _ Hi)).
    + exact (bal_joined _ Hb s (list_elem_of_lookup_2 _ _ _ Hi)).
  - exists GAME_ACTIVE2. split; [by right|].
    assert (<[i := dig_card card s]> (m_seats d) !! i = Some (dig_card card s)) as Hi'.
    { apply list_lookup_insert_eq. by eapply lookup_lt_Some. }
    apply (phase_active2 _ i (dig_card card s)); try done; simpl.
    + apply (turns_replace (view d) _ i s (dig_card card s) (-1)); try done;
        first [exact (turns_undeclared _ _ Ht i s Hi Hg)|right; left; simpl; lia|simpl; lia].
    + rewrite (count_insert_same _ _ s) by done. apply Permutation_length in Hcards.
      rewrite !length_app in *. simpl in Hcards. rewrite !length_app in Hcards. lia.
Qed.

(** What a spectator sees while the active player is to post. *)
Lemma active2_spectate d :
  inv (view d) -> is_wait_active2 d = true ->
  spectate (view d) = Playing GAME_ACTIVE2 (m_active_seatnum d) (-1) (is_in_game <$> m_seats d).
Proof.
  intros Hinv H2. destruct (inv_phase d GAME_ACTIVE2 Hinv H2) as [Hph Hst]; [by_decision|].
  rewrite (spectate_shown _ GAME_ACTIVE2) by (done || by_decision).
  inversion Hph as [| | | | | |i s Ht| ]; subst. by rewrite (turns_apply _ _ Ht).
Qed.

Lemma dug_goes_on uid digtype d d' :
  inv (view d) -> dug uid digtype d d' -> goes_on (view d) (view d').
Proof.
  intros Hinv Hd. split; [by eapply dug_inv|].
  destruct Hd as (H1 & i & s & card & bottom & pool & Ha & Hi & Hu & _ & Hv).
  destruct (inv_phase d GAME_ACTIVE1 Hinv H1) as [Hph Hst]; [by_decision|].
  assert (turns (-1) (view d)) as Ht by by inversion Hph.
  rewrite (spectate_shown _ GAME_ACTIVE1), (spectate_shown (view d') GAME_ACTIVE2);
    [|rewrite Hv; by right|by_decision|done|by_decision].
  rewrite Hv. simpl. rewrite (players_insert_same _ i s) by done.
  pose proof (turns_apply _ _ Ht) as Hap. simpl in Hap. rewrite Hap. right. constructor.
Qed.

Lemma player_dig_card_goes_on uid digtype d :
  inv (view d) -> is_Some (m_objects d !! uid) ->
  returns (player_dig_card iv uid digtype d) (fun d' => goes_on (view d) (view d')).
Proof.
  intros Hinv Hp. eapply returns_mono; [by apply player_dig_card_returns|].
  intros d' [[_ Hv]|Hd]; [by rewrite Hv; auto|by eapply dug_goes_on].
Qed.

(** *** Posting *)

(** A card has been posted, and the turn has not passed yet. *)
Definition posted_state (d : desk) : Prop :=
  core (view d) /\ balanced (view d) /\ statused (view d) /\ turns (-1) (view d) /\
  (1 <= length (m_bottom_cards d))%nat /\ (1 <= length (m_pokercard_pool d))%nat /\
  (37 + count_of is_in_game (m_seats d) <=
     length (m_bottom_cards d) + length (m_pokercard_pool d))%nat /\
  0 <= m_active_seatnum d <= 4.

(** Seat [i] has posted [card] and keeps [hand]. *)
Lemma posted_state_intro d d' i s card hand :
  inv (view d) -> is_wait_active2 d = true -> m_active_seatnum d = Z.of_nat i ->
  m_seats d !! i = Some s -> m_handcards_total s ≡ₚ card :: hand ->
  view d' = (view d) <| v_seats := <[i := s <| m_handcards_total := hand |>]> (m_seats d) |>
              <| v_pool := m_pokercard_pool d ++ [card] |> ->
  posted_state d'.
Proof.
  intros Hinv H2 Ha Hi Hhand Hv. pose proof Hinv as (Hc & Hb & _).
  destruct (inv_phase d GAME_ACTIVE2 Hinv H2) as [Hph Hst]; [by_decision|].
  set (s' := s <| m_handcards_total := hand |>) in *.
  inversion Hph as [| | | | | |j t Ht Haj Hj Hg Hlen Hdig Hbot Htot|]; subst. simpl in Haj, Hj, Hbot, Htot.
  assert (j = i) as -> by lia. assert (t = s) as -> by congruence. clear Haj Hj.
  assert (length hand = 13%nat) as Hlen'.
  { apply Permutation_length in Hhand. rewrite Hlen in Hhand. simpl in Hhand. lia. }
  unfold posted_state. change (m_bottom_cards d') with (v_bottom (view d')).
  change (m_pokercard_pool d') with (v_pool (view d')). change (m_seats d') with (v_seats (view d')).
  change (m_active_seatnum d') with (v_active (view d')). rewrite Hv. split_and!; simpl; try done.
  - apply (core_move (view d) _ i s s'); try done; simpl.
    + rewrite Hhand. rewrite (Permutation_app_comm _ [card]). simpl.
      rewrite <- !Permutation_middle. done.
    + rewrite Hlen'. clear PrintableRoom0. set_solver.
    + exact (core_scores _ Hc s (list_elem_of_lookup_2 _ _ _ Hi)).
  - apply (balanced_insert (view d) _ i s s'); try done; simpl; [lia|..].
    + exact (bal_ingame _ Hb s (list_elem_of_lookup_2 _ _ _ Hi)).
    + exact (bal_joined _ Hb s (list_elem_of_lookup_2 _ _ _ Hi)).
  - exists GAME_ACTIVE2. split; [done|by_decision].
  - apply (turns_replace (view d) _ i s s' (v_active (view d))); try done; simpl.
    + exact (turns_undeclared _ _ Ht i s Hi Hg).
    + by right; right.
  - rewrite length_app. simpl. lia.
  - rewrite (count_insert_same _ _ s) by done. rewrite length_app. simpl. lia.
  - lia.
  - apply lookup_lt_Some in Hi. pose proof (core_seats _ Hc) as Hl. simpl in Hl. rewrite Hl in Hi.
    unfold m_max_seat_num in Hi. lia.
Qed.

(** The pool is reshuffled when one bottom card is left; otherwise the turn
    passes, or the game is drawn. *)
Definition turn_passed d d' : Prop :=
  if Z.of_nat (length (m_bottom_cards d)) =? 1 then
    exists moved, moved ≡ₚ take (length (m_pokercard_pool d) - 2) (m_pokercard_pool d) /\
      view d' = (view d) <| v_bottom := m_bottom_cards d ++ moved |>
        <| v_pool := drop (length (m_pokercard_pool d) - 2) (m_pokercard_pool d) |>
        <| v_status := Z.lor GAME_WAIT_MASK GAME_SHUFFLE_CARD |> /\
      drawn_out d' = drawn_out d
  else turned d d'.

Lemma posted_turning d :
  posted_state d -> (length (m_bottom_cards d) <> 1)%nat -> turning d.
Proof.
  intros (Hc & Hb & Hst & Ht & H1 & H2 & H3 & H4) Hne.
  split_and!; [done..| |by right]. unfold stocked. simpl. lia.
Qed.

Lemma after_post_returns d :
  posted_state d ->
  returns (after_post room iv ROOM_IDLE d) (fun d' => turn_passed d d').
Proof.
  intros Hp. pose proof Hp as (Hc & Hb & Hst & Ht & H1 & H2 & H3 & H4).
  unfold after_post, turn_passed. destruct (_ =? 1) eqn:E.
  - eapply returns_bind; [apply step_shuffle_card_returns; lia|].
    intros d1 (moved & Hv & Hm & Hdr). apply returns_ret. exists moved. split; [done|]. split; [|done].
    rewrite wait_for_round_view; [by rewrite Hv|]. by rewrite Hv.
  - apply (active_player_returns room), posted_turning; [done|]. apply Z.eqb_neq in E. lia.
Qed.

Lemma turn_passed_inv d d' : posted_state d -> turn_passed d d' -> inv (view d').
Proof.
  intros Hp. pose proof Hp as (Hc & Hb & Hst & Ht & H1 & H2 & H3 & H4). unfold turn_passed, turned.
  destruct (_ =? 1) eqn:E; [|destruct (drawn_out d)].
  - apply Z.eqb_eq in E. intros (moved & Hm & -> & _).
    set (pool := m_pokercard_pool d) in *. set (n := (length pool - 2)%nat) in *.
    assert (moved ++ drop n pool ≡ₚ pool) as Hcards by by rewrite Hm, take_drop.
    assert (length (drop n pool) = 2%nat) as Hl2 by (rewrite length_drop; lia).
    assert (length moved = n) as Hlm by (rewrite Hm, length_take; lia).
    split_and!.
    + apply (core_same _ _ Hc); try done; [apply Hc|]. unfold table_cards. simpl.
      rewrite <- (assoc_L (++)), Hcards. done.
    + by destruct Hb.
    + exists GAME_SHUFFLE_CARD. split; [by right|]. apply phase_shuffle; simpl; [by destruct Ht| |done].
      unfold stocked. simpl. rewrite length_app, Hl2, Hlm. lia.
  - intros Hbt. by apply between_inv.
  - apply Z.eqb_neq in E. intros (n & Hn & Hv). eapply turn_to_inv; [|done|done].
    apply posted_turning; [done|lia].
Qed.

(** [d1] is [d] after its active player, at seat [i], has posted [card]. *)
Definition posts (i : nat) (card : PokerCard) d d1 : Prop :=
  is_wait_active2 d = true /\ m_active_seatnum d = Z.of_nat i /\ drawn_out d1 = drawn_out d /\
  exists s hand, m_seats d !! i = Some s /\ erase_first card (m_handcards_total s) = Some hand /\
    view d1 = (view d) <| v_seats := <[i := s <| m_handcards_total := hand |>]> (m_seats d) |>
                <| v_pool := m_pokercard_pool d ++ [card] |>.

Lemma posts_state i card d d1 : inv (view d) -> posts i card d d1 -> posted_state d1.
Proof.
  intros Hinv (H2 & Ha & _ & s & hand & Hi & He & Hv).
  by apply (posted_state_intro d d1 i s card hand); [..|apply erase_first_Some|].
Qed.

(** What a spectator sees of a card posted and the turn passed. *)
Lemma posts_spectate i card d d1 : posts i card d d1 -> spectate (view d1) = spectate (view d).
Proof.
  intros (_ & _ & _ & s & hand & Hi & _ & ->). apply spectate_same; [done..|].
  by apply (players_insert_same _ i s).
Qed.

Lemma posts_goes_on i card d d1 d' :
  inv (view d) -> posts i card d d1 -> turn_passed d1 d' -> goes_on (view d) (view d').
Proof.
  intros Hinv Hposts Hpass. pose proof (posts_state _ _ _ _ Hinv Hposts) as Hst.
  split; [by eapply turn_passed_inv|].
  pose proof Hposts as (H2 & _ & _ & s & hand & Hi & _ & Hv1).
  pose proof (active2_spectate d Hinv H2) as Hsp. rewrite Hsp.
  pose proof (posts_spectate _ _ _ _ Hposts) as Hsp1. rewrite Hsp in Hsp1.
  assert (v_active (view d1) = m_active_seatnum d) as Ha by by rewrite Hv1.
  assert (is_in_game <$> v_seats (view d1) = is_in_game <$> m_seats d) as Hg.
  { rewrite Hv1. by apply (players_insert_same _ i s). }
  pose proof Hst as (Hc1 & _ & _ & Ht1 & _ & _ & _ & Hrange).
  unfold turn_passed, turned in Hpass. destruct (_ =? 1) eqn:E; [|destruct (drawn_out d1)].
  - destruct Hpass as (moved & _ & Hv & _). right.
    rewrite (spectate_shown _ GAME_SHUFFLE_CARD); [|rewrite Hv; by right|by_decision].
    assert (v_active (view d') = v_active (view d1) /\ v_apply (view d') = v_apply (view d1) /\
      v_seats (view d') = v_seats (view d1)) as (-> & -> & ->) by by rewrite Hv.
    rewrite (turns_apply _ _ Ht1), Ha, Hg. constructor.
  - rewrite (between_spectate d') by done. auto.
  - destruct Hpass as (n & Hn & Hv). apply Z.eqb_neq in E. right.
    rewrite (turn_to_spectate n d1 d') by (done || apply (turns_apply _ _ Ht1)). change (m_seats d1) with (v_seats (view d1)). rewrite Hg.
    pose proof (turn_to_turn n d1 Hc1 Hn) as Hturn. unfold turn_of in Hturn.
    destruct (m_active_seatnum d1 =? -1) eqn:E1; [lia|]. apply proto_post.
    change (m_active_seatnum d1) with (v_active (view d1)) in Hturn.
    change (m_seats d1) with (v_seats (view d1)) in Hturn. by rewrite Hg, Ha in Hturn.
Qed.

Lemma notify_room_will_over_view score d :
  view (notify_room_will_over ROOM_PLAYING ROOM_END1 score d) = view d.
Proof. unfold notify_room_will_over. by case_match. Qed.

Lemma player_post_card_returns uid pbcard score d :
  inv (view d) -> (exists p i, m_objects d !! uid = Some p /\ m_pGameSeat p = Some i) ->
  returns (player_post_card room iv ROOM_IDLE ROOM_PLAYING ROOM_END1 uid pbcard score d) (fun d' =>
    view d' = view d \/
    exists i d1, posts i (parse_msg_card pbcard) d d1 /\ exists d2, turn_passed d1 d2 /\
      view d' = view d2).
Proof.
  intros Hinv (p & i & Hp & Hps). pose proof Hinv as (Hc & Hb & _). pose proof (core_linked _ Hc) as Hl.
  destruct (seat_of_player _ _ _ _ Hl Hp Hps) as (Hid & s & Hi & Hu).
  unfold player_post_card.
  assert (get_player uid d = Ok p) as -> by (unfold get_player; by rewrite Hp).
  assert (player_seat p d = Ok (i, s)) as Hpseat.
  { unfold player_seat. rewrite Hps. cbn [deref mbind outcome_bind]. by rewrite Hi. }
  cbn [mbind outcome_bind]. rewrite Hpseat. cbn [mbind outcome_bind].
  destruct (is_active_player p d) eqn:Hact; cbn [negb orb]; [|by apply returns_ret; left].
  destruct (is_wait_active2 d) eqn:H2; cbn [negb]; [|by apply returns_ret; left].
  destruct (active_player_seat _ _ _ Hl Hp Hact) as (j & t & Ha & Hps' & Hj & _ & Hat).
  assert (j = i) as -> by congruence. assert (t = s) as -> by congruence.
  rewrite Hat. cbn [mbind outcome_bind]. unfold discard_card.
  destruct (erase_first (parse_msg_card pbcard) (m_handcards_total s)) as [hand|] eqn:He;
    [|by apply returns_ret; left]. cbn [mbind option_bind].
  match goal with |- context [after_post _ _ _ ?x] => set (d1 := x) end.
  assert (posts i (parse_msg_card pbcard) d d1) as Hposts.
  { split_and!; [done..|]. exists s, hand. split_and!; [done..|].
    unfold d1, view. simpl. by rewrite Ha, Nat2Z.id. }
  eapply returns_bind; [apply after_post_returns; by eapply posts_state|].
  intros d2 Hd2. apply returns_ret. right. exists i, d1. split; [done|]. exists d2. split; [done|].
  by rewrite notify_room_will_over_view.
Qed.

Lemma player_post_card_goes_on uid pbcard score d :
  inv (view d) -> (exists p i, m_objects d !! uid = Some p /\ m_pGameSeat p = Some i) ->
  returns (player_post_card room iv ROOM_IDLE ROOM_PLAYING ROOM_END1 uid pbcard score d)
    (fun d' => goes_on (view d) (view d')).
Proof.
  intros Hinv Hp. eapply returns_mono; [by apply player_post_card_returns|].
  intros d' [Hv|(i & d1 & Hposts & d2 & Hd2 & Hv)]; rewrite Hv; [auto|by eapply posts_goes_on].
Qed.

(** *** The time-outs of a turn *)

(** The card dug last is posted for the player. *)
Lemma desk_post_default_card_returns d :
  inv (view d) -> is_wait_active2 d = true ->
  returns (desk_post_default_card room iv ROOM_IDLE d) (fun d' => exists i s d1,
    m_seats d !! i = Some s /\ posts i (m_dig_card s) d d1 /\ turn_passed d1 d').
Proof.
  intros Hinv H2. pose proof Hinv as (Hc & _). pose proof (core_linked _ Hc) as Hl.
  destruct (inv_phase d GAME_ACTIVE2 Hinv H2) as [Hph Hst]; [by_decision|].
  inversion Hph as [| | | | | |i s Ht Ha Hi Hg Hlen Hdig Hbot Htot|]; subst. simpl in Ha, Hi.
  destruct (ingame_player _ _ _ Hl Hi Hg) as [uid Hu].
  unfold desk_post_default_card. rewrite Ha, (seat_at_nat _ _ _ Hi). cbn [mbind outcome_bind].
  unfold get_seated_player. rewrite Hu. cbn [deref mbind outcome_bind].
  unfold post_default_card. destruct (erase_first_elem _ _ Hdig) as (hand & He & _). rewrite He.
  cbn [mbind outcome_bind mret outcome_ret].
  match goal with |- context [after_post _ _ _ ?x] => set (d1 := x) end.
  assert (posts i (m_dig_card s) d d1) as Hposts.
  { split_and!; [done..|]. exists s, hand. split_and!; [done..|].
    unfold d1, view. simpl. by rewrite Nat2Z.id. }
  eapply returns_mono; [apply after_post_returns; by eapply posts_state|].
  intros d' Hd'. by exists i, s, d1.
Qed.

Lemma inv_same d d' : inv (view d) -> view d' = view d -> inv (view d').
Proof. by intros ? ->. Qed.

Lemma step_rand2_timeout_returns d :
  inv (view d) -> is_wait_active2 d = true ->
  returns (step_rand2_timeout room iv ROOM_IDLE d) (fun d' => exists i s d1,
    m_seats d !! i = Some s /\ posts i (m_dig_card s) d d1 /\ turn_passed d1 d').
Proof.
  intros Hinv H2. pose proof Hinv as (Hc & _). pose proof (core_linked _ Hc) as Hl.
  destruct (inv_phase d GAME_ACTIVE2 Hinv H2) as [Hph Hst]; [by_decision|].
  inversion Hph as [| | | | | |i s Ht Ha Hi Hg Hlen Hdig Hbot Htot|]; subst. simpl in Ha, Hi.
  destruct (ingame_player _ _ _ Hl Hi Hg) as [uid Hu].
  destruct (player_of_seat _ _ _ _ Hl Hi Hu) as (p & Hp & _).
  unfold step_rand2_timeout. rewrite Ha, (seat_at_nat _ _ _ Hi). cbn [mbind outcome_bind].
  unfold get_seated_player. rewrite Hu. cbn [deref mbind outcome_bind].
  eapply returns_bind; [apply desk_trustee_on_returns; by rewrite Hp|]. intros d1 [Hv1 Hdr1].
  assert (inv (view d1)) as Hinv1 by by apply (inv_same d).
  assert (is_wait_active2 d1 = true) as H21.
  { unfold is_wait_active2 in *. change (m_game_status d1) with (v_status (view d1)). by rewrite Hv1. }
  eapply returns_mono; [by apply desk_post_default_card_returns|].
  intros d' (j & t & d2 & Ht2 & (Hp1 & Hp2 & Hp3 & u & hand & Hp4 & Hp5 & Hp6) & Hpass).
  exists j, t, d2. unfold posts.
  change (m_seats d1) with (v_seats (view d1)) in Ht2, Hp4, Hp6.
  change (m_pokercard_pool d1) with (v_pool (view d1)) in Hp6.
  change (m_active_seatnum d1) with (v_active (view d1)) in Hp2.
  rewrite Hv1 in Ht2, Hp2, Hp4, Hp6. rewrite Hdr1 in Hp3. split_and!; [done..| |done].
  by exists u, hand.
Qed.

Lemma step_rand2_timeout_goes_on d :
  inv (view d) -> is_wait_active2 d = true ->
  returns (step_rand2_timeout room iv ROOM_IDLE d) (fun d' => goes_on (view d) (view d')).
Proof.
  intros Hinv H2. eapply returns_mono; [by apply step_rand2_timeout_returns|].
  intros d' (j & t & d2 & _ & Hposts & Hpass). by eapply posts_goes_on.
Qed.

Lemma step_active1_timeout_returns d :
  inv (view d) -> is_wait_active1 d = true ->
  returns (step_active1_timeout room iv ROOM_IDLE d) (fun d' => turning d /\ turned d d').
Proof.
  intros Hinv H1. pose proof Hinv as (Hc & Hb & _). pose proof (core_linked _ Hc) as Hl.
  destruct (inv_phase d GAME_ACTIVE1 Hinv H1) as [Hph Hst]; [by_decision|].
  inversion Hph as [| | | |Ht Hsk (i & s & Ha & Hi & Hg)| | |]; subst. simpl in Ha, Hi.
  destruct (ingame_player _ _ _ Hl Hi Hg) as [uid Hu].
  destruct (player_of_seat _ _ _ _ Hl Hi Hu) as (p & Hp & _).
  unfold step_active1_timeout. rewrite Ha, (seat_at_nat _ _ _ Hi). cbn [mbind outcome_bind].
  rewrite Hu, bool_decide_eq_true_2 by done. cbn [assert_that mbind outcome_bind].
  unfold get_seated_player. rewrite Hu. cbn [deref mbind outcome_bind].
  assert (turning d) as Htd.
  { apply (phase_turning d GAME_ACTIVE1); [done..|clear PrintableRoom0; set_solver]. }
  eapply returns_bind; [apply desk_trustee_on_returns; by rewrite Hp|]. intros d1 [Hv1 Hdr1].
  assert (turning d1) as Htd1 by by apply (turning_view d).
  eapply returns_mono; [by apply active_player_returns|]. intros d' Hd'. split; [done|].
  unfold turned in *. rewrite Hdr1 in Hd'. destruct (drawn_out d); [done|]. destruct Hd' as (n & Hn & Hv).
  exists n. rewrite <- Hv1. split; [|done]. by apply (turn_to_view d1).
Qed.

Lemma step_active1_timeout_goes_on d :
  inv (view d) -> is_wait_active1 d = true ->
  returns (step_active1_timeout room iv ROOM_IDLE d) (fun d' => goes_on (view d) (view d')).
Proof.
  intros Hinv H1. destruct (inv_phase d GAME_ACTIVE1 Hinv H1) as [_ Hr]; [by_decision|].
  eapply returns_mono; [by apply step_active1_timeout_returns|]. intros d' [Ht Hd'].
  by apply (turned_goes_on d GAME_ACTIVE1); [..|by_decision|].
Qed.
End dig_post.
