(* ===== verification/Dropping.v ===== *)
(** * Dropping

    A player who drops pays and is out of the game; the last one left wins.
    The operation keeps the table invariant and runs without a fault, provided
    that a player who drops between digging and posting leaves two bottom cards
    and a card in the pool: the card he dug is lost. *)
From Stdlib Require Import ZArith Lia String.
From stdpp Require Import base tactics numbers sorting option gmap strings sets list.
From S2P Require Import Prelude Cards Dealer Straight Declare Search Found Hand.
From S2P Require Import Player Seat Desk Play Round Room Table Protocol Settle Seating Between Scan Turn DigPost.

(** The seat of a player who has dropped, before the chips are taken. *)
Record dropped (drop_card : bool) (s s' : GameSeat) : Prop := mkDropped {
  dropped_player : m_player s' = m_player s;
  dropped_number : m_seat_number s' = m_seat_number s;
  dropped_hand : if drop_card then m_handcards_total s ≡ₚ m_dig_card s :: m_handcards_total s'
                 else m_handcards_total s' = m_handcards_total s;
  dropped_account : m_match_over_account_chips s' = m_match_over_account_chips s;
  dropped_seated : is_seated s' = is_seated s;
  dropped_joined : is_player_joined s' = is_player_joined s;
  dropped_ingame : is_in_game s' = false;
  dropped_drop : is_drop s' = true;
  dropped_score : seat_score s' = seat_score s
}.

Lemma drop_status_bits s :
  let s' := with_status (Z.lor (Z.land (m_seat_stauts s) (Z.lnot Status.ingame)) Status.drop) s in
  is_seated s' = is_seated s /\ is_player_joined s' = is_player_joined s /\
  is_in_game s' = false /\ is_drop s' = true.
Proof. cbn zeta. seat_bits. done. Qed.

Lemma player_drop_returns v s p room_id jp drop_card :
  0 <= room_id <= 7 -> core v -> s ∈ v_seats v ->
  (drop_card = true -> length (m_handcards_total s) = 14%nat /\ m_dig_card s ∈ m_handcards_total s) ->
  returns (player_drop room_id jp drop_card s p) (fun r => dropped drop_card s r.1 /\ same_place p r.2).
Proof.
  intros Hroom Hc Hs Hdrop. unfold player_drop. rewrite seat_status_ok by done. cbn [mbind outcome_bind].
  set (s0 := with_status _ s). destruct (drop_status_bits s) as (B1 & B2 & B3 & B4). fold s0 in B1, B2, B3, B4.
  eapply (returns_bind _ _ (fun s1 => dropped drop_card s s1 /\
    m_handcards_total s1 ⊆+ deck /\ (length (m_handcards_total s1) <= 14)%nat /\
    length (m_handcards_total s1) <> 3%nat)).
  - pose proof (hand_in_deck v s Hc Hs) as Hdeck. destruct drop_card.
    + destruct (Hdrop eq_refl) as [Hlen Hin]. simpl.
      destruct (erase_first_elem _ _ Hin) as (hand & He & Hp). rewrite He. apply returns_ret.
      assert (length hand = 13%nat) as Hl by (apply Permutation_length in Hp; simpl in Hp; lia).
      split_and!; simpl; [by split|etrans; [|exact Hdeck]|lia..].
      rewrite Hp. by apply submseteq_cons.
    + apply returns_ret. destruct (hand_size_cases v s Hc Hs) as [Hz|[Hz|Hz]];
        (split_and!; simpl; [by split|done|lia..]).
  - intros s1 (Hd & Hdeck & Hlen & H3). unfold arrange.
    eapply returns_bind; [eapply returns_bind; [by apply default_declare_returns|]|].
    + intros [score groups] _. apply returns_ret. instantiate (1 := fun s2 => dropped drop_card s s2).
      destruct Hd. by split.
    + intros s2 Hs2. apply returns_ret. split; [done|]. unfold same_place, set_status. simpl.
      by case_match.
Qed.

(** The seat found first. *)
Lemma first_seat_number_spec test seats :
  (forall i s, seats !! i = Some s -> m_seat_number s = Z.of_nat i) ->
  (exists i s, seats !! i = Some s /\ test s = true) ->
  exists i s, first_seat_number test seats = Z.of_nat i /\ seats !! i = Some s /\ test s = true.
Proof.
  intros Hn (i & s & Hi & Ht).
  assert (forall k l, drop k seats = l -> (exists j t, l !! j = Some t /\ test t = true) ->
    exists j t, first_seat_number test l = Z.of_nat (k + j) /\ l !! j = Some t /\ test t = true) as Hall.
  { intros k l; revert k; induction l as [|t l IH]; intros k Hk (j & u & Hj & Hu); [done|].
    assert (seats !! k = Some t) as Hkt.
    { rewrite <- (Nat.add_0_r k). rewrite <- lookup_drop, Hk. done. }
    simpl. destruct (test t) eqn:Htt.
    - exists 0%nat, t. by rewrite Nat.add_0_r, (Hn k t Hkt).
    - destruct (IH (S k)) as (j' & u' & H1 & H2 & H3).
      + rewrite <- Nat.add_1_r, <- drop_drop, Hk. done.
      + destruct j as [|j]; simpl in Hj; [congruence|]. by exists j, u.
      + exists (S j'), u'. by rewrite Nat.add_succ_r. }
  destruct (Hall 0%nat seats eq_refl) as (j & t & Hj); [by exists i, s|]. by exists j, t.
Qed.

(** A player leaves the game. *)
Lemma turns_leave e v v' i s s' :
  turns e v -> v_seats v !! i = Some s -> is_in_game s' = false ->
  v_seats v' = <[i := s']> (v_seats v) -> v_apply v' = v_apply v ->
  (2 <= count_of is_in_game (v_seats v'))%nat -> concealed s' ->
  forall e', (e' = e \/ e = Z.of_nat i) -> turns e' v'.
Proof.
  intros [Ta Tc Td Th Tq] Hi Hg Es Ea Hn Hcs e' He.
  split; [by rewrite Ea|done| | |rewrite Es; by apply all_concealed_insert].
  - intros j t Hj Hgt. rewrite Es in Hj.
    apply list_lookup_insert_Some in Hj as [(-> & -> & _)|[_ Hj]]; [congruence|]. by apply (Td j).
  - intros j t Hj Hgt Hne. rewrite Es in Hj.
    apply list_lookup_insert_Some in Hj as [(-> & -> & _)|[Hji Hj]]; [congruence|].
    apply (Th j t Hj Hgt). destruct He as [->| ->]; lia.
Qed.

Lemma count_leave (l : list GameSeat) i s s' :
  l !! i = Some s -> is_in_game s = true -> is_in_game s' = false ->
  S (count_of is_in_game (<[i := s']> l)) = count_of is_in_game l.
Proof.
  intros Hi Hg Hg'. pose proof (count_of_insert is_in_game _ _ _ s' Hi) as Hc.
  rewrite Hg, Hg' in Hc. simpl in Hc. lia.
Qed.

Section dropping.
Context {M G : Type} `{MoneyService M} `{RandGen G}.
Context (room : RoomInfo) `{!PrintableRoom room}.
Variables (iv : TimeInterval) (ROOM_IDLE : Z).
Abbreviation desk := (GameDesk M G).
Implicit Type d : desk.

(** The only player left is the winner, and his cards are shown. *)
Lemma last_player_wins d :
  core (view d) -> balanced (view d) -> count_of is_in_game (m_seats d) = 1%nat ->
  exists i s s', get_last_ingame_seatnum d = Z.of_nat i /\ m_seats d !! i = Some s /\
    is_in_game s = true /\ drop_win (joker_point d) s = Ok s' /\ kept s s' /\
    core ((view d) <| v_apply := Z.of_nat i |> <| v_seats := <[i := s']> (m_seats d) |>) /\
    balanced ((view d) <| v_apply := Z.of_nat i |> <| v_seats := <[i := s']> (m_seats d) |>).
Proof.
  intros Hc Hb Hcount. pose proof (core_linked _ Hc) as Hl.
  destruct (first_seat_number_spec (fun s => is_seated s && is_in_game s) (m_seats d)) as (i & s & Hi & Hs & Ht).
  { exact (linked_number _ _ Hl). }
  { destruct (filter (fun s => is_in_game s = true) (m_seats d)) as [|s l] eqn:E;
      [unfold count_of in Hcount; by rewrite E in Hcount|].
    assert (s ∈ filter (fun s => is_in_game s = true) (m_seats d)) as Hin by (rewrite E; left).
    apply list_elem_of_filter in Hin as [Hg [i Hi]%list_elem_of_lookup]. exists i, s. split; [done|].
    destruct (ingame_player d i s Hl Hi Hg) as [uid Hu].
    by rewrite (proj1 (linked_seat _ _ Hl _ _ _ Hi Hu)), Hg. }
  apply andb_true_iff in Ht as [Hse Hg]. fold (get_last_ingame_seatnum d) in Hi.
  assert (returns (drop_win (joker_point d) s) (fun s' => kept s s' /\
    m_match_over_account_chips s' = m_match_over_account_chips s)) as (s' & E & Hk & Hacc).
  { unfold drop_win, arrange. simpl.
    eapply returns_bind; [apply (arrange_returns (view d)); [done|by eapply list_elem_of_lookup_2]|].
    intros [score groups] _. apply returns_ret. split; [by split|done]. }
  exists i, s, s'. split_and!; [done..| |].
  - apply (kept_core ((view d) <| v_apply := Z.of_nat i |>)); [by destruct Hc|].
    eapply kept_all_insert; [apply kept_refl_all|exact Hs|done].
  - apply (balanced_insert (view d) _ i s s'); try done; simpl; [lia|..].
    + rewrite (kept_ingame _ _ Hk), (kept_joined _ _ Hk), Hacc. by apply Hb, (list_elem_of_lookup_2 _ i).
    + rewrite (kept_joined _ _ Hk), Hacc. by apply Hb, (list_elem_of_lookup_2 _ i).
Qed.

(** The desk on which the last player left is paid. *)
Definition won_by (i : nat) (s' : GameSeat) d : desk :=
  notify_room_status ROOM_IDLE (put_seat i s'
    (d <| m_gameover_type := DROP_OVER |> <| m_apply_declare_seatnum := Z.of_nat i |>)).

(** What [step_player_drop] does when one player is left. *)
Definition drop_over d : outcome desk :=
  let d := d <| m_gameover_type := DROP_OVER |>
             <| m_apply_declare_seatnum := get_last_ingame_seatnum d |> in
  s ← seat_at (m_apply_declare_seatnum d) d;
  s ← drop_win (joker_point d) s;
  let d := put_seat (Z.to_nat (m_apply_declare_seatnum d)) s d in
  _ ← assert_that (0 <=? m_apply_declare_seatnum d);
  step_gameover_distrbute room iv (notify_room_status ROOM_IDLE d).

Lemma drop_over_eq d i s s' :
  get_last_ingame_seatnum d = Z.of_nat i -> m_seats d !! i = Some s ->
  drop_win (joker_point d) s = Ok s' ->
  drop_over d = step_gameover_distrbute room iv (won_by i s' d).
Proof.
  intros Hi Hs E. unfold drop_over. cbn zeta. rewrite Hi.
  set (d1 := d <| m_gameover_type := DROP_OVER |> <| m_apply_declare_seatnum := Z.of_nat i |>).
  change (m_apply_declare_seatnum d1) with (Z.of_nat i). rewrite (seat_at_nat d1 i s Hs).
  cbn [mbind outcome_bind]. change (joker_point d1) with (joker_point d). rewrite E.
  cbn [mbind outcome_bind]. rewrite Nat2Z.id.
  change (m_apply_declare_seatnum (put_seat i s' d1)) with (Z.of_nat i).
  destruct (0 <=? Z.of_nat i) eqn:E0; [done|lia].
Qed.

(** The last player wins, and the game is over. *)
Lemma drop_over_returns d :
  core (view d) -> balanced (view d) -> statused (view d) ->
  count_of is_in_game (m_seats d) = 1%nat ->
  returns (drop_over d) between.
Proof.
  intros Hc Hb Hst Hcount.
  destruct (last_player_wins d Hc Hb Hcount) as (i & s & s' & Hi & Hs & Hg & E & Hk & Hc' & Hb').
  rewrite (drop_over_eq d i s s' Hi Hs E).
  destruct (ingame_player d i s (core_linked _ Hc) Hs Hg) as [uid Hu].
  eapply returns_mono; [apply (step_gameover_distrbute_returns room); [done..| |done]|].
  - right. exists i, s', uid. split_and!; [done| |by rewrite (kept_player _ _ Hk)].
    apply list_lookup_insert_eq. by eapply lookup_lt_Some.
  - intros d3 (H1 & H2 & H3 & H4 & _). split_and!; [done..|]. exists GAME_DISTRIBUTE.
    split; [by_decision|by right].
Qed.

Hypothesis small_blind_nonneg : 0 <= m_small_blind room.

(** What a player who drops after digging must leave on the table. *)
Definition may_drop (p : Player) d : Prop :=
  is_wait_active2 d = true -> is_active_player p d = true ->
  (2 <= length (m_bottom_cards d) /\ 1 <= length (m_pokercard_pool d))%nat.

(** The table after the seat [i] has paid. *)
Record paid (i : nat) (s s2 : GameSeat) (real : Z) d d1 : Prop := mkPaid {
  paid_view : view d1 = (view d) <| v_seats := <[i := s2]> (m_seats d) |> <| v_chips := real + m_chips_pool d |>;
  paid_core : core (view d1);
  paid_balanced : balanced (view d1);
  paid_out : is_in_game s2 = false;
  paid_concealed : concealed s2
}.

Lemma paid_intro i s s1 s2 real drop_card d d1 :
  core (view d) -> balanced (view d) -> m_seats d !! i = Some s -> is_in_game s = true ->
  dropped drop_card s s1 -> same_seat s1 s2 ->
  (drop_card = true -> length (m_handcards_total s) = 14%nat) ->
  m_match_over_account_chips s2 = m_match_over_account_chips s1 - real ->
  view d1 = (view d) <| v_seats := <[i := s2]> (m_seats d) |> <| v_chips := real + m_chips_pool d |> ->
  paid i s s2 real d d1.
Proof.
  intros Hc Hb Hi Hg Hd Hs2 Hlen Hacc Hv.
  assert (m_handcards_total s2 ⊆+ m_handcards_total s /\
          length (m_handcards_total s2) ∈ [0; 13; 14]%nat) as [Hsub Hsize].
  { rewrite (same_hand _ _ Hs2). pose proof (dropped_hand _ _ _ Hd) as Hh.
    pose proof (core_sizes _ Hc s (list_elem_of_lookup_2 _ _ _ Hi)) as Hz. destruct drop_card.
    - specialize (Hlen eq_refl). split; [rewrite Hh; by apply submseteq_cons|].
      apply Permutation_length in Hh. simpl in Hh.
      replace (length (m_handcards_total s1)) with 13%nat by lia. set_solver.
    - by rewrite Hh. }
  assert (is_in_game s2 = false) as Hout by (rewrite (same_ingame _ _ Hs2); apply Hd).
  split; [done|rewrite Hv..|done|by apply dropped_concealed; rewrite (same_drop _ _ Hs2); apply Hd].
  - apply (core_insert (view d) _ i s s2); try done.
    + destruct Hd, (same_seat_link _ _ Hs2). split; congruence.
    + apply Hc.
    + unfold table_cards. simpl. pose proof (hands_insert _ _ _ s2 Hi) as Hh.
      apply submseteq_app; [|done].
      apply (submseteq_app_inv_r _ _ (m_handcards_total s)). rewrite Hh. by apply submseteq_app.
    + rewrite (same_score _ _ Hs2), (dropped_score _ _ _ Hd).
      exact (core_scores _ Hc s (list_elem_of_lookup_2 _ _ _ Hi)).
  - apply (balanced_insert (view d) _ i s s2); try done; simpl.
    + rewrite Hacc, (dropped_account _ _ _ Hd). lia.
    + by rewrite Hout.
    + rewrite (same_joined _ _ Hs2), (dropped_joined _ _ _ Hd).
      by rewrite (proj1 (bal_ingame _ Hb s (list_elem_of_lookup_2 _ _ _ Hi) Hg)).
Qed.

(** The rounds in which a player may drop. *)
Definition turn_rounds : list Z := [GAME_ACTIVE1; GAME_SHUFFLE_CARD; GAME_ACTIVE2].

(** The turn after the drop of the player at seat [i]. *)
Definition after_drop (p : Player) d d1 d' : Prop :=
  if Z.of_nat (count_of is_in_game (m_seats d1)) =? 1 then between d'
  else if is_wait_active d && is_active_player p d then
    turned d1 d'
  else view d' = view d1.

Lemma wait_active_round d r :
  in_round r (m_game_status d) -> r ∈ rounds ->
  is_wait_active d = bool_decide (r = GAME_ACTIVE1 \/ r = GAME_ACTIVE2) /\
  is_wait_active1 d = bool_decide (r = GAME_ACTIVE1) /\
  is_wait_active2 d = bool_decide (r = GAME_ACTIVE2).
Proof.
  intros Hst Hr. unfold is_wait_active, is_wait_active1, is_wait_active2.
  rewrite !(in_round_cases r) by (done || (by_decision)).
  split_and!; [|done..]. by rewrite bool_decide_or.
Qed.

Lemma turn_rounds_status d r :
  in_round r (m_game_status d) -> r ∈ rounds ->
  is_game_over d || is_game_declare d || is_dealer_card d = false -> r ∈ turn_rounds.
Proof.
  unfold is_game_over, is_game_declare, is_dealer_card. intros Hst Hr.
  rewrite !(in_round_cases r) by (done || (by_decision)).
  unfold turn_rounds. unfold rounds in Hr. clear Hst.
  repeat (apply elem_of_cons in Hr as [->|Hr]); [..|by apply elem_of_nil in Hr]; intros E;
    first [discriminate E|set_solver].
Qed.

(** The stock of cards when the active player drops. *)
Lemma drop_stocked v v' r i s s' :
  phase v r -> r ∈ turn_rounds -> v_seats v !! i = Some s -> is_in_game s = true ->
  is_in_game s' = false -> v_seats v' = <[i := s']> (v_seats v) ->
  v_bottom v' = v_bottom v -> v_pool v' = v_pool v ->
  (r = GAME_ACTIVE2 -> (2 <= length (v_bottom v) /\ 1 <= length (v_pool v))%nat) ->
  stocked v'.
Proof.
  intros Hph Hr Hi Hg Hg' Es Eb Ep Hmay. unfold stocked. rewrite Es, Eb, Ep.
  pose proof (count_leave _ _ _ s' Hi Hg Hg').
  inversion Hph as [| | | |_ (K1 & K2 & K3) _|_ (K4 & K5 & K6) _|j t _ _ _ _ _ _ Hbot Htot|]; subst;
    try (exfalso; revert Hr; by apply (bool_decide_eq_false_1 _)); [lia..|].
  destruct (Hmay eq_refl). lia.
Qed.

Lemma turn_phase_turns v r : phase v r -> r ∈ turn_rounds ->
  exists e, turns e v /\ (e = -1 \/ r = GAME_ACTIVE2 /\ e = v_active v).
Proof.
  intros Hph Hr. inversion Hph; subst; try (exfalso; revert Hr; by apply (bool_decide_eq_false_1 _)).
  - exists (-1). by split; [|left].
  - exists (-1). by split; [|left].
  - exists (v_active v). split; [done|by right].
Qed.

(** The turn of the others is not affected. *)
Lemma drop_phase v v' r i s s' :
  core v -> phase v r -> r ∈ turn_rounds -> v_seats v !! i = Some s -> is_in_game s = true ->
  is_in_game s' = false -> v_seats v' = <[i := s']> (v_seats v) ->
  v_bottom v' = v_bottom v -> v_pool v' = v_pool v -> v_active v' = v_active v ->
  v_apply v' = v_apply v -> (2 <= count_of is_in_game (v_seats v'))%nat -> concealed s' ->
  (r <> GAME_SHUFFLE_CARD -> v_active v <> Z.of_nat i) ->
  phase v' r.
Proof.
  intros Hc Hph Hr Hi Hg Hg' Es Eb Ep Ea Eap Hn Hcs Hother.
  destruct (turn_phase_turns v r Hph Hr) as (e & He & Hor).
  assert (turns e v') as He' by (apply (turns_leave e v v' i s s'); try done; by left).
  assert (forall j t, v_seats v !! j = Some t -> j <> i -> v_seats v' !! j = Some t) as Hkeep.
  { intros j t Hj Hne. rewrite Es. by rewrite list_lookup_insert_ne. }
  inversion Hph as [| | | |Ht Hsk Hp|Ht Hsk Ha|j t Ht Ha Hj Hgt Hlen Hdig Hbot Htot|]; subst;
    try (exfalso; revert Hr; by apply (bool_decide_eq_false_1 _)).
  - destruct Hor as [->|[? _]]; [|done]. apply phase_active1; [done| |].
    + by apply (drop_stocked v v' GAME_ACTIVE1 i s s').
    + destruct Hp as (j & t & Hj & Hjt & Hgt). exists j, t. rewrite Ea. split_and!; [done| |done].
      apply Hkeep; [done|]. intros ->. by apply Hother.
  - destruct Hor as [->|[? _]]; [|done]. apply phase_shuffle; [done| |by rewrite Ea].
    by apply (drop_stocked v v' GAME_SHUFFLE_CARD i s s').
  - destruct Hor as [->|[_ ->]].
    { apply (phase_active2 _ j t); try done; try (by rewrite ?Eb, ?Ea); [| |].
      - by apply (turns_leave (v_active v) v v' i s s'); [..|left].
      - apply Hkeep; [done|]. intros ->. by apply Hother.
      - rewrite Es, Eb, Ep. pose proof (count_leave _ _ _ s' Hi Hg Hg'). lia. }
    apply (phase_active2 _ j t); try done; try (by rewrite ?Eb, ?Ea); [|].
    + apply Hkeep; [done|]. intros ->. by apply Hother.
    + rewrite Es, Eb, Ep. pose proof (count_leave _ _ _ s' Hi Hg Hg'). lia.
Qed.

Lemma step_player_drop_returns uid p i s r d :
  inv (view d) -> in_round r (m_game_status d) -> phase (view d) r -> r ∈ turn_rounds ->
  m_objects d !! uid = Some p -> m_pGameSeat p = Some i -> m_seats d !! i = Some s ->
  is_in_game s = true -> may_drop p d ->
  returns (step_player_drop room iv ROOM_IDLE uid d) (fun d' => exists s2 real d1,
    paid i s s2 real d d1 /\ after_drop p d d1 d').
Proof.
  intros Hinv Hst Hph Hr Hp Hps Hi Hg Hmay. pose proof Hinv as (Hc & Hb & _).
  pose proof (core_linked _ Hc) as Hl.
  destruct (seat_of_player _ _ _ _ Hl Hp Hps) as (Hid & s0 & Hi0 & Hu).
  assert (s0 = s) as -> by congruence. clear Hi0.
  destruct (seat_player_Ok _ _ _ _ Hl Hi Hu) as (q & Hsp & Hq & _). assert (q = p) as -> by congruence.
  pose proof (phase_round _ _ Hph) as Hrounds.
  destruct (wait_active_round d r Hst Hrounds) as (W & W1 & W2).
  unfold step_player_drop.
  assert (get_player uid d = Ok p) as Hget by (unfold get_player; by rewrite Hp). rewrite Hget.
  cbn [mbind outcome_bind].
  assert (player_seat p d = Ok (i, s)) as ->.
  { unfold player_seat. rewrite Hps. cbn [deref mbind outcome_bind]. by rewrite Hi. }
  cbn [mbind outcome_bind]. rewrite Hsp. cbn [mbind outcome_bind].
  set (drop_card := is_wait_active2 d && is_active_player p d).
  assert (drop_card = true -> r = GAME_ACTIVE2 /\ m_active_seatnum d = Z.of_nat i) as Hdrop.
  { unfold drop_card. intros [E1 E2]%andb_true_iff. rewrite W2 in E1. apply bool_decide_eq_true in E1.
    split; [done|]. destruct (active_player_seat _ _ _ Hl Hp E2) as (j & t & Ha & Hps' & _). congruence. }
  eapply returns_bind.
  { apply (player_drop_returns (view d) s p (m_room_id room) (joker_point d) drop_card printable Hc);
      [by eapply list_elem_of_lookup_2|]. intros Ed. destruct (Hdrop Ed) as [-> Ha].
    inversion Hph as [| | | | | |j t Ht Haj Hj Hgt Hlen Hdig _ _|]; subst. simpl in Haj, Hj.
    assert (j = i) as -> by (apply Nat2Z.inj; congruence). assert (t = s) as -> by congruence. done. }
  intros [s1 p1] [Hdropped [Hid1 Hps1]]. cbn [fst snd] in *.
  set (d1 := put_player uid p1 (put_seat i s1 d)).
  assert (view d1 = (view d) <| v_seats := <[i := s1]> (m_seats d) |>) as Hv1.
  { unfold d1. by rewrite (view_put_player uid p). }
  assert (m_seats d1 !! i = Some s1) as Hi1 by (by apply list_lookup_insert_eq; eapply lookup_lt_Some).
  assert (linked (m_seats d1) (links (m_objects d1))) as Hl1.
  { change (linked (v_seats (view d1)) (v_links (view d1))). rewrite Hv1.
    apply (linked_insert _ _ i s); [done..|]. destruct Hdropped. split; congruence. }
  eapply returns_bind;
    [exact (seat_account_returns room d1 i s1 uid _ Hl1 Hi1 (eq_trans (dropped_player _ _ _ Hdropped) Hu))|].
  intros [real d2] (s2 & Hv2 & Hs2 & Hacc & _). cbn [fst snd] in *.
  assert (0 <= seat_score s1) as Hscore.
  { rewrite (dropped_score _ _ _ Hdropped). exact (core_scores _ Hc s (list_elem_of_lookup_2 _ _ _ Hi)). }
  destruct (_ <=? 0) eqn:E in Hacc; [|exfalso; apply Z.leb_gt in E; clear -E Hscore small_blind_nonneg; nia]. clear E.
  match goal with |- context [get_ingame_count ?x =? 1] => set (d3 := x) end.
  assert (view d3 = (view d) <| v_seats := <[i := s2]> (m_seats d) |> <| v_chips := real + m_chips_pool d |>) as Hv3.
  { change (view d3) with ((view d2) <| v_chips ::= Z.add real |>).
    rewrite Hv2, Hv1. unfold d1. simpl. by rewrite list_insert_insert_eq. }
  assert (paid i s s2 real d d3) as Hpaid.
  { apply (paid_intro i s s1 s2 real drop_card); try done.
    intros Ed. destruct (Hdrop Ed) as [-> Ha].
    inversion Hph as [| | | | | |j t Ht Haj Hj Hgt Hlen Hdig _ _|]; subst. simpl in Haj, Hj.
    assert (j = i) as -> by (apply Nat2Z.inj; congruence). by assert (t = s) as -> by congruence. }
  pose proof Hpaid as [_ Hc3 Hb3 Hout Hcs].
  assert (m_game_status d3 = m_game_status d) as Hstat by (change (v_status (view d3) = m_game_status d); by rewrite Hv3).
  assert (statused (view d3)) as Hst3 by (exists r; by rewrite Hv3).
  assert (m_seats d3 = <[i := s2]> (m_seats d)) as Hseats3 by (change (v_seats (view d3) = <[i := s2]> (m_seats d)); by rewrite Hv3).
  rewrite get_ingame_count_of. unfold after_drop.
  destruct (Z.of_nat (count_of is_in_game (m_seats d3)) =? 1) eqn:E1.
  - eapply returns_mono; [apply drop_over_returns; [done..|clear -E1; lia]|].
    intros d' Hd'. exists s2, real, d3. split; [done|]. by rewrite E1.
  - assert (2 <= count_of is_in_game (m_seats d3))%nat as Hn.
    { destruct (turn_phase_turns _ _ Hph Hr) as (e & He & _). pose proof (turns_count _ _ He) as Hn.
      pose proof (count_leave _ _ _ s2 Hi Hg Hout) as Hl2. rewrite <- Hseats3 in Hl2.
      simpl in Hn. clear -Hn Hl2 E1. lia. }
    assert (m_active_seatnum d3 = m_active_seatnum d) as Ha3.
    { change (v_active (view d3) = m_active_seatnum d). by rewrite Hv3. }
    assert (exists p3, m_objects d3 !! uid = Some p3 /\ m_pGameSeat p3 = Some i) as (p3 & Hp3 & Hps3).
    { assert (v_links (view d3) !! uid = Some (uid, Some i)) as Hlk.
      { rewrite Hv3. simpl. by rewrite links_lookup, Hp; simpl; rewrite Hid, Hps. }
      change (links (m_objects d3) !! uid = Some (uid, Some i)) in Hlk. rewrite links_lookup in Hlk.
      apply fmap_Some in Hlk as (p3 & Hp3 & [= _ Hp3']). by exists p3. }
    assert (get_player uid d3 = Ok p3) as -> by (unfold get_player; by rewrite Hp3).
    cbn [mbind outcome_bind].
    assert (is_wait_active d3 && is_active_player p3 d3 = is_wait_active d && is_active_player p d) as ->.
    { unfold is_wait_active, is_wait_active1, is_wait_active2, is_active_player, get_seat_number.
      by rewrite Hstat, Ha3, Hps, Hps3. }
    destruct (is_wait_active d && is_active_player p d) eqn:Eact.
    + apply andb_true_iff in Eact as [Ew Ea].
      destruct (active_player_seat _ _ _ Hl Hp Ea) as (j & t & Haj & Hpsj & _).
      assert (j = i) as -> by congruence.
      assert (turning d3) as Hturn.
      { split_and!; [done..| | |].
        - destruct (turn_phase_turns _ _ Hph Hr) as (e & He & Hor).
          apply (turns_leave e (view d) _ i s s2); try done; rewrite ?Hv3; try done.
          destruct Hor as [->|[_ ->]]; [by left|by right].
        - apply (drop_stocked (view d) _ r i s s2); try done; rewrite ?Hv3; try done.
          intros ->. apply Hmay; [|done]. rewrite W2. by apply bool_decide_eq_true.
        - right. rewrite Ha3, Haj. apply lookup_lt_Some in Hi.
          pose proof (core_seats _ Hc) as Hlen. simpl in Hlen. rewrite Hlen in Hi.
              unfold m_max_seat_num in Hi. clear -Hi. lia. }
      eapply returns_mono; [by apply active_player_returns|]. intros d' Hd'.
      exists s2, real, d3. split; [done|]. by rewrite E1.
    + apply returns_ret. exists s2, real, d3. split; [done|]. by rewrite E1.
Qed.

Lemma after_drop_inv uid p i s r s2 real d d1 d' :
  inv (view d) -> in_round r (m_game_status d) -> phase (view d) r -> r ∈ turn_rounds ->
  m_objects d !! uid = Some p -> m_pGameSeat p = Some i -> m_seats d !! i = Some s ->
  is_in_game s = true -> may_drop p d ->
  paid i s s2 real d d1 -> after_drop p d d1 d' -> inv (view d').
Proof.
  intros Hinv Hst Hph Hr Hp Hps Hi Hg Hmay [Hv1 Hc1 Hb1 Hout Hcs] Hafter.
  pose proof Hinv as (Hc & _). pose proof (core_linked _ Hc) as Hl.
  pose proof (phase_round _ _ Hph) as Hrounds.
  destruct (wait_active_round d r Hst Hrounds) as (W & W1 & W2).
  assert (m_seats d1 = <[i := s2]> (m_seats d)) as Hseats by (change (v_seats (view d1) = <[i := s2]> (m_seats d)); by rewrite Hv1).
  unfold after_drop, turned in Hafter. destruct (_ =? 1) eqn:E1; [by apply between_inv|].
  assert (2 <= count_of is_in_game (m_seats d1))%nat as Hn.
  { destruct (turn_phase_turns _ _ Hph Hr) as (e & He & _). pose proof (turns_count _ _ He) as Hn.
    pose proof (count_leave _ _ _ s2 Hi Hg Hout) as Hl2. rewrite <- Hseats in Hl2.
    simpl in Hn. clear -Hn Hl2 E1. lia. }
  destruct (is_wait_active d && is_active_player p d) eqn:Eact.
  - apply andb_true_iff in Eact as [Ew Ea]. destruct (drawn_out d1); [by apply between_inv|].
    destruct Hafter as (n & Hturn & ->). destruct Hturn as [Hplays _].
    destruct (active_player_seat _ _ _ Hl Hp Ea) as (j & t & Haj & Hpsj & _).
    assert (j = i) as -> by congruence. split_and!.
    + apply (core_same _ _ Hc1); try done. apply Hc1.
    + by destruct Hb1.
    + exists GAME_ACTIVE1. split; [by right|]. apply phase_active1; [| |done].
      * destruct (turn_phase_turns _ _ Hph Hr) as (e & He & Hor).
        apply (turns_leave e (view d) _ i s s2); try done; simpl; rewrite ?Hv1; try done.
        -- change (m_apply_declare_seatnum d1) with (v_apply (view d1)). by rewrite Hv1.
        -- destruct Hor as [->|[_ ->]]; [by left|by right].
      * apply (drop_stocked (view d) _ r i s s2); try done; simpl.
        -- change (v_bottom (view d1) = m_bottom_cards d). by rewrite Hv1.
        -- change (v_pool (view d1) = m_pokercard_pool d). by rewrite Hv1.
        -- intros ->. apply Hmay; [|done]. rewrite W2. by apply bool_decide_eq_true.
  - rewrite Hafter. split_and!; [done..|]. exists r. rewrite Hv1. split; [done|]. rewrite <- Hv1.
    apply (drop_phase (view d) _ r i s s2); try done; try (by rewrite Hv1).
    intros Hne Ha. assert (is_wait_active d = true) as Hwa.
    { rewrite W. apply bool_decide_eq_true. unfold turn_rounds in Hr. clear -Hr Hne. set_solver. }
    rewrite Hwa in Eact. cbn [andb] in Eact. unfold is_active_player, get_seat_number in Eact.
    rewrite Hps in Eact. simpl in Ha. rewrite Ha in Eact.
    destruct (Z.of_nat i =? -1) eqn:E3; [lia|]. by rewrite Z.eqb_refl in Eact.
Qed.

(** What a spectator sees of a drop. *)
Lemma after_drop_follows uid p i s r s2 real d d1 d' :
  inv (view d) -> in_round r (m_game_status d) -> phase (view d) r -> r ∈ turn_rounds ->
  m_objects d !! uid = Some p -> m_pGameSeat p = Some i -> m_seats d !! i = Some s ->
  is_in_game s = true -> paid i s s2 real d d1 -> after_drop p d d1 d' ->
  follows (spectate (view d)) (spectate (view d')).
Proof.
  intros Hinv Hst Hph Hr Hp Hps Hi Hg [Hv1 Hc1 _ Hout _] Hafter.
  pose proof Hinv as (Hc & _). pose proof (phase_round _ _ Hph) as Hrounds.
  destruct (wait_active_round d r Hst Hrounds) as (W & _).
  destruct (turn_phase_turns _ _ Hph Hr) as (e & He & _).
  pose proof (turns_apply _ _ He) as Hap. pose proof (turns_count _ _ He) as Hn. simpl in Hap, Hn.
  assert (m_seats d1 = <[i := s2]> (m_seats d) /\ m_active_seatnum d1 = m_active_seatnum d /\
    m_apply_declare_seatnum d1 = -1 /\ m_game_status d1 = m_game_status d) as (Hseats & Ha1 & Hap1 & Hst1).
  { change (v_seats (view d1) = <[i := s2]> (m_seats d) /\ v_active (view d1) = m_active_seatnum d /\
      v_apply (view d1) = -1 /\ v_status (view d1) = m_game_status d). by rewrite Hv1. }
  set (players := is_in_game <$> m_seats d).
  assert (is_in_game <$> m_seats d1 = <[i := false]> players) as Hplayers.
  { by rewrite Hseats, list_fmap_insert, Hout. }
  assert (players !! i = Some true) as Hpi by by rewrite <- Hg; apply players_lookup.
  assert (r ∈ shown_rounds) as Hshown.
  { unfold turn_rounds in Hr. repeat (apply elem_of_cons in Hr as [->|Hr]); [by_decision..|].
    by apply elem_of_nil in Hr. }
  rewrite (spectate_shown (view d) r) by done. simpl. rewrite Hap. fold players.
  unfold after_drop, turned in Hafter. destruct (_ =? 1) eqn:E1.
  { rewrite (between_spectate d') by done. auto. }
  destruct (is_wait_active d && is_active_player p d) eqn:Eact.
  - apply andb_true_iff in Eact as [Ew Ea]. destruct (drawn_out d1).
    { rewrite (between_spectate d') by done. auto. }
    destruct Hafter as (n & Hturn & Hv).
    destruct (active_player_seat _ _ _ (core_linked _ Hc) Hp Ea) as (j & t & Haj & Hpsj & _).
    assert (j = i) as -> by congruence. right.
    rewrite (turn_to_spectate n d1 d') by done. rewrite Hplayers, Haj.
    pose proof (turn_to_turn n d1 Hc1 Hturn) as Hnext. rewrite Hplayers, Ha1, Haj in Hnext.
    unfold turn_of in Hnext. destruct (Z.of_nat i =? -1) eqn:E; [lia|].
    apply proto_drop_turn; [|done|done]. rewrite W in Ew. apply bool_decide_eq_true in Ew.
    clear -Ew. set_solver.
  - right. rewrite Hafter, (spectate_shown (view d1) r); [|by rewrite Hv1|done]. simpl.
    rewrite Ha1, Hap1, Hplayers.
    assert (2 <= in_play (<[i := false]> players))%nat as Hplay.
    { rewrite <- Hplayers, in_play_count. pose proof (count_leave _ _ _ s2 Hi Hg Hout) as Hl2.
      rewrite <- Hseats in Hl2. clear -Hn Hl2 E1. lia. }
    destruct (decide (r = GAME_SHUFFLE_CARD)) as [->|Hne]; [by apply proto_drop_shuffling|].
    apply proto_drop; [|done|done| |done].
    + unfold turn_rounds in Hr. clear -Hr. set_solver.
    + assert (is_wait_active d = true) as Hwa.
      { rewrite W. apply bool_decide_eq_true. unfold turn_rounds in Hr. clear -Hr Hne. set_solver. }
      intros Ha. rewrite Hwa in Eact. cbn [andb] in Eact. unfold is_active_player, get_seat_number in Eact.
      rewrite Hps, Ha, Z.eqb_refl in Eact. destruct (Z.of_nat i =? -1) eqn:E; [lia|done].
Qed.

Lemma desk_player_drop_goes_on uid d :
  inv (view d) -> is_Some (m_objects d !! uid) ->
  (forall p, m_objects d !! uid = Some p -> may_drop p d) ->
  returns (desk_player_drop room iv ROOM_IDLE uid d) (fun d' => goes_on (view d) (view d')).
Proof.
  intros Hinv [p Hp] Hmay. pose proof Hinv as (Hc & Hb & r & Hst & Hph).
  pose proof (core_linked _ Hc) as Hl. pose proof (phase_round _ _ Hph) as Hrounds.
  unfold desk_player_drop.
  destruct (is_game_over d || is_game_declare d || is_dealer_card d) eqn:E; [by apply returns_ret|].
  assert (get_player uid d = Ok p) as -> by (unfold get_player; by rewrite Hp).
  cbn [mbind outcome_bind]. unfold is_seated_player, player_seat.
  destruct (m_pGameSeat p) as [i|] eqn:Hps; [|by apply returns_ret].
  rewrite bool_decide_eq_true_2 by done. cbn [negb deref mbind outcome_bind].
  destruct (seat_of_player _ _ _ _ Hl Hp Hps) as (Hid & s & Hi & Hu). rewrite Hi.
  cbn [access mbind outcome_bind mret outcome_ret].
  destruct (is_in_game s) eqn:Hg; cbn [negb orb]; [|by apply returns_ret].
  destruct (is_drop s); [by apply returns_ret|].
  assert (r ∈ turn_rounds) as Hr.
  { by apply (turn_rounds_status d). }
  assert (inv (view (reply GG_ERROR_SUCCESS d))) as Hinv' by done.
  eapply returns_mono; [apply (step_player_drop_returns uid p i s r (reply GG_ERROR_SUCCESS d)); try done; by apply Hmay|].
  intros d' (s2 & real & d1 & Hpaid & Hafter).
  split.
  - apply (after_drop_inv uid p i s r s2 real (reply GG_ERROR_SUCCESS d) d1); try done. by apply Hmay.
  - by apply (after_drop_follows uid p i s r s2 real (reply GG_ERROR_SUCCESS d) d1).
Qed.
End dropping.
