(* ===== verification/Declaring.v ===== *)
(** * Declaring

    The check of a winning declaration, the check of a loser's, and the request
    that opens the declaration round. *)
From Stdlib Require Import ZArith Lia String.
From stdpp Require Import base tactics numbers sorting option gmap strings sets list.
From S2P Require Import Prelude Cards Dealer Straight Declare Search Found Hand.
From S2P Require Import Player Seat Desk Play Round Room Table Protocol Settle Seating Between Scan Turn DigPost.

(** Groups and a card that make up a hand are real cards. *)
Lemma declared_points hand groups c :
  hand ⊆+ deck -> (length hand <= 14)%nat ->
  concat (m_cards <$> groups) ++ [c] ≡ₚ hand -> Forall card_points groups.
Proof.
  intros Hd Hl Hp.
  assert (Forall card_points (groups ++ [mkGroup GroupType.GROUP_INVALID [c]])) as Hall.
  { apply (hand_card_points hand); [by apply real_hand_of_deck|].
    rewrite fmap_app, concat_app. simpl. done. }
  by apply Forall_app in Hall as [? _].
Qed.

(** Sorted vectors are compared to compare hands. *)
Lemma sorted_eq_perm l k : sort_cards l = sort_cards k <-> l ≡ₚ k.
Proof.
  split; intros Hlk.
  - by rewrite <- (sort_cards_perm l), Hlk, sort_cards_perm.
  - apply sort_cards_unique; [by rewrite sort_cards_perm|apply sort_cards_sorted].
Qed.

(** The seat of a player whose declaration has been accepted. *)
Definition declared_seat (groups : list CardGroup) (s : GameSeat) : GameSeat :=
  let s := s <| m_handcards_total ::= sort_cards |> <| seat_score := 0 |> <| m_card_score := 0 |>
             <| seat_card_group := groups |> in
  with_status (Z.lor (m_seat_stauts s) Status.declared) s.

Lemma check_declare_spec room_id jp dc cg s p :
  m_handcards_total s ⊆+ deck -> (length (m_handcards_total s) <= 14)%nat ->
  let groups := ParseMsgGroup [] cg in
  exists b s' p', check_declare room_id jp dc cg s p =
      (_ ← (if b : bool then print_literal 7 room_id else Ok tt); Ok (b, s', p')) /\
    (b = true <-> concat (m_cards <$> groups) ++ [parse_msg_card dc] ≡ₚ m_handcards_total s /\
                  declare_spec jp groups) /\
    (b = true -> s' = declared_seat groups s /\ p' = declare_phase p) /\
    (b = false -> p' = p /\ (s' = s \/ s' = s <| m_handcards_total ::= sort_cards |>)).
Proof.
  intros Hd Hl groups. unfold check_declare. fold groups. set (c := parse_msg_card dc).
  destruct (bool_decide (c ∈ m_handcards_total s)) eqn:Hin; cbn [negb].
  2: { apply bool_decide_eq_false in Hin. exists false, s, p. split_and!; [done| |done|by auto].
       split; [done|]. intros [Hp _]. exfalso. apply Hin. rewrite <- Hp. set_solver. }
  destruct (bool_decide (_ = _)) eqn:Heq; cbn [negb].
  2: { apply bool_decide_eq_false in Heq.
       exists false, (s <| m_handcards_total ::= sort_cards |>), p. split_and!; [done| |done|by auto].
       split; [done|]. intros [Hp _]. exfalso. apply Heq. simpl. by apply sorted_eq_perm. }
  apply bool_decide_eq_true in Heq. simpl in Heq. apply sorted_eq_perm in Heq.
  destruct (is_groups_declare_spec groups jp) as (b & -> & Hb); [by eapply declared_points|].
  cbn [mbind outcome_bind]. destruct b; cbn [negb].
  - exists true, (declared_seat groups s), (declare_phase p). split_and!; [|tauto|done|done].
    unfold seat_status. by destruct (print_literal 7 room_id).
  - exists false, (s <| m_handcards_total ::= sort_cards |>), p. split_and!; [done| |done|by auto].
    split; [done|]. intros [_ Hdec]. by apply Hb.
Qed.

(** C38: A declaration is accepted exactly when its groups and the card put
    down are the cards of the hand and the groups are a winning declaration;
    a refused one changes nothing but the order of the hand.  The check always
    returns in the rooms 0 to 7; in another one, an accepted declaration faults in the
    log line of the seat's new status. *)
Theorem check_declare_correct room_id jp dc cg s p :
  m_handcards_total s ⊆+ deck -> (length (m_handcards_total s) <= 14)%nat ->
  let groups := ParseMsgGroup [] cg in
  exists b s' p', check_declare room_id jp dc cg s p =
      (_ ← (if b : bool then print_literal 7 room_id else Ok tt); Ok (b, s', p')) /\
    (b = true <-> concat (m_cards <$> groups) ++ [parse_msg_card dc] ≡ₚ m_handcards_total s /\
                  declare_spec jp groups) /\
    (b = true -> s' = declared_seat groups s /\ p' = declare_phase p) /\
    (b = false -> p' = p /\ (s' = s \/ s' = s <| m_handcards_total ::= sort_cards |>)).
Proof. apply check_declare_spec. Qed.

(** A winning hand: two straights, two sets and the card put down. *)
Definition winning_groups : list CardGroup :=
  [mkGroup GroupType.GROUP_STAIGHT [spade 2; spade 3; spade 4];
   mkGroup GroupType.GROUP_STAIGHT [mkCard 2 9; mkCard 2 10; mkCard 2 11];
   mkGroup GroupType.GROUP_THREE_KIND [mkCard 1 8; mkCard 2 8; mkCard 3 8];
   mkGroup GroupType.GROUP_THREE_KIND [mkCard 1 6; mkCard 2 6; mkCard 3 6; mkCard 4 6]].

Definition winning_seat : GameSeat :=
  new_seat <| m_handcards_total := concat (m_cards <$> winning_groups) ++ [spade 13] |>.

Lemma winning_seat_deck : m_handcards_total winning_seat ⊆+ deck.
Proof. refine (bool_decide_eq_true_1 _ _). vm_compute. reflexivity. Qed.

Lemma check_declare_correct_witness :
  let cg := to_msg_group <$> winning_groups in
  (fun r => r.1.1) <$> check_declare 1 5 (to_msg_card (spade 13)) cg winning_seat (new_player 1 0) = Ok true /\
  exists b s' p', check_declare 1 5 (to_msg_card (spade 13)) cg winning_seat (new_player 1 0) =
      (_ ← (if b : bool then print_literal 7 1 else Ok tt); Ok (b, s', p')) /\
    (b = true <-> concat (m_cards <$> ParseMsgGroup [] cg) ++ [parse_msg_card (to_msg_card (spade 13))]
                    ≡ₚ m_handcards_total winning_seat /\ declare_spec 5 (ParseMsgGroup [] cg)) /\
    (b = true -> s' = declared_seat (ParseMsgGroup [] cg) winning_seat /\ p' = declare_phase (new_player 1 0)) /\
    (b = false -> p' = new_player 1 0 /\
       (s' = winning_seat \/ s' = winning_seat <| m_handcards_total ::= sort_cards |>)).
Proof.
  intros cg. split; [vm_compute; reflexivity|].
  apply check_declare_correct; [exact winning_seat_deck|simpl; lia].
Defined.

(** A loser's declaration is accepted exactly when its groups are the
    cards of the hand and every group counts; he then pays for the points of
    the loose cards, at least 1 and at most 80, and is out of the game. *)
Theorem check_lose_declare_scores room_id jp cg score0 s p :
  0 <= room_id <= 7 ->
  m_handcards_total s ⊆+ deck -> (length (m_handcards_total s) <= 14)%nat ->
  let groups := ParseMsgGroup [] cg in
  exists b score s' p', seat_check_lose_declare room_id jp cg score0 s p = Ok (b, score, s', p') /\
    (b = true <-> concat (m_cards <$> groups) ≡ₚ m_handcards_total s /\ lose_spec jp groups) /\
    (b = true -> m_card_score s' = loose_score jp groups /\
       seat_score s' = Z.max 1 (Z.min 80 (loose_score jp groups)) /\
       score = Z.min 80 (loose_score jp groups) /\ seat_card_group s' = groups /\
       is_in_game s' = false /\ is_declared s' = true /\ p' = declare_phase p) /\
    (b = false -> p' = p /\ s' = s <| m_handcards_total ::= sort_cards |>).
Proof.
  intros Hroom Hd Hl groups. unfold seat_check_lose_declare. fold groups.
  destruct (bool_decide (_ = _)) eqn:Heq; cbn [negb].
  2: { apply bool_decide_eq_false in Heq. do 4 eexists. split_and!; [reflexivity| |done|done].
       split; [done|]. intros [Hp _]. exfalso. apply Heq. simpl. by apply sorted_eq_perm. }
  apply bool_decide_eq_true in Heq. simpl in Heq. apply sorted_eq_perm in Heq.
  destruct (check_lose_declare_spec groups jp) as (b & score & -> & Hb & Hs).
  { apply (hand_card_points (m_handcards_total s)); [by apply real_hand_of_deck|done]. }
  cbn [mbind outcome_bind]. destruct b; cbn [negb].
  - rewrite (Hs eq_refl). pose proof (loose_score_nonneg jp groups) as H0.
    destruct (account_score _ _) as [score' s1] eqn:E. rewrite lose_status_ok by done. do 4 eexists.
    split_and!; [reflexivity|tauto| |done]. intros _.
    assert (is_in_game (lost_status (s1 <| seat_card_group := groups |>)) = false /\
            is_declared (lost_status (s1 <| seat_card_group := groups |>)) = true) as [-> ->]
      by apply lost_status_bits.
    unfold account_score in E. repeat case_match; simplify_eq; simpl; split_and!; done || lia.
  - do 4 eexists. split_and!; [reflexivity| |done|done]. split; [done|]. intros [_ Hlose]. by apply Hb.
Qed.

Lemma check_lose_declare_scores_witness :
  let cg := to_msg_group <$> [mkGroup GroupType.GROUP_INVALID (m_handcards_total winning_seat)] in
  exists b score s' p', seat_check_lose_declare 1 5 cg 0 winning_seat (new_player 1 0) = Ok (b, score, s', p') /\
    (b = true <-> concat (m_cards <$> ParseMsgGroup [] cg) ≡ₚ m_handcards_total winning_seat /\
                  lose_spec 5 (ParseMsgGroup [] cg)) /\
    (b = true -> m_card_score s' = loose_score 5 (ParseMsgGroup [] cg) /\
       seat_score s' = Z.max 1 (Z.min 80 (loose_score 5 (ParseMsgGroup [] cg))) /\
       score = Z.min 80 (loose_score 5 (ParseMsgGroup [] cg)) /\
       seat_card_group s' = ParseMsgGroup [] cg /\
       is_in_game s' = false /\ is_declared s' = true /\ p' = declare_phase (new_player 1 0)) /\
    (b = false -> p' = new_player 1 0 /\ s' = winning_seat <| m_handcards_total ::= sort_cards |>).
Proof.
  intros cg. apply (check_lose_declare_scores 1 5 cg 0 winning_seat (new_player 1 0));
    [lia|exact winning_seat_deck|simpl; lia].
Defined.

Section declaring.
Context {M G : Type} `{MoneyService M} `{RandGen G}.
Context (room : RoomInfo) `{!PrintableRoom room}.
Variables (iv : TimeInterval) (ROOM_IDLE : Z).
Abbreviation desk := (GameDesk M G).
Implicit Type d : desk.

Lemma in_rounds_active2 : GAME_ACTIVE2 ∈ rounds.
Proof. by_decision. Qed.

(** The declaration round has been opened by the player at seat [i]. *)
Definition declares (i : nat) (groups : list CardGroup) d d' : Prop :=
  is_wait_active2 d = true /\ m_active_seatnum d = Z.of_nat i /\
  exists s, m_seats d !! i = Some s /\
    view d' = (view d) <| v_seats := <[i := declared_seat groups s]> (m_seats d) |>
                <| v_apply := Z.of_nat i |> <| v_status := Z.lor GAME_WAIT_MASK GAME_DECLARE |>.

(** Refused, perhaps with a hand put in order. *)
Definition sorted_only (i : nat) d d' : Prop :=
  exists s, m_seats d !! i = Some s /\
    view d' = (view d) <| v_seats := <[i := s <| m_handcards_total ::= sort_cards |>]> (m_seats d) |>.

Lemma player_declare_returns uid dc cg d :
  inv (view d) -> is_Some (m_objects d !! uid) ->
  returns (player_declare room iv ROOM_IDLE uid dc cg d) (fun d' =>
    view d' = view d \/ exists i, sorted_only i d d' \/ declares i (ParseMsgGroup [] cg) d d').
Proof.
  intros Hinv [p Hp]. pose proof Hinv as (Hc & Hb & _). pose proof (core_linked _ Hc) as Hl.
  unfold player_declare.
  assert (get_player uid d = Ok p) as -> by (unfold get_player; by rewrite Hp).
  cbn [mbind outcome_bind]. unfold is_seated_player, player_seat.
  destruct (m_pGameSeat p) as [i|] eqn:Hps; [|by apply returns_ret; left].
  rewrite bool_decide_eq_true_2 by done. cbn [negb deref mbind outcome_bind].
  destruct (seat_of_player _ _ _ _ Hl Hp Hps) as (Hid & s & Hi & Hu). rewrite Hi.
  cbn [access mbind outcome_bind mret outcome_ret].
  destruct (is_in_game s) eqn:Hg; cbn [negb orb]; [|by apply returns_ret; left].
  destruct (is_wait_active2 d) eqn:H2; cbn [negb orb]; [|by apply returns_ret; left].
  destruct (is_active_player p d) eqn:Hact; cbn [negb]; [|by apply returns_ret; left].
  destruct (seat_player_Ok _ _ _ _ Hl Hi Hu) as (q & -> & Hq & _). assert (q = p) as -> by congruence.
  cbn [mbind outcome_bind].
  destruct (active_player_seat _ _ _ Hl Hp Hact) as (j & t & Ha & Hpsj & _).
  assert (j = i) as -> by congruence.
  pose proof (list_elem_of_lookup_2 _ _ _ Hi) as Hin.
  destruct (check_declare_spec (m_room_id room) (joker_point d) dc cg s p) as (b & s' & p' & -> & _ & Htrue & Hfalse).
  { exact (hand_in_deck (view d) s Hc Hin). }
  { destruct (hand_size_cases (view d) s Hc Hin) as [?|[?|?]]; lia. }
  destruct b; [rewrite print_literal_inside by auto|]; cbn [negb mbind outcome_bind].
  - destruct (Htrue eq_refl) as [-> ->]. destruct (declare_phase_place p) as [Hid' Hps'].
    apply returns_ret. right. exists i. right. split_and!; [done..|]. exists s. split; [done|].
    destruct (inv_phase d GAME_ACTIVE2 Hinv H2) as [_ Hst]; [exact in_rounds_active2|].
    match goal with |- context [wait_for_round _ _ ?x] => set (d1 := x) end.
    assert (view d1 = (view d) <| v_seats := <[i := declared_seat (ParseMsgGroup [] cg) s]> (m_seats d) |>) as Hv1.
    { change (view d1) with (view (put_player uid (declare_phase p)
        (put_seat i (declared_seat (ParseMsgGroup [] cg) s) d))). by rewrite (view_put_player uid p). }
    assert (get_seat_number p = Z.of_nat i) as -> by (unfold get_seat_number; by rewrite Hps).
    transitivity ((view (wait_for_round GAME_DECLARE
      (m_time_declare iv + m_time_declare_animat iv + 3000) d1)) <| v_apply := Z.of_nat i |>); [done|].
    rewrite wait_for_round_view; [by rewrite Hv1|].
    exists GAME_ACTIVE2. rewrite Hv1. split; [done|exact in_rounds_active2].
  - destruct (Hfalse eq_refl) as [-> Hs']. apply returns_ret.
    assert (view (put_player uid p (put_seat i s' d)) =
      (view d) <| v_seats := <[i := s']> (m_seats d) |>) as Hv.
    { by rewrite (view_put_player uid p). }
    destruct Hs' as [->| ->].
    + left. etransitivity; [exact Hv|]. by rewrite list_insert_id.
    + right. exists i. left. by exists s.
Qed.

Lemma declares_inv i groups d d' : inv (view d) -> declares i groups d d' -> inv (view d').
Proof.
  intros Hinv (H2 & Ha & s & Hi & ->).
  destruct (inv_phase d GAME_ACTIVE2 Hinv H2) as [Hph _]; [by_decision|].
  destruct Hinv as (Hc & Hb & _).
  inversion Hph as [| | | | | |j t Ht Haj Hj Hg Hlen Hdig _ _|]; subst. simpl in Haj, Hj.
  assert (j = i) as -> by (apply Nat2Z.inj; congruence). assert (t = s) as -> by congruence.
  set (s' := declared_seat groups s).
  assert (is_seated s' = is_seated s /\ is_in_game s' = is_in_game s /\
          is_player_joined s' = is_player_joined s /\ is_declared s' = true) as (B1 & B2 & B3 & B4).
  { unfold s', declared_seat. seat_bits. done. }
  assert (m_handcards_total s' ≡ₚ m_handcards_total s) as Hh by (simpl; apply sort_cards_perm).
  assert (<[i := s']> (m_seats d) !! i = Some s') as Hi'.
  { apply list_lookup_insert_eq. by eapply lookup_lt_Some. }
  split_and!.
  - apply (core_insert (view d) _ i s s'); try done.
    + apply Hc.
    + by rewrite (table_cards_same (view d) _ i s s').
    + rewrite Hh. exact (core_sizes _ Hc s (list_elem_of_lookup_2 _ _ _ Hi)).
  - apply (balanced_insert (view d) _ i s s'); try done; simpl; [lia|..].
    + rewrite B2, B3. exact (bal_ingame _ Hb s (list_elem_of_lookup_2 _ _ _ Hi)).
    + rewrite B3. exact (bal_joined _ Hb s (list_elem_of_lookup_2 _ _ _ Hi)).
  - exists GAME_DECLARE. split; [by right|].
    apply (phase_declare _ i s'); simpl; try done; [congruence| | |].
    + rewrite (count_insert_same _ i s s') by done. exact (turns_count _ _ Ht).
    + intros k u Hk Hgu Hne. rewrite list_lookup_insert_ne in Hk by done.
      by apply (turns_undeclared _ _ Ht k u).
    + apply all_concealed_insert; [by apply (turns_concealed _ _ Ht)|by apply declared_concealed].
Qed.

(** What a spectator sees of a declaration. *)
Lemma declares_goes_on i groups d d' :
  inv (view d) -> declares i groups d d' -> goes_on (view d) (view d').
Proof.
  intros Hinv Hd. split; [by eapply declares_inv|]. destruct Hd as (H2 & Ha & s & Hi & Hv).
  rewrite (active2_spectate d), Ha by done. right.
  destruct (inv_phase d GAME_ACTIVE2 Hinv H2) as [Hph _]; [by_decision|].
  inversion Hph as [| | | | | |j t Ht Haj Hj Hg _ _ _ _|]; subst. simpl in Haj, Hj.
  assert (j = i) as -> by (apply Nat2Z.inj; congruence). assert (t = s) as -> by congruence.
  rewrite (spectate_shown _ GAME_DECLARE); [|rewrite Hv; by right|by_decision].
  rewrite Hv. simpl. rewrite Ha, (players_insert_same _ i s); [|done|].
  - apply proto_declare. by rewrite (players_lookup _ _ s), Hg.
  - unfold declared_seat. seat_bits. done.
Qed.

Lemma player_declare_goes_on uid dc cg d :
  inv (view d) -> is_Some (m_objects d !! uid) ->
  returns (player_declare room iv ROOM_IDLE uid dc cg d) (fun d' => goes_on (view d) (view d')).
Proof.
  intros Hinv Hp. eapply returns_mono; [by apply player_declare_returns|].
  intros d' [->|[i [(s & Hi & ->)|Hd]]]; [auto| |by eapply declares_goes_on].
  apply goes_on_quiet.
  - apply (reorder_inv (view d) i s); [done|apply reordered_sort|done].
  - apply spectate_same; [done..|]. by apply (players_insert_same _ i s).
Qed.
End declaring.
