(* ===== verification/Dealing.v ===== *)
(** * Dealing

    A new game: the desk is readied, the dealer is chosen, thirteen cards go to
    every occupied seat, a card opens the pool and a card that is not a printed
    joker becomes the joker card.  The steps keep the table invariant and run
    without a fault for every shuffle. *)
From Stdlib Require Import ZArith Lia String.
From stdpp Require Import base tactics numbers sorting option gmap strings sets list.
From S2P Require Import Prelude Cards Dealer Straight Declare Search Found Hand.
From S2P Require Import Player Seat Desk Snapshot Play Round Room Table Protocol Settle Seating Between Scan Secrecy Turn.

(** ** A seat made ready *)

Record readied (s s' : GameSeat) : Prop := mkReadied {
  ready_player : m_player s' = m_player s;
  ready_number : m_seat_number s' = m_seat_number s;
  ready_seated : is_seated s' = is_seated s;
  ready_ingame : is_in_game s' = is_seated s;
  ready_joined : is_player_joined s' = is_seated s;
  ready_declared : is_declared s' = false;
  ready_hand : m_handcards_total s' = [];
  ready_account : m_match_over_account_chips s' = 0;
  ready_score : seat_score s' = 20;
  ready_group : seat_card_group s' = seat_card_group s
}.

(** The player the seat points to becomes a playing one. *)
Lemma seat_ready_for_game_returns room_id s player :
  0 <= room_id <= 7 -> (is_seated s = true -> is_Some player) ->
  returns (seat_ready_for_game room_id s player) (fun r => readied s r.1 /\
    match player with
    | Some p => exists p', r.2 = Some p' /\ same_place p p'
    | None => r.2 = None
    end).
Proof.
  intros Hroom Hp. unfold seat_ready_for_game.
  set (s0 := s <| m_ingame_player_id := 0 |> <| seat_score := 20 |> <| m_card_score := 0 |>).
  change (is_seated s0) with (is_seated s). destruct (is_seated s) eqn:Hs.
  - destruct (Hp eq_refl) as [p ->]. rewrite seat_status_ok by done. cbn [deref mbind outcome_bind mret outcome_ret].
    apply returns_ret. split; [by split|]. eexists. split; [done|].
    unfold same_place, ready_for_game, set_status. by case_match.
  - rewrite seat_status_ok by done. cbn [mbind outcome_bind mret outcome_ret]. apply returns_ret. split; [by split|].
    destruct player as [p|]; [by exists p|done].
Qed.

(** ** Taking cards off the bottom *)

Lemma take_front_spec n acc bottom :
  (n <= length bottom)%nat -> take_front n acc bottom = Ok (acc ++ take n bottom, drop n bottom).
Proof.
  revert acc bottom; induction n as [|n IH]; intros acc bottom Hn; simpl.
  - by rewrite drop_0, app_nil_r.
  - destruct bottom as [|c bottom]; simpl in *; [lia|]. rewrite IH by lia. by rewrite <- (assoc_L (++)).
Qed.

Lemma turn_joker_returns bottom :
  Exists (fun c => m_point c < PokerPoint.JOKER1) bottom ->
  returns (turn_joker bottom) (fun r => bottom ≡ₚ r.1 :: r.2 /\ m_point r.1 < PokerPoint.JOKER1).
Proof.
  induction bottom as [|c bottom IH]; intros Hex; [by inversion Hex|]. simpl.
  destruct (PokerPoint.JOKER1 <=? m_point c) eqn:E.
  - eapply returns_bind; [apply IH; inversion Hex; [lia|done]|]. intros [x rest] [Hp Hx].
    cbn [fst snd] in *. apply returns_ret. cbn [fst snd]. split; [|done]. rewrite Hp. apply perm_swap.
  - apply returns_ret. cbn [fst snd]. split; [done|lia].
Qed.

(** More than four cards of the shoe cannot all be jokers. *)
Lemma deck_natural bottom :
  bottom ⊆+ deck -> (4 < length bottom)%nat -> Exists (fun c => m_point c < PokerPoint.JOKER1) bottom.
Proof.
  intros Hd Hl. set (J := fun c => PokerPoint.JOKER1 <= m_point c).
  pose proof (filter_app_complement J bottom) as Hsplit.
  destruct (filter (fun c => ~ J c) bottom) as [|c l] eqn:E.
  - exfalso. apply submseteq_Permutation in Hd as [rest Hp].
    assert (filter J deck ≡ₚ filter J bottom ++ filter J rest) as Hf by by rewrite Hp, filter_app.
    apply Permutation_length in Hf, Hsplit. rewrite length_app in Hf, Hsplit.
    assert (length (filter J deck) = 4%nat) as H4 by (vm_compute; reflexivity). simpl in Hsplit. lia.
  - assert (c ∈ filter (fun c => ~ J c) bottom) as [Hj Hin]%list_elem_of_filter by (rewrite E; left).
    apply Exists_exists. exists c. split; [done|]. unfold J in Hj. lia.
Qed.

Section dealing.
Context {M G : Type} `{MoneyService M} `{RandGen G}.
Context (room : RoomInfo) `{!PrintableRoom room}.
Variables (iv : TimeInterval) (ROOM_IDLE ROOM_PLAYING : Z).
Abbreviation desk := (GameDesk M G).
Implicit Type d : desk.

(** *** Readying the desk *)

Lemma step_desk_ready_returns d :
  core (view d) ->
  returns (step_desk_ready room d) (fun d' => exists seats,
    view d' = (view d) <| v_pool := [] |> <| v_seats := seats |> /\ Forall2 readied (m_seats d) seats).
Proof.
  intros Hc. unfold step_desk_ready. pose proof (core_linked _ Hc) as Hl.
  pose proof (core_seats _ Hc) as Hlen. simpl in Hlen.
  match goal with |- returns (for_seats _ ?x) _ => set (d0 := x) end.
  set (I := fun (k : nat) (d' : desk) => exists seats,
    view d' = (view d) <| v_pool := [] |> <| v_seats := seats |> /\
    Forall2 readied (take k (m_seats d)) (take k seats) /\ drop k seats = drop k (m_seats d) /\
    length seats = m_max_seat_num).
  eapply returns_mono; [apply (for_seats_seq I _ d0 m_max_seat_num Hlen)|].
  - exists (m_seats d). split_and!; [done..| |done|done]. by rewrite !take_0.
  - intros k d' (seats & Hv & _ & _ & Hls). change (length (v_seats (view d')) = m_max_seat_num). by rewrite Hv.
  - intros k d' s Hk (seats & Hv & Hf & Hd & Hls) Hs.
    assert (m_seats d' = seats) as Hs' by (change (v_seats (view d') = seats); by rewrite Hv).
    assert (m_seats d !! k = Some s) as Hs0.
    { rewrite <- (Nat.add_0_r k), <- lookup_drop, <- Hd, lookup_drop, Nat.add_0_r. congruence. }
    assert (links (m_objects d') = links (m_objects d)) as Hlk by (change (v_links (view d') = links (m_objects d)); by rewrite Hv).
    assert (forall f, (forall seats', (exists s1, seats' = <[k := s1]> seats /\ readied s s1) ->
      view f = (view d) <| v_pool := [] |> <| v_seats := seats' |> -> I (S k) f)) as Hdone.
    { intros f seats' (s1 & -> & Hr) Hvf. exists (<[k := s1]> seats).
      assert (k < length seats)%nat as Hkl by lia.
      split_and!; [done..| | |by rewrite length_insert].
      - rewrite (take_S_r _ k s) by done.
        rewrite (take_S_r _ k s1) by by rewrite list_lookup_insert_eq.
        rewrite take_insert_ge by lia. apply Forall2_app; [done|]. by constructor.
      - rewrite drop_insert_lt by lia.
        rewrite <- (Nat.add_1_r k), <- !drop_drop, Hd. done. }
    eapply (returns_bind _ _ (fun player =>
      match m_player s with
      | None => player = None
      | Some uid => exists p, player = Some p /\ m_objects d' !! uid = Some p
      end)).
    { destruct (m_player s) as [uid|] eqn:Hu; [|by apply returns_ret].
      destruct (linked_seat _ _ Hl k s uid Hs0 Hu) as [_ Hlook]. simpl in Hlook. rewrite <- Hlk in Hlook.
      rewrite links_lookup in Hlook. apply fmap_Some in Hlook as (p & Hp & _).
      unfold get_player. rewrite Hp. cbn [deref mbind outcome_bind]. apply returns_ret. by exists p. }
    intros player Hplayer.
    eapply returns_bind; [apply seat_ready_for_game_returns; [auto|]|].
    { intros Hse. destruct (m_player s) as [uid|] eqn:Hu.
      - destruct Hplayer as (p & -> & _). done.
      - by rewrite (proj1 (linked_empty _ _ Hl k s Hs0 Hu)) in Hse. }
    intros [s1 player1] [Hr Hp1]. cbn [fst snd] in *. apply returns_ret.
    apply (Hdone _ (<[k := s1]> seats)); [by exists s1|].
    assert (view (put_seat k s1 d') = (view d) <| v_pool := [] |> <| v_seats := <[k := s1]> seats |>) as Hv1.
    { rewrite view_put_seat, Hv, Hs'. done. }
    destruct (m_player s) as [uid|] eqn:Hu; [|done].
    destruct Hplayer as (p & -> & Hp). destruct Hp1 as (p' & -> & Hid & Hps).
    by rewrite (view_put_player uid p).
  - intros d' (seats & Hv & Hf & _ & Hls). exists seats. split; [done|].
    rewrite !take_ge in Hf by lia. done.
Qed.

(** *** Choosing the dealer *)

Lemma step_dealer_seat_returns d :
  core (view d) -> is_game_can_start d = true ->
  returns (step_dealer_seat d) (fun d' => exists i s,
    view d' = (view d) <| v_dealer := Z.of_nat i |> /\ m_seats d !! i = Some s /\ is_seated s = true).
Proof.
  intros Hc Hstart. unfold step_dealer_seat. pose proof (core_linked _ Hc) as Hl.
  pose proof (core_seats _ Hc) as Hlen. pose proof (core_winner _ Hc) as Hw. simpl in Hlen, Hw.
  eapply (returns_bind _ _ (fun keep : bool => keep = true ->
    exists i s, m_last_winner_seatnum d = Z.of_nat i /\ m_seats d !! i = Some s /\ is_seated s = true)).
  { destruct (m_last_winner_seatnum d =? -1) eqn:E; cbn [negb]; [by apply returns_ret|].
    apply Z.eqb_neq in E.
    destruct (lookup_lt_is_Some_2 (m_seats d) (Z.to_nat (m_last_winner_seatnum d))) as [s Hs].
    { rewrite Hlen. unfold m_max_seat_num. lia. }
    assert (m_last_winner_seatnum d = Z.of_nat (Z.to_nat (m_last_winner_seatnum d))) as Ew by lia.
    rewrite Ew, (seat_at_nat _ _ _ Hs). cbn [mbind outcome_bind]. apply returns_ret. intros Hse.
    by exists (Z.to_nat (m_last_winner_seatnum d)), s. }
  intros keep Hkeep. destruct keep.
  { destruct (Hkeep eq_refl) as (i & s & Ew & Hi & Hs). apply returns_ret. exists i, s.
    by rewrite <- Ew. }
  set (seated := filter (fun s => is_seated s = true) (m_seats d)).
  assert (2 <= length seated)%nat as Hcount.
  { unfold is_game_can_start, get_seated_count in Hstart. unfold seated. lia. }
  rewrite bool_decide_eq_false_2; [|intros E; apply fmap_nil_inv in E; rewrite E in Hcount; simpl in Hcount; lia].
  cbn [negb assert_that mbind outcome_bind].
  pose proof (rand_index (m_rand d) (length (m_seat_number <$> seated))) as Hidx.
  destruct (rand (m_rand d)) as [r g]. cbn [fst] in Hidx.
  destruct (lookup_lt_is_Some_2 (m_seat_number <$> seated)
    (Z.to_nat (r `mod` Z.of_nat (length (m_seat_number <$> seated))))) as [n Hn].
  { apply Hidx. rewrite length_fmap. lia. }
  rewrite Hn. cbn [access mbind outcome_bind]. apply returns_ret.
  apply list_elem_of_lookup_2, list_elem_of_fmap in Hn as (s & -> & Hs).
  unfold seated in Hs. apply list_elem_of_filter in Hs as [Hse [i Hi]%list_elem_of_lookup].
  exists i, s. by rewrite (linked_number _ _ Hl i s Hi).
Qed.

(** *** The deal *)

(** A seat after the deal. *)
Definition dealt_seat (s s' : GameSeat) : Prop :=
  if is_seated s then exists hand, s' = deal_cards hand s /\ length hand = 13%nat else s' = s.

(** [n] seats have got their cards off the bottom. *)
Record hands_dealt (k : nat) (d0 : desk) (d : desk) (seats : list GameSeat) (bottom : list PokerCard)
  : Prop := mkDealt {
  dealt_view : view d = (view d0) <| v_seats := seats |> <| v_bottom := bottom |>;
  dealt_first : Forall2 dealt_seat (take k (m_seats d0)) (take k seats);
  dealt_rest : drop k seats = drop k (m_seats d0);
  dealt_cards : hands seats ++ bottom ≡ₚ m_bottom_cards d0;
  dealt_count : (length bottom + 13 * count_of is_seated (take k (m_seats d0)) =
                 length (m_bottom_cards d0))%nat;
  dealt_length : length seats = m_max_seat_num
}.

Lemma count_of_take test (l : list GameSeat) k s :
  l !! k = Some s -> count_of test (take (S k) l) = (count_of test (take k l) + Nat.b2n (test s))%nat.
Proof.
  intros Hk. rewrite (take_S_r _ _ _ Hk). unfold count_of. rewrite filter_app, length_app.
  rewrite filter_cons. simpl. destruct (test s); simpl; lia.
Qed.

Lemma count_of_bound test (l : list GameSeat) : (count_of test l <= length l)%nat.
Proof. apply length_filter. Qed.

Lemma deal_hands_returns d :
  length (m_seats d) = m_max_seat_num -> hands (m_seats d) = [] ->
  (13 * 5 <= length (m_bottom_cards d))%nat ->
  returns (deal_hands d) (fun d' => exists seats bottom, hands_dealt 5 d d' seats bottom).
Proof.
  intros Hlen Hempty Henough. unfold deal_hands.
  apply (for_seats_seq (fun k d' => exists seats bottom, hands_dealt k d d' seats bottom) _ d 5 Hlen).
  - exists (m_seats d), (m_bottom_cards d). split; rewrite ?take_0, ?drop_0; try done.
    by rewrite Hempty.
  - intros k d' (seats & bottom & [Hv _ _ _ _ Hls]).
    change (length (v_seats (view d')) = 5%nat). by rewrite Hv.
  - intros k d' s Hk (seats & bottom & [Hv Hf Hd Hcards Hcount Hls]) Hs.
    assert (m_seats d' = seats) as Hs' by (change (v_seats (view d') = seats); by rewrite Hv).
    assert (m_bottom_cards d' = bottom) as Hb' by (change (v_bottom (view d') = bottom); by rewrite Hv).
    rewrite Hs' in Hs.
    assert (m_seats d !! k = Some s) as Hs0.
    { rewrite <- (Nat.add_0_r k), <- lookup_drop, <- Hd, lookup_drop, Nat.add_0_r. done. }
    pose proof (count_of_take is_seated _ _ _ Hs0) as Hct.
    assert (forall s1, dealt_seat s s1 ->
      Forall2 dealt_seat (take (S k) (m_seats d)) (take (S k) (<[k := s1]> seats))) as Hforall.
    { intros s1 Hd1. unfold m_max_seat_num in *. rewrite (take_S_r _ k s) by done.
      rewrite (take_S_r _ k s1) by (apply list_lookup_insert_eq; lia).
      rewrite take_insert_ge by lia. apply Forall2_app; [done|]. by constructor. }
    assert (forall s1, drop (S k) (<[k := s1]> seats) = drop (S k) (m_seats d)) as Hdrop.
    { intros s1. rewrite drop_insert_lt by lia. rewrite <- (Nat.add_1_r k), <- !drop_drop. by rewrite Hd. }
    unfold dealt_seat in Hforall. destruct (is_seated s) eqn:Hse; cbn [negb].
    + assert (13 <= length bottom)%nat as Hb13.
      { pose proof (count_of_bound is_seated (take k (m_seats d))) as Hbound.
        rewrite length_take in Hbound. lia. }
      rewrite Hb'. change (Z.to_nat HAND_CARD_COUNT) with 13%nat. rewrite take_front_spec by done.
      cbn [mbind outcome_bind mret outcome_ret app]. apply returns_ret.
      set (s1 := deal_cards (take 13 bottom) s).
      exists (<[k := s1]> seats), (drop 13 bottom). split; [| |done| | |by rewrite length_insert].
      * rewrite view_put_seat. simpl. rewrite Hs'.
        change (view (d' <| m_bottom_cards := drop 13 bottom |>)) with ((view d') <| v_bottom := drop 13 bottom |>).
        by rewrite Hv.
      * apply Hforall. exists (take 13 bottom). split; [done|]. rewrite length_take. lia.
      * pose proof (hands_insert _ _ _ s1 Hs) as Hh.
        assert (m_handcards_total s = []) as Hnil.
        { unfold hands in Hempty. apply list_elem_of_lookup_2 in Hs0.
          apply list_elem_of_split in Hs0 as (l1 & l2 & El). rewrite El, fmap_app, fmap_cons, concat_app in Hempty.
          simpl in Hempty. by apply app_eq_nil in Hempty as [_ [? _]%app_eq_nil]. }
        rewrite Hnil, app_nil_r in Hh. rewrite Hh. unfold s1. simpl. rewrite sort_cards_perm.
        rewrite <- (assoc_L (++)), take_drop. done.
      * rewrite length_drop, Hct. simpl. lia.
    + apply returns_ret. exists seats, bottom. split; [done| | |done| |done].
      * rewrite <- (list_insert_id seats k s Hs). by apply Hforall.
      * rewrite <- (list_insert_id seats k s Hs). by rewrite Hdrop.
      * rewrite Hct. simpl. lia.
Qed.

(** The state in which the cards have been dealt. *)
Record cards_dealt (d d' : desk) : Prop := mkCardsDealt {
  cd_seats : Forall2 dealt_seat (m_seats d) (m_seats d');
  cd_cards : m_joker_card d' :: table_cards (view d') ≡ₚ deck;
  cd_joker : m_point (m_joker_card d') < PokerPoint.JOKER1;
  cd_pool : length (m_pokercard_pool d') = 1%nat;
  cd_bottom : (length (m_bottom_cards d') + 13 * count_of is_seated (m_seats d) + 2 = 108)%nat;
  cd_shoe : full_shoe (m_card_dealer d');
  cd_links : links (m_objects d') = links (m_objects d);
  cd_view : view d' = (view d) <| v_seats := m_seats d' |> <| v_bottom := m_bottom_cards d' |>
              <| v_pool := m_pokercard_pool d' |> <| v_shoe := m_card_dealer d' |>
}.

Lemma step_deal_cards_returns file d :
  length (m_seats d) = m_max_seat_num -> hands (m_seats d) = [] -> m_pokercard_pool d = [] ->
  full_shoe (m_card_dealer d) -> seats_exist d -> 0 <= m_dealer_index d <= 4 ->
  returns (step_deal_cards room false file d) (cards_dealt d).
Proof.
  intros Hlen Hempty Hpool Hshoe Hexist Hdl. unfold step_deal_cards.
  set (d0 := d <| m_draw_sec := 20 * 60 |>).
  eapply (returns_bind _ _ (fun r : list PokerCard * desk => exists dealer g, full_shoe dealer /\ r.1 ≡ₚ deck /\ r.2 = d0 <| m_card_dealer := dealer |> <| m_rand := g |>)).
  { unfold room_deal_card. eapply returns_bind.
    - apply (rand_deal_card_full (m_card_dealer d0) (m_now d0) [] (Z.of_nat CARD_COUNT)); [done|].
      unfold CARD_COUNT. lia.
    - intros [[dealer lst] g] (Hfull & dealt & rest & Hlst & Hl & Hp). cbn [fst snd] in *. subst lst.
      apply returns_ret. exists dealer, g. split_and!; [done| |done]. cbn [fst app].
      assert (length rest = 0%nat) as Hr.
      { apply Permutation_length in Hp. rewrite length_app in Hp.
        assert (length deck = 108%nat) as Hd by reflexivity. unfold CARD_COUNT in Hl. lia. }
      apply nil_length_inv in Hr. subst rest. by rewrite app_nil_r in Hp. }
  intros [bottom0 d1] (dealer & g & Hfull & Hb0 & Hd1). cbn [fst snd] in Hb0, Hd1. subst d1. cbn [mbind outcome_bind mret outcome_ret].
  match goal with |- returns (deal_hands ?x ≫= _) _ => set (d2 := x) end.
  assert (length bottom0 = 108%nat) as Hl0 by by rewrite Hb0.
  eapply returns_bind; [apply deal_hands_returns; [done..|simpl; lia]|].
  intros d3 (seats & bottom & [Hv Hf _ Hcards Hcount Hls]).
  unfold m_max_seat_num in *.
  rewrite !take_ge in Hf by (simpl; lia). rewrite take_ge in Hcount by (simpl; lia).
  simpl in Hf, Hcards, Hcount.
  assert (m_bottom_cards d3 = bottom) as Hb3 by (change (v_bottom (view d3) = bottom); by rewrite Hv).
  pose proof (count_of_bound is_seated (m_seats d)) as Hbound. rewrite Hlen in Hbound.
  rewrite Hb3, take_front_spec by lia. cbn [mbind outcome_bind mret outcome_ret app].
  destruct bottom as [|first rest]; [simpl in *; lia|]. cbn [take drop]. rewrite drop_0, take_0.
  eapply returns_bind; [apply turn_joker_returns, deck_natural|].
  { rewrite <- Hb0, <- Hcards. apply submseteq_inserts_l, submseteq_cons. done. }
  { simpl in Hcount. lia. }
  intros [joker rest'] [Hrest Hj]. cbn [fst snd] in *. cbn [mbind outcome_bind mret outcome_ret].
  assert (m_seats d3 = seats) as Hs3 by (change (v_seats (view d3) = seats); by rewrite Hv).
  assert (m_pokercard_pool d3 = []) as Hp3 by (change (v_pool (view d3) = []); by rewrite Hv).
  assert (m_card_dealer d3 = dealer) as Hsh3 by (change (v_shoe (view d3) = dealer); by rewrite Hv).
  change (0 <? 0) with false. cbn [mbind outcome_bind mret outcome_ret].
  match goal with |- returns (broadcast_deal_cards ?x) _ => set (d4 := x) end.
  eapply returns_mono; [apply (broadcast_deal_cards_returns d4)|].
  { change (m_seats d4) with (m_seats d3). by rewrite Hs3. }
  { change (m_dealer_index d4) with (v_dealer (view d3)). by rewrite Hv. }
  { change (m_pokercard_pool d4) with (m_pokercard_pool d3 ++ [first]). by rewrite Hp3. }
  { apply (seats_exist_same d); [|change (length (m_seats d3) = length (m_seats d)); by rewrite Hs3, Hls, Hlen|done].
    change (v_links (view d3) = links (m_objects d)). by rewrite Hv. }
  intros d5 [messages ->]. split; simpl.
  - by rewrite Hs3.
  - unfold table_cards. simpl. rewrite Hs3, Hp3. simpl. rewrite <- Hb0, <- Hcards, Hrest.
    solve_Permutation.
  - done.
  - by rewrite Hp3.
  - apply Permutation_length in Hrest. simpl in *. lia.
  - by rewrite Hsh3.
  - change (v_links (view d3) = links (m_objects d)). by rewrite Hv.
  - transitivity ((view d3) <| v_bottom := rest' |> <| v_pool := m_pokercard_pool d3 ++ [first] |>); [done|].
    rewrite Hs3, Hsh3, Hv. done.
Qed.

(** *** A new game *)

Lemma readied_seats seats seats' :
  Forall2 readied seats seats' ->
  hands seats' = [] /\ sum_of m_match_over_account_chips seats' = 0 /\
  count_of is_in_game seats' = count_of is_seated seats /\
  count_of is_seated seats' = count_of is_seated seats.
Proof.
  induction 1 as [|s s' l l' Hr _ (IH1 & IH2 & IH3 & IH4)]; [done|]. unfold hands, count_of in *.
  rewrite !filter_cons. simpl. rewrite (ready_hand _ _ Hr), (ready_account _ _ Hr).
  rewrite (ready_ingame _ _ Hr), (ready_seated _ _ Hr). split_and!; [done|lia|..];
    destruct (is_seated s); simpl; lia.
Qed.

(** A seat made ready and dealt to. *)
Lemma ready_dealt s s1 s2 :
  readied s s1 -> dealt_seat s1 s2 ->
  m_player s2 = m_player s /\ m_seat_number s2 = m_seat_number s /\ is_seated s2 = is_seated s /\
  is_in_game s2 = is_seated s /\ is_player_joined s2 = is_seated s /\ is_declared s2 = false /\
  m_match_over_account_chips s2 = 0 /\ seat_score s2 = 20 /\
  length (m_handcards_total s2) = (if is_seated s then 13%nat else 0%nat) /\
  seat_card_group s2 = seat_card_group s.
Proof.
  intros [H1 H2 H3 H4 H5 H6 H7 H8 H9 H10] Hd. unfold dealt_seat in Hd. rewrite H3 in Hd.
  destruct (is_seated s).
  - destruct Hd as (hand & -> & Hh). split_and!; try done. simpl. by rewrite sort_cards_length.
  - subst s2. split_and!; try done. by rewrite H7.
Qed.

(** Seats whose players stay where they are. *)
Record placed (s s' : GameSeat) : Prop := mkPlaced {
  placed_player : m_player s' = m_player s;
  placed_number : m_seat_number s' = m_seat_number s;
  placed_seated : is_seated s' = is_seated s;
  placed_ingame : is_in_game s' = true -> is_seated s = true
}.

Lemma placed_linked seats seats' lk :
  Forall2 placed seats seats' -> linked seats lk -> linked seats' lk.
Proof.
  intros Hall [Hn He Hs Hp].
  assert (forall i s', seats' !! i = Some s' -> exists s, seats !! i = Some s /\ placed s s') as Hr.
  { intros i s' Hi. by destruct (Forall2_lookup_r _ _ _ _ _ Hall Hi) as (s & ? & ?); exists s. }
  split.
  - intros i s' (s & Hi & [])%Hr. rewrite placed_number0. by apply Hn.
  - intros i s' (s & Hi & [Hpl _ Hse Hig])%Hr Hu. rewrite Hpl in Hu.
    destruct (He i s Hi Hu) as [H1 _]. rewrite Hse. split; [done|].
    destruct (is_in_game s'); [by rewrite Hig in H1|done].
  - intros i s' uid (s & Hi & [Hpl _ Hse _])%Hr Hu. rewrite Hse. rewrite Hpl in Hu. by apply (Hs i s).
  - intros uid id o Hl. destruct (Hp uid id o Hl) as [Hid Ho]. split; [done|].
    intros i Hi. destruct (Ho i Hi) as (s & Hs' & Hpl).
    destruct (Forall2_lookup_l _ _ _ _ _ Hall Hs') as (s' & Hi' & []). exists s'. split; congruence.
Qed.

Lemma placed_room seats seats' lk rm :
  Forall2 placed seats seats' -> in_room seats lk rm -> in_room seats' lk rm.
Proof.
  intros Hall [Ho Hs]. split; [done|]. intros i s' uid Hi Hu.
  destruct (Forall2_lookup_r _ _ _ _ _ Hall Hi) as (s & Hi0 & []). apply (Hs i s); [done|congruence].
Qed.

(** A seat in the new game: ready, with thirteen cards when it is occupied. *)
Definition new_hand (s s' : GameSeat) : Prop := exists s1, readied s s1 /\ dealt_seat s1 s'.

Lemma new_hand_placed s s' : new_hand s s' -> placed s s'.
Proof.
  intros (s1 & Hr & Hd). destruct (ready_dealt s s1 s' Hr Hd) as (P & N & S & I & _).
  split; [done..|]. by rewrite I.
Qed.

Lemma new_hands_sums seats seats' :
  Forall2 new_hand seats seats' ->
  sum_of m_match_over_account_chips seats' = 0 /\
  count_of is_in_game seats' = count_of is_seated seats.
Proof.
  induction 1 as [|s s' l l' (s1 & Hr & Hd) _ [IH1 IH2]]; [done|].
  destruct (ready_dealt s s1 s' Hr Hd) as (_ & _ & _ & I & _ & _ & A & _).
  unfold count_of in *. rewrite !filter_cons. simpl. rewrite A, I.
  split; [lia|]. destruct (is_seated s); simpl; lia.
Qed.

(** The first deal of the game as a state of the table. *)
Lemma new_game_inv d d' :
  between d -> is_game_can_start d = true ->
  Forall2 new_hand (m_seats d) (m_seats d') -> full_shoe (m_card_dealer d') ->
  table_cards (view d') ⊆+ deck -> length (m_pokercard_pool d') = 1%nat ->
  (length (m_bottom_cards d') + 13 * count_of is_seated (m_seats d) + 2 = 108)%nat ->
  (exists i s, m_dealer_index d' = Z.of_nat i /\ m_seats d !! i = Some s /\ is_seated s = true) ->
  view d' = (view d) <| v_seats := m_seats d' |> <| v_dealer := m_dealer_index d' |>
    <| v_bottom := m_bottom_cards d' |> <| v_pool := m_pokercard_pool d' |>
    <| v_shoe := m_card_dealer d' |> <| v_status := Z.lor GAME_WAIT_MASK GAME_DEALER_CARD |> ->
  inv (view d').
Proof.
  intros (Hc & Hb & Ho & _) Hstart Hall Hshoe Hcards Hpool Hbottom (i & s & Hdl & Hi & Hs) Hv.
  assert (Forall2 placed (m_seats d) (m_seats d')) as Hpl.
  { eapply Forall2_impl; [done|]. apply new_hand_placed. }
  destruct (new_hands_sums _ _ Hall) as [Hsum Hcount].
  assert (forall s', s' ∈ m_seats d' -> exists s0 s1, readied s0 s1 /\ dealt_seat s1 s') as Hin.
  { intros s' [j Hj]%list_elem_of_lookup.
    destruct (Forall2_lookup_r _ _ _ _ _ Hall Hj) as (s0 & _ & s1 & Hr & Hd). by exists s0, s1. }
  assert (length (m_seats d') = m_max_seat_num) as Hlen.
  { rewrite <- (Forall2_length _ _ _ Hall). exact (core_seats _ Hc). }
  assert (2 <= count_of is_seated (m_seats d) <= 5)%nat as Hn.
  { pose proof (count_of_bound is_seated (m_seats d)) as Hbd.
    pose proof (core_seats _ Hc) as Hls. simpl in Hls. rewrite Hls in Hbd.
    unfold is_game_can_start, get_seated_count in Hstart. unfold count_of in *.
    unfold m_max_seat_num in Hbd. lia. }
  split_and!.
  - split.
    + done.
    + rewrite Hv. exact (placed_linked _ _ _ Hpl (core_linked _ Hc)).
    + rewrite Hv. exact (placed_room _ _ _ _ Hpl (core_room _ Hc)).
    + done.
    + rewrite Hv. apply Hc.
    + done.
    + intros s' (s0 & s1 & Hr & Hd)%Hin.
      destruct (ready_dealt s0 s1 s' Hr Hd) as (_ & _ & _ & _ & _ & _ & _ & _ & -> & _).
      destruct (is_seated s0); set_solver.
    + intros s' (s0 & s1 & Hr & Hd)%Hin.
      destruct (ready_dealt s0 s1 s' Hr Hd) as (_ & _ & _ & _ & _ & _ & _ & -> & _). lia.
  - split.
    + rewrite Hv. simpl. rewrite Hsum. pose proof (over_chips _ Ho) as Hch. simpl in Hch. lia.
    + intros s' (s0 & s1 & Hr & Hd)%Hin Hg.
      destruct (ready_dealt s0 s1 s' Hr Hd) as (_ & _ & _ & I & J & _ & A & _). rewrite J, <- I. done.
    + intros s' (s0 & s1 & Hr & Hd)%Hin _.
      by destruct (ready_dealt s0 s1 s' Hr Hd) as (_ & _ & _ & _ & _ & _ & A & _).
  - exists GAME_DEALER_CARD. split; [rewrite Hv; by right|]. apply phase_dealer.
    + split.
      * rewrite Hv. exact (over_apply _ Ho).
      * change (v_seats (view d')) with (m_seats d'). rewrite Hcount. lia.
      * intros j t Hj%list_elem_of_lookup_2 _. destruct (Hin t Hj) as (s0 & s1 & Hr & Hd).
        by destruct (ready_dealt s0 s1 t Hr Hd) as (_ & _ & _ & _ & _ & D & _).
      * intros j t Hj%list_elem_of_lookup_2 Hg _. destruct (Hin t Hj) as (s0 & s1 & Hr & Hd).
        destruct (ready_dealt s0 s1 t Hr Hd) as (_ & _ & _ & I & _ & _ & _ & _ & L & _).
        rewrite I in Hg. by rewrite Hg in L.
      * intros t Ht _. change (t ∈ m_seats d') in Ht.
        apply list_elem_of_lookup in Ht as [j Hj].
        destruct (Forall2_lookup_r _ _ _ _ _ Hall Hj) as (s0 & Hj0 & s1 & Hr & Hd).
        destruct (ready_dealt s0 s1 t Hr Hd) as (_ & _ & _ & _ & _ & _ & _ & _ & _ & ->).
        apply (over_seat_clear _ Ho s0), (list_elem_of_lookup_2 _ j). exact Hj0.
    + unfold stocked. simpl. rewrite Hcount. lia.
    + rewrite Hv. exact (over_active _ Ho).
    + destruct (Forall2_lookup_l _ _ _ _ _ Hall Hi) as (s' & Hi' & s1 & Hr & Hd).
      exists i, s'. split_and!; [done..|].
      destruct (ready_dealt s s1 s' Hr Hd) as (_ & _ & _ & I & _). by rewrite I.
Qed.

Lemma readied_core v seats :
  core v -> v_bottom v = [] -> Forall2 readied (v_seats v) seats ->
  core (v <| v_pool := [] |> <| v_seats := seats |>).
Proof.
  intros [Hlen Hlk Hrm Hsh Hw Hc Hz Hsc] Hbot Hall.
  assert (Forall2 placed (v_seats v) seats) as Hpl.
  { eapply Forall2_impl; [done|]. intros s s' []. split; [done..|]. congruence. }
  destruct (readied_seats _ _ Hall) as (Hh & _).
  assert (forall s', s' ∈ seats -> exists s, readied s s') as Hin.
  { intros s' [j Hj]%list_elem_of_lookup.
    destruct (Forall2_lookup_r _ _ _ _ _ Hall Hj) as (s0 & _ & Hr). by exists s0. }
  split; simpl; try done.
  - by rewrite <- (Forall2_length _ _ _ Hall).
  - by eapply placed_linked.
  - by eapply placed_room.
  - unfold table_cards. simpl. rewrite Hh, Hbot. apply submseteq_nil_l.
  - intros s' [s []]%Hin. rewrite ready_hand0. left.
  - intros s' [s []]%Hin. rewrite ready_score0. lia.
Qed.

Lemma start_new_game_returns file d :
  between d -> is_game_can_start d = true ->
  returns (start_new_game room iv false file d) (fun d' =>
    inv (view d') /\ m_joker_card d' :: table_cards (view d') ≡ₚ deck /\
    m_point (m_joker_card d') < PokerPoint.JOKER1 /\
    in_round GAME_DEALER_CARD (m_game_status d') /\
    Forall2 new_hand (m_seats d) (m_seats d')).
Proof.
  intros Hbt Hstart. pose proof Hbt as (Hc & Hb & Ho & r & Hr & Hst). unfold start_new_game.
  eapply returns_bind; [by apply step_desk_ready_returns|]. intros d1 (seats & Hv1 & Hready).
  assert (core (view d1)) as Hc1.
  { rewrite Hv1. apply (readied_core (view d)); [done|exact (over_bottom _ Ho)|done]. }
  assert (m_seats d1 = seats) as Hs1 by (change (v_seats (view d1) = seats); by rewrite Hv1).
  destruct (readied_seats _ _ Hready) as (Hh & _ & _ & Hseated).
  eapply returns_bind; [apply step_dealer_seat_returns; [done|]|].
  { unfold is_game_can_start, get_seated_count in *. unfold count_of in Hseated.
    by rewrite Hs1, Hseated. }
  intros d2 (i & s1 & Hv2 & Hi & Hse).
  assert (m_dealer_index d2 = Z.of_nat i) as Hdl by (change (v_dealer (view d2) = Z.of_nat i); by rewrite Hv2).
  rewrite Hdl. destruct (Z.of_nat i =? -1) eqn:E; [lia|]. cbn [negb assert_that mbind outcome_bind].
  assert (m_seats d2 = seats) as Hs2 by (change (v_seats (view d2) = seats); by rewrite Hv2).
  eapply returns_bind; [apply step_deal_cards_returns|].
  { rewrite Hs2, <- (Forall2_length _ _ _ Hready). exact (core_seats _ Hc). }
  { by rewrite Hs2. }
  { change (v_pool (view d2) = []). by rewrite Hv2, Hv1. }
  { change (full_shoe (v_shoe (view d2))). rewrite Hv2. exact (core_shoe _ Hc1). }
  { apply linked_seats_exist. change (linked (v_seats (view d2)) (v_links (view d2))).
    rewrite Hv2. exact (core_linked _ Hc1). }
  { rewrite Hdl. apply lookup_lt_Some in Hi. pose proof (core_seats _ Hc1) as Hl1. simpl in Hl1.
    rewrite Hl1 in Hi. unfold m_max_seat_num in Hi. lia. }
  intros d3 [Hcs Hcards Hj Hpool Hbottom Hshoe _ Hv3]. apply returns_ret. rewrite Hs2 in Hcs.
  set (d4 := wait_for_round GAME_DEALER_CARD (m_time_deal_card iv) d3).
  assert (m_game_status d3 = m_game_status d) as Hst3.
  { change (v_status (view d3) = m_game_status d). by rewrite Hv3, Hv2, Hv1. }
  assert (view d4 = (view d3) <| v_status := Z.lor GAME_WAIT_MASK GAME_DEALER_CARD |>) as Hv4.
  { apply wait_for_round_view. exists r. change (v_status (view d3)) with (m_game_status d3).
    rewrite Hst3. split; [done|by apply between_round_in]. }
  change (view (d4 <| m_time_game_begin := m_now d4 |>)) with (view d4).
  assert (Forall2 new_hand (m_seats d) (m_seats d3)) as Hall.
  { clear -Hready Hcs. revert seats Hready Hcs. generalize (m_seats d), (m_seats d3).
    induction l as [|s l IH]; intros l3 seats Hready Hcs; inversion Hready; subst; inversion Hcs; subst;
      constructor; [by eexists|by eapply IH]. }
  split_and!.
  - apply (new_game_inv d d4); try done.
    + etrans; [|apply Permutation_submseteq; exact Hcards].
      change (table_cards (view d3) ⊆+ m_joker_card d3 :: table_cards (view d3)).
      by apply submseteq_cons.
    + change (m_bottom_cards d4) with (m_bottom_cards d3). rewrite <- Hseated. by rewrite Hs2 in Hbottom.
    + destruct (Forall2_lookup_r _ _ _ _ _ Hready (eq_trans (f_equal (fun l => l !! i) (eq_sym Hs1)) Hi))
        as (s & Hi0 & Hrs).
      exists i, s. split_and!; [|done|by rewrite <- (ready_seated _ _ Hrs)].
      change (v_dealer (view d3) = Z.of_nat i). by rewrite Hv3, Hv2.
    + rewrite Hv4. change (m_seats d4) with (m_seats d3). change (m_dealer_index d4) with (v_dealer (view d3)).
      change (m_bottom_cards d4) with (m_bottom_cards d3). change (m_pokercard_pool d4) with (m_pokercard_pool d3).
      change (m_card_dealer d4) with (m_card_dealer d3). rewrite Hv3, Hv2, Hv1. done.
  - exact Hcards.
  - exact Hj.
  - right. change (v_status (view d4) = Z.lor GAME_WAIT_MASK GAME_DEALER_CARD). by rewrite Hv4.
  - exact Hall.
Qed.

Lemma step_playing_begin_goes_on file d :
  between d ->
  returns (step_playing_begin room iv ROOM_IDLE ROOM_PLAYING false file d) (fun d' =>
    goes_on (view d) (view d')).
Proof.
  intros Hbt. unfold step_playing_begin. destruct (is_game_can_start d) eqn:E; cbn [negb].
  - eapply returns_mono; [by apply (start_new_game_returns file (notify_room_status ROOM_PLAYING d))|].
    intros d' (Hinv & _ & _ & Hr & Hall). split; [done|]. rewrite (between_spectate d) by done. right.
    destruct (inv_phase d' GAME_DEALER_CARD Hinv) as [Hph _].
    { rewrite (in_round_cases GAME_DEALER_CARD) by (done || by_decision). done. }
    { by_decision. }
    rewrite (spectate_shown _ GAME_DEALER_CARD) by (done || by_decision).
    inversion Hph as [| | |Ht _ Ha _| | | | ]; subst. rewrite Ha, (turns_apply _ _ Ht).
    apply proto_deal. rewrite in_play_count. exact (turns_count _ _ Ht).
  - apply returns_ret, between_goes_on, wait_for_round_between; [done|by_decision].
Qed.
End dealing.
