(* ===== verification/Requests.v ===== *)
(** * Requests

    Every request a client can send keeps the table invariant and is answered
    without a fault, under the conditions [legal] names; what happens outside
    of them is shown in Findings.v. *)
From Stdlib Require Import ZArith Lia String.
From stdpp Require Import base tactics numbers sorting option gmap strings sets list.
From S2P Require Import Prelude Cards Dealer Straight Declare Search Found Hand.
From S2P Require Import Player Seat Desk Snapshot Play Round Room Table Protocol Settle Seating Between Scan Secrecy Turn.
From S2P Require Import DigPost Dropping Declaring Dealing.

(** ** A player who enters *)

(** A player object is created, or replaced, for a user who sits nowhere. *)
Lemma linked_fresh seats lk uid :
  linked seats lk -> unseated uid seats -> linked seats (<[uid := (uid, None)]> lk).
Proof.
  intros [Hn He Hs Hp] Hun. split; try done.
  - intros i s u Hi Hu. destruct (Hs i s u Hi Hu) as [H1 H2]. split; [done|].
    rewrite lookup_insert_ne; [done|]. intros ->. by apply (Hun i s Hi).
  - intros u id o Hl. apply lookup_insert_Some in Hl as [[<- [= <- <-]]|[_ Hl]]; [done|by apply Hp].
Qed.

Section requests.
Context {M G : Type} `{MoneyService M} `{RandGen G} `{!Logging}.
Context (room : RoomInfo) `{!PrintableRoom room}.
Variables (iv : TimeInterval) (ROOM_IDLE ROOM_PLAYING ROOM_END1 : Z).
Abbreviation desk := (GameDesk M G).
Implicit Type d : desk.

(** A phase depends on the seats and the cards. *)
Lemma phase_same v v' r :
  phase v r -> v_seats v' = v_seats v -> v_active v' = v_active v -> v_dealer v' = v_dealer v ->
  v_pool v' = v_pool v -> v_bottom v' = v_bottom v -> v_chips v' = v_chips v ->
  v_apply v' = v_apply v -> phase v' r.
Proof.
  intros Hph. destruct v, v'. simpl. intros -> -> -> -> -> -> ->.
  destruct Hph as [Ho|Ho|Ho|Ht|Ht|Ht|i s Ht|i s]; [apply phase_unready|apply phase_wait_playing|
    apply phase_distribute|apply phase_dealer|apply phase_active1|apply phase_shuffle|
    apply (phase_active2 _ i s)|apply (phase_declare _ i s)]; try done; by destruct Ho || by destruct Ht.
Qed.

(** Somebody who is not in the room sits nowhere. *)
Lemma outside_unseated d uid :
  core (view d) -> uid ∉ m_all_player d -> unseated uid (m_seats d).
Proof. intros Hc Hout i s Hi Hu. apply Hout. exact (room_seated _ _ _ (core_room _ Hc) i s uid Hi Hu). Qed.

Lemma unlinked_unseated d uid p :
  core (view d) -> m_objects d !! uid = Some p -> m_pGameSeat p = None -> unseated uid (m_seats d).
Proof.
  intros Hc Hp Hs i s Hi Hu. destruct (linked_seat _ _ (core_linked _ Hc) i s uid Hi Hu) as [_ Hl].
  simpl in Hl. rewrite links_lookup, Hp in Hl. simpl in Hl. congruence.
Qed.

Lemma add_player_inv uid made d d' :
  inv (view d) -> add_player uid made d = Some d' ->
  inv (view d') /\ uid ∈ m_all_player d' /\ is_Some (m_objects d' !! uid) /\
  (uid ∉ m_all_player d -> exists p, m_objects d' !! uid = Some p /\ m_pGameSeat p = None).
Proof.
  intros Hinv. pose proof Hinv as (Hc & Hb & r & Hst & Hph). unfold add_player.
  destruct (decide (uid ∈ m_all_player d)) as [Hin|Hout].
  - intros [= <-]. split_and!; [done..| |done].
    destruct (room_object _ _ _ (core_room _ Hc) uid Hin) as [x Hx]. simpl in Hx.
    rewrite links_lookup in Hx. apply fmap_Some in Hx as (p & Hp & _). by rewrite Hp.
  - destruct made; [|done]. intros [= <-].
    set (d1 := put_player uid _ _).
    assert (view d1 = (view d) <| v_links := <[uid := (uid, None)]> (links (m_objects d)) |>
              <| v_room := {[uid]} ∪ m_all_player d |>) as Hv.
    { unfold d1, view. simpl. by rewrite links_insert. }
    pose proof (outside_unseated d uid Hc Hout) as Hun.
    assert (m_objects d1 !! uid = Some (new_player uid (m_now d))) as Hp.
    { unfold d1. simpl. by rewrite lookup_insert_eq. }
    split_and!.
    + rewrite Hv. destruct Hc as [Hlen Hlk [Ho Hs] Hsh Hw Hcards Hz Hsc]. split_and!.
      * split; try done; simpl.
        -- by apply linked_fresh.
        -- split.
           ++ intros u Hu. destruct (decide (uid = u)) as [->|Hne]; [by rewrite lookup_insert_eq|].
              rewrite lookup_insert_ne by done. apply Ho. simpl. clear PrintableRoom0. set_solver.
           ++ intros i s u Hi Hu. apply elem_of_union. right. by apply (Hs i s).
      * by destruct Hb.
      * exists r. split; [done|]. by eapply phase_same.
    + unfold d1. simpl. clear PrintableRoom0. set_solver.
    + by rewrite Hp.
    + intros _. by exists (new_player uid (m_now d)).
Qed.

Lemma add_player_spectate uid made d d' :
  add_player uid made d = Some d' -> spectate (view d') = spectate (view d).
Proof. unfold add_player. repeat case_match; intros; by simplify_eq. Qed.

(** *** The guards *)

Lemma room_player d uid :
  inv (view d) -> uid ∈ m_all_player d -> is_Some (m_objects d !! uid).
Proof.
  intros (Hc & _) Hin. destruct (room_object _ _ _ (core_room _ Hc) uid Hin) as [x Hx]. simpl in Hx.
  rewrite links_lookup in Hx. apply fmap_Some in Hx as (p & Hp & _). by exists p.
Qed.

Lemma flush_inv d uid :
  inv (view d) -> uid ∈ m_all_player d ->
  returns (desk_flush_online uid d) (fun d' =>
    view d' = view d /\ is_Some (m_objects d' !! uid)).
Proof. intros Hinv Hin. apply desk_flush_online_returns. by apply room_player. Qed.

Lemma with_player_returns uid handler d :
  inv (view d) ->
  (forall d', view d' = view d -> uid ∈ m_all_player d -> is_Some (m_objects d' !! uid) ->
     returns (handler d') (fun d'' => goes_on (view d') (view d''))) ->
  returns (with_player uid handler d) (fun d' => goes_on (view d) (view d')).
Proof.
  intros Hinv Hh. unfold with_player, find_player.
  destruct (decide (uid ∈ m_all_player d)) as [Hin|]; [|by apply returns_ret, goes_on_refl].
  eapply returns_bind; [by apply flush_inv|]. intros d' [Hv Ho]. rewrite <- Hv. by apply Hh.
Qed.

(** The seat the view gives to a player. *)
Definition place (uid : Z) d : option nat :=
  match links (m_objects d) !! uid with Some (_, o) => o | None => None end.

Lemma place_player d uid p : m_objects d !! uid = Some p -> place uid d = m_pGameSeat p.
Proof. intros Hp. unfold place. by rewrite links_lookup, Hp. Qed.

Lemma place_view d d' uid : view d' = view d -> place uid d' = place uid d.
Proof. intros Hv. unfold place. change (links (m_objects d')) with (v_links (view d')). by rewrite Hv. Qed.

(** Waiting for the round the desk is in. *)
Lemma wait_same_round d ms round :
  inv (view d) -> has (m_game_status d) round = true -> round ∈ shown_rounds ->
  goes_on (view d) (view (wait_for_round round ms d)).
Proof.
  intros Hinv Hhas Hr. pose proof (shown_round _ Hr) as Hin.
  destruct (inv_phase d round Hinv Hhas Hin) as [Hph Hst].
  pose proof Hinv as (Hc & Hb & _).
  assert (view (wait_for_round round ms d) = (view d) <| v_status := Z.lor GAME_WAIT_MASK round |>) as Hv.
  { apply wait_for_round_view. by exists round. }
  apply goes_on_quiet; rewrite Hv.
  - split_and!; [apply (core_same _ _ Hc); try done; apply Hc|by destruct Hb|].
    exists round. split; [by right|by eapply phase_same].
  - rewrite !(spectate_shown _ round); try done. by right.
Qed.

Lemma player_trusteeoff_goes_on uid d :
  inv (view d) -> is_Some (m_objects d !! uid) ->
  returns (player_trusteeoff iv uid d) (fun d' => goes_on (view d) (view d')).
Proof.
  intros Hinv [p Hp]. unfold player_trusteeoff.
  assert (get_player uid d = Ok p) as -> by (unfold get_player; by rewrite Hp).
  cbn [mbind outcome_bind]. destruct (is_seated_player p); cbn [negb]; [|by apply returns_ret, goes_on_refl].
  match goal with |- returns (desk_trustee_off uid ?x) _ => set (d1 := x) end.
  assert (goes_on (view d) (view d1) /\ m_objects d1 = m_objects d) as [Hgo Ho].
  { unfold d1. clear d1. destruct (is_wait_active d && _ && _) eqn:E; [|by split; [apply goes_on_refl|]].
    apply andb_true_iff in E as [[Ew _]%andb_true_iff _].
    destruct (is_wait_active1 d) eqn:E1; cbn zeta.
    - split; [|done]. apply wait_same_round; [done..|by_decision].
    - split; [|done]. apply wait_same_round; [done| |by_decision].
      unfold is_wait_active in Ew. by rewrite E1 in Ew. }
  eapply returns_mono; [apply desk_trustee_off_returns; by rewrite Ho, Hp|].
  intros d2 [Hv _]. by rewrite Hv.
Qed.

(** *** Legal requests *)

(** What the code relies on, besides the guards of the handlers. *)
Definition legal (r : Request) d : Prop :=
  match r with
  | ApplyTrusteeOff uid | ApplyCloseAccountBox uid | ApplyRoomStatus uid => uid ∈ m_all_player d
  | ApplyPostCard uid _ _ => uid ∈ m_all_player d -> is_Some (place uid d)
  | ApplyLoseDeclare uid _ =>
      is_declareing d = true -> forall i, place uid d = Some i -> Z.of_nat i <> m_apply_declare_seatnum d
  | ApplyDrop uid =>
      is_wait_active2 d = true -> forall i, place uid d = Some i -> m_active_seatnum d = Z.of_nat i ->
      (2 <= length (m_bottom_cards d) /\ 1 <= length (m_pokercard_pool d))%nat
  | _ => True
  end.

Lemma same_view_inv d d' : inv (view d) -> view d' = view d -> inv (view d').
Proof. by intros ? ->. Qed.

Lemma seat_free_idle d n s :
  linked (m_seats d) (links (m_objects d)) -> seat_at n d = Ok s -> 0 <= n <= 4 ->
  is_seated s = false -> seat_free n d.
Proof.
  intros Hl Hat Hn Hs. unfold seat_at in Hat. destruct (0 <=? n); [|done].
  apply access_Ok in Hat. split; [done|]. by exists s.
Qed.

(** Buying in and sitting down. *)
Lemma take_seat_returns uid n d (code : ErrorCode) (refuse : desk -> desk) :
  inv (view d) -> uid ∈ m_all_player d -> place uid d = None -> is_Some (m_objects d !! uid) ->
  seat_free n d ->
  (forall d', view d' = view d -> goes_on (view d) (view (refuse d'))) ->
  forall ok : Z -> bool, ok n = true ->
  returns ('(r, d) ← desk_buy_in room uid d;
           if r =? -1 then mret (refuse d)
           else
             '(seat_num, d) ← player_sit_down room uid n (reply code d);
             _ ← assert_that (ok seat_num);
             mret d) (fun d' => goes_on (view d) (view d')).
Proof.
  intros Hinv Hin Hplace Ho Hfree Hrefuse ok Hok.
  eapply returns_bind; [by apply desk_buy_in_returns|]. intros [r d1] [Hv [p1 Hp1]]. cbn [snd] in Hv, Hp1.
  destruct (r =? -1); [apply returns_ret; by apply Hrefuse|].
  assert (view (reply code d1) = view d) as Hv1 by done.
  assert (m_pGameSeat p1 = None) as Hps.
  { rewrite <- (place_player d1 uid p1 Hp1), (place_view d d1) by done. done. }
  eapply returns_bind; [apply (player_sit_down_returns room (reply code d1) uid p1 n); try done|].
  - by rewrite Hv1.
  - change (uid ∈ v_room (view d1)). by rewrite Hv.
  - intros [num d2] (Hinv2 & Hnum & Hsp). cbn [fst snd] in *. rewrite Hnum.
    + rewrite Hok. cbn [assert_that mbind outcome_bind]. apply returns_ret, goes_on_quiet; [done|].
      by rewrite Hsp, Hv1.
    + destruct Hfree as [Hn (s & Hs & Hse)]. split; [done|]. exists s. split; [|done].
      change (v_seats (view d1) !! Z.to_nat n = Some s). by rewrite Hv.
Qed.

(** *** Coming and going *)

Lemma is_seat_idle_returns n d :
  core (view d) ->
  returns (is_seat_idle n d) (fun b => b = true -> seat_free n d).
Proof.
  intros Hc. unfold is_seat_idle, m_max_seat_num.
  destruct ((n <? 0) || (Z.of_nat 5 - 1 <? n)) eqn:E; [by apply returns_ret|].
  destruct (lookup_lt_is_Some_2 (m_seats d) (Z.to_nat n)) as [s Hs].
  { pose proof (core_seats _ Hc) as Hl. simpl in Hl. rewrite Hl. unfold m_max_seat_num. lia. }
  unfold seat_at. destruct (0 <=? n) eqn:E0; [|lia]. rewrite Hs. cbn [access mbind outcome_bind].
  apply returns_ret. intros Hb%negb_true_iff. split; [lia|by exists s].
Qed.

Lemma on_apply_seat_goes_on uid n d :
  inv (view d) -> returns (on_apply_seat room uid n d) (fun d' => goes_on (view d) (view d')).
Proof.
  intros Hinv. unfold on_apply_seat, find_player.
  destruct (decide (uid ∈ m_all_player d)) as [Hin|]; [|by apply returns_ret, goes_on_refl].
  eapply returns_bind; [by apply flush_inv|]. intros d1 [Hv [p Hp]].
  rewrite <- Hv. assert (inv (view d1)) as Hinv1 by by rewrite Hv. pose proof Hinv1 as (Hc1 & _).
  assert (get_player uid d1 = Ok p) as -> by (unfold get_player; by rewrite Hp).
  cbn [mbind outcome_bind]. unfold get_seat_number.
  destruct (m_pGameSeat p) as [i|] eqn:Hps.
  { destruct (Z.of_nat i =? -1) eqn:E; [lia|]. by apply returns_ret, goes_on_refl. }
  change (negb (-1 =? -1)) with false. cbn iota.
  eapply returns_bind; [by apply is_seat_idle_returns|]. intros idle Hidle.
  destruct idle; cbn [negb]; [|by apply returns_ret, goes_on_refl].
  apply (take_seat_returns uid n d1 GG_ERROR_SUCCESS (reply GG_ERROR_USER_BUY_IN_FAILED)) with
    (ok := fun k => negb (k =? -1)); try done.
  - change (uid ∈ v_room (view d1)). by rewrite Hv.
  - by rewrite (place_player _ _ _ Hp).
  - by apply Hidle.
  - intros d' Hv'. by apply goes_on_same.
  - destruct (Hidle eq_refl) as [Hn _]. lia.
Qed.

(** [-1] when every seat fails the test. *)
Lemma first_seat_number_none test seats :
  (forall i s, seats !! i = Some s -> m_seat_number s = Z.of_nat i) ->
  first_seat_number test seats = -1 \/
  exists i s, first_seat_number test seats = Z.of_nat i /\ seats !! i = Some s /\ test s = true.
Proof.
  intros Hn. destruct (existsb test seats) eqn:E.
  - right. apply first_seat_number_spec; [done|]. apply existsb_exists in E as (s & Hin & Ht).
    apply list_elem_of_In, list_elem_of_lookup in Hin as [i Hi]. by exists i, s.
  - left. clear Hn. induction seats as [|s seats IH]; [done|]. simpl in *.
    apply orb_false_iff in E as [-> E]. by apply IH.
Qed.

Lemma get_idle_seat_number_free d :
  core (view d) -> get_idle_seat_number d <> -1 -> seat_free (get_idle_seat_number d) d.
Proof.
  intros Hc Hne. pose proof (core_seats _ Hc) as Hl. simpl in Hl.
  destruct (first_seat_number_none (fun s => negb (is_seated s)) (m_seats d)) as [Hm|(i & s & Hi & Hs & Ht)].
  { exact (linked_number _ _ (core_linked _ Hc)). }
  { done. }
  apply negb_true_iff in Ht. unfold get_idle_seat_number. rewrite Hi. split.
  - apply lookup_lt_Some in Hs. rewrite Hl in Hs. unfold m_max_seat_num in Hs. lia.
  - exists s. by rewrite Nat2Z.id.
Qed.

Lemma on_new_player_enter_goes_on uid name made d :
  inv (view d) -> uid ∉ m_all_player d ->
  returns (on_new_player_enter room uid name made d) (fun d' => goes_on (view d) (view d')).
Proof.
  intros Hinv Hout. unfold on_new_player_enter.
  destruct (add_player uid made d) as [d1|] eqn:Hadd; [|by apply returns_ret, goes_on_refl].
  destruct (add_player_inv _ _ _ _ Hinv Hadd) as (Hinv1 & Hin1 & _ & Hp1).
  destruct (Hp1 Hout) as (p & Hp & Hps).
  assert (get_player uid d1 = Ok p) as -> by (unfold get_player; by rewrite Hp).
  cbn [mbind outcome_bind]. set (d2 := put_player uid (p <| m_player_name := name |>) d1).
  assert (view d2 = view d1) as Hv2 by by apply (view_put_player uid p).
  assert (m_objects d2 !! uid = Some (p <| m_player_name := name |>)) as Hp2.
  { unfold d2. simpl. by rewrite lookup_insert_eq. }
  assert (inv (view d2)) as Hinv2 by by rewrite Hv2. pose proof Hinv2 as (Hc2 & _).
  assert (unseated uid (m_seats d2)) as Hun by by apply (unlinked_unseated d2 uid _ Hc2 Hp2).
  assert (spectate (view d2) = spectate (view d)) as Hsp.
  { rewrite Hv2. by eapply add_player_spectate. }
  cbn zeta. destruct (get_idle_seat_number d2 =? -1) eqn:E.
  { apply returns_ret. apply (destroy_player_goes_on _ uid (reply GG_ERROR_HAVE_NO_SEAT d2)); [|done].
    apply goes_on_quiet; [done|exact Hsp]. }
  apply Z.eqb_neq in E. eapply returns_mono; [|intros d'; by apply goes_on_from].
  apply (take_seat_returns uid _ d2 GG_ERROR_SUCCESS
    (fun d => destroy_player uid (reply GG_ERROR_USER_BUY_IN_FAILED d))) with
    (ok := fun k => k =? get_idle_seat_number d2); try done.
  - by rewrite (place_player _ _ _ Hp2).
  - by apply get_idle_seat_number_free.
  - intros d' Hv'. apply (destroy_player_goes_on _ uid (reply GG_ERROR_USER_BUY_IN_FAILED d')).
    + by apply goes_on_same.
    + change (unseated uid (v_seats (view d'))). by rewrite Hv'.
  - apply Z.eqb_refl.
Qed.

Hypothesis small_blind_nonneg : 0 <= m_small_blind room.

Lemma on_apply_exit_goes_on uid d :
  inv (view d) -> returns (on_apply_exit room iv ROOM_IDLE uid d) (fun d' => goes_on (view d) (view d')).
Proof.
  intros Hinv. pose proof Hinv as (Hc & _). unfold on_apply_exit, find_player.
  destruct (decide (uid ∈ m_all_player d)) as [Hin|]; [|by apply returns_ret, goes_on_refl].
  destruct (room_player d uid Hinv Hin) as [p Hp].
  assert (get_player uid d = Ok p) as -> by (unfold get_player; by rewrite Hp).
  cbn [mbind outcome_bind]. unfold get_seat_number. destruct (m_pGameSeat p) as [i|] eqn:Hps.
  - destruct (Z.of_nat i =? -1) eqn:E; [lia|]. cbn [negb].
    eapply returns_bind; [by apply (player_stand_up_returns room iv ROOM_IDLE d uid p i)|].
    intros [r d'] [[[= -> ->] _]|(Hr & Hinv' & Hun & _ & Hf)]; [by apply returns_ret, goes_on_refl|].
    cbn [fst snd] in *. subst r. change (0 =? -1) with false. cbn iota. apply returns_ret.
    by apply (destroy_player_goes_on _ uid (reply GG_ERROR_SUCCESS d')).
  - change (negb (-1 =? -1)) with false. cbn [mbind outcome_bind mret outcome_ret].
    change (0 =? -1) with false. cbn iota. apply returns_ret.
    apply (destroy_player_goes_on _ uid (reply GG_ERROR_SUCCESS d)); [by apply goes_on_refl|].
    by apply (unlinked_unseated d uid p).
Qed.

Lemma on_apply_standup_goes_on uid d :
  inv (view d) -> returns (on_apply_standup room iv ROOM_IDLE uid d) (fun d' => goes_on (view d) (view d')).
Proof.
  intros Hinv. unfold on_apply_standup, find_player.
  destruct (decide (uid ∈ m_all_player d)) as [Hin|]; [|by apply returns_ret, goes_on_refl].
  eapply returns_bind; [by apply (flush_inv (reply GG_ERROR_SUCCESS d))|]. intros d1 [Hv [p Hp]].
  change (view (reply GG_ERROR_SUCCESS d)) with (view d) in Hv. rewrite <- Hv.
  assert (inv (view d1)) as Hinv1 by by rewrite Hv.
  assert (get_player uid d1 = Ok p) as -> by (unfold get_player; by rewrite Hp).
  cbn [mbind outcome_bind]. unfold get_seat_number. destruct (m_pGameSeat p) as [i|] eqn:Hps.
  - destruct (Z.of_nat i =? -1) eqn:E; [lia|]. cbn [negb].
    eapply returns_bind; [by apply (player_stand_up_returns room iv ROOM_IDLE d1 uid p i)|].
    intros [r d'] [[[= -> ->] _]|(Hr & Hinv' & Hun & _ & Hf)]; [by apply returns_ret, goes_on_refl|].
    cbn [fst snd] in *. subst r. change (negb (0 =? -1)) with true. cbn iota. apply returns_ret.
    by apply destroy_player_goes_on.
  - change (negb (-1 =? -1)) with false. cbn iota. by apply returns_ret, goes_on_refl.
Qed.

(** *** Looking and talking *)

Lemma with_reply_returns uid handler d :
  inv (view d) ->
  (forall d', view d' = view d -> is_Some (m_objects d' !! uid) ->
     returns (handler d') (fun d'' => goes_on (view d') (view d''))) ->
  returns (with_reply uid handler d) (fun d' => goes_on (view d) (view d')).
Proof.
  intros Hinv Hh. unfold with_reply, find_player.
  destruct (decide (uid ∈ m_all_player d)) as [Hin|]; [|by apply returns_ret, goes_on_refl].
  eapply returns_bind; [by apply (flush_inv (reply GG_ERROR_SUCCESS d))|]. intros d' [Hv Ho].
  change (view (reply GG_ERROR_SUCCESS d)) with (view d) in Hv. rewrite <- Hv. by apply Hh.
Qed.

Lemma on_apply_flush_room_goes_on uid d :
  inv (view d) -> returns (on_apply_flush_room room iv uid d) (fun d' => goes_on (view d) (view d')).
Proof.
  intros Hinv. apply with_reply_returns; [done|]. intros d' Hv Ho.
  assert (inv (view d')) as Hinv' by by rewrite Hv. pose proof Hinv' as (Hc & _).
  eapply returns_bind; [by apply player_flush_room_returns; [exact (core_linked _ Hc)|]|].
  intros d1 [request ->]. destruct Ho as [p Hp].
  set (d1 := send _ d'). assert (m_objects d1 !! uid = Some p) as Hp1 by exact Hp.
  unfold get_player. rewrite Hp1. cbn [deref mbind outcome_bind]. apply returns_ret.
  apply goes_on_same; [done|]. by rewrite (view_put_player uid p).
Qed.

(** *** All requests *)

Lemma place_seat d uid p i :
  m_objects d !! uid = Some p -> place uid d = Some i -> m_pGameSeat p = Some i.
Proof. intros Hp. by rewrite (place_player d uid p Hp). Qed.

Lemma handle_msg_returns `{!QuietLog} r d :
  inv (view d) -> legal r d ->
  returns (handle_msg room iv ROOM_IDLE ROOM_PLAYING ROOM_END1 r d) (fun d' => goes_on (view d) (view d')).
Proof.
  intros Hinv Hlegal. destruct r as [uid name made|uid n|uid|uid|uid digtype|uid card score|uid|
    uid dc cg|uid cg|uid|uid|uid|uid|uid shortcut content|uid face|uid acceptor props|uid gift acceptors|
    uid gift url acceptors|uid gift acceptors|uid to t id json]; cbn [handle_msg].
  - unfold on_apply_enter_room, find_player. rewrite log_value_quiet. cbn [mbind outcome_bind].
    destruct (decide (uid ∈ m_all_player d)); [by apply returns_ret, goes_on_refl|].
    by apply on_new_player_enter_goes_on.
  - by apply on_apply_seat_goes_on.
  - by apply on_apply_exit_goes_on.
  - by apply on_apply_standup_goes_on.
  - apply with_player_returns; [done|]. intros d' Hv _ Ho.
    apply player_dig_card_goes_on; [by rewrite Hv|done].
  - apply with_player_returns; [done|]. intros d' Hv Hin [p Hp].
    apply (player_post_card_goes_on room); [by rewrite Hv|]. destruct (Hlegal Hin) as [i Hi].
    exists p, i. split; [done|]. apply (place_seat d' uid p i Hp). by rewrite (place_view d d').
  - apply with_player_returns; [done|]. intros d' Hv Hin Ho.
    apply (desk_player_drop_goes_on room); [done|by rewrite Hv|done|]. intros p Hp Hw2 Hact.
    assert (linked (m_seats d') (links (m_objects d'))) as Hl.
    { change (linked (v_seats (view d')) (v_links (view d'))). rewrite Hv. apply Hinv. }
    destruct (active_player_seat _ _ _ Hl Hp Hact) as (i & s & Ha & Hps & _).
    change (m_bottom_cards d') with (v_bottom (view d')). change (m_pokercard_pool d') with (v_pool (view d')).
    rewrite Hv. apply (Hlegal) with (i := i).
    + unfold is_wait_active2 in *. change (m_game_status d) with (v_status (view d)). by rewrite <- Hv.
    + rewrite <- (place_view d d') by done. by rewrite (place_player _ _ _ Hp).
    + change (v_active (view d) = Z.of_nat i). by rewrite <- Hv.
  - apply with_player_returns; [done|]. intros d' Hv _ Ho.
    apply (player_declare_goes_on room); [by rewrite Hv|done].
  - apply with_player_returns; [done|]. intros d' Hv Hin Ho.
    apply (player_lose_declare_returns room); [done|by rewrite Hv|done|]. intros p Hdec Hp.
    assert (m_apply_declare_seatnum d' = m_apply_declare_seatnum d) as ->.
    { change (v_apply (view d') = v_apply (view d)). by rewrite Hv. }
    unfold get_seat_number. destruct (m_pGameSeat p) as [i|] eqn:Hps.
    + apply Hlegal.
      * unfold is_declareing in *. change (m_game_status d) with (v_status (view d)). by rewrite <- Hv.
      * rewrite <- (place_view d d') by done. by rewrite (place_player _ _ _ Hp).
    + intros Ha. unfold is_declareing in Hdec.
      destruct (inv_declaring d' ltac:(by rewrite Hv) Hdec) as (a & (_ & _ & _ & [Happly _ _]) & _).
      rewrite Hv in Happly. simpl in Happly. lia.
  - unfold on_apply_trustee_off, without_return, find_player. simpl in Hlegal.
    rewrite decide_True by done. cbn [deref mbind outcome_bind].
    eapply returns_bind; [by apply (flush_inv (reply GG_ERROR_SUCCESS d))|]. intros d' [Hv Ho].
    change (view (reply GG_ERROR_SUCCESS d)) with (view d) in Hv. rewrite <- Hv.
    apply player_trusteeoff_goes_on; [by rewrite Hv|done].
  - unfold on_apply_close_account_box, without_return, find_player. simpl in Hlegal.
    rewrite decide_True by done. cbn [deref mbind outcome_bind].
    eapply returns_bind; [by apply (flush_inv (reply GG_ERROR_SUCCESS d))|]. intros d' [Hv Ho].
    change (view (reply GG_ERROR_SUCCESS d)) with (view d) in Hv. rewrite <- Hv.
    apply (player_close_account_box_returns room); [done|by rewrite Hv|done].
  - by apply on_apply_flush_room_goes_on.
  - unfold on_apply_room_status, find_player. simpl in Hlegal.
    rewrite decide_True by done. cbn [deref mbind outcome_bind].
    eapply returns_bind; [by apply flush_inv|]. intros d' [Hv Ho]. apply returns_ret, goes_on_same; [done|exact Hv].
  - apply with_reply_returns; [done|]. intros d' Hv [p Hp]. unfold get_player. rewrite Hp.
    apply returns_ret, goes_on_same; [by rewrite Hv|done].
  - apply with_reply_returns; [done|]. intros d' Hv _. apply returns_ret, goes_on_same; [by rewrite Hv|done].
  - apply with_reply_returns; [done|]. intros d' Hv _. apply returns_ret, goes_on_same; [by rewrite Hv|done].
  - unfold on_apply_present_gift, find_player.
    destruct (decide (uid ∈ m_all_player d)); by apply returns_ret, goes_on_same.
  - unfold on_apply_present_gift_newinter, find_player.
    destruct (decide (uid ∈ m_all_player d)); by apply returns_ret, goes_on_same.
  - apply with_reply_returns; [done|]. intros d' Hv _. apply returns_ret, goes_on_same; [by rewrite Hv|done].
  - apply returns_ret. destruct (negb _); by apply goes_on_same.
Qed.
End requests.
