(* ===== verification/Sweep.v ===== *)
(** * The sweep over the players of the room

    [check_player_online] erases a player from the room before he stands up.
    Standing up does not look at the room, so the two may be exchanged, and the
    sweep keeps the table invariant. *)
From Stdlib Require Import ZArith Lia String.
From stdpp Require Import base tactics numbers sorting option gmap strings sets list.
From S2P Require Import Prelude Cards Dealer Straight Declare Search Found Hand.
From S2P Require Import Player Seat Desk Play Round Room Table Protocol Settle Seating Between Scan Turn.
From S2P Require Import DigPost Dropping Declaring Dealing Requests.

Section sweep.
Context {M G : Type} `{MoneyService M} `{RandGen G}.
Context (room : RoomInfo) `{!PrintableRoom room}.
Variables (iv : TimeInterval) (ROOM_IDLE : Z).
Abbreviation desk := (GameDesk M G).
Implicit Type d : desk.

(** The same desk with other users in the room, who were sent other messages. *)
Definition set_room (X : gset Z) (L : list Event) d : desk := d <| m_all_player := X |> <| m_sent := L |>.

Lemma set_player_phase_room X L uid ph d :
  set_player_phase uid ph (set_room X L d) = set_room X L <$> set_player_phase uid ph d.
Proof.
  unfold set_player_phase, get_player. simpl. by destruct (m_objects d !! uid).
Qed.

Lemma for_seats_room X L body d :
  (forall d' i s, body (set_room X L d') i s = set_room X L <$> body d' i s) ->
  for_seats body (set_room X L d) = set_room X L <$> for_seats body d.
Proof.
  intros Hbody. unfold for_seats. change (m_seats (set_room X L d)) with (m_seats d).
  generalize (seq 0 (length (m_seats d))). intros l. revert d.
  induction l as [|i l IH]; intros d; [done|]. cbn [mfold].
  change (m_seats (set_room X L d) !! i) with (m_seats d !! i).
  destruct (m_seats d !! i) as [s|]; [|done]. cbn [access mbind outcome_bind].
  rewrite Hbody. destruct (body d i s) as [d'|f]; [|done]. apply IH.
Qed.

Lemma set_player_matchover_status_room X L d :
  set_player_matchover_status (set_room X L d) = set_room X L <$> set_player_matchover_status d.
Proof.
  apply for_seats_room. intros d' i s. destruct (negb (is_seated s)); [done|].
  destruct (is_player_joined s); [|done]. unfold get_seated_player.
  destruct (m_player s) as [uid|]; [|done]. apply set_player_phase_room.
Qed.

Definition with_room (X : gset Z) (L : list Event) (r : Z * desk) : Z * desk := (r.1, set_room X L r.2).

(** What is broadcast reaches others. *)
Lemma broadcast_room X L m d : exists L', broadcast m (set_room X L d) = set_room X L' (broadcast m d).
Proof. eexists. reflexivity. Qed.

Lemma stand_up_tail_room X L b d :
  exists L', stand_up_tail ROOM_IDLE b (set_room X L d) = with_room X L' <$> stand_up_tail ROOM_IDLE b d.
Proof.
  unfold stand_up_tail. change (is_distribut (set_room X L d)) with (is_distribut d).
  change (is_all_player_over_account (set_room X L d)) with (is_all_player_over_account d).
  destruct (if is_distribut d && b then is_all_player_over_account d else mret false) as [o|f]; [|by exists L].
  cbn [mbind outcome_bind]. destruct o.
  - change (wait_for_round GAME_DISTRIBUTE 0 (set_room X L d))
      with (set_room X L (wait_for_round GAME_DISTRIBUTE 0 d)).
    rewrite set_player_matchover_status_room. exists L.
    by destruct (set_player_matchover_status (wait_for_round GAME_DISTRIBUTE 0 d)).
  - change (is_game_can_start (set_room X L d)) with (is_game_can_start d).
    change (is_game_wait_playing (set_room X L d)) with (is_game_wait_playing d).
    destruct (negb (is_game_can_start d) && is_game_wait_playing d); [eexists|exists L]; reflexivity.
Qed.

Lemma put_player_room X L uid p d : put_player uid p (set_room X L d) = set_room X L (put_player uid p d).
Proof. reflexivity. Qed.

Lemma put_seat_room X L i s d : put_seat i s (set_room X L d) = set_room X L (put_seat i s d).
Proof. reflexivity. Qed.

Lemma money_room X L m d : (set_room X L d) <| m_money := m |> = set_room X L (d <| m_money := m |>).
Proof. reflexivity. Qed.

Lemma last_winner_room X L n d :
  (set_room X L d) <| m_last_winner_seatnum := n |> = set_room X L (d <| m_last_winner_seatnum := n |>).
Proof. reflexivity. Qed.

Lemma leave_seat_room X L uid reason n d :
  exists L', leave_seat room ROOM_IDLE uid reason n (set_room X L d) =
    with_room X L' <$> leave_seat room ROOM_IDLE uid reason n d.
Proof.
  unfold leave_seat.
  change (m_last_winner_seatnum (set_room X L d)) with (m_last_winner_seatnum d).
  assert (forall d0, exists L', (p ← get_player uid (set_room X L d0);
      let is_playing := is_player_playing p in
      let d := broadcast (PlayerStandUp uid reason) (set_room X L d0) in
      '(i, s) ← player_seat p d;
      '(s, p, money) ← Seat.player_stand_up (m_room_id room) (is_game_over d) s p (m_money d);
      let d := put_seat i s (put_player uid p (d <| m_money := money |>)) in
      stand_up_tail ROOM_IDLE is_playing d) = with_room X L' <$> (p ← get_player uid d0;
      let is_playing := is_player_playing p in
      let d := broadcast (PlayerStandUp uid reason) d0 in
      '(i, s) ← player_seat p d;
      '(s, p, money) ← Seat.player_stand_up (m_room_id room) (is_game_over d) s p (m_money d);
      let d := put_seat i s (put_player uid p (d <| m_money := money |>)) in
      stand_up_tail ROOM_IDLE is_playing d)) as Hgen.
  { intros d0. destruct (broadcast_room X L (PlayerStandUp uid reason) d0) as [L' Hb].
    rewrite Hb. change (get_player uid (set_room X L d0)) with (get_player uid d0).
    destruct (get_player uid d0) as [p|f]; [|by exists L]. cbn [mbind outcome_bind].
    set (d1 := broadcast (PlayerStandUp uid reason) d0).
    change (player_seat p (set_room X L' d1)) with (player_seat p d1).
    destruct (player_seat p d1) as [[i s]|f]; [|by exists L]. cbn [mbind outcome_bind].
    change (is_game_over (set_room X L' d1)) with (is_game_over d1).
    change (m_money (set_room X L' d1)) with (m_money d1).
    destruct (Seat.player_stand_up (m_room_id room) (is_game_over d1) s p (m_money d1)) as [[[s' p'] money]|f]; [|by exists L].
    cbn [mbind outcome_bind].
    rewrite money_room, put_player_room, put_seat_room. apply stand_up_tail_room. }
  rewrite last_winner_room. destruct (n =? m_last_winner_seatnum d); cbn zeta; apply Hgen.
Qed.

(** Between two games a seated player stands up at once. *)
Lemma player_stand_up_between d uid p i reason :
  between d -> m_objects d !! uid = Some p -> m_pGameSeat p = Some i ->
  forall X L, player_stand_up room iv ROOM_IDLE uid reason (set_room X L d) =
    leave_seat room ROOM_IDLE uid reason (Z.of_nat i) (set_room X L d).
Proof.
  intros Hbt Hp Hseat X L. pose proof (between_linked _ Hbt) as Hl.
  destruct (seat_of_player _ _ _ _ Hl Hp Hseat) as (Hid & s & Hi & Hu).
  assert (i < m_max_seat_num)%nat as Hrange.
  { destruct Hbt as (Hc & _). pose proof (core_seats _ Hc) as Hlen. apply lookup_lt_Some in Hi.
    simpl in Hlen. lia. }
  unfold m_max_seat_num in Hrange.
  assert (get_player uid (set_room X L d) = Ok p) as Hgp by (unfold get_player; simpl; by rewrite Hp).
  assert (player_seat p (set_room X L d) = Ok (i, s)) as Hps.
  { unfold player_seat. rewrite Hseat. cbn [deref mbind outcome_bind]. simpl. by rewrite Hi. }
  assert (get_seat_number p = Z.of_nat i) as Hnum by (unfold get_seat_number; by rewrite Hseat).
  unfold player_stand_up. rewrite Hgp. cbn [mbind outcome_bind]. rewrite Hnum.
  destruct ((0 <=? Z.of_nat i) && (Z.of_nat i <=? Z.of_nat m_max_seat_num - 1)) eqn:E;
    [|unfold m_max_seat_num in E; lia].
  cbn [assert_that mbind outcome_bind]. rewrite Hps. cbn [mbind outcome_bind].
  rewrite bool_decide_eq_true_2 by done. cbn [assert_that mbind outcome_bind].
  change (is_game_over (set_room X L d)) with (is_game_over d).
  rewrite between_is_game_over by done. done.
Qed.

Lemma set_room_inv d X L :
  inv (view d) -> (forall u, u ∈ X -> u ∈ m_all_player d) ->
  (forall i s u, m_seats d !! i = Some s -> m_player s = Some u -> u ∈ X) -> inv (view (set_room X L d)).
Proof.
  intros (Hc & Hb & r & Hst & Hph) Hsub Hseated. split_and!.
  - destruct Hc as [Hlen Hlk [Ho Hs] Hsh Hw Hcards Hz Hsc]. split; try done. split; simpl.
    + intros u Hu. by apply Ho, Hsub.
    + exact Hseated.
  - by destruct Hb.
  - exists r. split; [done|]. by eapply phase_same.
Qed.

(** One player of the sweep. *)
Lemma check_one_returns (manager_online : Z -> bool) uid d :
  inv (view d) -> uid ∈ m_all_player d ->
  returns (p ← get_player uid d;
    if is_online (manager_online uid) (m_now d) p then mret (put_player uid (set_online p) d)
    else if need_kickout_room (m_now d) (is_game_over d) p then
      let d := destroy_player uid d in
      if negb (get_seat_number p =? -1) then
        '(_, d) ← player_stand_up room iv ROOM_IDLE uid QUIT_ROOM d; mret d
      else mret d
    else mret (put_player uid (set_offline p) d))
  (fun d' => inv (view d') /\ spectate (view d') = spectate (view d) /\
    forall u, u <> uid -> u ∈ m_all_player d -> u ∈ m_all_player d').
Proof.
  intros Hinv Hin. pose proof Hinv as (Hc & _). destruct (room_player d uid Hinv Hin) as [p Hp].
  assert (get_player uid d = Ok p) as -> by (unfold get_player; by rewrite Hp).
  cbn [mbind outcome_bind].
  assert (forall p', same_place p p' ->
    inv (view (put_player uid p' d)) /\ spectate (view (put_player uid p' d)) = spectate (view d) /\
    forall u, u <> uid -> u ∈ m_all_player d ->
      u ∈ m_all_player (put_player uid p' d)) as Hquiet.
  { intros p' [Hid Hs]. by rewrite (view_put_player uid p). }
  destruct (is_online _ _ p).
  { apply returns_ret, Hquiet. unfold same_place, set_online, set_status. by repeat case_match. }
  destruct (need_kickout_room _ _ p) eqn:Hkick.
  2: { apply returns_ret, Hquiet. unfold same_place, set_offline, set_status. by repeat case_match. }
  cbn zeta. unfold get_seat_number. destruct (m_pGameSeat p) as [i|] eqn:Hps.
  - destruct (Z.of_nat i =? -1) eqn:E; [lia|]. cbn [negb].
    assert (between d) as Hbt.
    { apply inv_is_game_over; [done|]. unfold need_kickout_room, is_seated_player in Hkick.
      rewrite Hps, bool_decide_eq_true_2 in Hkick by done. cbn [negb] in Hkick.
      rewrite orb_false_r in Hkick. by apply andb_true_iff in Hkick as [_ ?]. }
    set (X := m_all_player d ∖ {[uid]}). change (destroy_player uid d) with (set_room X (m_sent d) d).
    rewrite (player_stand_up_between d uid p i QUIT_ROOM Hbt Hp Hps X (m_sent d)).
    destruct (leave_seat_room X (m_sent d) uid QUIT_ROOM (Z.of_nat i) d) as [L' ->].
    pose proof (core_linked _ Hc) as Hl.
    destruct (seat_of_player _ _ _ _ Hl Hp Hps) as (Hid & s & Hi & Hu).
    destruct (leave_seat_returns room ROOM_IDLE d i s uid QUIT_ROOM (Z.of_nat i) Hinv Hi Hu (or_intror Hbt))
      as ([r d'] & -> & _ & Hinv' & Hun & Hroom & _ & Hsp).
    cbn [fst snd] in *. apply returns_ret. unfold with_room. cbn [fst snd]. split_and!; [|exact Hsp|].
    + apply set_room_inv; [done| |].
      * intros u Hu'. rewrite Hroom. unfold X in Hu'. clear PrintableRoom0. set_solver.
      * intros j t u Ht Hut. unfold X. apply elem_of_difference. split.
        -- rewrite <- Hroom. destruct Hinv' as (Hc' & _). by apply (room_seated _ _ _ (core_room _ Hc') j t).
        -- rewrite elem_of_singleton. intros ->. by apply (Hun j t).
    + intros u Hne Hu'. unfold set_room, X. simpl. clear PrintableRoom0. set_solver.
  - change (negb (-1 =? -1)) with false. cbn iota. apply returns_ret. split_and!; [|done|].
    + apply destroy_player_inv; [done|]. by apply (unlinked_unseated d uid p).
    + intros u Hne Hu'. unfold destroy_player. simpl. clear PrintableRoom0. set_solver.
Qed.

Lemma check_player_online_returns (manager_online : Z -> bool) d :
  inv (view d) ->
  returns (check_player_online room iv ROOM_IDLE manager_online d) (fun d' => goes_on (view d) (view d')).
Proof.
  intros Hinv. unfold check_player_online.
  assert (forall l d, NoDup l -> inv (view d) -> (forall u, u ∈ l -> u ∈ m_all_player d) ->
    returns (mfold (fun d uid =>
      p ← get_player uid d;
      if is_online (manager_online uid) (m_now d) p then mret (put_player uid (set_online p) d)
      else if need_kickout_room (m_now d) (is_game_over d) p then
        let d := destroy_player uid d in
        if negb (get_seat_number p =? -1) then
          '(_, d) ← player_stand_up room iv ROOM_IDLE uid QUIT_ROOM d; mret d
        else mret d
      else mret (put_player uid (set_offline p) d)) d l) (fun d' => goes_on (view d) (view d'))) as Hloop.
  { clear d Hinv. induction l as [|uid l IH]; intros d Hnd Hinv Hall; [by apply returns_ret, goes_on_refl|].
    apply NoDup_cons in Hnd as [Hni Hnd]. cbn [mfold].
    eapply returns_bind; [apply check_one_returns; [done|apply Hall; left]|].
    intros d' (Hinv' & Hsp & Hkeep). eapply returns_mono; [|intros d''; by apply goes_on_from].
    apply IH; [done..|]. intros u Hu. apply Hkeep.
    - by intros ->.
    - apply Hall. by right. }
  apply Hloop; [apply NoDup_elements|done|]. intros u. by rewrite elem_of_elements.
Qed.
End sweep.
