(* ===== verification/Deserted.v ===== *)
(** * Rooms that nobody can enter

    Entering a room logs a value that is not there, and sitting down adds the number of
    the room to a literal.  A server that logs everything, or a room with another number
    than 0 to 7, therefore stops at the first user who enters, and until then its desk
    stays empty.  The theorems about reachable desks need not leave these out. *)
From Stdlib Require Import ZArith Lia String.
From stdpp Require Import base tactics numbers sorting option gmap strings sets list.
From S2P Require Import Prelude Cards Dealer Straight Declare Search Found Hand.
From S2P Require Import Player Seat Desk Snapshot Play Round Room Table Protocol Settle Seating Between Requests.

Section deserted.
Context {M G : Type} `{MoneyService M} `{RandGen G} `{!Logging}.
Variables (room : RoomInfo) (iv : TimeInterval) (ROOM_IDLE ROOM_PLAYING ROOM_END1 : Z).
Abbreviation desk := (GameDesk M G).
Implicit Type d : desk.

(** The rooms that can be entered. *)
Definition served : Prop := 0 <= m_room_id room <= 7 /\ LogLevel.debug < get_current_log_level.

#[export] Instance served_dec : Decision served.
Proof. unfold served. apply _. Defined.

Record deserted (v : View) : Prop := mkDeserted {
  deserted_inv : inv v;
  deserted_room : v_room v = ∅;
  deserted_status : in_round GAME_UNREADY (v_status v);
  deserted_seats s : s ∈ v_seats v -> m_player s = None
}.

Lemma deserted_spectate v : deserted v -> spectate v = Idle.
Proof. intros [_ _ Hst _]. by apply (spectate_over _ GAME_UNREADY); [|by_decision]. Qed.

Lemma deserted_outside d uid : deserted (view d) -> uid ∉ m_all_player d.
Proof. intros Hd. change (uid ∉ v_room (view d)). rewrite (deserted_room _ Hd). apply not_elem_of_empty. Qed.

Lemma deserted_find d uid : deserted (view d) -> find_player uid d = None.
Proof. intros Hd. unfold find_player. by rewrite decide_False by by apply deserted_outside. Qed.

Lemma deserted_unseated d uid : deserted (view d) -> unseated uid (m_seats d).
Proof. intros Hd j t Ht. rewrite (deserted_seats _ Hd) by by eapply list_elem_of_lookup_2. done. Qed.

(** ** Entering *)

Lemma sit_down_fails uid n d n' d' :
  ~ 0 <= m_room_id room <= 7 -> player_sit_down room uid n d = Ok (n', d') -> n' = -1.
Proof.
  intros Hroom. unfold player_sit_down. destruct (_ || _); [by intros [= <- _]|].
  destruct (seat_at n d) as [s|]; [|done]. cbn [mbind outcome_bind].
  destruct (is_seated s); [by intros [= <- _]|]. intros E. inv_ok.
  match goal with H : Seat.player_sit_down _ _ _ _ = _ |- _ => unfold Seat.player_sit_down, seat_status in H end.
  inv_ok. match goal with H : print_literal _ _ = _ |- _ => by apply print_literal_Ok in H end.
Qed.

(** A user who has come in and left again leaves an object that sits nowhere. *)
Lemma deserted_visitor uid d d1 :
  deserted (view d) -> add_player uid true d = Some d1 ->
  forall d2, view d2 = view d1 -> deserted (view (destroy_player uid d2)).
Proof.
  intros Hd Hadd d2 Hv2. pose proof (deserted_outside d uid Hd) as Hout.
  destruct (add_player_inv _ _ _ _ (deserted_inv _ Hd) Hadd) as (Hinv1 & _).
  unfold add_player in Hadd. rewrite decide_False in Hadd by done. injection Hadd as <-.
  set (d1 := put_player _ _ _) in *.
  assert (m_seats d2 = m_seats d) as Hseats by (change (v_seats (view d2) = m_seats d); by rewrite Hv2).
  split.
  - apply destroy_player_inv; [by rewrite Hv2|]. rewrite Hseats. by apply deserted_unseated.
  - change (v_room (view d2) ∖ {[uid]} = ∅). rewrite Hv2.
    change (({[uid]} ∪ v_room (view d)) ∖ {[uid]} = ∅). rewrite (deserted_room _ Hd).
    clear. set_solver.
  - change (in_round GAME_UNREADY (v_status (view d2))). rewrite Hv2. apply Hd.
  - intros s Hs. change (s ∈ m_seats d2) in Hs. rewrite Hseats in Hs. by apply (deserted_seats _ Hd).
Qed.

Lemma enter_deserted uid name made d d' :
  ~ served -> deserted (view d) -> on_apply_enter_room room uid name made d = Ok d' -> deserted (view d').
Proof.
  intros Hno Hd. pose proof (deserted_find d uid Hd) as Hf. unfold on_apply_enter_room. rewrite Hf.
  unfold log_value. destruct (_ <=? _) eqn:Hlog; [done|]. apply Z.leb_gt in Hlog.
  assert (~ 0 <= m_room_id room <= 7) as Hroom by (intros ?; by apply Hno).
  cbn [mbind outcome_bind mret outcome_ret]. unfold on_new_player_enter.
  pose proof (fun d1 => deserted_visitor uid d d1 Hd) as Hvisit.
  destruct made; [|unfold add_player; rewrite decide_False by (by apply deserted_outside); by intros [= <-]].
  destruct (add_player uid true d) as [d1|] eqn:Hadd; [|by intros [= <-]]. specialize (Hvisit d1 eq_refl).
  intros E. apply bind_Ok in E as (p & Hp & E). cbn zeta in E.
  unfold get_player in Hp. apply deref_Ok in Hp.
  set (d2 := put_player uid (p <| m_player_name := name |>) d1) in *.
  assert (view d2 = view d1) as Hv2 by by apply (view_put_player uid p).
  destruct (get_idle_seat_number d2 =? -1) eqn:Hidle.
  { injection E as <-. by apply (Hvisit (reply GG_ERROR_HAVE_NO_SEAT d2)). }
  apply bind_Ok in E as ([r d3] & Hbuy & E).
  destruct (desk_buy_in_returns room d2 uid) as ([r' d3'] & Hbuy' & Hv3 & _).
  { unfold d2. simpl. by rewrite lookup_insert_eq. }
  rewrite Hbuy in Hbuy'. injection Hbuy' as <- <-. cbn [snd] in Hv3.
  destruct (r =? -1).
  { injection E as <-. apply (Hvisit (reply GG_ERROR_USER_BUY_IN_FAILED d3)).
    change (view d3 = view d1). by rewrite Hv3. }
  apply bind_Ok in E as ([n d4] & Hsit & E). apply sit_down_fails in Hsit as ->; [|done].
  apply bind_Ok in E as (u & Ha & _). apply assert_that_Ok, Z.eqb_eq in Ha.
  apply Z.eqb_neq in Hidle. congruence.
Qed.

(** ** Everything else *)

Lemma handle_msg_deserted r d d' :
  ~ served -> deserted (view d) ->
  handle_msg room iv ROOM_IDLE ROOM_PLAYING ROOM_END1 r d = Ok d' -> deserted (view d').
Proof.
  intros Hno Hd. pose proof (fun uid => deserted_find d uid Hd) as Hf.
  destruct r; cbn [handle_msg]; [by apply enter_deserted|..];
    unfold on_apply_seat, on_apply_exit, on_apply_standup, on_apply_dig_card, on_apply_post_card, on_apply_drop,
      on_apply_declare, on_apply_lose_declare, on_apply_trustee_off, on_apply_close_account_box,
      on_apply_flush_room, on_apply_room_status, on_apply_chat, on_apply_face_show, on_apply_use_props,
      on_apply_present_gift, on_apply_present_gift_newinter, on_apply_present_chips, on_apply_transmit_message,
      with_player, with_reply, without_return;
    try rewrite Hf; cbn zeta; try (by intros [= <-]); try done.
  destruct (negb _); by intros [= <-].
Qed.

Lemma check_player_chips_deserted d : deserted (view d) -> check_player_chips room iv ROOM_IDLE d = Ok d.
Proof.
  intros Hd. unfold check_player_chips, for_seats.
  assert (forall l, (forall i, i ∈ l -> (i < length (m_seats d))%nat) ->
    mfold (fun d i => s ← access (m_seats d !! i);
      match m_player s with
      | None => mret d
      | Some uid =>
          p ← get_player uid d;
          let '(b, p, money) := check_chips_carry (get_sitdown_buyin_count room) p (m_money d) in
          let d := put_player uid p (d <| m_money := money |>) in
          if negb b then
            '(_, d) ← player_stand_up room iv ROOM_IDLE uid NO_MORE_CHIPS d;
            mret (destroy_player uid d)
          else mret d
      end) d l = Ok d) as Hloop.
  { induction l as [|i l IH]; intros Hl; [done|]. cbn [mfold].
    destruct (lookup_lt_is_Some_2 (m_seats d) i) as [s Hs]; [apply Hl; left|].
    rewrite Hs. cbn [access mbind outcome_bind].
    rewrite (deserted_seats _ Hd s) by by eapply list_elem_of_lookup_2.
    cbn [mret outcome_ret]. apply IH. intros j Hj. apply Hl. by right. }
  apply Hloop. intros i Hi%elem_of_seq. lia.
Qed.

Lemma timeout_deserted file err d d' :
  deserted (view d) ->
  on_wait_round_timeout room iv ROOM_IDLE ROOM_PLAYING false file err d = Ok d' -> deserted (view d').
Proof.
  intros Hd. unfold on_wait_round_timeout. destruct err; cbn [negb]; [by intros [= <-]|].
  unfold step_new_round. pose proof Hd as [Hinv Hroom Hst Hseats].
  destruct (in_round_now GAME_UNREADY (m_game_status d) Hst) as [Hnow Hclear]; [by_decision|].
  change (m_game_status (d <| m_wait_ms := None |>)) with (m_game_status d). rewrite Hnow.
  change (GAME_UNREADY =? GAME_UNREADY) with true. cbn iota. rewrite Hclear.
  set (d1 := set_game_status _ _).
  assert (deserted (view d1)) as Hd1.
  { destruct Hinv as (Hc & Hb & r & Hr & Hph). split; [|done|by left|done]. split_and!.
    - apply (core_same _ _ Hc); try done. apply Hc.
    - by destruct Hb.
    - exists GAME_UNREADY. split; [by left|]. apply (phase_same (view d)); [|done..].
      replace GAME_UNREADY with r; [done|].
      assert (has (m_game_status d) GAME_UNREADY = true) as Hhas.
      { rewrite (in_round_cases GAME_UNREADY) by (done || by_decision). done. }
      rewrite (in_round_cases r) in Hhas; [|done|by eapply phase_round|by_decision].
      by apply bool_decide_eq_true in Hhas. }
  unfold step_unready. rewrite check_player_chips_deserted by done. cbn [mbind outcome_bind].
  assert (is_game_can_start d1 = false) as ->; [|by intros [= <-]].
  unfold is_game_can_start, get_seated_count.
  assert (filter (fun s => is_seated s = true) (m_seats d1) = []) as ->; [|done].
  destruct (filter (fun s => is_seated s = true) (m_seats d1)) as [|s l] eqn:Ef; [done|]. exfalso.
  assert (s ∈ filter (fun s => is_seated s = true) (m_seats d1)) as [E Hs]%list_elem_of_filter by (rewrite Ef; left).
  destruct (list_elem_of_lookup_1 _ _ Hs) as [i Hi].
  pose proof (deserted_inv _ Hd1) as (Hc & _).
  rewrite (proj1 (linked_empty _ _ (core_linked _ Hc) i s Hi (Hseats s Hs))) in E. done.
Qed.

Lemma sweep_deserted online d d' :
  deserted (view d) -> check_player_online room iv ROOM_IDLE online d = Ok d' -> deserted (view d').
Proof.
  intros Hd. unfold check_player_online.
  assert (m_all_player d = ∅) as -> by exact (deserted_room _ Hd). rewrite elements_empty. by intros [= <-].
Qed.

Lemma new_desk_deserted dealer money (gen : G) now :
  inv (view (new_desk (M := M) dealer money gen now)) -> deserted (view (new_desk (M := M) dealer money gen now)).
Proof.
  intros Hinv. split; [done|done|by left|]. intros s. cbn. rewrite !elem_of_cons.
  intros [->|[->|[->|[->|[->|Hs]]]]]; [done..|by apply elem_of_nil in Hs].
Qed.
End deserted.
