(* ===== verification/Sample.v ===== *)
(** * A sample server

    Concrete parameters: a bank that grants every buy-in and takes what a loser
    has to pay, a generator that deals the shoe in order, and an empty desk with
    the shoe [init_cards] makes of it.  The witnesses and the findings are runs of this server. *)
From Stdlib Require Import ZArith Lia String.
From stdpp Require Import base tactics numbers sorting option gmap strings list.
From S2P Require Import Prelude Cards Dealer Player Seat Desk Play Round Room.

(** The bank keeps no books: users always have a thousand chips more. *)
Definition bank : MoneyService unit := {|
  deal_lose_account := fun m uid carry buyin lose => (Some (carry - lose, 1000, lose), m);
  get_money := fun m uid => (Some (Some 1000, None), m);
  game_buy_chips_in := fun m uid count min => (Some (count, 1000), m);
  game_add_carry := fun m uid carry need => (true, m);
  game_bet_chips := fun m uid chips => (None, m);
  game_leave_account := fun m uid carry => m;
  match_over_money := fun m uid account chips => m
|}.

Definition sample_room : RoomInfo := mkRoom 1 1 100 1000 5 0 2 1 5 0 0.
Definition sample_interval : TimeInterval := default_interval.

(** A generator that always draws the last card, with [seed] cards left: a shuffle
    turns the shoe round, and a deal gives the shoe in the order of [deck]. *)
Definition descending : RandGen Z := {|
  srand := fun seed => Z.of_nat CARD_COUNT;
  rand := fun g => (g - 1, if g =? 1 then Z.of_nat CARD_COUNT else g - 1)
|}.

Definition sample_dealer : CardDealer := mkDealer deck deck.

Lemma rank_twice : @rank_times Z descending 2 sample_dealer 108 = Ok (sample_dealer, 108).
Proof. vm_compute. reflexivity. Qed.

Lemma rank_even n : @rank_times Z descending (2 * n) sample_dealer 108 = Ok (sample_dealer, 108).
Proof.
  induction n as [|n IH]; [done|]. replace (2 * S n)%nat with (2 + 2 * n)%nat by lia.
  pose proof rank_twice as E. cbn [rank_times Nat.add] in *.
  destruct (@rand_rank_cards Z descending sample_dealer 108) as [[d g]|f]; [|done].
  cbn [mbind outcome_bind] in *.
  destruct (@rand_rank_cards Z descending d g) as [[d' g']|f]; [|done].
  cbn [mbind outcome_bind mret outcome_ret] in *. injection E as -> ->. exact IH.
Qed.

Lemma sample_dealer_state : @dealer_state Z descending sample_dealer.
Proof.
  apply (@dealer_init Z descending 108 sample_dealer 108). unfold init_cards.
  rewrite write_deck. cbn [mbind outcome_bind].
  replace (Z.to_nat 1000) with (2 * 500)%nat by lia. apply rank_even.
Qed.

Definition sample_desk : GameDesk unit Z := new_desk sample_dealer tt 108 1000.
