(* ===== verification/Reach.v ===== *)
(** * The server's life

    One desk of a room receives the requests of its clients, the expiry of its
    timer and the sweep of the room, in any order and at any time.  [handle] is
    one such step, [reachable] the desks it can lead to; every reachable desk
    keeps the table invariant and no legal input makes the server fail. *)
From Stdlib Require Import ZArith Lia String.
From stdpp Require Import base tactics numbers sorting option gmap strings sets list.
From S2P Require Import Prelude Cards Dealer Straight Declare Search Found Hand.
From S2P Require Import Player Seat Desk Play Round Room Table Protocol Settle Seating Between Scan Turn.
From S2P Require Import DigPost Dropping Declaring Dealing Requests Sweep Deserted Sample.

(** What the event loop delivers. *)
Inductive Input : Type :=
  | Received (r : Request)
  | TimedOut (err : bool)
  | Swept (manager_online : Z -> bool)
  | Clock (now : Z).

#[export] Instance forall_some_dec {A} (o : option A) (P : A -> Prop) `{forall a, Decision (P a)} :
  Decision (forall a, o = Some a -> P a).
Proof.
  destruct o as [a|]; [|by left].
  destruct (decide (P a)) as [Hp|Hn]; [left; by intros ? [= <-]|right; auto].
Defined.

(** The branch of [step_new_round] for a known round. *)
Ltac at_round :=
  repeat match goal with |- context [?a =? ?b] =>
    change (a =? b) with true || change (a =? b) with false end; cbn iota.

Section reach.
Context {M G : Type} `{MoneyService M} `{RandGen G} `{!Logging}.
Variables (room : RoomInfo) (iv : TimeInterval) (ROOM_IDLE ROOM_PLAYING ROOM_END1 : Z).
Abbreviation desk := (GameDesk M G).
Implicit Type d : desk.

Definition handle (i : Input) d : outcome desk :=
  match i with
  | Received r => handle_msg room iv ROOM_IDLE ROOM_PLAYING ROOM_END1 r d
  | TimedOut err => on_wait_round_timeout room iv ROOM_IDLE ROOM_PLAYING false None err d
  | Swept manager_online => check_player_online room iv ROOM_IDLE manager_online d
  | Clock now => mret (d <| m_now := now |>)
  end.

Definition acceptable (i : Input) d : Prop :=
  match i with Received r => legal r d | _ => True end.

#[export] Instance legal_dec r d : Decision (legal r d).
Proof. destruct r; simpl; apply _. Defined.

#[export] Instance acceptable_dec i d : Decision (acceptable i d).
Proof. destruct i; simpl; apply _. Defined.

Inductive reachable : desk -> Prop :=
  | reach_init dealer money gen now :
      dealer_state dealer -> reachable (new_desk dealer money gen now)
  | reach_step i d d' :
      reachable d -> acceptable i d -> handle i d = Ok d' -> reachable d'.

(** A run of the server that stops at the first input it need not accept. *)
Fixpoint run (inputs : list Input) d : option (outcome desk) :=
  match inputs with
  | [] => Some (Ok d)
  | i :: inputs' =>
      if decide (acceptable i d) then
        match handle i d with Ok d' => run inputs' d' | Fault f => Some (Fault f) end
      else None
  end.

Lemma run_reachable inputs d d' : reachable d -> run inputs d = Some (Ok d') -> reachable d'.
Proof.
  revert d; induction inputs as [|i inputs IH]; intros d Hr; cbn [run]; [by intros [= <-]|].
  destruct (decide (acceptable i d)) as [Ha|]; [|done]. destruct (handle i d) as [d1|f] eqn:E; [|done].
  apply IH. by eapply reach_step.
Qed.

Lemma run_replicate_S n d d1 :
  handle (TimedOut false) d = Ok d1 ->
  run (replicate (S n) (TimedOut false)) d = run (replicate n (TimedOut false)) d1.
Proof.
  intros E. cbn [replicate run]. destruct (decide _) as [_|Hn]; [by rewrite E|by destruct Hn].
Qed.

(** *** The timer *)

Hypothesis small_blind_nonneg : 0 <= m_small_blind room.

(** The status loses its waiting bit before the round is dispatched. *)
Lemma unwaited_view d r :
  in_round r (m_game_status d) -> r ∈ rounds ->
  view (set_game_status (Z.land (m_game_status d) (Z.lnot GAME_WAIT_MASK)) d) =
    (view d) <| v_status := r |>.
Proof. intros Hr Hin. destruct (in_round_now _ _ Hr Hin) as [_ E]. unfold set_game_status. by rewrite E. Qed.

(** The timer has fired. *)
Definition fired d : desk := d <| m_wait_ms := None |>.

Lemma unwaited_inv d r :
  inv (view d) -> in_round r (m_game_status d) -> r ∈ rounds -> phase (view d) r ->
  inv (view (set_game_status (Z.land (m_game_status d) (Z.lnot GAME_WAIT_MASK)) d)).
Proof.
  intros (Hc & Hb & _) Hr Hin Hph. rewrite (unwaited_view d r) by done. split_and!.
  - apply (core_same _ _ Hc); try done. apply Hc.
  - by destruct Hb.
  - exists r. split; [by left|]. by eapply phase_same.
Qed.

(** The round that the timer ends, and the desk its step starts from. *)
Lemma timed_out_round file d :
  inv (view d) ->
  exists r d1, step_new_round room iv ROOM_IDLE ROOM_PLAYING false file d =
      (if r =? GAME_UNREADY then step_unready room iv ROOM_IDLE d1
       else if r =? GAME_WAIT_PLAYING then step_playing_begin room iv ROOM_IDLE ROOM_PLAYING false file d1
       else if r =? GAME_DEALER_CARD then active_player room iv ROOM_IDLE 0 d1
       else if r =? GAME_ACTIVE1 then step_active1_timeout room iv ROOM_IDLE d1
       else if r =? GAME_ACTIVE2 then step_rand2_timeout room iv ROOM_IDLE d1
       else if r =? GAME_DECLARE then step_declare_timeout room iv d1
       else if r =? GAME_SHUFFLE_CARD then active_player room iv ROOM_IDLE 0 d1
       else if r =? GAME_DISTRIBUTE then ready_for_next_game room iv ROOM_IDLE d1
       else mret d1) /\
    in_round r (m_game_status d) /\ r ∈ rounds /\ inv (view d1) /\ m_game_status d1 = r /\
    phase (view d1) r /\ view d1 = (view d) <| v_status := r |> /\ drawn_out d1 = drawn_out d.
Proof.
  intros Hinv. pose proof Hinv as (_ & _ & r & Hr & Hph). simpl in Hr.
  assert (r ∈ rounds) as Hin by by eapply phase_round.
  pose proof (unwaited_view d r Hr Hin) as Hv.
  destruct (in_round_now _ _ Hr Hin) as [E _].
  exists r, (set_game_status (Z.land (m_game_status d) (Z.lnot GAME_WAIT_MASK)) d).
  split; [unfold step_new_round; by rewrite E|]. split_and!; [done|done| | | |done|done].
  - by apply (unwaited_inv d r).
  - change (v_status (view (set_game_status (Z.land (m_game_status d) (Z.lnot GAME_WAIT_MASK)) d)) = r).
    by rewrite Hv.
  - rewrite Hv. by eapply phase_same.
Qed.

(** A spectator does not see the waiting bit. *)
Lemma unwaited_spectate d d1 r :
  in_round r (m_game_status d) -> r ∈ rounds -> view d1 = (view d) <| v_status := r |> ->
  spectate (view d1) = spectate (view d).
Proof.
  intros Hr Hin Hv. unfold spectate. rewrite (over_status_round r (v_status (view d))) by done.
  rewrite Hv. rewrite (over_status_round r) by (done || by left). simpl.
  destruct (in_round_now _ _ Hr Hin) as [-> _].
  by destruct (in_round_now r r (or_introl eq_refl) Hin) as [-> _].
Qed.

Lemma between_now d r :
  inv (view d) -> m_game_status d = r -> r ∈ between_rounds -> between d.
Proof.
  intros Hinv Hs Hin. apply inv_is_game_over; [done|]. unfold is_game_over.
  rewrite (is_game_over_between r); [by apply bool_decide_eq_true_2|by left|by apply between_round_in].
Qed.

(** ** A room that can be entered *)

Section served_room.
Context `{!PrintableRoom room} `{!QuietLog}.

(** Every round ends well when its time is over. *)
Lemma step_new_round_goes_on file d :
  inv (view d) ->
  returns (step_new_round room iv ROOM_IDLE ROOM_PLAYING false file d) (fun d' => goes_on (view d) (view d')).
Proof.
  intros Hinv. destruct (timed_out_round file d Hinv) as (r & d1 & -> & Hr & Hin & Hinv1 & Hs1 & Hph1 & Hv1 & _).
  pose proof (between_now d1 r Hinv1 Hs1) as Hbt. pose proof Hinv1 as (Hc1 & Hb1 & _).
  assert (in_round r (m_game_status d1)) as Hr1 by by left.
  assert (has (m_game_status d1) r = true) as Hhas.
  { rewrite (in_round_cases r) by done. by apply bool_decide_eq_true_2. }
  eapply returns_mono; [|intros d'; by apply goes_on_from, (unwaited_spectate d d1 r)]. clear Hr Hv1 Hinv.
  unfold rounds in Hin.
  repeat (apply elem_of_cons in Hin as [->|Hin]); [..|by apply elem_of_nil in Hin]; at_round.
  - eapply returns_mono; [apply (step_unready_returns room), Hbt; by_decision|].
    intros d'. apply between_goes_on.
  - apply (step_playing_begin_goes_on room), Hbt. by_decision.
  - apply (active_player_goes_on room iv ROOM_IDLE 0 d1 GAME_DEALER_CARD); [|done|by_decision].
    eapply phase_turning; [done..|by_decision].
  - by apply step_active1_timeout_goes_on.
  - by apply step_rand2_timeout_goes_on.
  - destruct (inv_declaring d1 Hinv1 Hhas) as (a & Ha & Hn).
    eapply returns_mono; [by eapply step_declare_timeout_returns|]. intros d' Hd'.
    apply goes_on_over; [apply (settled_inv a); by right|by apply all_declared_spectate].
  - eapply returns_mono; [apply (ready_for_next_game_returns room), Hbt; by_decision|].
    intros d'. apply between_goes_on.
  - apply (active_player_goes_on room iv ROOM_IDLE 0 d1 GAME_SHUFFLE_CARD); [|done|by_decision].
    eapply phase_turning; [done..|by_decision].
Qed.

Lemma step_new_round_returns file d :
  inv (view d) ->
  returns (step_new_round room iv ROOM_IDLE ROOM_PLAYING false file d) (fun d' => inv (view d')).
Proof.
  intros Hinv. eapply returns_mono; [by apply step_new_round_goes_on|]. by intros d' [? _].
Qed.

Lemma handle_returns i d :
  inv (view d) -> acceptable i d -> returns (handle i d) (fun d' => goes_on (view d) (view d')).
Proof.
  intros Hinv Ha. destruct i as [r|err|online|now]; cbn [handle].
  - by apply handle_msg_returns.
  - unfold on_wait_round_timeout. destruct err; cbn [negb]; [by apply returns_ret, goes_on_refl|].
    by apply (step_new_round_goes_on None (fired d)).
  - by apply check_player_online_returns.
  - by apply returns_ret, goes_on_refl.
Qed.

End served_room.

(** *** The initial desk *)

Lemma new_seats_lookup i s :
  ((fun i => new_seat <| m_seat_number := Z.of_nat i |>) <$> seq 0 m_max_seat_num) !! i = Some s ->
  s = new_seat <| m_seat_number := Z.of_nat i |>.
Proof.
  rewrite list_lookup_fmap. intros (k & Hk & ->)%fmap_Some. by apply lookup_seq in Hk as [-> _].
Qed.

Lemma new_desk_inv dealer money gen now :
  dealer_state dealer -> inv (view (new_desk (M := M) (G := G) dealer money gen now)).
Proof.
  intros Hd. set (d := new_desk dealer money gen now).
  assert (forall s, s ∈ v_seats (view d) -> exists i, s = new_seat <| m_seat_number := Z.of_nat i |>) as Hs.
  { intros s [i Hi]%list_elem_of_lookup. exists i. by apply new_seats_lookup. }
  split_and!; [split| |].
  - done.
  - split.
    + intros i s Hi. by rewrite (new_seats_lookup i s Hi).
    + intros i s Hi _. by rewrite (new_seats_lookup i s Hi).
    + intros i s uid Hi. by rewrite (new_seats_lookup i s Hi).
    + intros uid id o Hl. change (links (∅ : gmap Z Player) !! uid = Some (id, o)) in Hl.
      by rewrite links_lookup, lookup_empty in Hl.
  - split; [by intros uid Hu%elem_of_empty|]. intros i s uid Hi. by rewrite (new_seats_lookup i s Hi).
  - by apply dealer_state_full.
  - simpl. lia.
  - apply submseteq_nil_l.
  - intros s [i ->]%Hs. set_solver.
  - intros s [i ->]%Hs. done.
  - split; [done| |]; intros s [i ->]%Hs; done.
  - exists GAME_UNREADY. split; [by left|]. apply phase_unready. split; try done.
    by intros s [i ->]%Hs.
Qed.

(** ** What always holds *)

Lemma served_room : served room -> PrintableRoom room /\ QuietLog.
Proof. intros [? ?]. split; by split. Qed.

Lemma handle_deserted i d d' :
  ~ served room -> deserted (view d) -> handle i d = Ok d' -> deserted (view d').
Proof.
  intros Hno Hd. destruct i as [r|err|online|now]; cbn [handle].
  - by apply handle_msg_deserted.
  - by apply timeout_deserted.
  - by apply sweep_deserted.
  - by intros [= <-].
Qed.

(** A reachable desk keeps the invariant; where nobody can enter it stays deserted. *)
Lemma reachable_cases d : reachable d -> inv (view d) /\ (served room \/ deserted (view d)).
Proof.
  induction 1 as [dealer money gen now Hd|i d d' _ [Hinv IH] Ha E].
  { pose proof (new_desk_inv dealer money gen now Hd) as Hinv. split; [done|right].
    by apply new_desk_deserted. }
  destruct (decide (served room)) as [Hs|Hno].
  - destruct (served_room Hs) as [? ?]. destruct (handle_returns i d Hinv Ha) as (d1 & E1 & Hinv1 & _).
    rewrite E in E1. injection E1 as <-. by split; [|left].
  - destruct IH as [?|Hd]; [done|]. pose proof (handle_deserted i d d' Hno Hd E) as Hd'.
    split; [apply Hd'|by right].
Qed.

Lemma reachable_inv d : reachable d -> inv (view d).
Proof. intros Hr. by apply reachable_cases. Qed.

(** What an input does to a reachable desk, if it does not fail. *)
Lemma reachable_goes_on i d d' :
  reachable d -> acceptable i d -> handle i d = Ok d' -> goes_on (view d) (view d').
Proof.
  intros Hr Ha E. destruct (reachable_cases d Hr) as [Hinv Hcase].
  destruct (decide (served room)) as [Hs|Hno].
  - destruct (served_room Hs) as [? ?]. destruct (handle_returns i d Hinv Ha) as (d1 & E1 & Hgo).
    rewrite E in E1. by injection E1 as <-.
  - destruct Hcase as [?|Hd]; [done|]. pose proof (handle_deserted i d d' Hno Hd E) as Hd'.
    apply goes_on_over; [apply Hd'|by apply deserted_spectate].
Qed.

(** Somebody is in the game only where users can enter. *)
Lemma reachable_served d : reachable d -> is_game_over d = false -> served room.
Proof.
  intros Hr Ho. destruct (reachable_cases d Hr) as [_ [?|Hd]]; [done|exfalso].
  unfold is_game_over in Ho. change (m_game_status d) with (v_status (view d)) in Ho.
  rewrite (is_game_over_between GAME_UNREADY) in Ho; [done|apply Hd|by_decision].
Qed.

Lemma in_round_has r status r' :
  in_round r status -> r ∈ rounds -> r' ∈ rounds -> has status r' = true -> r = r'.
Proof.
  intros Hr Hin Hin' Hhas. rewrite (in_round_cases r) in Hhas by done. by apply bool_decide_eq_true in Hhas.
Qed.

Lemma in_round_self r status : in_round r status -> r ∈ rounds -> has status r = true.
Proof. intros Hr Hin. rewrite (in_round_cases r) by done. by apply bool_decide_eq_true_2. Qed.

(** ** The timer of a game *)

Section served_timer.
Context `{!PrintableRoom room}.

(** A declaration that nobody answers ends the game. *)
Lemma declare_timeout_returns file d :
  inv (view d) -> is_declareing d = true ->
  returns (step_new_round room iv ROOM_IDLE ROOM_PLAYING false file d) all_declared.
Proof.
  intros Hinv Hd. destruct (timed_out_round file d Hinv) as (r & d1 & -> & Hr & Hin & Hinv1 & Hs1 & _).
  assert (r = GAME_DECLARE) as ->.
  { apply (in_round_has r (m_game_status d)); [done..|by_decision|done]. }
  at_round.
  destruct (inv_declaring d1 Hinv1) as (a & Ha & Hn).
  { unfold is_declareing. by rewrite Hs1. }
  by eapply step_declare_timeout_returns.
Qed.

(** Past its time a game ends with the next turn. *)
Lemma drawn_timeout_returns file d :
  inv (view d) -> drawn_out d = true -> is_wait_active2 d = false ->
  returns (step_new_round room iv ROOM_IDLE ROOM_PLAYING false file d) (fun d' =>
    is_game_over d = false -> is_game_over d' = true).
Proof.
  intros Hinv Hdr H2.
  destruct (timed_out_round file d Hinv) as (r & d1 & E & Hr & Hin & Hinv1 & Hs1 & Hph1 & Hv1 & Hdr1).
  pose proof (step_new_round_returns file d Hinv) as Hany.
  destruct (is_game_over d) eqn:Ho; [by eapply returns_mono; [exact Hany|]|].
  destruct (is_declareing d) eqn:Hde.
  { eapply returns_mono; [by apply declare_timeout_returns|]. intros d' (_ & _ & _ & Hr' & _) _.
    unfold is_game_over. rewrite (is_game_over_between GAME_DISTRIBUTE); [done..|by_decision]. }
  rewrite E. pose proof Hinv1 as (Hc1 & Hb1 & _). rewrite <- Hdr1 in Hdr.
  assert (turning d1 -> returns (active_player room iv ROOM_IDLE 0 d1) (fun d' =>
    false = false -> is_game_over d' = true)) as Hend.
  { intros Ht. eapply returns_mono; [by apply active_player_returns|]. intros d'. unfold turned. rewrite Hdr.
    by intros Hbt%between_is_game_over. }
  assert (in_round r (m_game_status d1)) as Hr1 by by left.
  assert (r ∉ between_rounds) as Hnb.
  { unfold is_game_over in Ho. rewrite (is_game_over_between r) in Ho by done.
    by apply bool_decide_eq_false in Ho. }
  unfold is_wait_active2 in H2. unfold is_declareing in Hde. unfold between_rounds in Hnb.
  rewrite (in_round_cases r) in H2, Hde by (done || by_decision).
  apply bool_decide_eq_false in H2, Hde. clear E Hv1 Hany Hr Hinv.
  unfold rounds in Hin.
  repeat (apply elem_of_cons in Hin as [->|Hin]); [..|by apply elem_of_nil in Hin];
    try (exfalso; clear -Hnb H2 Hde; set_solver);
    at_round.
  - apply Hend. eapply phase_turning; [done..|by_decision].
  - eapply returns_mono; [apply (step_active1_timeout_returns room); [done|]|].
    + unfold is_wait_active1. by rewrite Hs1.
    + intros d' [_ Hd']. unfold turned in Hd'. rewrite Hdr in Hd'. by apply between_is_game_over in Hd'.
  - apply Hend. eapply phase_turning; [done..|by_decision].
Qed.

(** While a card is to be posted, the game ends now or after a reshuffle. *)
Lemma drawn_post_returns file d :
  inv (view d) -> drawn_out d = true -> is_wait_active2 d = true ->
  returns (step_new_round room iv ROOM_IDLE ROOM_PLAYING false file d) (fun d' =>
    is_game_over d' = true \/
    inv (view d') /\ drawn_out d' = true /\ in_round GAME_SHUFFLE_CARD (m_game_status d')).
Proof.
  intros Hinv Hdr H2. destruct (timed_out_round file d Hinv)
    as (r & d1 & -> & Hr & Hin & Hinv1 & Hs1 & _ & _ & Hdr1).
  assert (r = GAME_ACTIVE2) as ->.
  { apply (in_round_has r (m_game_status d)); [done..|apply in_rounds_active2|done]. }
  at_round. eapply returns_mono; [apply (step_rand2_timeout_returns room); [done|]|].
  { unfold is_wait_active2. by rewrite Hs1. }
  intros d' (i & s & d2 & _ & Hposts & Hpass).
  assert (inv (view d')) as Hinv' by (eapply turn_passed_inv; [by eapply posts_state|done]).
  destruct Hposts as (_ & _ & Hdr2 & _). unfold turn_passed, turned in Hpass. destruct (_ =? 1).
  - right. destruct Hpass as (moved & _ & Hv & Hdr3). split_and!; [done|congruence|].
    change (m_game_status d') with (v_status (view d')). rewrite Hv. by right.
  - left. rewrite Hdr2, Hdr1, Hdr in Hpass. by apply between_is_game_over.
Qed.

End served_timer.

(** ** What a reachable desk promises *)



(** C5: No card is ever in two places: the hands, the bottom and the pool are
    together a part of the shoe of 108 cards; a hand is empty or has thirteen or
    fourteen cards; and between two games no card is out. *)
Theorem cards_conserved d :
  reachable d ->
  hands (m_seats d) ++ m_bottom_cards d ++ m_pokercard_pool d ⊆+ deck /\
  (forall s, s ∈ m_seats d -> length (m_handcards_total s) ∈ [0; 13; 14]%nat) /\
  (is_game_over d = true -> hands (m_seats d) ++ m_bottom_cards d ++ m_pokercard_pool d = []).
Proof.
  intros Hr%reachable_inv. pose proof Hr as (Hc & _). split_and!.
  - exact (core_cards _ Hc).
  - exact (core_sizes _ Hc).
  - intros Ho. destruct (inv_is_game_over d Hr Ho) as (_ & _ & Hover & _).
    assert (m_bottom_cards d = []) as -> by exact (over_bottom _ Hover).
    assert (m_pokercard_pool d = []) as -> by exact (over_pool _ Hover).
    rewrite app_nil_r. apply hands_nil. intros s Hs. by destruct (over_seat_clear _ Hover s Hs) as (? & ? & ?).
Qed.

(** C6: Seats and players agree: a seat's player is a user of the room whose object
    points back to the seat, and a player object points to a seat that has him;
    an empty seat is neither seated nor in the game. *)
Theorem seats_consistent d :
  reachable d ->
  (forall i s uid, m_seats d !! i = Some s -> m_player s = Some uid ->
    uid ∈ m_all_player d /\ is_seated s = true /\
    exists p, m_objects d !! uid = Some p /\ m_player_id p = uid /\ m_pGameSeat p = Some i) /\
  (forall uid p i, m_objects d !! uid = Some p -> m_pGameSeat p = Some i ->
    exists s, m_seats d !! i = Some s /\ m_player s = Some uid) /\
  (forall i s, m_seats d !! i = Some s -> m_player s = None ->
    is_seated s = false /\ is_in_game s = false).
Proof.
  intros (Hc & _)%reachable_inv. pose proof (core_linked _ Hc) as Hl. split_and!.
  - intros i s uid Hi Hu. split; [by apply (room_seated _ _ _ (core_room _ Hc) i s)|].
    split; [by destruct (linked_seat _ _ Hl i s uid Hi Hu)|].
    by destruct (player_of_seat _ _ _ _ Hl Hi Hu) as (p & Hp & Hid & Hs); exists p.
  - intros uid p i Hp Hs. destruct (seat_of_player _ _ _ _ Hl Hp Hs) as (_ & s & Hi & Hu). by exists s.
  - exact (linked_empty _ _ Hl).
Qed.

(** The desk is in exactly one round. *)
Theorem one_round d :
  reachable d ->
  exists r, r ∈ rounds /\ in_round r (m_game_status d) /\
    forall r', r' ∈ rounds -> has (m_game_status d) r' = bool_decide (r = r').
Proof.
  intros (_ & _ & r & Hr & Hph)%reachable_inv. pose proof (phase_round _ _ Hph) as Hin.
  exists r. split_and!; [done..|]. by apply in_round_cases.
Qed.

(** C7: On a desk that was reached by legal inputs only a turn can be played: the active
    seat is in the game against another one, holds thirteen cards before he digs and
    fourteen before he posts, and there is a card to dig.  (Drops that are not legal,
    which the code accepts, can use up the bottom or the pool:
    [Findings.bottom_runs_out_fails], [Findings.drop_after_pool_dig_fails].) *)
Theorem turn_playable d :
  reachable d -> is_wait_active d = true ->
  exists i s, m_active_seatnum d = Z.of_nat i /\ m_seats d !! i = Some s /\ is_in_game s = true /\
    (2 <= get_ingame_count d) /\
    (is_wait_active1 d = true -> length (m_handcards_total s) = 13%nat /\
      m_bottom_cards d <> [] /\ m_pokercard_pool d <> []) /\
    (is_wait_active2 d = true -> length (m_handcards_total s) = 14%nat /\
      m_dig_card s ∈ m_handcards_total s).
Proof.
  intros Hr%reachable_inv Ha. pose proof Hr as (Hc & _ & r & Hst & Hph). simpl in Hst.
  pose proof (phase_round _ _ Hph) as Hin. rewrite get_ingame_count_of.
  unfold is_wait_active, is_wait_active1, is_wait_active2 in *.
  rewrite !(in_round_cases r) in * by (done || by_decision).
  inversion Hph as [| | | |Ht (Hs1 & Hs2 & _) (i & s & Hai & Hi & Hg)| |i s Ht Hai Hi Hg Hlen Hdig Hb1 _|];
    subst; try done; simpl in *; exists i, s; (split_and!; [done..| | |]).
  - pose proof (turns_count _ _ Ht). simpl in *. lia.
  - intros _. split_and!.
    + eapply (turns_hands _ _ Ht); [done..|lia].
    + intros E. rewrite E in Hs1. simpl in Hs1. lia.
    + intros E. rewrite E in Hs2. simpl in Hs2. lia.
  - done.
  - pose proof (turns_count _ _ Ht). simpl in *. lia.
  - done.
  - by intros _.
Qed.

(** C9: On a desk that was reached by legal inputs only, when nobody answers a
    declaration, the time-out declares for everybody and the game is settled: all accounts
    closed, no chips left in the pool.  (When the one who has won has also declared as a
    loser and stood up, which is not legal but which the code accepts, the time-out fails:
    [Findings.declarer_gone_fails].) *)
Theorem declare_timeout_ends_game d :
  reachable d -> is_declareing d = true ->
  exists d', handle (TimedOut false) d = Ok d' /\ reachable d' /\ is_distribut d' = true /\
    m_chips_pool d' = 0 /\
    forall j t, m_seats d' !! j = Some t -> is_in_game t = true -> is_declared t = true.
Proof.
  intros Hr Hd. pose proof (reachable_inv d Hr) as Hinv.
  assert (is_game_over d = false) as Hplays.
  { destruct (is_game_over d) eqn:Ho; [|done]. destruct (inv_is_game_over d Hinv Ho) as (_ & _ & _ & r & Hr' & Hst).
    unfold is_declareing in Hd. rewrite (in_round_cases r) in Hd by (by_decision || by apply between_round_in).
    apply bool_decide_eq_true in Hd. subst r. unfold between_rounds in Hr'. clear -Hr'. set_solver. }
  destruct (served_room (reachable_served d Hr Hplays)) as [Hprint _].
  destruct (declare_timeout_returns None (fired d) Hinv Hd)
    as (d' & E & (_ & _ & Ho & Hr' & Hall)).
  exists d'. split_and!; [exact E| | |exact (over_chips _ Ho)|done].
  - by eapply (reach_step (TimedOut false)).
  - unfold is_distribut. apply in_round_self; [done|]. by_decision.
Qed.

(** C8: On a desk that was reached by legal inputs only a game ends: once its longest time
    is over, at most two time-outs away, whatever round it is in.  (After a declaration
    as a loser by the one who has won, which is not legal but which the code accepts, the
    time-out can fail: [Findings.declarer_gone_fails].) *)
Theorem overlong_game_ends d :
  reachable d -> drawn_out d = true ->
  exists n d', (n <= 2)%nat /\ run (replicate n (TimedOut false)) d = Some (Ok d') /\
    reachable d' /\ is_game_over d' = true.
Proof.
  intros Hr Hdr. pose proof (reachable_inv d Hr) as Hinv.
  destruct (is_game_over d) eqn:Ho; [exists 0%nat, d; by split_and!; [lia|..]|].
  destruct (served_room (reachable_served d Hr Ho)) as [Hprint _].
  assert (forall d d', reachable d -> handle (TimedOut false) d = Ok d' -> reachable d') as Hstep.
  { intros e e' He E. by eapply (reach_step (TimedOut false)). }
  assert (forall d, reachable d -> drawn_out d = true -> is_wait_active2 d = false ->
    is_game_over d = false -> exists d', handle (TimedOut false) d = Ok d' /\
      reachable d' /\ is_game_over d' = true) as Hone.
  { intros e He Hde Hae Hoe.
    destruct (drawn_timeout_returns None (fired e) (reachable_inv e He) Hde Hae)
      as (d' & E & Hov). exists d'. split_and!; [exact E|by eapply Hstep|by apply Hov]. }
  destruct (is_wait_active2 d) eqn:H2.
  - destruct (drawn_post_returns None (fired d) Hinv Hdr H2) as (d1 & E1 & [Hov|Hsh]).
    + exists 1%nat, d1. split_and!; [lia| |by eapply Hstep|done].
      by rewrite (run_replicate_S 0 d d1 E1).
    + destruct Hsh as (Hinv1 & Hdr1 & Hr1).
      assert (forall r, r ∈ rounds -> has (m_game_status d1) r = bool_decide (GAME_SHUFFLE_CARD = r)) as Hbits.
      { apply in_round_cases; [done|]. by_decision. }
      destruct (Hone d1) as (d2 & E2 & Hr2 & Ho2); [by eapply Hstep|done|..].
      * apply Hbits, in_rounds_active2.
      * unfold is_game_over. rewrite !Hbits by by_decision. done.
      * exists 2%nat, d2. split_and!; [lia| |done..].
        by rewrite (run_replicate_S 1 d d1 E1), (run_replicate_S 0 d1 d2 E2).
  - destruct (Hone d Hr Hdr H2 Ho) as (d1 & E1 & Hr1 & Ho1).
    exists 1%nat, d1. split_and!; [lia| |done..]. by rewrite (run_replicate_S 0 d d1 E1).
Qed.
End reach.

(** ** Runs of the sample server *)

Abbreviation sample_state := (GameDesk unit Z).

(** The sample server logs from the level INFO on. *)
Definition sample_logging : Logging := 2.

#[export] Instance sample_quiet : @QuietLog sample_logging.
Proof. by split. Qed.

#[export] Instance sample_printable : PrintableRoom sample_room.
Proof. split. cbn. lia. Qed.

Definition sample_run (inputs : list Input) : option (outcome sample_state) :=
  @run unit Z bank descending sample_logging sample_room sample_interval 0 1 2 inputs sample_desk.

Definition sample_reachable : sample_state -> Prop :=
  @reachable unit Z bank descending sample_logging sample_room sample_interval 0 1 2.

Definition sample_handle : Input -> sample_state -> outcome sample_state :=
  @handle unit Z bank descending sample_logging sample_room sample_interval 0 1 2.

(** The run ends well, in a state that passes the test. *)
Definition plays_to (test : sample_state -> bool) (inputs : list Input) : bool :=
  match sample_run inputs with Some (Ok d) => test d | _ => false end.

Lemma plays_to_reachable test inputs :
  plays_to test inputs = true -> exists d, sample_reachable d /\ test d = true.
Proof.
  unfold plays_to. destruct (sample_run inputs) as [[d|]|] eqn:E; [|done..].
  intros Ht. exists d. split; [|done]. eapply run_reachable; [|exact E].
  apply reach_init, sample_dealer_state.
Qed.

(** Two users enter, the desk waits for the game and deals. *)
Definition opening : list Input :=
  [Received (ApplyEnterRoom 1 "a" true); Received (ApplyEnterRoom 2 "b" true);
   TimedOut false; TimedOut false; TimedOut false].

Definition enter (uid : Z) : Input := Received (ApplyEnterRoom uid "a" true).
Definition dig_pool (uid : Z) : Input := Received (ApplyDigCard uid DIG_POOL).
Definition dig_bottom (uid : Z) : Input := Received (ApplyDigCard uid DIG_BOTTOM).

(** Three users play; the third has the first turn, and the hearts from two to
    eight. *)
Definition three_players : list Input :=
  [enter 1; enter 2; enter 3; TimedOut false; TimedOut false; TimedOut false].

Definition heart (point : Z) : MsgCard := mkMsgCard point PokerColor.hearts.

(** The second one has the turn, and spades from the eight to the ace. *)
Definition spade (point : Z) : MsgCard := mkMsgCard point PokerColor.spades.

Definition two_straights : list PB_CardGroup :=
  [mkPbGroup GroupType.GROUP_STAIGHT (spade <$> [8; 9; 10; 11; 12; 13; 14]);
   mkPbGroup GroupType.GROUP_STAIGHT (spade <$> [9; 10; 11; 12; 13; 14])].

Definition dig : Input := Received (ApplyDigCard 2 DIG_POOL).

Definition declaration : Input :=
  Received (ApplyDeclare 2 (mkMsgCard 2 PokerColor.hearts) two_straights).



Lemma cards_conserved_witness :
  exists d, sample_reachable d /\ is_wait_active2 d = true /\
    hands (m_seats d) ++ m_bottom_cards d ++ m_pokercard_pool d ⊆+ deck.
Proof.
  destruct (plays_to_reachable is_wait_active2 (opening ++ [dig])) as (d & Hr & Ht); [by vm_compute|].
  exists d. split_and!; [exact Hr|done|].
  apply (@cards_conserved unit Z bank descending sample_logging sample_room sample_interval 0 1 2 ltac:(done) d Hr).
Defined.

Lemma seats_consistent_witness :
  exists d, sample_reachable d /\ bool_decide ((m_seats d !! 1%nat) ≫= m_player = Some 2) = true /\
    exists p, m_objects d !! 2 = Some p /\ m_player_id p = 2 /\ m_pGameSeat p = Some 1%nat.
Proof.
  destruct (plays_to_reachable (fun d => bool_decide ((m_seats d !! 1%nat) ≫= m_player = Some 2)) opening)
    as (d & Hr & Ht); [by vm_compute|].
  exists d. split_and!; [exact Hr|done|].
  apply bool_decide_eq_true in Ht. destruct (m_seats d !! 1%nat) as [s|] eqn:Hs; [|done].
  by destruct (@seats_consistent unit Z bank descending sample_logging sample_room sample_interval 0 1 2 ltac:(done) d Hr)
    as (H1 & _); destruct (H1 1%nat s 2 Hs Ht) as (_ & _ & H2).
Defined.

Lemma one_round_witness :
  exists d, sample_reachable d /\ is_wait_active2 d = true /\
    exists r, r ∈ rounds /\ in_round r (m_game_status d).
Proof.
  destruct (plays_to_reachable is_wait_active2 (opening ++ [dig])) as (d & Hr & Ht); [by vm_compute|].
  exists d. split_and!; [exact Hr|done|].
  destruct (@one_round unit Z bank descending sample_logging sample_room sample_interval 0 1 2 ltac:(done) d Hr)
    as (r & H1 & H2 & _). by exists r.
Defined.

Lemma turn_playable_witness :
  exists d, sample_reachable d /\ is_wait_active d = true /\
    exists i s, m_active_seatnum d = Z.of_nat i /\ m_seats d !! i = Some s /\ is_in_game s = true.
Proof.
  destruct (plays_to_reachable is_wait_active opening) as (d & Hr & Ht); [by vm_compute|].
  exists d. split_and!; [exact Hr|done|].
  destruct (@turn_playable unit Z bank descending sample_logging sample_room sample_interval 0 1 2 ltac:(done) d Hr Ht)
    as (i & s & H1 & H2 & H3 & _). by exists i, s.
Defined.

Lemma declare_timeout_ends_game_witness :
  exists d, sample_reachable d /\ is_declareing d = true /\
    exists d', sample_handle (TimedOut false) d = Ok d' /\ is_distribut d' = true.
Proof.
  destruct (plays_to_reachable is_declareing (opening ++ [dig; declaration])) as (d & Hr & Ht);
    [by vm_compute|].
  exists d. split_and!; [exact Hr|done|].
  destruct (@declare_timeout_ends_game unit Z bank descending sample_logging sample_room sample_interval 0 1 2
    ltac:(done) d Hr Ht) as (d' & H1 & _ & H2 & _). by exists d'.
Defined.

Lemma overlong_game_ends_witness :
  exists d, sample_reachable d /\ is_wait_active2 d && drawn_out d = true /\
    exists n d', (n <= 2)%nat /\
      @run unit Z bank descending sample_logging sample_room sample_interval 0 1 2 (replicate n (TimedOut false)) d =
        Some (Ok d') /\ is_game_over d' = true.
Proof.
  destruct (plays_to_reachable (fun d => is_wait_active2 d && drawn_out d)
    (opening ++ [dig; Clock 5000])) as (d & Hr & Ht); [by vm_compute|].
  exists d. split_and!; [exact Hr|done|]. apply andb_true_iff in Ht as [_ Ht].
  destruct (@overlong_game_ends unit Z bank descending sample_logging sample_room sample_interval 0 1 2
    ltac:(done) d Hr Ht) as (n & d' & H1 & H2 & _ & H3). by exists n, d'.
Defined.
