(* ===== verification/Refinement.v ===== *)
(** * The desk refines the protocol of the table

    Whatever the clients send, a spectator of the desk sees rummy being played by
    the rules of Protocol.v: every input is at most one move. *)
From Stdlib Require Import ZArith Lia String.
From stdpp Require Import base tactics numbers sorting option gmap strings sets list relations.
From S2P Require Import Prelude Cards Dealer Straight Declare Search Found Hand.
From S2P Require Import Player Seat Desk Play Round Room Table Protocol Settle Seating Between Scan Turn.
From S2P Require Import DigPost Dropping Declaring Dealing Requests Sweep Sample Reach.

Section refinement.
Context {M G : Type} `{MoneyService M} `{RandGen G} `{!Logging}.
Variables (room : RoomInfo) (iv : TimeInterval) (ROOM_IDLE ROOM_PLAYING ROOM_END1 : Z).
Abbreviation desk := (GameDesk M G).
Implicit Type d : desk.
Hypothesis small_blind_nonneg : 0 <= m_small_blind room.

Lemma follows_rtc p p' : follows p p' -> rtc protocol p p'.
Proof. intros [->|Hm]; [done|by apply rtc_once]. Qed.

Lemma run_rtc inputs d d' :
  reachable room iv ROOM_IDLE ROOM_PLAYING ROOM_END1 d -> run room iv ROOM_IDLE ROOM_PLAYING ROOM_END1 inputs d = Some (Ok d') ->
  rtc protocol (spectate (view d)) (spectate (view d')).
Proof.
  revert d; induction inputs as [|i inputs IH]; intros d Hr; cbn [run]; [by intros [= <-]|].
  destruct (decide _) as [Ha|]; [|done]. destruct (handle _ _ _ _ _ i d) as [d1|] eqn:E; [|done].
  intros Hrun. destruct (reachable_goes_on _ _ _ _ _ small_blind_nonneg i d d1 Hr Ha E) as [_ Hf].
  etrans; [by apply follows_rtc|]. apply IH; [|done]. by eapply reach_step.
Qed.

(** C2: The desk refines the protocol of the table: a legal input, whoever sent it
    and whenever it arrives, changes what a spectator sees by at most one move of
    the rules - a deal, the next player's turn, a dig, a post that passes the turn
    on, a reshuffle, a drop, a declaration, a loser's declaration or the end. *)
Theorem desk_refines_protocol i d d' :
  reachable room iv ROOM_IDLE ROOM_PLAYING ROOM_END1 d ->
  acceptable i d -> handle room iv ROOM_IDLE ROOM_PLAYING ROOM_END1 i d = Ok d' ->
  spectate (view d') = spectate (view d) \/ protocol (spectate (view d)) (spectate (view d')).
Proof.
  intros Hr Ha E. by destruct (reachable_goes_on _ _ _ _ _ small_blind_nonneg i d d' Hr Ha E) as [_ Hf].
Qed.

(** C3: A desk that gets only legal inputs lives a run of the protocol: from the empty
    desk any sequence of them that is handled leads, in the eyes of a spectator, along
    moves of the rules only.  The inputs that are not [legal], with which a client can
    make a move outside of the rules ([Findings.declarer_pays_himself]), stop the
    [run] of the statement. *)
Theorem runs_follow_protocol inputs dealer money gen now d :
  dealer_state dealer ->
  run room iv ROOM_IDLE ROOM_PLAYING ROOM_END1 inputs (new_desk dealer money gen now) = Some (Ok d) ->
  rtc protocol Idle (spectate (view d)).
Proof.
  intros Hd Hrun. apply (run_rtc inputs (new_desk dealer money gen now)); [|done].
  by apply reach_init.
Qed.
End refinement.

(** A dig is seen as the move of a dig. *)
Lemma desk_refines_protocol_witness :
  exists d d', sample_reachable d /\ acceptable dig d /\ sample_handle dig d = Ok d' /\
    is_wait_active1 d = true /\ is_wait_active2 d' = true /\
    (spectate (view d') = spectate (view d) \/ protocol (spectate (view d)) (spectate (view d'))).
Proof.
  destruct (plays_to_reachable (fun d => is_wait_active1 d &&
    match sample_handle dig d with Ok d' => is_wait_active2 d' | _ => false end) opening) as (d & Hr & Ht);
    [by vm_compute|].
  apply andb_true_iff in Ht as [H1 H2]. destruct (sample_handle dig d) as [d'|] eqn:E; [|done].
  exists d, d'. split_and!; [exact Hr|done|exact E|done|done|].
  exact (@desk_refines_protocol unit Z bank descending sample_logging sample_room sample_interval 0 1 2 ltac:(done)
    dig d d' Hr I E).
Defined.

Lemma runs_follow_protocol_witness :
  exists d, sample_run (opening ++ [dig; declaration]) = Some (Ok d) /\ is_declareing d = true /\
    rtc protocol Idle (spectate (view d)).
Proof.
  assert (plays_to is_declareing (opening ++ [dig; declaration]) = true) as Ht by by vm_compute.
  unfold plays_to in Ht. destruct (sample_run (opening ++ [dig; declaration])) as [[d|]|] eqn:E; [|done..].
  exists d. split_and!; [done|done|].
  eapply (@runs_follow_protocol unit Z bank descending sample_logging sample_room sample_interval 0 1 2 ltac:(done));
    [apply sample_dealer_state|exact E].
Defined.
