(* ===== verification/Told.v ===== *)
(** * What clients are told

    Confidentiality: [mask uid] turns over the cards that the user must not see, and
    the messages to him are the same with and without it. *)
From Stdlib Require Import ZArith Lia String.
From stdpp Require Import base tactics numbers sorting option gmap strings sets list.
From S2P Require Import Prelude Cards Dealer Straight Declare Search Found Hand.
From S2P Require Import Player Seat Desk Snapshot Play Round Room Table Protocol Settle Scan Secrecy.
From S2P Require Import DigPost Requests Sample Reach.

(** ** What a player must not see *)

Definition hide (cards : list PokerCard) : list PokerCard := (fun _ => default_card) <$> cards.

(** The seat as [uid] may see it: his own as it is; another one with the hand and the
    card dug turned over, and without the arrangement of the hand unless the player
    has laid it down, that is has dropped out or declared. *)
Definition mask_seat (uid : Z) (s : GameSeat) : GameSeat :=
  if bool_decide (m_player s = Some uid) then s
  else s <| m_handcards_total ::= hide |> <| m_dig_card := default_card |>
         <| seat_card_group ::= fun groups => if laid_down s then groups else [] |>.

Section told.
Context {M G : Type}.
Variables (room : RoomInfo) (iv : TimeInterval).
Abbreviation desk := (GameDesk M G).
Implicit Type d : desk.

(** The hands of the others and the bottom cards, turned over. *)
Definition mask (uid : Z) d : desk :=
  d <| m_seats ::= fmap (mask_seat uid) |> <| m_bottom_cards ::= hide |>.

Lemma mask_seat_same uid s :
  m_player (mask_seat uid s) = m_player s /\ m_seat_number (mask_seat uid s) = m_seat_number s /\
  m_seat_stauts (mask_seat uid s) = m_seat_stauts s /\ seat_score (mask_seat uid s) = seat_score s /\
  m_ingame_player_id (mask_seat uid s) = m_ingame_player_id s /\
  length (m_handcards_total (mask_seat uid s)) = length (m_handcards_total s).
Proof. unfold mask_seat. case_bool_decide; [done|]. split_and!; try done. apply length_fmap. Qed.

Lemma mask_seat_group uid s : concealed s -> seat_card_group (mask_seat uid s) = seat_card_group s.
Proof.
  intros Hc. unfold mask_seat. case_bool_decide; [done|]. simpl. destruct (laid_down s) eqn:E; [done|].
  symmetry. by apply Hc.
Qed.

Lemma mask_seats uid d : m_seats (mask uid d) = mask_seat uid <$> m_seats d.
Proof. done. Qed.

Lemma mask_seat_at uid n d : seat_at n (mask uid d) = mask_seat uid <$> seat_at n d.
Proof.
  unfold seat_at. destruct (0 <=? n); [|done]. rewrite mask_seats, list_lookup_fmap.
  by destruct (m_seats d !! Z.to_nat n).
Qed.

Lemma mask_filter uid (test : GameSeat -> bool) (seats : list GameSeat) :
  (forall s, test (mask_seat uid s) = test s) ->
  filter (fun s => test s = true) (mask_seat uid <$> seats) =
  mask_seat uid <$> filter (fun s => test s = true) seats.
Proof.
  intros Ht. induction seats as [|s seats IH]; [done|]. cbn [fmap list_fmap]. rewrite !filter_cons, Ht.
  destruct (decide (test s = true)); [|exact IH]. cbn [fmap list_fmap]. f_equal. exact IH.
Qed.

Lemma mask_status uid bit s : has (m_seat_stauts (mask_seat uid s)) bit = has (m_seat_stauts s) bit.
Proof. by destruct (mask_seat_same uid s) as (_ & _ & -> & _). Qed.

Lemma mask_joined uid d : get_joingame_player (mask uid d) = get_joingame_player d.
Proof.
  unfold get_joingame_player. change (is_game_over (mask uid d)) with (is_game_over d).
  destruct (is_game_over d); [done|]. rewrite mask_seats, mask_filter by (intros s; apply mask_status).
  rewrite <- list_fmap_compose. apply list_fmap_ext. intros i s _. unfold compose.
  by destruct (mask_seat_same uid s) as (_ & -> & _ & _ & -> & _).
Qed.

Lemma mask_player_info uid s d :
  concealed s -> player_info (mask_seat uid s) (mask uid d) = player_info s d.
Proof.
  intros Hc. unfold player_info, seat_player, get_seated_player. rewrite mask_seat_group by done.
  destruct (mask_seat_same uid s) as (-> & -> & _ & -> & _ & ->). done.
Qed.

Lemma mask_seat_player uid d :
  all_concealed (m_seats d) -> get_seat_player (mask uid d) = get_seat_player d.
Proof.
  unfold get_seat_player. rewrite mask_seats. generalize (@nil PlayerInfo) at 2 4.
  induction (m_seats d) as [|s seats IH]; intros l Hc; [done|]. cbn [fmap list_fmap mfold].
  assert (all_concealed seats) as Hrest by (intros t Ht; apply Hc; by right).
  unfold is_seated. rewrite mask_status, mask_player_info by (apply Hc; left).
  destruct (negb _); [by apply IH|]. destruct (player_info s d) as [i|]; [by apply IH|done].
Qed.

Lemma mask_deal_order uid d : get_player_deal_order (mask uid d) = get_player_deal_order d.
Proof.
  unfold get_player_deal_order. change (m_dealer_index (mask uid d)) with (m_dealer_index d).
  generalize (m_dealer_index d) at 2 4. generalize (@nil Z).
  induction m_max_seat_num as [|n IH]; intros order seat; [done|]. cbn [deal_order_loop].
  rewrite mask_seat_at. destruct (seat_at seat d) as [s|]; [|done]. cbn [mbind outcome_bind fmap outcome_fmap].
  unfold is_seated. rewrite mask_status. change (next_seat_number (mask uid d) seat) with (next_seat_number d seat).
  destruct (_ =? _); [done|]. apply IH.
Qed.

Lemma mask_hand uid b p d :
  linked (m_seats d) (links (m_objects d)) -> m_objects d !! uid = Some p ->
  shown_hand b p (mask uid d) = shown_hand b p d.
Proof.
  intros Hl Hp. unfold shown_hand. destruct (m_pGameSeat p) as [i|] eqn:Hi; [|done].
  destruct (seat_of_player d uid p i Hl Hp Hi) as (_ & s & Hs & Hu).
  rewrite mask_seats, list_lookup_fmap, Hs. cbn [fmap option_fmap option_map].
  unfold mask_seat. by rewrite bool_decide_eq_true_2.
Qed.

Lemma mask_flush_room uid p d :
  linked (m_seats d) (links (m_objects d)) -> all_concealed (m_seats d) -> m_objects d !! uid = Some p ->
  flush_room_request room iv p (mask uid d) = flush_room_request room iv p d.
Proof.
  intros Hl Hc Hp. unfold flush_room_request. rewrite (mask_hand uid) by done.
  rewrite mask_seat_player, mask_joined by done.
  change (m_bottom_cards (mask uid d)) with (hide (m_bottom_cards d)). unfold hide. by rewrite length_fmap.
Qed.

Lemma mask_deal_cards uid p d :
  linked (m_seats d) (links (m_objects d)) -> m_objects d !! uid = Some p ->
  send_deal_cards uid (mask uid d) = send_deal_cards uid d.
Proof.
  intros Hl Hp. unfold send_deal_cards.
  change (get_player uid (mask uid d)) with (get_player uid d). unfold get_player. rewrite Hp.
  cbn [deref mbind outcome_bind]. rewrite mask_deal_order, (mask_hand uid) by done.
  change (m_bottom_cards (mask uid d)) with (hide (m_bottom_cards d)). unfold hide. by rewrite length_fmap.
Qed.

(** ** What a client receives *)

Definition received (uid : Z) (e : Event) : list Msg :=
  match e with
  | SendRequests messages => snd <$> filter (fun m => m.1 = uid) messages
  | _ => []
  end.

Definition messages_to (uid : Z) d : list Msg := m_sent d ≫= received uid.







End told.

(** ** What a reachable desk tells *)

Section promises.
Context {M G : Type} `{MoneyService M} `{RandGen G} `{Logging}.
Context (room : RoomInfo).
Variables (iv : TimeInterval) (ROOM_IDLE ROOM_PLAYING ROOM_END1 : Z).
Abbreviation desk := (GameDesk M G).
Implicit Type d : desk.

Hypothesis small_blind_nonneg : 0 <= m_small_blind room.
Abbreviation reachable := (@reachable M G _ _ _ room iv ROOM_IDLE ROOM_PLAYING ROOM_END1).

(** C10: On a desk reached by legal inputs, what a user is told about the table, when
    he enters and when the cards are dealt, depends on no bottom card and on no hand
    but his own, as long as its player has not laid it down: he would be told the same
    if the bottom and all other hands were turned over, with the card dug, and the
    arrangement of each hand taken away that is not laid down.  A player lays his hand
    down when he declares, and also when he drops out, his whole hand then being the
    group of his seat, which everybody is told: [a_dropped_hand_is_shown]. *)
Theorem messages_hide_hands uid d :
  reachable d -> is_Some (m_objects d !! uid) ->
  (exists request, player_flush_room room iv uid d = Ok (send (SendRequests [(uid, FlushRoom request)]) d) /\
     player_flush_room room iv uid (mask uid d) =
       Ok (send (SendRequests [(uid, FlushRoom request)]) (mask uid d))) /\
  send_deal_cards uid (mask uid d) = send_deal_cards uid d.
Proof.
  intros Hr Ho. pose proof (reachable_inv _ _ _ _ _ small_blind_nonneg d Hr) as Hinv.
  pose proof (inv_concealed _ Hinv) as Hall. destruct Hinv as (Hc & _).
  pose proof (core_linked _ Hc) as Hl. pose proof Ho as [p Hp]. split; [|by apply (mask_deal_cards uid p)].
  destruct (player_flush_room_returns room iv uid d Hl Ho) as (d' & E & _). revert E.
  unfold player_flush_room. change (get_player uid (mask uid d)) with (get_player uid d).
  unfold get_player. rewrite Hp. cbn [deref mbind outcome_bind].
  rewrite (mask_flush_room room iv uid p) by done.
  destruct (flush_room_request room iv p d) as [r|]; [|done]. intros _. by exists r.
Qed.

End promises.

Lemma messages_hide_hands_witness :
  exists d, sample_reachable d /\ is_wait_active d = true /\
    send_deal_cards 1 (mask 1 d) = send_deal_cards 1 d.
Proof.
  destruct (plays_to_reachable (fun d => is_wait_active d && bool_decide (is_Some (m_objects d !! 1))) opening)
    as (d & Hr & Ht); [by vm_compute|].
  apply andb_true_iff in Ht as [Ha Ho%bool_decide_eq_true].
  exists d. split_and!; [exact Hr|done|].
  apply (@messages_hide_hands unit Z bank descending sample_logging sample_room sample_interval 0 1 2 ltac:(done) 1 d Hr Ho).
Defined.

(** Three users play, and the second drops out before his turn: whoever then asks for
    the table is shown his thirteen cards. *)
Example a_dropped_hand_is_shown :
  plays_to (fun d =>
    match m_seats d !! 1%nat, player_flush_room sample_room sample_interval 1 d with
    | Some s, Ok d1 =>
        match last (messages_to 1 d1) with
        | Some (FlushRoom request) =>
            is_drop s && is_wait_active d &&
            existsb (fun i => (i_id i =? 2) && bool_decide (length (i_cardgroup i ≫= pb_cards) = 13%nat))
              (f_player request)
        | _ => false
        end
    | _, _ => false
    end) (three_players ++ [Received (ApplyDrop 2)]) = true.
Proof. by vm_compute. Qed.

(** Both clients have asked for the table, so that they receive what is broadcast. *)
Definition watched : list Input :=
  opening ++ [Received (ApplyFlushRoom 1); Received (ApplyFlushRoom 2)].

(** The run in which the second player digs from the bottom: what he gets and what
    the first one gets. *)
Example a_bottom_card_is_shown_to_its_digger :
  plays_to (fun d =>
    match player_dig_card sample_interval 2 DIG_BOTTOM d, m_bottom_cards d with
    | Ok d1, bottom :: _ =>
        match last (messages_to 1 d1), last (messages_to 2 d1) with
        | Some (PlayerDigCard _ other _), Some (PlayerDigCard _ own _) =>
            bool_decide (other = mkCard 0 0) && bool_decide (own = bottom) && bool_decide (own <> other)
        | _, _ => false
        end
    | _, _ => false
    end) watched = true.
Proof. by vm_compute. Qed.

