(* ===== verification/Results.v ===== *)
(** * The results of a game

    At the end of a game the server submits a result for every player who joined
    it ([submit_game_result]).  The results add up: what the losers have paid is
    what the winner gets, less the tips of the house. *)
From Stdlib Require Import ZArith Lia String.
From stdpp Require Import base tactics numbers sorting option gmap strings sets list.
From S2P Require Import Prelude Cards Dealer Straight Declare Search Found Hand.
From S2P Require Import Player Seat Desk Snapshot Play Round Room Table Protocol Settle.
From S2P Require Import Turn Dropping Declaring Requests Sample Reach.

Section results.
Context {M G : Type} `{MoneyService M} `{RandGen G}.
Context (room : RoomInfo) `{!PrintableRoom room}.
Variables (iv : TimeInterval) (ROOM_IDLE : Z).
Abbreviation desk := (GameDesk M G).
Implicit Type d : desk.

(** What the results are made of. *)
Definition entry (s : GameSeat) : Z * bool * Z :=
  (m_ingame_player_id s, is_player_joined s, m_match_over_account_chips s).

(** The desk has sent nothing, and its accounts have not changed. *)
Definition quiet d d' : Prop :=
  entry <$> m_seats d' = entry <$> m_seats d /\ m_sent d' = m_sent d.

#[local] Instance quiet_refl : Reflexive quiet.
Proof. by split. Qed.

#[local] Instance quiet_trans : Transitive quiet.
Proof. intros d1 d2 d3 [] []. split; congruence. Qed.






(** *** The sum of the results *)




















(** A desk at which a game may end: the table is well formed, the pool holds what the
    accounts lack, and the winner, if there is one, is in the game. *)
Record settling d : Prop := mkSettling {
  settling_core : core (view d);
  settling_balanced : balanced (view d);
  settling_status : statused (view d);
  settling_winner : m_apply_declare_seatnum d = -1 \/
    exists i s, m_apply_declare_seatnum d = Z.of_nat i /\ m_seats d !! i = Some s /\ is_in_game s = true
}.




(** *** The desks on which a game ends

    [step_gameover_distrbute] has three callers, and each calls it on a desk that
    satisfies [settling]: [active_player] when the time for the game is over, so that
    nobody wins; the two declarations of a loser when nobody but the declarer is left in
    the game; and [step_player_drop] when one player is left. *)

Lemma drawn_settles d d1 :
  turning d -> deduct_draw_tips room (notify_room_status ROOM_IDLE d) = Ok d1 -> settling d1.
Proof.
  intros (Hc & Hb & Hst & Ht & _) E.
  destruct (deduct_draw_tips_returns room (notify_room_status ROOM_IDLE d) Hc) as (d' & E' & Hv).
  rewrite E in E'. injection E' as <-. change (view (notify_room_status ROOM_IDLE d)) with (view d) in Hv.
  split; rewrite ?Hv; [done..|]. left. change (v_apply (view d1) = -1). rewrite Hv. exact (turns_apply _ _ Ht).
Qed.

Lemma declared_settles a d : declaring a d -> settling d.
Proof.
  intros (Hc & Hb & Hr & [Ha (s & Hs & Hg & _) _ _]). split; [done..| |].
  - exists GAME_DECLARE. split; [exact Hr|by_decision].
  - right. by exists a, s.
Qed.

Lemma dropped_settles d d' :
  core (view d) -> balanced (view d) -> statused (view d) -> count_of is_in_game (m_seats d) = 1%nat ->
  drop_over room iv ROOM_IDLE d = Ok d' ->
  exists d1, settling d1 /\ step_gameover_distrbute room iv d1 = Ok d' /\
    m_chips_pool d1 = m_chips_pool d /\ m_apply_declare_seatnum d1 = get_last_ingame_seatnum d.
Proof.
  intros Hc Hb Hst Hcount.
  destruct (last_player_wins d Hc Hb Hcount) as (i & s & s' & Hi & Hs & Hg & E & Hk & Hc' & Hb').
  rewrite (drop_over_eq room iv ROOM_IDLE d i s s' Hi Hs E). intros E'.
  exists (won_by ROOM_IDLE i s' d). split_and!; [|exact E'|done|by rewrite Hi].
  split; [exact Hc'|exact Hb'|exact Hst|]. right. exists i, s'. split_and!; [done| |].
  - apply list_lookup_insert_eq. by eapply lookup_lt_Some.
  - by rewrite (kept_ingame _ _ Hk).
Qed.

End results.


(** Three users play; the third declares, and the first has to pay 62 chips. *)
Definition third_wins : list Input :=
  three_players ++
  [dig_bottom 3;
   Received (ApplyDeclare 3 (heart 9)
     [mkPbGroup GroupType.GROUP_STAIGHT (heart <$> [2; 3; 4; 5; 6; 7; 8]);
      mkPbGroup GroupType.GROUP_STAIGHT (heart <$> [2; 3; 4; 5; 6; 7])]);
   Received (ApplyLoseDeclare 1
     [mkPbGroup GroupType.GROUP_INVALID (spade <$> [2; 2; 3; 3; 4; 4; 5; 5; 6; 6; 7; 7; 8])])].


(** Then the time is over, and the second has to pay one chip: the pool of 63 goes to
    the third but for the tips of 3. *)
Definition last_results (d : sample_state) : list (Z * Z) :=
  foldr (fun e l => match e with
    | SubmitGameResult results => (fun r => (g_userid r, g_chipsincrease r)) <$> results
    | _ => l
    end) [] (m_sent d).

Example the_third_is_paid :
  plays_to (fun d => bool_decide (last_results d = [(1, -62); (2, -1); (3, 60)]))
    (third_wins ++ [TimedOut false]) = true.
Proof. by vm_compute. Qed.

