(* ===== verification/Prepared.v ===== *)
(** * A prepared deal

    [get_card_from_file] arranges the shoe as hand_card_rummy.txt asks: the hands of
    the file first, filled up to thirteen cards, then the named bottom cards, then
    the rest in the order it had. *)
From Stdlib Require Import ZArith Lia String.
From stdpp Require Import base tactics numbers sorting option gmap strings list.
From S2P Require Import Prelude Cards Dealer Straight Declare Hand Player Seat Desk Play Round.

(** The cards of a list of names. *)
Definition named (names : list string) : list PokerCard := parse_string default_card <$> names.

Lemma find_card_Some cards pc c rest :
  find_card cards pc = Some (c, rest) -> c = pc /\ c :: rest ≡ₚ cards.
Proof.
  revert c rest; induction cards as [|it cards IH]; intros c rest; [done|]. cbn [find_card].
  destruct ((m_color it =? m_color pc) && (m_point it =? m_point pc)) eqn:E.
  - intros [= <- <-]. apply card_eqb_eq in E. by subst.
  - destruct (find_card cards pc) as [[c0 rest0]|]; [|done]. intros [= <- <-].
    destruct (IH c0 rest0 eq_refl) as [-> Hp]. split; [done|]. by rewrite <- Hp, Permutation_swap.
Qed.

Lemma take_cards_inr names taken all taken' all' :
  take_cards names taken all = inr (taken', all') ->
  taken' = taken ++ named names /\ named names ++ all' ≡ₚ all.
Proof.
  revert taken all; induction names as [|name names IH]; intros taken all; cbn [take_cards].
  - intros [= <- <-]. by rewrite app_nil_r.
  - destruct (find_card all _) as [[c rest]|] eqn:E; [|done].
    destruct (find_card_Some _ _ _ _ E) as [-> Hp]. intros (-> & Hp')%IH. split.
    + by rewrite <- (assoc_L (++)).
    + simpl. by rewrite Hp', Hp.
Qed.

Lemma take_cards_inl names taken all all' :
  take_cards names taken all = inl all' -> all' ⊆+ all.
Proof.
  revert taken all; induction names as [|name names IH]; intros taken all; cbn [take_cards]; [done|].
  destruct (find_card all _) as [[c rest]|] eqn:E; [|by intros [= <-]].
  destruct (find_card_Some _ _ _ _ E) as [-> Hp]. intros Hs%IH. rewrite Hs, <- Hp.
  by apply submseteq_cons.
Qed.

Lemma take_hands_inr hands taken all taken' all' :
  take_hands hands taken all = inr (taken', all') ->
  taken' = taken ++ ((fun names => named (take 13 names)) <$> hands) /\
  concat ((fun names => named (take 13 names)) <$> hands) ++ all' ≡ₚ all.
Proof.
  revert taken all; induction hands as [|names hands IH]; intros taken all; cbn [take_hands].
  - intros [= <- <-]. by rewrite app_nil_r.
  - destruct (take_cards _ _ all) as [|[cards all1]] eqn:E; [done|].
    destruct (take_cards_inr _ _ _ _ _ E) as [-> Hp]. intros (-> & Hp')%IH. split.
    + by rewrite <- (assoc_L (++)).
    + simpl. by rewrite <- (assoc_L (++)), Hp', Hp.
Qed.

Lemma take_hands_inl hands taken all all' :
  take_hands hands taken all = inl all' -> all' ⊆+ all.
Proof.
  revert taken all; induction hands as [|names hands IH]; intros taken all; cbn [take_hands]; [done|].
  destruct (take_cards _ _ all) as [all1|[cards all1]] eqn:E.
  - intros [= <-]. by eapply take_cards_inl.
  - destruct (take_cards_inr _ _ _ _ _ E) as [-> Hp]. intros ->%IH. rewrite <- Hp.
    by apply submseteq_inserts_l.
Qed.

(** A hand that has been filled up. *)
Definition filled (hand full : list PokerCard) : Prop :=
  hand `prefix_of` full /\ length full = Nat.max 13 (length hand).

Lemma fill_hand_Ok vec all hand vec' all' :
  fill_hand (vec, all) hand = Ok (vec', all') ->
  exists full, filled hand full /\ vec' = vec ++ full /\ full ++ all' ≡ₚ hand ++ all.
Proof.
  unfold fill_hand. set (n := (13 - length hand)%nat).
  destruct (decide (n <= length all)%nat) as [Hle|]; [|done].
  cbn [access mbind outcome_bind mret outcome_ret]. intros [= <- <-].
  exists (hand ++ take n all). split_and!; [split; [by apply prefix_app_r|]|done|].
  - rewrite length_app, length_take. unfold n in *. lia.
  - by rewrite <- (assoc_L (++)), take_drop.
Qed.

Lemma fill_hands hands vec all vec' all' :
  mfold fill_hand (vec, all) hands = Ok (vec', all') ->
  exists fulls, Forall2 filled hands fulls /\ vec' = vec ++ concat fulls /\
    concat fulls ++ all' ≡ₚ concat hands ++ all.
Proof.
  revert vec all; induction hands as [|hand hands IH]; intros vec all; cbn [mfold].
  - intros [= <- <-]. exists []. split_and!; [constructor|by rewrite app_nil_r|done].
  - destruct (fill_hand (vec, all) hand) as [[vec1 all1]|] eqn:E; [|done]. cbn [mbind outcome_bind].
    destruct (fill_hand_Ok _ _ _ _ _ E) as (full & Hf & -> & Hp1).
    intros (fulls & Hall & -> & Hp)%IH. exists (full :: fulls). split_and!.
    + by constructor.
    + simpl. by rewrite <- (assoc_L (++)).
    + simpl. rewrite <- !(assoc_L (++)), Hp, (assoc_L (++)), (Permutation_app_comm full).
      rewrite <- (assoc_L (++)), Hp1. solve_Permutation.
Qed.

(** Every name of the file is a card of the shoe that is still there. *)
Definition all_found (f : CardFile) (all : list PokerCard) : Prop :=
  exists hands all1 bottom all2, take_hands (take 5 (f_cards f)) [] all = inr (hands, all1) /\
    take_cards (f_bottom_cards f) [] all1 = inr (bottom, all2).

(** A prepared deal keeps the shoe together: when every card it names is there,
    the result is a permutation of the shoe that begins with the hands of the
    file, each filled up to thirteen cards, and goes on with the named bottom
    cards. *)
Theorem get_card_from_file_correct f all draw_sec left_count small_blind cards ds lc :
  f_available f = true -> f_small_blind f = [] \/ small_blind ∈ f_small_blind f -> all_found f all ->
  get_card_from_file (Some f) all draw_sec left_count small_blind = Ok (cards, ds, lc) ->
  cards ≡ₚ all /\ ds = default draw_sec (f_draw_sec f) /\ lc = default left_count (f_left_count f) /\
  exists fulls rest, cards = concat fulls ++ named (f_bottom_cards f) ++ rest /\
    Forall2 filled ((fun names => named (take 13 names)) <$> take 5 (f_cards f)) fulls.
Proof.
  intros Ha Hs (hands & all1 & bottom & all2 & E1 & E2). unfold get_card_from_file. rewrite Ha.
  assert (negb (bool_decide (f_small_blind f = [])) && negb (bool_decide (small_blind ∈ f_small_blind f))
    = false) as ->.
  { destruct Hs as [->|Hs]; [done|]. by rewrite (bool_decide_eq_true_2 _ Hs), andb_false_r. }
  cbn [negb]. rewrite E1, E2.
  destruct (take_hands_inr _ _ _ _ _ E1) as [-> Hp1].
  destruct (take_cards_inr _ _ _ _ _ E2) as [-> Hp2]. cbn [app] in *.
  destruct (mfold fill_hand _ _) as [[vec rest]|] eqn:E; [|done].
  cbn [mbind outcome_bind mret outcome_ret]. intros [= <- <- <-].
  destruct (fill_hands _ _ _ _ _ E) as (fulls & Hall & -> & Hp). cbn [app].
  split_and!; [|done..|by exists fulls, rest].
  rewrite <- Hp1, <- Hp2. rewrite (assoc_L (++)), (Permutation_app_comm (concat fulls)), <- (assoc_L (++)), Hp.
  solve_Permutation.
Qed.

(** Two spades for the first hand and the ace of diamonds to be dug first. *)
Definition sample_file : CardFile :=
  mkCardFile true [] None (Some 20) [["1:2"; "1:3"]%string] ["4:14"%string].

Lemma get_card_from_file_correct_witness :
  exists cards, all_found sample_file deck /\
    get_card_from_file (Some sample_file) deck 1200 0 1 = Ok (cards, 1200, 20) /\ cards ≡ₚ deck.
Proof.
  assert (all_found sample_file deck) as Hf by (do 4 eexists; split; vm_compute; reflexivity).
  eexists. split; [exact Hf|]. split; [vm_compute; reflexivity|].
  eapply (get_card_from_file_correct sample_file deck 1200 0 1); [done|by left|exact Hf|].
  vm_compute. reflexivity.
Defined.

(** The named cards are never dealt twice: whatever the file says, the cards that
    are left are cards of the shoe. *)
Lemma get_card_from_file_sub file all draw_sec left_count small_blind cards ds lc :
  get_card_from_file file all draw_sec left_count small_blind = Ok (cards, ds, lc) -> cards ⊆+ all.
Proof.
  unfold get_card_from_file. destruct file as [f|]; [|by intros [= <- _ _]].
  destruct (negb (f_available f)); [by intros [= <- _ _]|].
  destruct (_ && _); [by intros [= <- _ _]|].
  destruct (take_hands _ _ _) as [all1|[hands all1]] eqn:E1; [intros [= <- _ _]; by eapply take_hands_inl|].
  destruct (take_hands_inr _ _ _ _ _ E1) as [-> Hp1].
  destruct (take_cards _ _ _) as [all2|[bottom all2]] eqn:E2.
  - intros [= <- _ _]. rewrite (take_cards_inl _ _ _ _ E2), <- Hp1. by apply submseteq_inserts_l.
  - destruct (take_cards_inr _ _ _ _ _ E2) as [-> Hp2]. cbn [app] in *.
    destruct (mfold fill_hand _ _) as [[vec rest]|] eqn:E; [|done].
    cbn [mbind outcome_bind mret outcome_ret]. intros [= <- <- <-].
    destruct (fill_hands _ _ _ _ _ E) as (fulls & Hall & -> & Hp). cbn [app].
    apply Permutation_submseteq. rewrite <- Hp1, <- Hp2.
    rewrite (assoc_L (++)), (Permutation_app_comm (concat fulls)), <- (assoc_L (++)), Hp.
    solve_Permutation.
Qed.
