(* ===== verification/Moves.v ===== *)
(** * The moves of the game

    What each request and each time-out does to a reachable desk, in terms of
    its view: digging, posting and dropping a card, the reshuffle, the deal, and
    the requests of users who are not in the room. *)
From Stdlib Require Import ZArith Lia String.
From stdpp Require Import base tactics numbers sorting option gmap strings sets list.
From S2P Require Import Prelude Cards Dealer Straight Declare Search Found Hand.
From S2P Require Import Player Seat Desk Play Round Room Table Protocol Settle Seating Between Scan Turn.
From S2P Require Import DigPost Deserted Dropping Declaring Dealing Requests Sweep Sample Reach.

(** The user a request comes from. *)
Definition sender (r : Request) : Z :=
  match r with
  | ApplyEnterRoom uid _ _ | ApplySeat uid _ | ApplyQuitRoom uid | ApplyStandup uid
  | ApplyDigCard uid _ | ApplyPostCard uid _ _ | ApplyDrop uid | ApplyDeclare uid _ _
  | ApplyLoseDeclare uid _ | ApplyTrusteeOff uid | ApplyCloseAccountBox uid | ApplyFlushRoom uid
  | ApplyRoomStatus uid | ApplyChat uid _ _ | ApplyFaceShow uid _ | ApplyUseProps uid _ _
  | ApplyPresentGift uid _ _ | ApplyPresentGiftNewInter uid _ _ _ | ApplyPresentChips uid _ _
  | ApplyTransmitMessage uid _ _ _ _ => uid
  end.

(** The requests of the users who are already in the room. *)
Definition guarded (r : Request) : bool :=
  match r with
  | ApplyEnterRoom _ _ _ | ApplyTrusteeOff _ | ApplyCloseAccountBox _ | ApplyRoomStatus _
  | ApplyTransmitMessage _ _ _ _ _ => false
  | _ => true
  end.

Section moves.
Context {M G : Type} `{MoneyService M} `{RandGen G} `{Logging}.
Variables (room : RoomInfo) (iv : TimeInterval) (ROOM_IDLE ROOM_PLAYING ROOM_END1 : Z).
Abbreviation desk := (GameDesk M G).
Implicit Type d : desk.
Hypothesis small_blind_nonneg : 0 <= m_small_blind room.
Abbreviation reachable := (@reachable M G _ _ _ room iv ROOM_IDLE ROOM_PLAYING ROOM_END1).

(** Where somebody sits, the room can be entered. *)
Lemma sitting_served d i s :
  reachable d -> m_seats d !! i = Some s -> is_Some (m_player s) -> served room.
Proof.
  intros Hr Hi [uid Hu]. destruct (reachable_cases _ _ _ _ _ small_blind_nonneg d Hr) as [_ [?|Hd]]; [done|].
  pose proof (deserted_seats _ Hd s (list_elem_of_lookup_2 _ i _ Hi)). congruence.
Qed.

Lemma placed_served d uid i : reachable d -> place uid d = Some i -> served room.
Proof.
  intros Hr Hpl. pose proof (reachable_inv _ _ _ _ _ small_blind_nonneg d Hr) as (Hc & _).
  unfold place in Hpl. rewrite links_lookup in Hpl. destruct (m_objects d !! uid) as [p|] eqn:Hp; [|done].
  destruct (seat_of_player d uid p i (core_linked _ Hc) Hp Hpl) as (_ & s & Hs & Hu).
  apply (sitting_served d i s Hr Hs). by exists uid.
Qed.

Lemma turn_served d r :
  reachable d -> r ∈ [GAME_ACTIVE1; GAME_ACTIVE2] -> has (m_game_status d) r = true -> served room.
Proof.
  intros Hr Hin Hhas. apply (reachable_served _ _ _ _ _ small_blind_nonneg d Hr).
  pose proof (reachable_inv _ _ _ _ _ small_blind_nonneg d Hr) as (_ & _ & r0 & Hst & Hph).
  assert (r ∈ rounds) as Hrr by (apply list_elem_of_lookup in Hin as [[|[|]] [= <-]]; by_decision).
  rewrite (in_round_has r0 (m_game_status d) r) in Hst; [|done|by eapply phase_round|done|done].
  unfold is_game_over. rewrite (is_game_over_between r) by done.
  by apply list_elem_of_lookup in Hin as [[|[|]] [= <-]].
Qed.

Lemma startable_served d : reachable d -> is_game_can_start d = true -> served room.
Proof.
  intros Hr Hstart. unfold is_game_can_start, get_seated_count in Hstart.
  destruct (filter (fun s => is_seated s = true) (m_seats d)) as [|s l] eqn:E; [done|].
  assert (s ∈ filter (fun s => is_seated s = true) (m_seats d)) as Hin by (rewrite E; left).
  apply list_elem_of_filter in Hin as [Hse [i Hi]%list_elem_of_lookup].
  apply (sitting_served d i s Hr Hi). destruct (m_player s) eqn:Hu; [done|].
  pose proof (reachable_inv _ _ _ _ _ small_blind_nonneg d Hr) as (Hc & _).
  destruct (linked_empty _ _ (core_linked _ Hc) i s Hi Hu). congruence.
Qed.

Lemma reachable_room d uid :
  reachable d -> uid ∈ m_all_player d -> inv (view d) /\ is_Some (m_objects d !! uid).
Proof.
  intros Hr%reachable_inv Hin; [|done]. split; [done|]. by apply room_player.
Qed.

(** A user who is not in the room changes nothing: his request is answered
    with an error, and that reply is the only difference. *)
Theorem stranger_changes_nothing r d :
  guarded r = true -> sender r ∉ m_all_player d ->
  handle_msg room iv ROOM_IDLE ROOM_PLAYING ROOM_END1 r d =
    Ok (reply GG_ERROR_USER_NOT_IN_ROOM d).
Proof.
  intros Hg Hout. assert (find_player (sender r) d = None) as Hf.
  { unfold find_player. by destruct (decide _). }
  destruct r; try done; cbn [sender] in Hf; cbn [handle_msg];
    unfold on_apply_seat, on_apply_exit, on_apply_standup, on_apply_dig_card, on_apply_post_card,
      on_apply_drop, on_apply_declare, on_apply_lose_declare, on_apply_flush_room, on_apply_chat,
      on_apply_face_show, on_apply_use_props, on_apply_present_gift, on_apply_present_gift_newinter,
      on_apply_present_chips, with_player, with_reply; by rewrite Hf.
Qed.

(** Digging moves one card: the front of the bottom cards or the back of the
    pool goes to the hand of the active player, who then has to post; a request
    that is not his to make, or that asks for a joker of the pool, changes no
    card, no seat and no round. *)
Theorem player_dig_card_correct uid digtype d :
  reachable d -> uid ∈ m_all_player d ->
  exists d', player_dig_card iv uid digtype d = Ok d' /\
    ((dig_refused uid digtype d /\ view d' = view d) \/ dug uid digtype d d').
Proof.
  intros Hr Hin. destruct (reachable_room d uid Hr Hin) as [Hinv Ho].
  by destruct (player_dig_card_returns iv uid digtype d Hinv Ho) as (d' & E & Hd'); exists d'.
Qed.

(** Posting moves one card back: the card named leaves the hand of the active
    player for the top of the pool, and then the turn passes, or the bottom is
    refilled, or the game is drawn; any other request changes no card, no seat
    and no round. *)
Theorem player_post_card_correct uid pbcard score d i :
  reachable d -> place uid d = Some i ->
  exists d', player_post_card room iv ROOM_IDLE ROOM_PLAYING ROOM_END1 uid pbcard score d = Ok d' /\
    (view d' = view d \/
     exists j d1 d2, posts j (parse_msg_card pbcard) d d1 /\ turn_passed d1 d2 /\ view d' = view d2).
Proof.
  intros Hr Hpl. pose proof (reachable_inv _ _ _ _ _ small_blind_nonneg d Hr) as Hinv.
  destruct (placed_served d uid i Hr Hpl) as [Hroom _]. apply Build_PrintableRoom in Hroom.
  assert (exists p, m_objects d !! uid = Some p /\ m_pGameSeat p = Some i) as (p & Hp & Hs).
  { unfold place in Hpl. rewrite links_lookup in Hpl.
    destruct (m_objects d !! uid) as [p|] eqn:Hp; [by exists p|done]. }
  destruct (player_post_card_returns room iv ROOM_IDLE ROOM_PLAYING ROOM_END1 uid pbcard score d Hinv)
    as (d' & E & Hd'); [by exists p, i|].
  exists d'. split; [done|]. destruct Hd' as [Hv|(j & d1 & Hpost & d2 & Hpass & Hv)]; [by left|].
  right. by exists j, d1, d2.
Qed.

(** When nobody posts in time, the card dug last is posted. *)
Theorem post_timeout_posts_dug_card d :
  reachable d -> is_wait_active2 d = true ->
  exists d', step_rand2_timeout room iv ROOM_IDLE d = Ok d' /\
    exists i s d1, m_seats d !! i = Some s /\ posts i (m_dig_card s) d d1 /\ turn_passed d1 d'.
Proof.
  intros Hr Hw. pose proof (reachable_inv _ _ _ _ _ small_blind_nonneg d Hr) as Hinv.
  destruct (turn_served d GAME_ACTIVE2 Hr) as [Hroom _]; [by_decision|exact Hw|]. apply Build_PrintableRoom in Hroom.
  by destruct (step_rand2_timeout_returns room iv ROOM_IDLE d Hinv Hw) as (d' & E & Hd'); exists d'.
Qed.

(** When nobody digs in time, the turn passes to the next seat in the game
    and no card moves; past the longest time the game is drawn instead. *)
Theorem dig_timeout_passes_turn d :
  reachable d -> is_wait_active1 d = true ->
  exists d', step_active1_timeout room iv ROOM_IDLE d = Ok d' /\
    if drawn_out d then is_game_over d' = true
    else exists n, turn_to n d /\
      view d' = (view d) <| v_active := n |> <| v_status := Z.lor GAME_WAIT_MASK GAME_ACTIVE1 |>.
Proof.
  intros Hr Hw. pose proof (reachable_inv _ _ _ _ _ small_blind_nonneg d Hr) as Hinv.
  destruct (turn_served d GAME_ACTIVE1 Hr) as [Hroom _]; [by_decision|exact Hw|]. apply Build_PrintableRoom in Hroom.
  destruct (step_active1_timeout_returns room iv ROOM_IDLE d Hinv Hw) as (d' & E & _ & Hd').
  exists d'. split; [done|]. unfold turned in Hd'. destruct (drawn_out d); [by apply between_is_game_over|done].
Qed.

(** Dropping: a player in the game who asks for it leaves it, having paid what
    the money server takes for his score, with the card he has dug given up; the
    last player left wins, and otherwise the turn passes if it was his. *)
Theorem step_player_drop_correct uid p i s d :
  reachable d -> m_objects d !! uid = Some p -> m_pGameSeat p = Some i -> m_seats d !! i = Some s ->
  is_in_game s = true -> is_game_over d || is_game_declare d || is_dealer_card d = false ->
  legal (ApplyDrop uid) d ->
  exists d' s2 real d1, step_player_drop room iv ROOM_IDLE uid d = Ok d' /\
    paid i s s2 real d d1 /\ after_drop p d d1 d'.
Proof.
  intros Hr Hp Hs Hi Hg Hround Hlegal.
  pose proof (reachable_inv _ _ _ _ _ small_blind_nonneg d Hr) as Hinv.
  pose proof Hinv as (Hc & _ & r & Hst & Hph). pose proof (phase_round _ _ Hph) as Hin.
  destruct (placed_served d uid i Hr) as [Hroom _]; [by rewrite (place_player d uid p)|].
  apply Build_PrintableRoom in Hroom.
  destruct (step_player_drop_returns room iv ROOM_IDLE small_blind_nonneg uid p i s r d) as (d' & E & s2 & real & d1 & Hpaid);
    try done; [by apply (turn_rounds_status room small_blind_nonneg d)| |by exists d', s2, real, d1].
  intros H2 Ha. apply (Hlegal H2 i); [by rewrite (place_player d uid p)|].
  by destruct (active_player_seat _ _ _ (core_linked _ Hc) Hp Ha) as (j & t & -> & Hj & _); congruence.
Qed.

(** C37: The reshuffle keeps the two cards on top of the pool and moves the others
    to the bottom, in some order. *)
Theorem step_shuffle_card_correct d :
  (2 <= length (m_pokercard_pool d))%nat ->
  exists d' moved, step_shuffle_card d = Ok d' /\
    m_pokercard_pool d' = drop (length (m_pokercard_pool d) - 2) (m_pokercard_pool d) /\
    length (m_pokercard_pool d') = 2%nat /\
    m_bottom_cards d' = m_bottom_cards d ++ moved /\
    moved ++ m_pokercard_pool d' ≡ₚ m_pokercard_pool d /\
    m_seats d' = m_seats d /\ m_game_status d' = m_game_status d.
Proof.
  intros Hlen. destruct (step_shuffle_card_returns d Hlen) as (d' & E & moved & Hv & Hm & _).
  assert (m_pokercard_pool d' = drop (length (m_pokercard_pool d) - 2) (m_pokercard_pool d)) as Hp
    by (change (v_pool (view d') = drop (length (m_pokercard_pool d) - 2) (m_pokercard_pool d)); by rewrite Hv).
  exists d', moved. split_and!; [done|done|rewrite Hp, length_drop; lia|..].
  - change (v_bottom (view d') = m_bottom_cards d ++ moved). by rewrite Hv.
  - rewrite Hp, Hm. by rewrite take_drop.
  - change (v_seats (view d') = m_seats d). by rewrite Hv.
  - change (v_status (view d') = m_game_status d). by rewrite Hv.
Qed.

(** C36: A new game: when two are seated and the desk is between games, everybody
    seated gets thirteen cards in order, the others none; the joker card, the
    hands, the bottom and one card of the pool are the whole shoe; and the joker
    card is not a printed joker. *)
Theorem start_new_game_correct file d :
  reachable d -> is_game_over d = true -> is_game_can_start d = true ->
  exists d', start_new_game room iv false file d = Ok d' /\
    m_joker_card d' :: hands (m_seats d') ++ m_bottom_cards d' ++ m_pokercard_pool d' ≡ₚ deck /\
    m_point (m_joker_card d') < PokerPoint.JOKER1 /\
    in_round GAME_DEALER_CARD (m_game_status d') /\
    Forall2 (fun s s' => m_player s' = m_player s /\ is_in_game s' = is_seated s /\
      length (m_handcards_total s') = (if is_seated s then 13%nat else 0%nat) /\
      StronglySorted card_le (m_handcards_total s')) (m_seats d) (m_seats d').
Proof.
  intros Hr Hover Hstart. pose proof (reachable_inv _ _ _ _ _ small_blind_nonneg d Hr) as Hinv.
  destruct (startable_served d Hr Hstart) as [Hroom _]. apply Build_PrintableRoom in Hroom.
  destruct (start_new_game_returns room iv file d (inv_is_game_over d Hinv Hover) Hstart)
    as (d' & E & _ & Hcards & Hj & Hround & Hall).
  exists d'. split_and!; [done..|]. eapply Forall2_impl; [exact Hall|].
  intros s s' (s1 & Hready & Hd). pose proof Hready as [Hp _ Hse _ _ _ Hh _ _ _].
  destruct (ready_dealt s s1 s' Hready Hd) as (P & _ & _ & I & _ & _ & _ & _ & L & _).
  split_and!; [done..|]. unfold dealt_seat in Hd. destruct (is_seated s1).
  - destruct Hd as (hand & -> & _). apply sort_cards_sorted.
  - subst s'. rewrite Hh. constructor.
Qed.
End moves.

Lemma stranger_changes_nothing_witness :
  guarded (ApplyDrop 9) = true /\ (9 ∉ m_all_player sample_desk) /\
  @handle_msg unit Z bank descending sample_logging sample_room sample_interval 0 1 2 (ApplyDrop 9) sample_desk =
    Ok (reply GG_ERROR_USER_NOT_IN_ROOM sample_desk).
Proof.
  split_and!; [done|by apply not_elem_of_empty|].
  apply (@stranger_changes_nothing unit Z bank descending sample_logging sample_room sample_interval 0 1 2 (ApplyDrop 9));
    [done|by apply not_elem_of_empty].
Defined.

Lemma player_dig_card_correct_witness :
  exists d, sample_reachable d /\ 2 ∈ m_all_player d /\
    exists d', @player_dig_card unit Z sample_interval 2 DIG_BOTTOM d = Ok d'.
Proof.
  destruct (plays_to_reachable (fun d => bool_decide (2 ∈ m_all_player d)) opening) as (d & Hr & Ht);
    [by vm_compute|]. apply bool_decide_eq_true in Ht. exists d. split_and!; [exact Hr|done|].
  destruct (@player_dig_card_correct unit Z bank descending sample_logging sample_room sample_interval 0 1 2
    ltac:(done) 2 DIG_BOTTOM d Hr Ht) as (d' & E & _). by exists d'.
Defined.

Lemma player_post_card_correct_witness :
  exists d, sample_reachable d /\ place 2 d = Some 1%nat /\
    exists d', @player_post_card unit Z bank descending sample_room sample_interval 0 1 2 2 (spade 8) 0 d = Ok d'.
Proof.
  destruct (plays_to_reachable (fun d => bool_decide (place 2 d = Some 1%nat)) (opening ++ [dig]))
    as (d & Hr & Ht); [by vm_compute|]. apply bool_decide_eq_true in Ht.
  exists d. split_and!; [exact Hr|done|].
  destruct (@player_post_card_correct unit Z bank descending sample_logging sample_room sample_interval 0 1 2
    ltac:(done) 2 (spade 8) 0 d 1 Hr Ht) as (d' & E & _). by exists d'.
Defined.

Lemma post_timeout_posts_dug_card_witness :
  exists d, sample_reachable d /\ is_wait_active2 d = true /\
    exists d', @step_rand2_timeout unit Z bank descending sample_room sample_interval 0 d = Ok d'.
Proof.
  destruct (plays_to_reachable is_wait_active2 (opening ++ [dig])) as (d & Hr & Ht); [by vm_compute|].
  exists d. split_and!; [exact Hr|done|].
  destruct (@post_timeout_posts_dug_card unit Z bank descending sample_logging sample_room sample_interval 0 1 2
    ltac:(done) d Hr Ht) as (d' & E & _). by exists d'.
Defined.

Lemma dig_timeout_passes_turn_witness :
  exists d, sample_reachable d /\ is_wait_active1 d = true /\
    exists d', @step_active1_timeout unit Z bank sample_room sample_interval 0 d = Ok d'.
Proof.
  destruct (plays_to_reachable is_wait_active1 opening) as (d & Hr & Ht); [by vm_compute|].
  exists d. split_and!; [exact Hr|done|].
  destruct (@dig_timeout_passes_turn unit Z bank descending sample_logging sample_room sample_interval 0 1 2
    ltac:(done) d Hr Ht) as (d' & E & _). by exists d'.
Defined.

(** The one who may drop: he has not dug yet. *)
Definition may_leave (d : sample_state) : bool :=
  match m_objects d !! 2, m_seats d !! 1%nat with
  | Some p, Some s => bool_decide (m_pGameSeat p = Some 1%nat) && is_in_game s &&
      negb (is_game_over d || is_game_declare d || is_dealer_card d) && is_wait_active1 d &&
      negb (is_wait_active2 d)
  | _, _ => false
  end.

Lemma step_player_drop_correct_witness :
  exists d p s, sample_reachable d /\ m_objects d !! 2 = Some p /\ m_seats d !! 1%nat = Some s /\
    exists d' s2 real d1, @step_player_drop unit Z bank sample_room sample_interval 0 2 d = Ok d' /\
      paid 1 s s2 real d d1 /\ after_drop p d d1 d'.
Proof.
  destruct (plays_to_reachable may_leave opening) as (d & Hr & Ht); [by vm_compute|].
  unfold may_leave in Ht. destruct (m_objects d !! 2) as [p|] eqn:Hp; [|done].
  destruct (m_seats d !! 1%nat) as [s|] eqn:Hs; [|done].
  apply andb_true_iff in Ht as [[[[Hpl Hg]%andb_true_iff Ho]%andb_true_iff _]%andb_true_iff H2].
  apply bool_decide_eq_true in Hpl. apply negb_true_iff in Ho, H2.
  exists d, p, s. split_and!; [exact Hr|done|done|].
  apply (@step_player_drop_correct unit Z bank descending sample_logging sample_room sample_interval 0 1 2
    ltac:(done) 2 p 1 s d Hr Hp Hpl Hs Hg Ho). intros E. by rewrite H2 in E.
Defined.

Definition full_pool : sample_state := sample_desk <| m_pokercard_pool := deck |>.

Lemma full_pool_two : (2 <= length (m_pokercard_pool full_pool))%nat.
Proof. refine (bool_decide_eq_true_1 _ _). vm_compute. reflexivity. Qed.

Lemma step_shuffle_card_correct_witness :
  (2 <= length (m_pokercard_pool full_pool))%nat /\
  exists d' moved, @step_shuffle_card unit Z descending full_pool = Ok d' /\
    m_bottom_cards d' = m_bottom_cards full_pool ++ moved.
Proof.
  split; [exact full_pool_two|].
  destruct (@step_shuffle_card_correct unit Z descending full_pool full_pool_two)
    as (d' & moved & E & _ & _ & Hb & _).
  exists d', moved. exact (conj E Hb).
Defined.

Lemma start_new_game_correct_witness :
  exists d, sample_reachable d /\ is_game_over d = true /\ is_game_can_start d = true /\
    exists d', @start_new_game unit Z descending sample_room sample_interval false None d = Ok d'.
Proof.
  destruct (plays_to_reachable (fun d => is_game_over d && is_game_can_start d) (take 2 opening))
    as (d & Hr & Ht); [by vm_compute|]. apply andb_true_iff in Ht as [Ho Hc].
  exists d. split_and!; [exact Hr|done|done|].
  destruct (@start_new_game_correct unit Z bank descending sample_logging sample_room sample_interval 0 1 2
    ltac:(done) None d Hr Ho Hc) as (d' & E & _). by exists d'.
Defined.
