(* ===== verification/Findings.v ===== *)
(** * What the server does outside of the guarantees

    [legal] in Requests.v leaves some requests out.  These are runs of the sample
    server, and general statements, that show why: each request is one that any
    client can send, and each fault ends the process or is undefined behaviour. *)
From Stdlib Require Import ZArith Lia String.
From stdpp Require Import base tactics numbers sorting option gmap strings sets list.
From S2P Require Import Prelude Cards Dealer Straight Declare Search Found Hand.
From S2P Require Import Player Seat Desk Play Round Room Table Protocol Settle Seating Between Scan Turn.
From S2P Require Import DigPost Dropping Declaring Dealing Requests Sweep Sample Reach.

(** A run that takes every input. *)
Definition deliver (inputs : list Input) : outcome sample_state :=
  mfold (fun d i => sample_handle i d) sample_desk inputs.

Definition winning : Input :=
  Received (ApplyDeclare 3 (heart 8)
    [mkPbGroup GroupType.GROUP_STAIGHT (heart <$> [2; 3; 4; 5; 6; 7; 8]);
     mkPbGroup GroupType.GROUP_STAIGHT (heart <$> [2; 3; 4; 5; 6; 7])]).

(** The fourteen cards, in groups. *)
Definition losing : Input :=
  Received (ApplyLoseDeclare 3
    [mkPbGroup GroupType.GROUP_STAIGHT (heart <$> [2; 3; 4; 5; 6; 7; 8]);
     mkPbGroup GroupType.GROUP_STAIGHT (heart <$> [2; 3; 4; 5; 6; 7; 8])]).

(** A server that logs everything reads the user who is not there when a new one
    comes in. *)
Theorem debug_log_fails :
  @handle unit Z bank descending LogLevel.debug sample_room sample_interval 0 1 2
    (Received (ApplyEnterRoom 1 "a" true)) sample_desk = Fault OutOfBounds.
Proof. reflexivity. Qed.

(** In a room whose number exceeds the 7 characters of the literal it is added to,
    nobody can be seated. *)
Theorem room_eight_fails :
  @handle unit Z bank descending sample_logging (mkRoom 8 1 100 1000 5 0 2 1 5 0 0) sample_interval 0 1 2
    (Received (ApplyEnterRoom 1 "a" true)) sample_desk = Fault OutOfBounds.
Proof. vm_compute. reflexivity. Qed.

(** The player who digs the only card of the pool and drops takes the card with
    him: the next turn looks at the back of an empty pool. *)
Theorem drop_after_pool_dig_fails :
  deliver (three_players ++ [dig_pool 3; Received (ApplyDrop 3)]) = Fault OutOfBounds.
Proof. vm_compute. reflexivity. Qed.

(** The player who has declared may then declare as a loser and pay for it; he is
    out of the game and may stand up. *)
Theorem declarer_pays_himself :
  exists d, deliver (three_players ++ [dig_pool 3; winning; losing]) = Ok d /\
    is_declareing d = true /\ m_apply_declare_seatnum d = 2 /\
    (m_match_over_account_chips <$> m_seats d !! 2%nat) = Some (-1).
Proof. eexists. split; [vm_compute; reflexivity|]. split_and!; reflexivity. Qed.

(** When the player who has declared also declares as a loser and stands up,
    the game cannot be settled: the winner's seat is empty. *)
Theorem declarer_gone_fails :
  deliver (three_players ++ [dig_pool 3; winning; losing; Received (ApplyStandup 3); TimedOut false]) =
    Fault NullDeref.
Proof. vm_compute. reflexivity. Qed.

(** One turn of each player: the card dug from the bottom is posted at the time-out. *)
Definition circle : list Input :=
  [dig_bottom 3; TimedOut false; dig_bottom 1; TimedOut false; dig_bottom 2; TimedOut false].

(** Down to one bottom card, when the one who has dug the last but one drops. *)
Definition one_left : list Input :=
  three_players ++ concat (replicate 21 circle) ++
  [dig_bottom 3; TimedOut false; dig_bottom 1; TimedOut false; dig_bottom 2; Received (ApplyDrop 2)].

(** Nothing refills the bottom after a drop: the last card is dug, and the reshuffle,
    which waits for exactly one card, does not happen; the next player's dig
    fails the assertion. *)
Theorem bottom_runs_out_fails :
  deliver (one_left ++ [dig_bottom 3; TimedOut false; dig_bottom 1]) = Fault AssertFailed.
Proof. vm_compute. reflexivity. Qed.

(** Leaving the automatic mode, closing the account box and asking for the status of
    the room without being in it answers and then follows the null pointer. *)
Theorem trustee_off_of_stranger_fails uid :
  deliver [Received (ApplyTrusteeOff uid)] = Fault NullDeref.
Proof.
  unfold deliver. cbn [mfold]. unfold sample_handle. cbn [handle handle_msg].
  unfold on_apply_trustee_off, without_return, find_player.
  rewrite decide_False; [done|]. apply not_elem_of_empty.
Qed.

Theorem close_account_box_of_stranger_fails uid :
  deliver [Received (ApplyCloseAccountBox uid)] = Fault NullDeref.
Proof.
  unfold deliver. cbn [mfold]. unfold sample_handle. cbn [handle handle_msg].
  unfold on_apply_close_account_box, without_return, find_player.
  rewrite decide_False; [done|]. apply not_elem_of_empty.
Qed.

Theorem room_status_of_stranger_fails uid :
  deliver [Received (ApplyRoomStatus uid)] = Fault NullDeref.
Proof.
  unfold deliver. cbn [mfold]. unfold sample_handle. cbn [handle handle_msg].
  unfold on_apply_room_status, find_player.
  rewrite decide_False; [done|]. apply not_elem_of_empty.
Qed.

Section findings.
Context {M G : Type} `{MoneyService M} `{RandGen G}.
Variables (room : RoomInfo) (iv : TimeInterval) (ROOM_IDLE ROOM_PLAYING ROOM_END1 : Z).
Implicit Type d : GameDesk M G.

(** Posting a card follows the seat of the player before any check: without a
    seat the pointer is null. *)
Theorem post_without_seat_fails uid card score d p :
  m_objects d !! uid = Some p -> m_pGameSeat p = None ->
  player_post_card room iv ROOM_IDLE ROOM_PLAYING ROOM_END1 uid card score d = Fault NullDeref.
Proof.
  intros Hp Hs. unfold player_post_card, get_player. rewrite Hp. cbn [deref mbind outcome_bind].
  unfold player_seat. by rewrite Hs.
Qed.

(** A dig of the joker on top of the pool is dropped without an answer. *)
Theorem pool_joker_dig_unanswered uid p card d :
  m_objects d !! uid = Some p -> is_active_player p d = true -> is_wait_active1 d = true ->
  m_bottom_cards d <> [] -> last (m_pokercard_pool d) = Some card ->
  is_joker card (joker_point d) = true -> m_is_first_pool_card d = false ->
  player_dig_card iv uid DIG_POOL d = Ok d.
Proof.
  intros Hp Ha H1 Hb Hl Hj Hf. unfold player_dig_card, get_player. rewrite Hp.
  cbn [deref mbind outcome_bind]. rewrite Ha, H1. cbn [negb orb].
  rewrite !bool_decide_eq_false_2; [|intros E; by rewrite E in Hl|done].
  cbn [negb andb assert_that mbind outcome_bind]. change (DIG_POOL =? DIG_BOTTOM) with false.
  cbn iota. rewrite Hl. cbn [access mbind outcome_bind]. by rewrite Hj, Hf.
Qed.
End findings.

(** [set_ingame_player_over_status] wants to spare the players who wait for the next
    game, but takes the phase out of the status it compares: the tests pass for
    every status. *)
Theorem over_status_spares_nobody status :
  let player_status := Z.land status (Z.lnot PLAYER_MASK) in
  negb (player_status =? PLAYER_UNREADY) && negb (player_status =? PLAYER_WAIT_NEXT_GAME) = true.
Proof.
  cbn zeta. assert (forall b, 0 <= b <= 3 -> Z.testbit (Z.land status (Z.lnot PLAYER_MASK)) b = false) as Hb.
  { intros b Hb. rewrite Z.land_spec, Z.lnot_spec by lia.
    assert (b = 0 \/ b = 1 \/ b = 2 \/ b = 3) as [->|[->|[->| ->]]] by lia; apply andb_false_r. }
  apply andb_true_iff; split; apply negb_true_iff, Z.eqb_neq; intros E.
  - specialize (Hb 1 ltac:(lia)). by rewrite E in Hb.
  - specialize (Hb 0 ltac:(lia)). by rewrite E in Hb.
Qed.

(** A prepared deal that names a card twice too often leaves the cards taken so
    far out of the deck. *)
Theorem prepared_deal_loses_cards :
  exists file cards draw_sec left_count,
    get_card_from_file (Some file) deck 0 0 0 = Ok (cards, draw_sec, left_count) /\
    (length cards < length deck)%nat.
Proof.
  exists (mkCardFile true [] None None [["1:2"; "1:2"; "1:2"]%string] []). do 3 eexists.
  split; [vm_compute; reflexivity|].
  refine (bool_decide_eq_true_1 _ _). vm_compute. reflexivity.
Qed.
