(* ===== verification/Bytes.v ===== *)
(** * Bytes in memory

    The byte order of integers (BigEndLittleEnd.cpp) and buffers of bytes: how the
    x86-64 target lays an unsigned integer out in memory, and what a write to a
    buffer of a fixed size does. *)
From Stdlib Require Import ZArith Lia.
From stdpp Require Import base tactics numbers sorting option list.
From S2P Require Import Prelude.

(** ** Integers in memory *)

(** Byte number [i] of an unsigned integer, and the integer as memory holds it:
    the least significant byte first. *)
Definition byte (i : nat) (z : Z) : Z := Z.land (Z.shiftr z (8 * Z.of_nat i)) 255.

Definition le_bytes (n : nat) (z : Z) : list Z := (fun i => byte i z) <$> seq 0 n.

Fixpoint le_value (bytes : list Z) : Z :=
  match bytes with [] => 0 | b :: rest => Z.lor b (Z.shiftl (le_value rest) 8) end.

Definition Swap16 (s : Z) : Z :=
  u16 (Z.lor (Z.shiftl (Z.land s 0xff) 8) (Z.land (Z.shiftr s 8) 0xff)).

Definition Swap32 (l : Z) : Z :=
  Z.lor (Z.lor (Z.lor (Z.shiftr l 24) (Z.shiftr (Z.land l 0x00ff0000) 8))
               (u32 (Z.shiftl (Z.land l 0x0000ff00) 8))) (u32 (Z.shiftl l 24)).

Definition Swap64 (ll : Z) : Z :=
  Z.lor (Z.lor (Z.lor (Z.lor (Z.lor (Z.lor (Z.lor (Z.shiftr ll 56)
    (Z.shiftr (Z.land ll 0x00ff000000000000) 40))
    (Z.shiftr (Z.land ll 0x0000ff0000000000) 24))
    (Z.shiftr (Z.land ll 0x000000ff00000000) 8))
    (u64 (Z.shiftl (Z.land ll 0x00000000ff000000) 8)))
    (u64 (Z.shiftl (Z.land ll 0x0000000000ff0000) 24)))
    (u64 (Z.shiftl (Z.land ll 0x000000000000ff00) 40)))
    (u64 (Z.shiftl ll 56)).

(** The first byte of a [short] that holds 1. *)
Definition is_big_endian : bool :=
  match le_bytes 2 1 with b :: _ => b =? 0 | [] => false end.

Definition hton16 (s : Z) : Z := if is_big_endian then s else Swap16 s.
Definition ntoh16 (s : Z) : Z := if is_big_endian then s else Swap16 s.
Definition hton32 (i : Z) : Z := if is_big_endian then i else Swap32 i.
Definition ntoh32 (i : Z) : Z := if is_big_endian then i else Swap32 i.
Definition hton64 (l : Z) : Z := if is_big_endian then l else Swap64 l.
Definition ntoh64 (l : Z) : Z := if is_big_endian then l else Swap64 l.

(** *** Bit by bit *)

Lemma fits_testbit w z n : 0 <= w -> fits w z -> w <= n -> Z.testbit z n = false.
Proof.
  intros Hw [H0 H1] Hn. destruct (decide (z = 0)) as [->|Hz]; [apply Z.bits_0|].
  apply Z.bits_above_log2; [done|]. enough (Z.log2 z < w) by lia. apply Z.log2_lt_pow2; lia.
Qed.

Lemma testbit_fits w z : 0 <= w -> 0 <= z -> (forall n, w <= n -> Z.testbit z n = false) -> fits w z.
Proof.
  intros Hw Hz Hbits. split; [done|]. destruct (decide (z = 0)) as [->|Hne]; [apply Z.pow_pos_nonneg; lia|].
  apply Z.log2_lt_pow2; [lia|]. destruct (decide (Z.log2 z < w)) as [|Hge]; [done|].
  specialize (Hbits (Z.log2 z) ltac:(lia)). rewrite Z.bit_log2 in Hbits by lia. done.
Qed.

Lemma wrap_testbit w z n : 0 <= w -> 0 <= n -> Z.testbit (wrap w z) n = (n <? w) && Z.testbit z n.
Proof.
  intros Hw Hn. unfold wrap. destruct (n <? w) eqn:E.
  - apply Z.mod_pow2_bits_low. lia.
  - apply Z.mod_pow2_bits_high. lia.
Qed.

Lemma ones_testbit w n : 0 <= w -> 0 <= n -> Z.testbit (Z.ones w) n = (n <? w).
Proof.
  intros Hw Hn. destruct (n <? w) eqn:E; [apply Z.ones_spec_low|apply Z.ones_spec_high]; lia.
Qed.

Lemma byte_testbit i z n : 0 <= n -> Z.testbit (byte i z) n = (n <? 8) && Z.testbit z (n + 8 * Z.of_nat i).
Proof.
  intros Hn. unfold byte. rewrite Z.land_spec, Z.shiftr_spec by done.
  change 255 with (Z.ones 8). rewrite ones_testbit by lia. apply andb_comm.
Qed.

Lemma byte_fits i z : fits 8 (byte i z).
Proof.
  unfold byte. change 255 with (Z.ones 8). rewrite Z.land_ones by lia. apply wrap_fits. lia.
Qed.

Lemma le_bytes_length n z : length (le_bytes n z) = n.
Proof. unfold le_bytes. by rewrite length_fmap, length_seq. Qed.

Lemma le_bytes_fits n z : Forall (fits 8) (le_bytes n z).
Proof. apply Forall_fmap, Forall_forall. intros i _. apply byte_fits. Qed.

Lemma le_bytes_S n z : le_bytes (S n) z = byte 0 z :: le_bytes n (Z.shiftr z 8).
Proof.
  unfold le_bytes. cbn [seq fmap list_fmap]. f_equal. rewrite <- fmap_S_seq, <- list_fmap_compose.
  apply list_fmap_ext. intros _ i _. unfold compose, byte. rewrite Z.shiftr_shiftr by lia. do 2 f_equal. lia.
Qed.

(** The bytes of an integer do not depend on the bits above them. *)
Lemma le_bytes_wrap n w z : 8 * Z.of_nat n <= w -> le_bytes n (wrap w z) = le_bytes n z.
Proof.
  intros Hw. apply list_fmap_ext. intros j i Hi. apply lookup_seq in Hi as [-> Hi].
  apply Z.bits_inj'. intros k Hk. rewrite !byte_testbit by done. destruct (k <? 8) eqn:E; [|done].
  rewrite wrap_testbit by lia. by replace (k + 8 * Z.of_nat (0 + j) <? w) with true by lia.
Qed.

Lemma le_value_bytes n z : fits (8 * Z.of_nat n) z -> le_value (le_bytes n z) = z.
Proof.
  revert z; induction n as [|n IH]; intros z Hz.
  - destruct Hz as [H0 H1]. simpl in *. lia.
  - rewrite le_bytes_S. cbn [le_value]. rewrite IH.
    + apply Z.bits_inj'. intros k Hk. rewrite Z.lor_spec, Z.shiftl_spec, byte_testbit by done.
      change (8 * Z.of_nat 0) with 0. rewrite Z.add_0_r. destruct (k <? 8) eqn:E.
      * rewrite (Z.testbit_neg_r _ (k - 8)) by lia. by rewrite orb_false_r.
      * rewrite Z.shiftr_spec by lia. simpl. f_equal. lia.
    + apply testbit_fits; [lia|by apply Z.shiftr_nonneg, Hz|]. intros k Hk.
      rewrite Z.shiftr_spec by lia. apply (fits_testbit (8 * Z.of_nat (S n))); [lia|done|lia].
Qed.

(** Evaluate the bits of constants and the places of the bits of [z]. *)
Ltac known_bits z :=
  rewrite ?wrap_testbit by lia;
  rewrite ?Z.lor_spec, ?wrap_testbit, ?Z.shiftl_spec, ?Z.shiftr_spec, ?Z.land_spec, ?Z.shiftr_spec by lia;
  repeat match goal with
  | |- context [?a <? ?b] =>
      let c := eval vm_compute in (a <? b) in
      lazymatch c with true => change (a <? b) with true | false => change (a <? b) with false end
  | |- context [Z.testbit (Zpos ?p) ?a] =>
      let c := eval vm_compute in (Z.testbit (Zpos p) a) in change (Z.testbit (Zpos p) a) with c
  | |- context [Z.testbit z ?a] =>
      let c := eval vm_compute in a in
      lazymatch c with
      | Zneg _ => rewrite (Z.testbit_neg_r z a) by done
      | _ => assert_fails (constr_eq a c); change (Z.testbit z a) with (Z.testbit z c)
      end
  end.

(** Byte [i] of the swapped integer, for the [i] and the bit [n] at hand. *)
Ltac swapped_byte z w n :=
  let Hin := fresh "Hin" in
  assert (n ∈ seqZ 0 8) as Hin by (apply elem_of_seqZ; lia);
  cbv [seqZ seq fmap list_fmap Z.to_nat Pos.to_nat Pos.iter_op Nat.add Z.add Z.of_nat Pos.of_succ_nat] in Hin;
  repeat (apply elem_of_cons in Hin as [->|Hin]); [..|by apply elem_of_nil in Hin];
  known_bits z;
  repeat match goal with
  | |- context [Z.testbit z ?a] => rewrite (fits_testbit w z a) by (done || lia)
  end;
  rewrite ?andb_false_r, ?andb_true_r, ?orb_false_r; reflexivity.

Lemma Swap32_byte i z : (i < 4)%nat -> fits 32 z -> byte i (Swap32 z) = byte (3 - i) z.
Proof.
  intros Hi Hz. apply Z.bits_inj'. intros n Hn. rewrite !byte_testbit by done.
  destruct (n <? 8) eqn:E; [|done]. rewrite !andb_true_l. unfold Swap32.
  destruct i as [|[|[|[|i]]]]; [..|lia]; swapped_byte z 32 n.
Qed.

Lemma Swap16_byte i z : (i < 2)%nat -> fits 16 z -> byte i (Swap16 z) = byte (1 - i) z.
Proof.
  intros Hi Hz. apply Z.bits_inj'. intros n Hn. rewrite !byte_testbit by done.
  destruct (n <? 8) eqn:E; [|done]. rewrite !andb_true_l. unfold Swap16.
  destruct i as [|[|i]]; [..|lia]; swapped_byte z 16 n.
Qed.

Lemma Swap64_byte i z : (i < 8)%nat -> fits 64 z -> byte i (Swap64 z) = byte (7 - i) z.
Proof.
  intros Hi Hz. apply Z.bits_inj'. intros n Hn. rewrite !byte_testbit by done.
  destruct (n <? 8) eqn:E; [|done]. rewrite !andb_true_l. unfold Swap64.
  destruct i as [|[|[|[|[|[|[|[|i]]]]]]]]; [..|lia]; swapped_byte z 64 n.
Qed.

(** *** Network order *)

Lemma lor_fits w a b : 0 <= w -> fits w a -> fits w b -> fits w (Z.lor a b).
Proof.
  intros Hw Ha Hb. apply testbit_fits; [done|by apply Z.lor_nonneg; split; [apply Ha|apply Hb]|].
  intros n Hn. by rewrite Z.lor_spec, !(fits_testbit w) by done.
Qed.

Lemma shiftr_fits w z k : 0 <= w -> 0 <= k -> fits w z -> fits w (Z.shiftr z k).
Proof.
  intros Hw Hk Hz. apply testbit_fits; [done|by apply Z.shiftr_nonneg, Hz|].
  intros n Hn. rewrite Z.shiftr_spec by lia. apply (fits_testbit w); [done..|lia].
Qed.

Lemma land_fits w z k : 0 <= w -> fits w z -> fits w (Z.land z k).
Proof.
  intros Hw Hz. apply testbit_fits; [done|apply Z.land_nonneg; left; apply Hz|].
  intros n Hn. by rewrite Z.land_spec, (fits_testbit w z).
Qed.

#[export] Hint Resolve lor_fits shiftr_fits land_fits : machine.

Lemma Swap16_fits z : fits 16 (Swap16 z).
Proof. unfold Swap16. auto with machine lia. Qed.

Lemma Swap32_fits z : fits 32 z -> fits 32 (Swap32 z).
Proof. intros. unfold Swap32. repeat apply lor_fits; auto 6 with machine lia. Qed.

Lemma Swap64_fits z : fits 64 z -> fits 64 (Swap64 z).
Proof. intros. unfold Swap64. repeat apply lor_fits; auto 6 with machine lia. Qed.

(** An integer is known by its bytes. *)
Lemma byte_ext n a b :
  fits (8 * Z.of_nat n) a -> fits (8 * Z.of_nat n) b ->
  (forall i, (i < n)%nat -> byte i a = byte i b) -> a = b.
Proof.
  intros Ha Hb Hab. rewrite <- (le_value_bytes n a), <- (le_value_bytes n b) by done. f_equal.
  apply list_fmap_ext. intros j i Hi. apply lookup_seq in Hi as [-> Hi]. by apply Hab.
Qed.

Lemma swap_involutive n (swap : Z -> Z) z :
  (forall z, fits (8 * Z.of_nat n) z -> fits (8 * Z.of_nat n) (swap z)) ->
  (forall i z, (i < n)%nat -> fits (8 * Z.of_nat n) z -> byte i (swap z) = byte (n - 1 - i) z) ->
  fits (8 * Z.of_nat n) z -> swap (swap z) = z.
Proof.
  intros Hfits Hbyte Hz. apply (byte_ext n); [by auto..|]. intros i Hi.
  rewrite !Hbyte by (auto || lia). f_equal. lia.
Qed.

Lemma ntoh16_hton16 z : fits 16 z -> ntoh16 (hton16 z) = z.
Proof.
  apply (swap_involutive 2 Swap16); [intros; apply Swap16_fits|]. intros i z' Hi Hz'.
  rewrite Swap16_byte by done. done.
Qed.

Lemma ntoh32_hton32 z : fits 32 z -> ntoh32 (hton32 z) = z.
Proof.
  apply (swap_involutive 4 Swap32); [apply Swap32_fits|]. intros i z' Hi Hz'.
  rewrite Swap32_byte by done. done.
Qed.

Lemma ntoh64_hton64 z : fits 64 z -> ntoh64 (hton64 z) = z.
Proof.
  apply (swap_involutive 8 Swap64); [apply Swap64_fits|]. intros i z' Hi Hz'.
  rewrite Swap64_byte by done. done.
Qed.

(** An integer in network order starts with its most significant byte. *)
Lemma hton32_bytes z : fits 32 z -> le_bytes 4 (hton32 z) = [byte 3 z; byte 2 z; byte 1 z; byte 0 z].
Proof.
  intros Hz. unfold le_bytes. cbn [seq fmap list_fmap]. change (hton32 z) with (Swap32 z).
  by rewrite !Swap32_byte by (done || lia).
Qed.

(** ** Buffers

    [write_at off bytes buf] copies [bytes] into the buffer from [off] on, and
    [read_at off n buf] reads [n] bytes; outside of the buffer it is an error. *)
Section buffers.
Context {A : Type}.
Implicit Types (buf bytes : list A) (off n : Z).

Definition write_at off bytes buf : outcome (list A) :=
  if (0 <=? off) && (off + Z.of_nat (length bytes) <=? Z.of_nat (length buf)) then
    Ok (take (Z.to_nat off) buf ++ bytes ++ drop (Z.to_nat off + length bytes) buf)
  else Fault OutOfBounds.

Definition read_at off n buf : outcome (list A) :=
  if (0 <=? off) && (0 <=? n) && (off + n <=? Z.of_nat (length buf)) then
    Ok (take (Z.to_nat n) (drop (Z.to_nat off) buf))
  else Fault OutOfBounds.

Lemma write_at_Ok off bytes buf :
  0 <= off -> off + Z.of_nat (length bytes) <= Z.of_nat (length buf) ->
  write_at off bytes buf = Ok (take (Z.to_nat off) buf ++ bytes ++ drop (Z.to_nat off + length bytes) buf).
Proof. intros. unfold write_at. by rewrite (proj2 (Z.leb_le 0 off)), (proj2 (Z.leb_le _ _)). Qed.

Lemma write_at_length off bytes buf buf' :
  write_at off bytes buf = Ok buf' -> length buf' = length buf.
Proof.
  unfold write_at. destruct (_ && _) eqn:E; [|done]. intros [= <-].
  rewrite !length_app, length_take, length_drop. lia.
Qed.

Lemma read_at_Ok off n buf :
  0 <= off -> 0 <= n -> off + n <= Z.of_nat (length buf) ->
  read_at off n buf = Ok (take (Z.to_nat n) (drop (Z.to_nat off) buf)).
Proof. intros. unfold read_at. by rewrite (proj2 (Z.leb_le 0 off)), (proj2 (Z.leb_le 0 n)), (proj2 (Z.leb_le _ _)). Qed.

(** Writing at the end of what is there. *)
Lemma write_at_append (front bytes : list A) buf :
  (length front + length bytes <= length buf)%nat -> take (length front) buf = front ->
  write_at (Z.of_nat (length front)) bytes buf = Ok (front ++ bytes ++ drop (length front + length bytes) buf).
Proof. intros Hlen Hf. rewrite write_at_Ok, Nat2Z.id, Hf by lia. done. Qed.
End buffers.
