(* ===== verification/SendQueue.v ===== *)
(** * The queue of outgoing messages

    SendQueue.cpp: the messages a session has still to write, in a
    [boost::circular_buffer] that is doubled when it is full.  The buffer is the
    interface [CircularBuffer]. *)
From Stdlib Require Import ZArith Lia.
From stdpp Require Import base tactics numbers sorting option list.
From S2P Require Import Prelude.

(** [boost::circular_buffer<A>]: a sequence of at most [capacity] elements.
    Pushing on a full buffer overwrites the front. *)
Class CircularBuffer (A B : Type) := {
  circular_buffer : nat -> B;
  capacity : B -> nat;
  contents : B -> list A;
  push_back : A -> B -> B;
  pop_front : B -> B;
  set_capacity : nat -> B -> B;

  circular_buffer_new n : contents (circular_buffer n) = [] /\ capacity (circular_buffer n) = n;
  contents_bound b : (length (contents b) <= capacity b)%nat;
  push_back_spec a b :
    contents (push_back a b) =
      (if decide (length (contents b) < capacity b)%nat then contents b ++ [a]
       else if decide (capacity b = 0%nat) then [] else tail (contents b) ++ [a]) /\
    capacity (push_back a b) = capacity b;
  pop_front_spec b : contents (pop_front b) = tail (contents b) /\ capacity (pop_front b) = capacity b;
  set_capacity_spec n b :
    contents (set_capacity n b) = take n (contents b) /\ capacity (set_capacity n b) = n
}.

Section send_queue.
Context {A B : Type} `{CircularBuffer A B}.
Implicit Types (q : B) (msg : A).

Definition INIT_SIZE : nat := 0x100.
Definition MAX_SIZE : Z := 100000.

Definition new_send_queue : B := circular_buffer INIT_SIZE.

Definition is_empty q : bool := bool_decide (contents q = []).

Definition pop q : option A * B :=
  match contents q with [] => (None, q) | msg :: _ => (Some msg, pop_front q) end.

(** [None]: the message is refused. *)
Definition push msg q : option B :=
  let all_size := length (contents q) in
  if decide (all_size = capacity q) then
    if MAX_SIZE <? Z.of_nat all_size then None
    else Some (push_back msg (set_capacity (all_size + all_size) q))
  else Some (push_back msg q).

Definition front q : option A := head (contents q).

(** *** A queue that loses nothing *)

Definition queue_ok q : Prop := (0 < capacity q)%nat.

Lemma new_send_queue_ok : queue_ok new_send_queue /\ contents new_send_queue = [].
Proof.
  unfold queue_ok, new_send_queue. destruct (circular_buffer_new INIT_SIZE) as [-> ->].
  unfold INIT_SIZE. split; [lia|done].
Qed.

Lemma push_spec msg q :
  queue_ok q ->
  match push msg q with
  | Some q' => contents q' = contents q ++ [msg] /\ queue_ok q'
  | None => MAX_SIZE < Z.of_nat (length (contents q)) /\ length (contents q) = capacity q
  end.
Proof.
  unfold queue_ok, push. intros Hq. pose proof (contents_bound q) as Hb.
  destruct (decide (length (contents q) = capacity q)) as [Hfull|Hroom].
  - destruct (MAX_SIZE <? Z.of_nat (length (contents q))) eqn:E; [split; [lia|done]|].
    destruct (push_back_spec msg (set_capacity (length (contents q) + length (contents q)) q)) as [-> ->].
    destruct (set_capacity_spec (length (contents q) + length (contents q)) q) as [-> ->].
    rewrite take_ge by lia. rewrite decide_True by lia. split; [done|lia].
  - destruct (push_back_spec msg q) as [-> ->]. rewrite decide_True by lia. split; [done|lia].
Qed.

Lemma pop_spec q :
  queue_ok q -> (pop q).1 = head (contents q) /\ contents (pop q).2 = tail (contents q) /\ queue_ok (pop q).2.
Proof.
  unfold queue_ok, pop. intros Hq. destruct (pop_front_spec q) as [Hc Hk].
  destruct (contents q) as [|msg rest] eqn:E; cbn [fst snd]; [by rewrite E|]. by rewrite Hc, Hk.
Qed.

Lemma is_empty_spec q : is_empty q = true <-> contents q = [].
Proof. apply bool_decide_eq_true. Qed.

(** Doubling keeps the queue of a session lossless: a message is pushed behind
    all the others, and nothing is overwritten, until more than 100000 wait and
    it is refused; messages come out in the order they went in. *)
Theorem send_queue_lossless msg q :
  queue_ok q ->
  (forall q', push msg q = Some q' ->
     contents q' = contents q ++ [msg] /\ queue_ok q' /\
     front q' = (if is_empty q then Some msg else front q) /\
     (pop q').1 = front q' /\ contents (pop q').2 = tail (contents q ++ [msg])) /\
  (push msg q = None -> MAX_SIZE < Z.of_nat (length (contents q))).
Proof.
  intros Hq. pose proof (push_spec msg q Hq) as Hpush. split.
  - intros q' Hq'. rewrite Hq' in Hpush. destruct Hpush as [Hc Hok].
    destruct (pop_spec q' Hok) as (Hp1 & Hp2 & _). rewrite Hp1, Hp2. unfold front. rewrite Hc.
    split_and!; [done..| |done|done]. unfold is_empty. by destruct (contents q).
  - intros Hnone. rewrite Hnone in Hpush. apply Hpush.
Qed.
End send_queue.

(** ** A circular buffer *)

Record circular (A : Type) : Type := mkCircular { circular_capacity : nat; circular_items : list A }.
Arguments mkCircular {A} _ _.
Arguments circular_capacity {A} _.
Arguments circular_items {A} _.

(** The items never outnumber the capacity. *)
Definition circular_take {A} (b : circular A) : list A := take (circular_capacity b) (circular_items b).

#[export] Instance circular_buffer_list (A : Type) : CircularBuffer A (circular A).
Proof.
  refine {|
    circular_buffer n := mkCircular n [];
    capacity := circular_capacity;
    contents := circular_take;
    push_back a b :=
      mkCircular (circular_capacity b)
        (if decide (length (circular_take b) < circular_capacity b)%nat then circular_take b ++ [a]
         else tail (circular_take b) ++ [a]);
    pop_front b := mkCircular (circular_capacity b) (tail (circular_take b));
    set_capacity n b := mkCircular n (circular_take b) |}.
  - intros n. split; [|done]. apply take_nil.
  - intros b. unfold circular_take. rewrite length_take. lia.
  - intros a b. split; [|done]. unfold circular_take at 1. simpl.
    assert (length (circular_take b) <= circular_capacity b)%nat as Hb.
    { unfold circular_take. rewrite length_take. lia. }
    destruct (decide _).
    + rewrite take_ge; [done|]. rewrite length_app. simpl. lia.
    + destruct (decide (circular_capacity b = 0%nat)) as [->|Hne]; [apply take_0|].
      rewrite take_ge; [done|]. rewrite length_app.
      destruct (circular_take b); simpl in *; lia.
  - intros b. split; [|done]. unfold circular_take at 1. simpl. apply take_ge.
    assert (length (circular_take b) <= circular_capacity b)%nat as Hb.
    { unfold circular_take. rewrite length_take. lia. }
    destruct (circular_take b); simpl in *; lia.
  - intros n b. split; [|done]. done.
Defined.

Lemma send_queue_lossless_witness :
  let q := new_send_queue (A := Z) (B := circular Z) in
  queue_ok q /\
  forall q', push 7 q = Some q' -> contents q' = [7] /\ front q' = Some 7.
Proof.
  intros q. assert (queue_ok q) as Hq by (unfold queue_ok; vm_compute; lia). split; [done|].
  intros q' Hpush. destruct (send_queue_lossless 7 q Hq) as [Hp _].
  destruct (Hp q' Hpush) as (H1 & _ & H2 & _). by rewrite H1, H2.
Defined.
