(* ===== verification/Frame.v ===== *)
(** * Messages and frames

    MessageBuffer.h/.inl, MessageMaker.cpp and the header of MsgHeader.proto: a
    frame is the length of the header in network order, the header and the body.
    Protocol buffers are the interfaces [Protobuf] and
    [HeaderFormat]. *)
From Stdlib Require Import ZArith Lia.
From stdpp Require Import base tactics numbers sorting option gmap list.
From S2P Require Import Prelude Bytes.

(** ** Headers *)

Record Header : Set := mkHeader {
  cmdtype : Z;
  type : Z;
  sequenceid : Z;
  msg_length : Z;
  check_result : Z;
  response_result : Z
}.

#[export] Instance eta_Header : Eta Header := fun h =>
  mkHeader (cmdtype h) (type h) (sequenceid h) (msg_length h) (check_result h) (response_result h).

#[export] Instance Header_eq_dec : EqDecision Header.
Proof. solve_decision. Defined.

(** [int32] and [uint64] fields. *)
Definition int32_ok (z : Z) : Prop := - 2 ^ 31 <= z < 2 ^ 31.

Definition header_ok (h : Header) : Prop :=
  int32_ok (cmdtype h) /\ int32_ok (type h) /\ fits 64 (sequenceid h) /\ int32_ok (msg_length h) /\
  fits 64 (check_result h) /\ int32_ok (response_result h).

(** The [or] of the other fields, as both ends compute it. *)
Definition header_check (h : Header) : Z :=
  Z.lor (Z.lor (Z.lor (u64 (Z.lor (cmdtype h) (type h))) (sequenceid h)) (u64 (msg_length h)))
        (u64 (response_result h)).

Definition empty_header : Header := mkHeader 0 0 0 0 0 0.

(** ** Protocol buffers

    [Pb] are the message objects, [Desc] their types.  What is serialized is
    parsed again, by a message of the same type. *)
Class Protobuf (Pb Desc : Type) := {
  descriptor : Pb -> Desc;
  serialize : Pb -> list Z;
  parse : Desc -> list Z -> option Pb;
  parse_serialize p : parse (descriptor p) (serialize p) = Some p
}.

Class HeaderFormat := {
  serialize_header : Header -> list Z;
  parse_header : list Z -> option Header;
  parse_serialize_header h : header_ok h -> parse_header (serialize_header h) = Some h
}.

(** ** Message types *)

Module MsgType.
Definition REQUEST_MASK : Z := 0x4000.
Definition RESPONSE_MASK : Z := 0x8000.
Definition SYN_REQUEST : Z := 0x4001.
Definition SYN_RESPONSE : Z := 0x8001.
Definition ASYN_REQUEST : Z := 0x4002.
Definition ASYN_RESPONSE : Z := 0x8002.
Definition HEARTBEAT_REQUEST : Z := 0x4004.
Definition HEARTBEAT_RESPONSE : Z := 0x8004.
Definition NOTIFY_REQUEST : Z := 0x4005.
Definition NOTIFY_RESPONSE : Z := 0x8005.
End MsgType.

Section message_maker.
Context {Desc : Type}.

(** The prototypes of the requests and responses of each command. *)
Record MessageMaker : Type := mkMaker {
  m_cmd_request : gmap Z Desc;
  m_cmd_response : gmap Z Desc
}.

Definition register_message (cmd_type : Z) (request response : Desc) (maker : MessageMaker) : MessageMaker :=
  mkMaker (<[cmd_type := request]> (m_cmd_request maker)) (<[cmd_type := response]> (m_cmd_response maker)).

Definition make_request_message (maker : MessageMaker) (cmd_type : Z) : option Desc :=
  m_cmd_request maker !! cmd_type.

Definition make_response_message (maker : MessageMaker) (cmd_type : Z) : option Desc :=
  m_cmd_response maker !! cmd_type.

Definition make_message (maker : MessageMaker) (msg_type cmd_type : Z) : option Desc :=
  if negb (Z.land msg_type MsgType.REQUEST_MASK =? 0) then make_request_message maker cmd_type
  else if negb (Z.land msg_type MsgType.RESPONSE_MASK =? 0) then make_response_message maker cmd_type
  else None.
End message_maker.
Arguments MessageMaker : clear implicits.

(** ** Buffers of a frame *)

Definition MSG_BUF_SIZE : Z := 1024 * 128.
Definition HEADER_LENGTH : Z := 4.

(** [MsgMutableBuffer]: the two lengths are [TY_UINT32]. *)
Record MsgBuffer : Type := mkMsgBuffer {
  m_header_length : Z;
  m_msg_length : Z;
  m_buffer : list Z
}.

#[export] Instance eta_MsgBuffer : Eta MsgBuffer := fun b =>
  mkMsgBuffer (m_header_length b) (m_msg_length b) (m_buffer b).

(** A new buffer; what its memory holds is not initialized. *)
Definition new_msg_buffer (memory : list Z) : MsgBuffer := mkMsgBuffer 0 0 memory.

(** The getters return [int]. *)
Definition buffer_length (b : MsgBuffer) : Z :=
  i32 (u32 (u32 (HEADER_LENGTH + m_header_length b) + m_msg_length b)).
Definition header_length (b : MsgBuffer) : Z := i32 (m_header_length b).
Definition body_length (b : MsgBuffer) : Z := i32 (m_msg_length b).

Lemma u32_small z : 0 <= z < 2 ^ 31 -> u32 z = z.
Proof. intros. apply wrap_id. unfold fits. change (2 ^ 32) with (2 * 2 ^ 31). lia. Qed.

Lemma i32_small z : 0 <= z < 2 ^ 31 -> i32 z = z.
Proof. intros. apply swrap_id; [lia|]. change (2 ^ (32 - 1)) with (2 ^ 31). lia. Qed.

Lemma u64_small z : 0 <= z < 2 ^ 31 -> u64 z = z.
Proof. intros. apply wrap_id. unfold fits. change (2 ^ 64) with (2 ^ 33 * 2 ^ 31). lia. Qed.

Lemma buffer_length_small b :
  0 <= m_header_length b -> 0 <= m_msg_length b ->
  HEADER_LENGTH + m_header_length b + m_msg_length b < 2 ^ 31 ->
  buffer_length b = HEADER_LENGTH + m_header_length b + m_msg_length b.
Proof.
  change HEADER_LENGTH with 4. intros. unfold buffer_length. change HEADER_LENGTH with 4.
  by rewrite (u32_small (4 + _)), u32_small, i32_small by lia.
Qed.

Section msg_buffer.
Context {Pb Desc : Type} `{Protobuf Pb Desc} `{HeaderFormat}.
Implicit Types (b : MsgBuffer) (h : Header).

Definition decode_message (d : Desc) b : outcome (option Pb) :=
  bytes ← read_at (HEADER_LENGTH + m_header_length b) (m_msg_length b) (m_buffer b);
  mret (parse d bytes).

Definition decode_header_length b : outcome MsgBuffer :=
  bytes ← read_at 0 4 (m_buffer b);
  mret (b <| m_header_length := u32 (ntoh32 (le_value bytes)) |>).

Definition decode_header b : outcome (option Header * MsgBuffer) :=
  bytes ← read_at HEADER_LENGTH (m_header_length b) (m_buffer b);
  match parse_header bytes with
  | None => mret (None, b)
  | Some h => mret (Some h, b <| m_msg_length := u32 (msg_length h) |>)
  end.

Definition encode_header_length (length : Z) b : outcome MsgBuffer :=
  let b := b <| m_header_length := u32 length |> in
  memory ← write_at 0 (le_bytes 4 (hton32 (m_header_length b))) (m_buffer b);
  mret (b <| m_buffer := memory |>).

(** Protocol buffers refuse to serialize nothing of ours. *)
Definition encode_header h b : outcome (bool * MsgBuffer) :=
  let b := b <| m_msg_length := u32 (msg_length h) |> in
  memory ← write_at HEADER_LENGTH (serialize_header h) (m_buffer b);
  mret (true, b <| m_buffer := memory |>).

Definition encode_message (p : Pb) b : outcome (bool * MsgBuffer) :=
  memory ← write_at (HEADER_LENGTH + m_header_length b) (serialize p) (m_buffer b);
  mret (true, b <| m_buffer := memory |>).

Definition ByteSize (p : Pb) : Z := i32 (Z.of_nat (length (serialize p))).
Definition HeaderByteSize h : Z := i32 (Z.of_nat (length (serialize_header h))).

(** The header as it is sent. *)
Definition stamp (p : Pb) h : Header :=
  let h := h <| msg_length := ByteSize p |> in h <| check_result := header_check h |>.

(** [TcpSession::encode]: the message is put into the send buffer. *)
Definition encode h (p : Pb) b : outcome (bool * MsgBuffer) :=
  let h := stamp p h in
  b ← encode_header_length (HeaderByteSize h) b;
  '(ok, b) ← encode_header h b;
  if (ok : bool) then encode_message p b else mret (false, b).

(** *** What the buffer holds after a message has been encoded *)

(** The bytes of a frame. *)
Definition frame_bytes h (p : Pb) : list Z :=
  le_bytes 4 (hton32 (Z.of_nat (length (serialize_header h)))) ++ serialize_header h ++ serialize p.

Lemma frame_bytes_length h p :
  length (frame_bytes h p) = (4 + length (serialize_header h) + length (serialize p))%nat.
Proof. unfold frame_bytes. rewrite !length_app, le_bytes_length. lia. Qed.

(** A frame a receiver accepts. *)
Definition frame_fits h (p : Pb) : Prop := Z.of_nat (length (frame_bytes h p)) <= MSG_BUF_SIZE.

Lemma MSG_BUF_SIZE_small : MSG_BUF_SIZE < 2 ^ 31 - MSG_BUF_SIZE.
Proof. by vm_compute. Qed.

Lemma frame_fits_sizes h p :
  frame_fits h p ->
  4 + Z.of_nat (length (serialize_header h)) + Z.of_nat (length (serialize p)) <= MSG_BUF_SIZE.
Proof. unfold frame_fits. rewrite frame_bytes_length. lia. Qed.

Lemma encode_frame h0 p b :
  let h := stamp p h0 in
  Z.of_nat (length (m_buffer b)) = MSG_BUF_SIZE + HEADER_LENGTH -> frame_fits h p ->
  exists memory,
    encode h0 p b = Ok (true, mkMsgBuffer (Z.of_nat (length (serialize_header h))) (u32 (msg_length h))
                                (frame_bytes h p ++ memory)) /\
    length (frame_bytes h p ++ memory) = length (m_buffer b).
Proof.
  intros h Hcap Hfit. pose proof (frame_fits_sizes _ _ Hfit) as Hs. pose proof MSG_BUF_SIZE_small as Hsmall.
  unfold encode. fold h. cbv zeta. unfold encode_header_length, encode_header, encode_message, HeaderByteSize. simpl m_buffer.
  change HEADER_LENGTH with 4 in *.
  set (hl := length (serialize_header h)) in *. set (bl := length (serialize p)) in *.
  assert (u32 (i32 (Z.of_nat hl)) = Z.of_nat hl) as Hhl.
  { rewrite wrap_swrap by lia. apply wrap_id. unfold fits. change (2 ^ 32) with (2 * 2 ^ 31). lia. }
  rewrite Hhl. change (m_header_length (b <| m_header_length := Z.of_nat hl |>)) with (Z.of_nat hl).
  set (pre := le_bytes 4 (hton32 (Z.of_nat hl))).
  assert (length pre = 4%nat) as Hpre by apply le_bytes_length.
  pose proof (write_at_append [] pre (m_buffer b)) as Hw. cbn [length app take] in Hw.
  change (Z.of_nat 0) with 0 in Hw.
  rewrite Hw by (done || lia). cbn [mbind outcome_bind mret outcome_ret]. clear Hw.
  cbn [m_header_length m_buffer update].
  rewrite Hpre. set (b1 := pre ++ drop (0 + 4) (m_buffer b)).
  assert (length b1 = length (m_buffer b)) as Hb1.
  { unfold b1. rewrite length_app, length_drop, Hpre. lia. }
  replace 4 with (Z.of_nat (length pre)) by (rewrite Hpre; done).
  rewrite (write_at_append pre (serialize_header h) b1).
  2: { rewrite Hpre. fold hl. lia. }
  2: { unfold b1. apply take_app_length. }
  cbn [mbind outcome_bind mret outcome_ret m_header_length m_buffer update].
  set (b2 := pre ++ serialize_header h ++ drop _ b1).
  assert (length b2 = length (m_buffer b)) as Hb2.
  { unfold b2. rewrite !length_app, length_drop, Hpre. fold hl. lia. }
  replace (Z.of_nat (length pre) + Z.of_nat hl) with (Z.of_nat (length (pre ++ serialize_header h))).
  2: { rewrite length_app. fold hl. lia. }
  rewrite (write_at_append (pre ++ serialize_header h) (serialize p) b2).
  2: { rewrite length_app, Hpre. fold hl bl. lia. }
  2: { unfold b2. rewrite (assoc_L (++)). apply take_app_length. }
  cbn [mbind outcome_bind mret outcome_ret].
  set (rest := drop _ b2). exists rest. unfold frame_bytes. fold hl pre. rewrite <- !(assoc_L (++)). split; [done|].
  rewrite !length_app. unfold rest. rewrite length_drop, length_app, Hb2, Hpre. fold hl bl. lia.
Qed.

(** A frame read back piece by piece. *)
Lemma decode_frame_length h p b rest :
  frame_fits h p -> m_buffer b = le_bytes 4 (hton32 (Z.of_nat (length (serialize_header h)))) ++ rest ->
  decode_header_length b = Ok (b <| m_header_length := Z.of_nat (length (serialize_header h)) |>).
Proof.
  intros Hfit Hb. pose proof (frame_fits_sizes _ _ Hfit) as Hs. pose proof MSG_BUF_SIZE_small as Hsmall.
  unfold decode_header_length. rewrite Hb, read_at_Ok; [|lia|lia|rewrite length_app, le_bytes_length; lia].
  cbn [mbind outcome_bind mret outcome_ret]. change (Z.to_nat 0) with 0%nat. rewrite drop_0.
  change (Z.to_nat 4) with 4%nat. rewrite take_app_length' by by rewrite le_bytes_length.
  assert (fits 32 (Z.of_nat (length (serialize_header h)))) as Hf.
  { unfold fits. change (2 ^ 32) with (2 * 2 ^ 31). lia. }
  rewrite le_value_bytes by by apply Swap32_fits. rewrite ntoh32_hton32 by done. by rewrite wrap_id.
Qed.

Lemma read_at_middle (front mid rest : list Z) off n :
  off = Z.of_nat (length front) -> n = Z.of_nat (length mid) ->
  read_at off n (front ++ mid ++ rest) = Ok mid.
Proof.
  intros -> ->. rewrite read_at_Ok; [|lia|lia|rewrite !length_app; lia].
  by rewrite !Nat2Z.id, drop_app_length, take_app_length.
Qed.

Lemma decode_frame_header h b (pre rest : list Z) :
  header_ok h -> length pre = 4%nat -> m_header_length b = Z.of_nat (length (serialize_header h)) ->
  m_buffer b = pre ++ serialize_header h ++ rest ->
  decode_header b = Ok (Some h, b <| m_msg_length := u32 (msg_length h) |>).
Proof.
  intros Hok Hpre Hl Hb. unfold decode_header.
  rewrite Hb, (read_at_middle pre _ rest); [|by rewrite Hpre|done].
  cbn [mbind outcome_bind]. by rewrite parse_serialize_header.
Qed.

Lemma decode_frame_message p h b (pre rest : list Z) :
  length pre = 4%nat -> m_header_length b = Z.of_nat (length (serialize_header h)) ->
  m_msg_length b = Z.of_nat (length (serialize p)) ->
  m_buffer b = pre ++ serialize_header h ++ serialize p ++ rest ->
  decode_message (descriptor p) b = Ok (Some p).
Proof.
  intros Hpre Hl Hm Hb. unfold decode_message.
  rewrite Hb, (assoc_L (++)), (read_at_middle (pre ++ serialize_header h) _ rest); [|rewrite length_app, Hpre, Hl; change HEADER_LENGTH with 4; lia|done].
  cbn [mbind outcome_bind mret outcome_ret]. by rewrite parse_serialize.
Qed.

(** The header of a sent message is one the receiver checks. *)
Lemma stamp_ok p h :
  header_ok h -> header_ok (stamp p h) /\ header_check (stamp p h) = check_result (stamp p h).
Proof.
  intros (H1 & H2 & H3 & _ & _ & H6). split; [|done]. split_and!; try done.
  - unfold stamp, ByteSize, int32_ok. simpl. unfold swrap.
    pose proof (Z.mod_pos_bound (Z.of_nat (length (serialize p)) + 2 ^ (32 - 1)) (2 ^ 32)) as Hb.
    change (2 ^ (32 - 1)) with (2 ^ 31) in *. change (2 ^ 32) with (2 * 2 ^ 31) in *. lia.
  - unfold stamp, header_check. simpl. auto 8 with machine lia.
Qed.

Lemma stamp_length p h :
  Z.of_nat (length (serialize p)) < 2 ^ 31 -> msg_length (stamp p h) = Z.of_nat (length (serialize p)).
Proof. intros Hp. unfold stamp, ByteSize. simpl. apply swrap_id; [lia|]. change (2 ^ (32 - 1)) with (2 ^ 31). lia. Qed.
End msg_buffer.
