(* ===== verification/Plain.v ===== *)
(** * A plain wire format

    Concrete messages for the examples: a message is its command and its bytes, a
    header its six fields in a fixed width. *)
From Stdlib Require Import ZArith Lia.
From stdpp Require Import base tactics numbers sorting option gmap list.
From S2P Require Import Prelude Bytes SendQueue Frame.

Definition plain_header (h : Header) : list Z :=
  le_bytes 4 (u32 (cmdtype h)) ++ le_bytes 4 (u32 (type h)) ++ le_bytes 8 (sequenceid h) ++
  le_bytes 4 (u32 (msg_length h)) ++ le_bytes 8 (check_result h) ++ le_bytes 4 (u32 (response_result h)).

(** The [n] bytes from [i] on. *)
Definition field (i n : nat) (bytes : list Z) : Z := le_value (take n (drop i bytes)).

Definition parse_plain_header (bytes : list Z) : option Header :=
  if decide (length bytes = 32%nat) then
    Some (mkHeader (i32 (field 0 4 bytes)) (i32 (field 4 4 bytes)) (field 8 8 bytes)
                   (i32 (field 16 4 bytes)) (field 20 8 bytes) (i32 (field 28 4 bytes)))
  else None.

Lemma plain_header_length h : length (plain_header h) = 32%nat.
Proof. unfold plain_header. by rewrite !length_app, !le_bytes_length. Qed.

(** A field behind what comes before it. *)
Lemma field_at i n z (front rest : list Z) :
  length front = i -> fits (8 * Z.of_nat n) z -> field i n (front ++ le_bytes n z ++ rest) = z.
Proof.
  intros <- Hz. unfold field. rewrite drop_app_length, take_app_length' by (by rewrite le_bytes_length).
  by apply le_value_bytes.
Qed.

(** The bytes at hand are [front ++ f ++ rest]. *)
Ltac field_is front f rest :=
  match goal with |- field ?i ?n ?bytes = ?z =>
    let Heq := fresh in
    assert (bytes = front ++ f ++ rest) as Heq by (unfold bytes; by rewrite <- ?(assoc_L (++)));
    rewrite Heq; by apply field_at
  end.

Lemma i32_u32 z : int32_ok z -> i32 (u32 z) = z.
Proof.
  intros Hz. unfold i32, swrap, u32, wrap. rewrite Zplus_mod_idemp_l.
  rewrite Z.mod_small; [lia|]. unfold int32_ok in Hz. change (2 ^ (32 - 1)) with (2 ^ 31).
  change (2 ^ 32) with (2 * 2 ^ 31). lia.
Qed.

Lemma parse_plain h : header_ok h -> parse_plain_header (plain_header h) = Some h.
Proof.
  intros (H1 & H2 & H3 & H4 & H5 & H6). unfold parse_plain_header.
  rewrite decide_True by apply plain_header_length. unfold plain_header.
  set (f1 := le_bytes 4 (u32 (cmdtype h))). set (f2 := le_bytes 4 (u32 (type h))).
  set (f3 := le_bytes 8 (sequenceid h)). set (f4 := le_bytes 4 (u32 (msg_length h))).
  set (f5 := le_bytes 8 (check_result h)). set (f6 := le_bytes 4 (u32 (response_result h))).
  assert (forall z, fits (8 * Z.of_nat 4) (u32 z)) as Hu by (intros; apply wrap_fits; lia).
  rewrite <- (app_nil_r f6). set (bytes := f1 ++ _).
  assert (field 0 4 bytes = u32 (cmdtype h)) as -> by field_is (@nil Z) f1 (f2 ++ f3 ++ f4 ++ f5 ++ f6 ++ []).
  assert (field 4 4 bytes = u32 (type h)) as -> by field_is f1 f2 (f3 ++ f4 ++ f5 ++ f6 ++ []).
  assert (field 8 8 bytes = sequenceid h) as -> by field_is (f1 ++ f2) f3 (f4 ++ f5 ++ f6 ++ []).
  assert (field 16 4 bytes = u32 (msg_length h)) as -> by field_is (f1 ++ f2 ++ f3) f4 (f5 ++ f6 ++ []).
  assert (field 20 8 bytes = check_result h) as -> by field_is (f1 ++ f2 ++ f3 ++ f4) f5 (f6 ++ []).
  assert (field 28 4 bytes = u32 (response_result h)) as ->
    by field_is (f1 ++ f2 ++ f3 ++ f4 ++ f5) f6 (@nil Z).
  rewrite !i32_u32 by done. by destruct h.
Qed.

#[export] Instance plain_format : HeaderFormat := {|
  serialize_header := plain_header;
  parse_header := parse_plain_header;
  parse_serialize_header := parse_plain
|}.

(** A message: its command and its bytes. *)
Definition plain_parse (d : Z) (bytes : list Z) : option (Z * list Z) := Some (d, bytes).

#[export] Instance plain_protobuf : Protobuf (Z * list Z) Z.
Proof. refine {| descriptor := fst; serialize := snd; parse := plain_parse |}. by intros []. Defined.

Abbreviation plain_queue := (circular (Header * (Z * list Z))).

(** A maker that knows the commands 7 and 8. *)
Definition plain_maker : MessageMaker Z :=
  register_message 8 8 108 (register_message 7 7 107 (mkMaker ∅ ∅)).

(** The memory of a buffer. *)
Definition plain_memory : list Z := replicate (Z.to_nat (MSG_BUF_SIZE + HEADER_LENGTH)) 0.

Lemma plain_memory_length : Z.of_nat (length plain_memory) = MSG_BUF_SIZE + HEADER_LENGTH.
Proof.
  unfold plain_memory. rewrite length_replicate, Z2Nat.id; [done|]. by vm_compute.
Qed.
