(* ===== verification/TcpSession.v ===== *)
(** * A session

    TcpSession.cpp and Session.inl: reading frames off a socket and writing queued
    messages to it.  An asynchronous operation is kept in the session until its
    handler runs: a read ([m_reading]) writes what arrives to the receive buffer at
    once, a write ([m_writing]) sends what the send buffer holds when it completes.
    The handler of an operation that has completed waits in the loop of the session,
    and other work may be done before it: the session may be closed, which aborts the
    operations under way but not the handlers that wait. *)
From Stdlib Require Import ZArith Lia.
From stdpp Require Import base tactics numbers sorting option gmap list.
From S2P Require Import Prelude Bytes SendQueue Frame.

Definition CMD_SHUTDOWN_SESSION : Z := 6.

(** The handler of a read. *)
Inductive Reading : Set := ReadHeadLen | ReadHead | ReadBody.

Record AsyncRead : Set := mkRead {
  r_offset : Z;
  r_wanted : Z;
  r_got : Z;
  r_next : Reading
}.

(** The read has completed, and its handler waits. *)
Definition completed (r : AsyncRead) : bool := r_got r =? r_wanted r.

(** A write of [w_size] bytes; once the socket has taken them its handler waits. *)
Record AsyncWrite : Set := mkWrite {
  w_size : Z;
  w_taken : bool
}.

(** What is left of an operation when its socket is closed. *)
Definition unless_aborted {A : Type} (test : A -> bool) (o : option A) : option A :=
  match o with Some a => if test a then Some a else None | None => None end.

Section tcp_session.
Context {Pb Desc B : Type} `{Protobuf Pb Desc} `{HeaderFormat} `{CircularBuffer (Header * Pb) B}.
Implicit Types (h : Header) (p : Pb) (q : B).

(** What the session gives to the message dealer. *)
Inductive Dealt : Type :=
  | DealSessionOpen
  | DealSessionClose
  | Deal (h : Header) (p : Pb).

Record TcpSession : Type := mkSession {
  m_is_open : bool;
  m_cur_header : Header;
  m_recv_msg_buf : MsgBuffer;
  m_send_msg_buf : MsgBuffer;
  m_send_queue : B;
  m_sequenceid : Z;
  m_alive_time : Z;
  m_alive_interval : Z;
  m_now : Z;
  m_reading : option AsyncRead;
  m_writing : option AsyncWrite;
  m_dealt : list Dealt;
  m_wire : list Z
}.

#[export] Instance eta_TcpSession : Eta TcpSession := fun s =>
  mkSession (m_is_open s) (m_cur_header s) (m_recv_msg_buf s) (m_send_msg_buf s) (m_send_queue s)
    (m_sequenceid s) (m_alive_time s) (m_alive_interval s) (m_now s) (m_reading s) (m_writing s)
    (m_dealt s) (m_wire s).

Variable maker : MessageMaker Desc.
Implicit Type s : TcpSession.

(** A session on a connected socket. *)
Definition new_session (recv_memory send_memory : list Z) (now : Z) : TcpSession :=
  mkSession true empty_header (new_msg_buffer recv_memory) (new_msg_buffer send_memory) new_send_queue
    0 now 20 now None None [] [].

Definition deal (m : Dealt) s : TcpSession := s <| m_dealt ::= (fun l => l ++ [m]) |>.

(** Closing the socket aborts its operations, and their handlers only close again; the
    handlers of those that have completed wait on. *)
Definition do_close s : TcpSession :=
  if m_is_open s then
    deal DealSessionClose (s <| m_is_open := false |> <| m_reading ::= unless_aborted completed |>
                             <| m_writing ::= unless_aborted w_taken |>)
  else s.

Definition flush_alive s : TcpSession := s <| m_alive_time := m_now s |>.

Definition is_alive s : bool := m_now s <? m_alive_time s + m_alive_interval s.

Definition do_check_alive s : TcpSession := if is_alive s then s else do_close s.

(** *** Reading *)

(** [boost::asio::async_read]: the size is a [size_t], and reading nothing completes at
    once, even on a closed socket; another read of a closed socket fails, and its handler
    would close again. *)
Definition async_read (off n : Z) (next : Reading) s : TcpSession :=
  let n := u64 n in
  if (n =? 0) || m_is_open s then s <| m_reading := Some (mkRead off n 0 next) |> else s.

Definition do_read_head_len s : TcpSession := async_read 0 HEADER_LENGTH ReadHeadLen s.

(** [TcpSession::decode_header]. *)
Definition check_header s : outcome (bool * TcpSession) :=
  '(header, buf) ← decode_header (m_recv_msg_buf s);
  let s := s <| m_recv_msg_buf := buf |> in
  match header with
  | None => mret (false, s)
  | Some h =>
      let s := s <| m_cur_header := h |> in
      if MSG_BUF_SIZE <? buffer_length buf then mret (false, s)
      else if negb (Z.lxor (check_result h) (header_check h) =? 0) then mret (false, s)
      else mret (true, s)
  end.

Definition make_msg s : outcome (option Pb) :=
  let h := m_cur_header s in
  match make_message maker (type h) (cmdtype h) with
  | None => mret None
  | Some pbmsg => decode_message pbmsg (m_recv_msg_buf s)
  end.

Definition on_read_complete (err : bool) s : outcome TcpSession :=
  if negb err then
    msg ← make_msg s;
    match msg with
    | None => mret (do_close s)
    | Some p => mret (do_read_head_len (deal (Deal (m_cur_header s) p) (flush_alive s)))
    end
  else mret (do_close s).

Definition do_read_body s : outcome TcpSession :=
  '(ok, s) ← check_header s;
  if negb ok then mret (do_close s)
  else mret (async_read (HEADER_LENGTH + m_header_length (m_recv_msg_buf s)) (body_length (m_recv_msg_buf s))
               ReadBody s).

Definition on_read_head_complete (err : bool) s : outcome TcpSession :=
  if negb err then do_read_body s else mret (do_close s).

Definition do_read_head s : outcome TcpSession :=
  buf ← decode_header_length (m_recv_msg_buf s);
  let s := s <| m_recv_msg_buf := buf |> in
  if MSG_BUF_SIZE <? header_length buf then mret (do_close s)
  else mret (async_read HEADER_LENGTH (header_length buf) ReadHead s).

Definition on_read_head_len_complete (err : bool) s : outcome TcpSession :=
  if negb err then do_read_head s else mret (do_close s).

Definition read_handler (next : Reading) (err : bool) s : outcome TcpSession :=
  match next with
  | ReadHeadLen => on_read_head_len_complete err s
  | ReadHead => on_read_head_complete err s
  | ReadBody => on_read_complete err s
  end.

(** The loop runs the handler of a read that has completed. *)
Definition handle_read s : outcome TcpSession :=
  match m_reading s with
  | Some r => if completed r then read_handler (r_next r) false (s <| m_reading := None |>) else mret s
  | None => mret s
  end.

Fixpoint handle_reads (n : nat) s : outcome TcpSession :=
  match n with O => mret s | S n => s ← handle_read s; handle_reads n s end.

(** A byte arrives at the read under way; when it is the last one, the handler waits.
    (Without a read under way it stays with the system.) *)
Definition take_byte (b : Z) s : outcome TcpSession :=
  match m_reading s with
  | None => mret s
  | Some r =>
      if completed r then mret s
      else
        memory ← write_at (r_offset r + r_got r) [b] (m_buffer (m_recv_msg_buf s));
        mret (s <| m_recv_msg_buf ::= (fun buf => buf <| m_buffer := memory |>) |>
                <| m_reading := Some (mkRead (r_offset r) (r_wanted r) (r_got r + 1) (r_next r)) |>)
  end.

(** A byte arrives, and nothing comes between it and the handlers of the reads it
    completes.  There are three at most, the last two of reads of nothing. *)
Definition arrive_byte s (b : Z) : outcome TcpSession :=
  s ← take_byte b s;
  handle_reads 3 s.

Definition arrive (bytes : list Z) s : outcome TcpSession := mfold arrive_byte s bytes.

(** The connection is lost: the read under way fails. *)
Definition read_error s : outcome TcpSession :=
  match m_reading s with
  | None => mret s
  | Some r => if completed r then mret s else read_handler (r_next r) true (s <| m_reading := None |>)
  end.

(** *** Writing *)

(** Encode a message and start to write the buffer; what [encode] returns is
    ignored. *)
Definition write_message h p s : outcome TcpSession :=
  '(_, buf) ← encode h p (m_send_msg_buf s);
  mret (s <| m_send_msg_buf := buf |> <| m_writing := Some (mkWrite (u64 (buffer_length buf)) false) |>).

Definition do_write h p s : outcome TcpSession :=
  let is_in_write := negb (is_empty (m_send_queue s)) in
  match push (h, p) (m_send_queue s) with
  | None => mret (do_close s)
  | Some q =>
      let s := s <| m_send_queue := q |> in
      if negb is_in_write then
        if negb (m_is_open s) then mret s else write_message h p s
      else mret s
  end.

Definition on_write_complete (err : bool) s : outcome TcpSession :=
  if negb err then
    _ ← deref (front (m_send_queue s));
    let s := s <| m_send_queue := (pop (m_send_queue s)).2 |> in
    if negb (is_empty (m_send_queue s)) then
      if negb (m_is_open s) then mret s
      else
        '(h, p) ← deref (front (m_send_queue s));
        write_message h p s
    else mret s
  else mret (do_close s).

(** The socket has taken all the bytes of the write; the handler waits. *)
Definition write_taken s : outcome TcpSession :=
  match m_writing s with
  | Some (mkWrite n false) =>
      bytes ← read_at 0 n (m_buffer (m_send_msg_buf s));
      mret (s <| m_writing := Some (mkWrite n true) |> <| m_wire ::= (fun w => w ++ bytes) |>)
  | _ => mret s
  end.

(** The loop runs the handler of a write that has completed. *)
Definition handle_write s : outcome TcpSession :=
  match m_writing s with
  | Some (mkWrite _ true) => on_write_complete false (s <| m_writing := None |>)
  | _ => mret s
  end.

(** The same with nothing between the write and its handler. *)
Definition write_done s : outcome TcpSession :=
  s ← handle_write s;
  s ← write_taken s;
  handle_write s.

Definition write_error s : outcome TcpSession :=
  match m_writing s with
  | Some (mkWrite _ false) => on_write_complete true (s <| m_writing := None |>)
  | _ => mret s
  end.

(** *** Sending *)

Definition set_msg_sequenceid h s : Header * TcpSession :=
  let h := if type h =? 0 then h <| type := MsgType.NOTIFY_REQUEST |> else h in
  (h <| sequenceid := m_sequenceid s |>, s <| m_sequenceid := u64 (m_sequenceid s + 1) |>).

Definition do_send_message h p s : outcome TcpSession :=
  let (h, s) := set_msg_sequenceid h s in do_write h p s.

(** [send_response] posts this. *)
Definition write_fun h p s : outcome TcpSession := do_write h p s.

(** The work is posted to the loop of the session, which does it in order. *)
Definition send h p s : outcome TcpSession :=
  if cmdtype h =? CMD_SHUTDOWN_SESSION then mret (do_close s) else do_send_message h p s.

Definition start s : TcpSession :=
  deal DealSessionOpen (do_read_head_len (flush_alive s)).

(** ** What is received *)

(** The receive buffer with other bytes. *)
Definition recv_bytes (memory : list Z) s : TcpSession :=
  s <| m_recv_msg_buf ::= (fun buf => buf <| m_buffer := memory |>) |>.

Definition recv_memory s : list Z := m_buffer (m_recv_msg_buf s).

(** No handler of a read waits. *)
Definition idle s : Prop := forall r, m_reading s = Some r -> completed r = false.

Lemma handle_read_idle s : idle s -> handle_read s = Ok s.
Proof. intros Hi. unfold handle_read. destruct (m_reading s) as [r|] eqn:E; [by rewrite (Hi r E)|done]. Qed.

Lemma handle_reads_idle n s : idle s -> handle_reads n s = Ok s.
Proof.
  intros Hi. induction n as [|n IH]; [done|]. cbn [handle_reads]. by rewrite handle_read_idle.
Qed.

Lemma reading_idle s off want got next :
  m_reading s = Some (mkRead off want got next) -> got <> want -> idle s.
Proof. intros Hr Hg r. rewrite Hr. intros [= <-]. by apply Z.eqb_neq. Qed.

Lemma arrive_byte_reading off want got next b memory s :
  m_reading s = Some (mkRead off want got next) -> got <> want ->
  write_at (off + got) [b] (recv_memory s) = Ok memory ->
  arrive_byte s b =
    if got + 1 =? want then read_handler next false (recv_bytes memory s <| m_reading := None |>) ≫= handle_reads 2
    else Ok (recv_bytes memory s <| m_reading := Some (mkRead off want (got + 1) next) |>).
Proof.
  intros Hr Hg Hw. unfold arrive_byte, take_byte. rewrite Hr. unfold completed. cbn [r_offset r_got r_wanted r_next].
  rewrite (proj2 (Z.eqb_neq _ _) Hg). change (m_buffer (m_recv_msg_buf s)) with (recv_memory s). rewrite Hw.
  cbn [mbind outcome_bind mret outcome_ret].
  set (s1 := recv_bytes memory s <| m_reading := Some (mkRead off want (got + 1) next) |>).
  transitivity (handle_reads 3 s1); [done|]. destruct (got + 1 =? want) eqn:E.
  - change (handle_reads 3 s1) with (handle_read s1 ≫= handle_reads 2). unfold handle_read.
    change (m_reading s1) with (Some (mkRead off want (got + 1) next)). unfold completed. cbn [r_got r_wanted r_next].
    by rewrite E.
  - apply handle_reads_idle, (reading_idle s1 off want (got + 1) next); [done|by apply Z.eqb_neq].
Qed.

(** A read that gets all it wants. *)
Lemma arrive_fill off want got next (l : list Z) s :
  m_reading s = Some (mkRead off want got next) -> 0 <= off -> 0 <= got ->
  (0 < length l)%nat -> got + Z.of_nat (length l) = want ->
  off + want <= Z.of_nat (length (recv_memory s)) ->
  arrive l s = read_handler next false
    (recv_bytes (take (Z.to_nat (off + got)) (recv_memory s) ++ l ++
                 drop (Z.to_nat (off + want)) (recv_memory s)) s <| m_reading := None |>) ≫= handle_reads 2.
Proof.
  revert got s; induction l as [|b l IH]; intros got s Hr Hoff Hgot Hl Hw Hfit; [simpl in Hl; lia|].
  unfold arrive. cbn [mfold]. set (mem := recv_memory s) in *. simpl in Hw.
  set (mem1 := take (Z.to_nat (off + got)) mem ++ [b] ++ drop (Z.to_nat (off + got) + 1) mem).
  rewrite (arrive_byte_reading off want got next b mem1 s Hr) by (lia || (apply write_at_Ok; simpl; lia)).
  destruct (got + 1 =? want) eqn:E; cbn [mbind outcome_bind].
  - destruct l; [|simpl in Hw; lia]. cbn [mfold]. rewrite bind_Ok_r.
    do 4 f_equal. unfold mem1. do 3 f_equal. lia.
  - set (s1 := recv_bytes mem1 s <| m_reading := _ |>).
    assert (length mem1 = length mem) as Hlen.
    { unfold mem1. rewrite !length_app, length_take, length_drop. simpl. lia. }
    assert (recv_memory s1 = mem1) as Hm1 by done.
    change (mfold arrive_byte s1 l) with (arrive l s1).
    rewrite (IH (got + 1) s1); [|done|done|lia|destruct l; simpl in *; lia|lia|rewrite Hm1, Hlen; done].
    rewrite Hm1. do 2 f_equal.
    assert (take (Z.to_nat (off + (got + 1))) mem1 = take (Z.to_nat (off + got)) mem ++ [b]) as ->.
    { unfold mem1. rewrite (assoc_L (++)), take_app_length'; [done|].
      rewrite length_app, length_take. simpl. lia. }
    assert (drop (Z.to_nat (off + want)) mem1 = drop (Z.to_nat (off + want)) mem) as ->.
    { unfold mem1. rewrite (assoc_L (++)), drop_app_ge; [rewrite drop_drop; f_equal|];
        rewrite length_app, length_take; simpl; lia. }
    rewrite <- (assoc_L (++)). done.
Qed.

(** The same for the read an operation starts, when its handlers may run [k] times
    before the bytes come. *)
Lemma arrive_async k off n next (l : list Z) s :
  (1 <= k)%nat -> m_is_open s = true ->
  m_reading s = None -> 0 <= off -> n = Z.of_nat (length l) -> n < 2 ^ 63 ->
  off + n <= Z.of_nat (length (recv_memory s)) ->
  exists j, (pred k = j \/ j = 2%nat) /\
    handle_reads k (async_read off n next s) ≫= arrive l =
    read_handler next false
      (recv_bytes (take (Z.to_nat off) (recv_memory s) ++ l ++ drop (Z.to_nat (off + n)) (recv_memory s)) s)
      ≫= handle_reads j.
Proof.
  intros Hk Ho Hr Hoff -> Hn Hfit. unfold async_read.
  rewrite wrap_id; [|unfold fits; change (2 ^ 64) with (2 * 2 ^ 63); lia].
  rewrite Ho, orb_true_r. set (s1 := s <| m_reading := _ |>).
  destruct (decide (l = [])) as [->|Hne].
  - exists (pred k). split; [by left|]. destruct k as [|k]; [lia|]. cbn [handle_reads pred].
    unfold arrive. cbn [mfold]. rewrite bind_Ok_r.
    change (handle_read s1) with (read_handler next false (s1 <| m_reading := None |>)). do 2 f_equal.
    change (Z.of_nat (length [])) with 0. rewrite Z.add_0_r, app_nil_l, take_drop.
    destruct s as [? ? [] ? ? ? ? ? ? ? ? ? ?]. simpl in *. by subst.
  - exists 2%nat. split; [by right|].
    assert (0 < length l)%nat as Hl by (destruct l; [done|simpl; lia]).
    rewrite (handle_reads_idle k s1) by (eapply (reading_idle s1); [done|lia]). cbn [mbind outcome_bind].
    rewrite (arrive_fill off (Z.of_nat (length l)) 0 next) by (done || lia).
    rewrite Z.add_0_r. do 2 f_equal. destruct s as [? ? [] ? ? ? ? ? ? ? ? ? ?]. simpl in *. by subst.
Qed.

(** An open session that waits for a frame. *)
Definition waiting s : Prop :=
  m_is_open s = true /\
  m_reading s = Some (mkRead 0 HEADER_LENGTH 0 ReadHeadLen) /\
  Z.of_nat (length (recv_memory s)) = MSG_BUF_SIZE + HEADER_LENGTH.

(** A message that the receiver knows and that fits a frame. *)
Definition receivable h p : Prop :=
  header_ok h /\ frame_fits (stamp p h) p /\ make_message maker (type h) (cmdtype h) = Some (descriptor p).

Lemma arrive_app l1 l2 s : arrive (l1 ++ l2) s = arrive l1 s ≫= arrive l2.
Proof. apply mfold_app. Qed.

Lemma bind_arrive_app (m : outcome TcpSession) l1 l2 :
  m ≫= arrive (l1 ++ l2) = (m ≫= arrive l1) ≫= arrive l2.
Proof. destruct m as [s|]; [|done]. apply mfold_app. Qed.

(** From the length of a frame to its header. *)
Lemma receive_head k h p s pre (rest : list Z) :
  (2 <= k)%nat -> m_is_open s = true ->
  m_reading s = None -> Z.of_nat (length (recv_memory s)) = MSG_BUF_SIZE + HEADER_LENGTH ->
  frame_fits h p -> pre = le_bytes 4 (hton32 (Z.of_nat (length (serialize_header h)))) ->
  recv_memory s = pre ++ rest ->
  exists rest' j, (1 <= j)%nat /\
    (do_read_head s ≫= handle_reads k) ≫= arrive (serialize_header h) =
    do_read_body (s <| m_recv_msg_buf := mkMsgBuffer (Z.of_nat (length (serialize_header h)))
      (m_msg_length (m_recv_msg_buf s)) (pre ++ serialize_header h ++ rest') |>) ≫= handle_reads j /\
    length (pre ++ serialize_header h ++ rest') = length (recv_memory s).
Proof.
  intros Hk Ho Hr Hcap Hfit -> Hm. pose proof (frame_fits_sizes _ _ Hfit) as Hs.
  pose proof MSG_BUF_SIZE_small as Hsmall. set (hb := serialize_header h) in *. set (pre := le_bytes 4 _) in *.
  assert (length pre = 4%nat) as Hpre by apply le_bytes_length. change HEADER_LENGTH with 4 in *.
  unfold do_read_head. rewrite (decode_frame_length h p (m_recv_msg_buf s) rest Hfit Hm).
  cbn [mbind outcome_bind]. fold hb. set (s1 := s <| m_recv_msg_buf := _ |>).
  change (header_length _) with (i32 (Z.of_nat (length hb))).
  rewrite swrap_id by (lia || (change (2 ^ (32 - 1)) with (2 ^ 31); lia)).
  destruct (MSG_BUF_SIZE <? Z.of_nat (length hb)) eqn:E; [lia|]. clear E.
  cbn [mbind outcome_bind mret outcome_ret]. change (recv_memory s) with (recv_memory s1) in Hm, Hcap |- *.
  destruct (arrive_async k HEADER_LENGTH (Z.of_nat (length hb)) ReadHead hb s1) as (j & Hj & Heq);
    try done; change HEADER_LENGTH with 4 in *; try lia.
  exists (drop (Z.to_nat (4 + Z.of_nat (length hb))) (pre ++ rest)), j. split; [lia|]. split.
  - etrans; [exact Heq|]. rewrite Hm. change (Z.to_nat 4) with 4%nat. rewrite take_app_length' by done.
    cbn [read_handler]. unfold on_read_head_complete. cbn [negb].
    destruct s as [? ? [] ? ? ? ? ? ? ? ? ? ?]. done.
  - rewrite !length_app, length_drop, length_app. rewrite Hm, length_app in Hcap |- *. lia.
Qed.

(** From the header to the message. *)
Lemma receive_body k h p s pre (rest : list Z) :
  (1 <= k)%nat -> m_is_open s = true ->
  header_ok h -> header_check h = check_result h -> msg_length h = Z.of_nat (length (serialize p)) ->
  make_message maker (type h) (cmdtype h) = Some (descriptor p) ->
  m_reading s = None -> Z.of_nat (length (recv_memory s)) = MSG_BUF_SIZE + HEADER_LENGTH ->
  frame_fits h p -> length pre = 4%nat -> recv_memory s = pre ++ serialize_header h ++ rest ->
  m_header_length (m_recv_msg_buf s) = Z.of_nat (length (serialize_header h)) ->
  returns ((do_read_body s ≫= handle_reads k) ≫= arrive (serialize p)) (fun s' =>
    waiting s' /\ m_dealt s' = m_dealt s ++ [Deal h p] /\ m_is_open s' = m_is_open s).
Proof.
  intros Hk Ho Hok Hcheck Hlen Hmake Hr Hcap Hfit Hpre Hm Hhl. pose proof (frame_fits_sizes _ _ Hfit) as Hs.
  pose proof MSG_BUF_SIZE_small as Hsmall. set (hb := serialize_header h) in *. set (pb := serialize p) in *.
  unfold do_read_body, check_header.
  rewrite (decode_frame_header h (m_recv_msg_buf s) pre rest Hok Hpre Hhl Hm). cbn [mbind outcome_bind].
  rewrite Hlen. rewrite (wrap_id 32); [|unfold fits; change (2 ^ 32) with (2 * 2 ^ 31); lia].
  set (buf := (m_recv_msg_buf s) <| m_msg_length := _ |>).
  assert (buffer_length buf = 4 + Z.of_nat (length hb) + Z.of_nat (length pb)) as Hbuf.
  { rewrite buffer_length_small; change (m_header_length buf) with (m_header_length (m_recv_msg_buf s));
      change (m_msg_length buf) with (Z.of_nat (length pb)); rewrite ?Hhl; change HEADER_LENGTH with 4; lia. }
  rewrite Hbuf, Hcheck, Z.lxor_nilpotent. destruct (MSG_BUF_SIZE <? _) eqn:E; [lia|]. clear E.
  cbn [negb Z.eqb mbind outcome_bind mret outcome_ret]. set (s1 := s <| m_recv_msg_buf := buf |> <| m_cur_header := h |>).
  change (body_length (m_recv_msg_buf s1)) with (i32 (Z.of_nat (length pb))).
  rewrite swrap_id by (lia || (change (2 ^ (32 - 1)) with (2 ^ 31); lia)).
  change (m_header_length (m_recv_msg_buf s1)) with (m_header_length (m_recv_msg_buf s)). rewrite Hhl.
  change (recv_memory s) with (recv_memory s1) in Hm, Hcap.
  destruct (arrive_async k (HEADER_LENGTH + Z.of_nat (length hb)) (Z.of_nat (length pb)) ReadBody pb s1)
    as (j & _ & Heq); try done; change HEADER_LENGTH with 4 in *; try lia.
  match goal with |- returns ?m _ => replace m with
    (handle_reads k (async_read (HEADER_LENGTH + Z.of_nat (length hb)) (Z.of_nat (length pb)) ReadBody s1)
       ≫= arrive pb) by done end.
  change HEADER_LENGTH with 4. rewrite Heq.
  rewrite Hm. rewrite (assoc_L (++) pre hb rest), take_app_length' by (rewrite length_app; lia).
  set (after := drop _ _). set (s2 := recv_bytes _ s1). cbn [read_handler]. unfold on_read_complete, make_msg.
  cbn [negb]. change (m_cur_header s2) with h. rewrite Hmake.
  rewrite (decode_frame_message p h (m_recv_msg_buf s2) pre after Hpre Hhl eq_refl).
  2: { change (m_buffer (m_recv_msg_buf s2)) with ((pre ++ hb) ++ pb ++ after). by rewrite <- (assoc_L (++)). }
  cbn [mbind outcome_bind mret outcome_ret]. unfold do_read_head_len.
  set (s3 := deal _ _). assert (m_is_open s3 = true) as Ho3 by exact Ho.
  assert (async_read 0 HEADER_LENGTH ReadHeadLen s3 =
    s3 <| m_reading := Some (mkRead 0 HEADER_LENGTH 0 ReadHeadLen) |>) as ->.
  { unfold async_read. by rewrite Ho3, orb_true_r. }
  rewrite handle_reads_idle by by eapply reading_idle.
  apply returns_ret. split_and!; [|done..]. split; [exact Ho|]. split; [done|].
  change (recv_memory _) with ((pre ++ hb) ++ pb ++ after). unfold after. fold hb in Hm.
  change HEADER_LENGTH with 4. rewrite Hm in Hcap. rewrite !length_app, length_drop, !length_app in *. lia.
Qed.

Lemma receive_frame h p s :
  waiting s -> receivable h p ->
  returns (arrive (frame_bytes (stamp p h) p) s) (fun s' =>
    waiting s' /\ m_dealt s' = m_dealt s ++ [Deal (stamp p h) p] /\ m_is_open s' = m_is_open s).
Proof.
  intros (Ho & Hr & Hcap) (Hok & Hfit & Hmake). pose proof (frame_fits_sizes _ _ Hfit) as Hs.
  pose proof MSG_BUF_SIZE_small as Hsmall. destruct (stamp_ok p h Hok) as [Hsok Hcheck].
  unfold frame_bytes. set (pre := le_bytes 4 _).
  assert (length pre = 4%nat) as Hpre by apply le_bytes_length. change HEADER_LENGTH with 4 in *.
  rewrite arrive_app, bind_arrive_app.
  rewrite (arrive_fill 0 4 0 ReadHeadLen pre s Hr) by (rewrite ?Hpre; lia).
  change (Z.to_nat (0 + 0)) with 0%nat. rewrite take_0, app_nil_l.
  set (s1 := recv_bytes _ s <| m_reading := None |>).
  assert (recv_memory s1 = pre ++ drop 4 (recv_memory s)) as Hm1 by done.
  assert (length (recv_memory s1) = length (recv_memory s)) as Hl1.
  { rewrite Hm1, length_app, length_drop. lia. }
  destruct (receive_head 2 (stamp p h) p s1 pre (drop 4 (recv_memory s))) as (rest & j & Hj & Heq & Hlen);
    try done; [by rewrite Hl1|].
  cbn [read_handler]. unfold on_read_head_len_complete. cbn [negb].
  rewrite Heq.
  set (s2 := s1 <| m_recv_msg_buf := _ |>).
  eapply returns_mono; [apply (receive_body j (stamp p h) p s2 pre rest)|]; try done.
  - apply stamp_length. lia.
  - change (recv_memory s2) with (pre ++ serialize_header (stamp p h) ++ rest). rewrite Hlen, Hl1. done.
Qed.

(** Every frame that arrives is dealt, in order. *)
Lemma receive_frames (msgs : list (Header * Pb)) s :
  waiting s -> Forall (fun m => receivable m.1 m.2) msgs ->
  returns (arrive (msgs ≫= (fun m => frame_bytes (stamp m.2 m.1) m.2)) s) (fun s' =>
    waiting s' /\ m_dealt s' = m_dealt s ++ ((fun m => Deal (stamp m.2 m.1) m.2) <$> msgs) /\
    m_is_open s' = m_is_open s).
Proof.
  revert s; induction msgs as [|[h p] msgs IH]; intros s Hw Hall.
  - apply returns_ret. csimpl. by rewrite app_nil_r.
  - apply Forall_cons in Hall as [Hm Hall]. simpl in Hm.
    change (arrive _ s) with
      (arrive (frame_bytes (stamp p h) p ++ (msgs ≫= (fun m => frame_bytes (stamp m.2 m.1) m.2))) s).
    rewrite arrive_app.
    eapply returns_bind; [by apply receive_frame|]. intros s1 (Hw1 & Hd1 & Ho1).
    eapply returns_mono; [by apply IH|]. intros s2 (Hw2 & Hd2 & Ho2).
    split_and!; [done| |congruence]. by rewrite Hd2, Hd1, <- (assoc_L (++)).
Qed.
End tcp_session.
