(* ===== verification/Delivery.v ===== *)
(** * What a session sends

    The events of a session, and that its writes put the frames of the messages
    it is given on the wire, whole and in the order of [send]: the send buffer
    holds the frame of the front of the queue for as long as the socket reads it. *)
From Stdlib Require Import ZArith Lia.
From stdpp Require Import base tactics numbers sorting option gmap list.
From S2P Require Import Prelude Bytes SendQueue Frame Plain TcpSession.

Section delivery.
Context {Pb Desc B : Type} `{Protobuf Pb Desc} `{HeaderFormat} `{CircularBuffer (Header * Pb) B}.
Variable maker : MessageMaker Desc.

Abbreviation Session := (TcpSession (Pb := Pb) (B := B)).
Implicit Types (s : Session) (h : Header) (p : Pb) (msgs sent : list (Header * Pb)).

(** What can happen to a session: the server sends a message, checks that the
    session is alive or a second passes; the socket reports.  The handler of an
    operation that completes runs at once ([Arrived], [Written]), or it waits ([Stored],
    [Taken]) and runs after whatever happens before ([HandleRead], [HandleWrite]). *)
Inductive Event : Type :=
  | Send (h : Header) (p : Pb)
  | Respond (h : Header) (p : Pb)
  | CheckAlive
  | Clock (now : Z)
  | Arrived (b : Z)
  | Stored (b : Z)
  | HandleRead
  | ReadLost
  | Written
  | Taken
  | HandleWrite
  | WriteLost.

Definition run_event s (e : Event) : outcome Session :=
  match e with
  | Send h p => send h p s
  | Respond h p => write_fun h p s
  | CheckAlive => mret (do_check_alive s)
  | Clock now => mret (s <| m_now := now |>)
  | Arrived b => arrive_byte maker s b
  | Stored b => take_byte b s
  | HandleRead => handle_read maker s
  | ReadLost => read_error maker s
  | Written => write_done s
  | Taken => write_taken s
  | HandleWrite => handle_write s
  | WriteLost => write_error s
  end.

Definition run (events : list Event) s : outcome Session := mfold run_event s events.

(** *** The messages that are sent *)

Definition number (n : Z) h : Header :=
  (if type h =? 0 then h <| type := MsgType.NOTIFY_REQUEST |> else h) <| sequenceid := n |>.

Definition sent_by (n : Z) (e : Event) : list (Header * Pb) :=
  match e with
  | Send h p => if cmdtype h =? CMD_SHUTDOWN_SESSION then [] else [(number n h, p)]
  | Respond h p => [(h, p)]
  | _ => []
  end.

Definition next_number (n : Z) (e : Event) : Z :=
  match e with
  | Send h p => if cmdtype h =? CMD_SHUTDOWN_SESSION then n else u64 (n + 1)
  | _ => n
  end.

(** The messages of a run: requests are numbered from [n] on, responses have the
    number of their request. *)
Fixpoint sent_messages (n : Z) (events : list Event) : list (Header * Pb) :=
  match events with
  | [] => []
  | e :: events => sent_by n e ++ sent_messages (next_number n e) events
  end.

Definition frame (m : Header * Pb) : list Z := frame_bytes (stamp m.2 m.1) m.2.
Definition frames msgs : list Z := msgs ≫= frame.
Definition sendable (m : Header * Pb) : Prop := frame_fits (stamp m.2 m.1) m.2.
Definition dealt_of (m : Header * Pb) : Dealt := Deal (stamp m.2 m.1) m.2.

(** *** The write side *)

Definition send_memory s : list Z := m_buffer (m_send_msg_buf s).

(** The session is writing the front of what it has still to write. *)
Definition writes s (todo : list (Header * Pb)) : Prop :=
  match todo with
  | [] => m_writing s = None
  | m :: _ => m_writing s = Some (mkWrite (Z.of_nat (length (frame m))) false) /\
              take (length (frame m)) (send_memory s) = frame m
  end.

(** A write has completed, and its handler waits. *)
Definition taken s : bool := match m_writing s with Some w => w_taken w | None => false end.

(** Of what was sent the frames of [gone] are on the wire; an open session holds
    the rest in its queue, with the last of [gone] before it until the handler of its
    write has run. *)
Definition wire_state (todo : list (Header * Pb)) s : Prop :=
  if m_is_open s then
    if taken s then exists m, contents (m_send_queue s) = m :: todo
    else contents (m_send_queue s) = todo /\ writes s todo
  else if taken s then contents (m_send_queue s) <> [] else m_writing s = None.

Definition wire_inv sent s : Prop :=
  queue_ok (m_send_queue s) /\
  Z.of_nat (length (send_memory s)) = MSG_BUF_SIZE + HEADER_LENGTH /\
  exists gone todo, sent = gone ++ todo /\ m_wire s = frames gone /\ wire_state todo s.

(** What sending leaves of the rest of the session: it may only be closed. *)
Definition kept s s' : Prop :=
  m_recv_msg_buf s' = m_recv_msg_buf s /\
  (m_is_open s' = m_is_open s /\ m_reading s' = m_reading s /\ m_dealt s' = m_dealt s \/
   m_is_open s = true /\ m_is_open s' = false /\
     m_reading s' = unless_aborted completed (m_reading s) /\
     m_dealt s' = m_dealt s ++ [DealSessionClose]).

#[local] Instance kept_refl : Reflexive kept.
Proof. intros s. split; [done|by left]. Qed.

#[local] Instance kept_trans : Transitive kept.
Proof.
  intros s1 s2 s3 [Hb1 Hk1] [Hb2 Hk2]. split; [congruence|].
  destruct Hk1 as [(Ho1 & Hr1 & Hd1)|(Ho1 & Ho1' & Hr1 & Hd1)], Hk2 as [(Ho2 & Hr2 & Hd2)|(Ho2 & Ho2' & Hr2 & Hd2)].
  - left. split_and!; congruence.
  - right. split_and!; congruence.
  - right. split_and!; congruence.
  - congruence.
Qed.

Lemma frames_app l1 l2 : frames (l1 ++ l2) = frames l1 ++ frames l2.
Proof. apply bind_app. Qed.

Lemma frames_one m : frames [m] = frame m.
Proof. apply app_nil_r. Qed.

Lemma unless_aborted_taken (o : option AsyncWrite) :
  unless_aborted w_taken o = if (match o with Some w => w_taken w | None => false end) then o else None.
Proof. by destruct o as [[? []]|]. Qed.

Lemma do_close_wire sent s : wire_inv sent s -> wire_inv sent (do_close s).
Proof.
  intros (Hq & Hb & gone & todo & Hs & Hw & Hstate). unfold do_close. destruct (m_is_open s) eqn:Ho; [|by split_and!; eauto].
  split_and!; [done..|]. exists gone, todo. split_and!; [done..|]. unfold wire_state, taken in *. rewrite Ho in Hstate.
  simpl. rewrite unless_aborted_taken. destruct (m_writing s) as [[n []]|]; simpl in *; [|done..].
  by destruct Hstate as [m ->].
Qed.

(** Starting to write the front of the queue. *)
Lemma write_message_writes h p s :
  sendable (h, p) -> Z.of_nat (length (send_memory s)) = MSG_BUF_SIZE + HEADER_LENGTH ->
  returns (write_message h p s) (fun s' =>
    writes s' [(h, p)] /\ Z.of_nat (length (send_memory s')) = MSG_BUF_SIZE + HEADER_LENGTH /\
    m_send_queue s' = m_send_queue s /\ m_wire s' = m_wire s /\ m_is_open s' = m_is_open s /\
    m_sequenceid s' = m_sequenceid s /\ kept s s').
Proof.
  intros Hfit Hb. pose proof (frame_fits_sizes _ _ Hfit) as Hs. pose proof MSG_BUF_SIZE_small as Hsmall.
  destruct (encode_frame h p (m_send_msg_buf s) Hb Hfit) as (memory & He & Hl).
  unfold write_message. rewrite He. cbn [mbind outcome_bind fst snd] in *. apply returns_ret.
  pose proof (frame_bytes_length (stamp p h) p) as Hfl.
  assert (msg_length (stamp p h) = Z.of_nat (length (serialize p))) as Hml by (apply stamp_length; lia).
  set (hb := serialize_header (stamp p h)) in *. set (pb := serialize p) in *.
  split; [split|split_and!; try done; [|split; [done|by left]]].
  - change (m_writing _) with (Some (mkWrite (u64 (buffer_length (mkMsgBuffer (Z.of_nat (length hb))
      (u32 (msg_length (stamp p h))) (frame_bytes (stamp p h) p ++ memory)))) false)).
    unfold frame. cbn [fst snd]. rewrite Hfl, Hml, (u32_small (Z.of_nat _)) by lia.
    rewrite buffer_length_small; cbn [m_header_length m_msg_length]; change HEADER_LENGTH with 4; try lia.
    rewrite u64_small by lia. do 2 f_equal. lia.
  - apply take_app_length.
  - change (send_memory _) with (frame_bytes (stamp p h) p ++ memory). by rewrite Hl.
Qed.

Lemma do_close_kept s : kept s (do_close s).
Proof. unfold do_close. split; destruct (m_is_open s) eqn:Ho; [done..|by right|by left]. Qed.

Lemma do_close_sequenceid s : m_sequenceid (do_close s) = m_sequenceid s.
Proof. unfold do_close. by destruct (m_is_open s). Qed.

Lemma do_close_closed s : m_is_open (do_close s) = false.
Proof. unfold do_close. by destruct (m_is_open s) eqn:Ho. Qed.

(** A closed session may drop what it still had to write. *)
Lemma wire_inv_closed sent more s : m_is_open s = false -> wire_inv sent s -> wire_inv (sent ++ more) s.
Proof.
  intros Ho (Hq & Hb & gone & todo & -> & Hw & Hstate). split_and!; [done..|].
  exists gone, (todo ++ more). rewrite (assoc_L (++)). split_and!; [done..|].
  unfold wire_state in *. by rewrite Ho in *.
Qed.

(** What only sees the other fields. *)
Lemma write_message_kept h p s s' : write_message h p s = Ok s' -> kept s s'.
Proof.
  unfold write_message. intros E. apply bind_Ok in E as ([b buf] & _ & [= <-]). split; [done|by left].
Qed.

Lemma do_write_kept h p s s' : do_write h p s = Ok s' -> kept s s'.
Proof.
  unfold do_write. destruct (push (h, p) (m_send_queue s)) as [q|]; [|intros [= <-]; apply do_close_kept].
  destruct (negb _); cbn zeta; [|intros [= <-]; split; [done|by left]].
  destruct (negb _); [intros [= <-]; split; [done|by left]|]. intros E. exact (write_message_kept _ _ _ _ E).
Qed.

Lemma on_write_complete_kept err s s' : on_write_complete err s = Ok s' -> kept s s'.
Proof.
  unfold on_write_complete. destruct err; cbn [negb]; [intros [= <-]; apply do_close_kept|].
  intros E. apply bind_Ok in E as (m & _ & E). cbn zeta in E.
  destruct (negb _); [|injection E as <-; split; [done|by left]].
  destruct (negb _); [injection E as <-; split; [done|by left]|].
  apply bind_Ok in E as ([h p] & _ & E). exact (write_message_kept _ _ _ _ E).
Qed.

Lemma write_taken_kept s s' : write_taken s = Ok s' -> kept s s'.
Proof.
  unfold write_taken. destruct (m_writing s) as [[n []]|]; [by intros [= <-]| |by intros [= <-]].
  intros E. apply bind_Ok in E as (bytes & _ & [= <-]). split; [done|by left].
Qed.

Lemma handle_write_kept s s' : handle_write s = Ok s' -> kept s s'.
Proof.
  unfold handle_write. destruct (m_writing s) as [[n []]|]; [|by intros [= <-]..].
  intros E. exact (on_write_complete_kept _ _ _ E).
Qed.

Lemma write_done_kept s s' : write_done s = Ok s' -> kept s s'.
Proof.
  unfold write_done. intros E. apply bind_Ok in E as (s1 & E1 & E). apply bind_Ok in E as (s2 & E2 & E3).
  etrans; [by apply handle_write_kept|]. etrans; [by apply write_taken_kept|]. by apply handle_write_kept.
Qed.

Lemma write_error_kept s s' : write_error s = Ok s' -> kept s s'.
Proof.
  unfold write_error. destruct (m_writing s) as [[n []]|]; [by intros [= <-]| |by intros [= <-]].
  intros E. exact (on_write_complete_kept _ _ _ E).
Qed.

Lemma do_write_wire h p sent s :
  wire_inv sent s -> sendable (h, p) ->
  returns (do_write h p s) (fun s' =>
    wire_inv (sent ++ [(h, p)]) s' /\ m_sequenceid s' = m_sequenceid s).
Proof.
  intros Hinv Hfit. pose proof Hinv as (Hq & Hb & gone & todo & Hs & Hw & Hstate).
  unfold do_write. pose proof (push_spec (h, p) (m_send_queue s) Hq) as Hpush.
  destruct (push (h, p) (m_send_queue s)) as [q|].
  2: { apply returns_ret. split; [|apply do_close_sequenceid].
       apply wire_inv_closed; [apply do_close_closed|by apply do_close_wire]. }
  destruct Hpush as [Hc Hqok]. set (s1 := s <| m_send_queue := q |>).
  assert (forall todo', sent ++ [(h, p)] = gone ++ todo' -> wire_state todo' s1 ->
    wire_inv (sent ++ [(h, p)]) s1) as Hmore by (intros todo' E Hst; split_and!; [done..|]; by exists gone, todo').
  assert (sent ++ [(h, p)] = gone ++ (todo ++ [(h, p)])) as Happ by by rewrite Hs, (assoc_L (++)).
  unfold wire_state, taken in Hmore, Hstate. change (m_is_open s1) with (m_is_open s) in *.
  change (m_writing s1) with (m_writing s) in Hmore. change (m_send_queue s1) with q in *.
  destruct (is_empty (m_send_queue s)) eqn:E; cbn [negb].
  - apply is_empty_spec in E. rewrite E in *. destruct (m_is_open s) eqn:Ho; cbn [negb].
    + destruct (match m_writing s with Some w => w_taken w | None => false end); [by destruct Hstate as [m [=]]|].
      destruct Hstate as [<- Hwr]. rewrite app_nil_r in Hs. subst gone.
      eapply returns_mono; [by apply (write_message_writes h p s1)|].
      intros s' (Hwr' & Hb' & Hq' & Hw' & Ho' & Hn' & _). split; [|done].
      split_and!; [by rewrite Hq'|done|]. exists sent, [(h, p)]. rewrite Hw'. split_and!; [done..|].
      unfold wire_state, taken. rewrite Ho', Hq'. change (m_is_open s1) with (m_is_open s). rewrite Ho.
      pose proof Hwr' as [-> _]. split; [|done]. change (contents (m_send_queue s1)) with (contents q). by rewrite Hc.
    + apply returns_ret. split; [|done]. apply (Hmore (todo ++ [(h, p)]) Happ).
      destruct (match m_writing s with Some w => w_taken w | None => false end); [|done]. by rewrite Hc.
  - apply returns_ret. split; [|done]. apply (Hmore (todo ++ [(h, p)]) Happ). rewrite Hc.
    assert (contents (m_send_queue s) <> []) as Hne by (intros Hn; apply is_empty_spec in Hn; congruence).
    destruct (m_is_open s); destruct (match m_writing s with Some w => w_taken w | None => false end).
    + destruct Hstate as [m ->]. by exists m.
    + destruct Hstate as [Hct Hwr]. rewrite Hct in *. split; [done|]. by destruct todo.
    + by destruct (contents (m_send_queue s)).
    + done.
Qed.

(** The socket has taken the frame at the front. *)
Lemma write_taken_wire sent s :
  wire_inv sent s -> Forall sendable sent ->
  returns (write_taken s) (fun s' =>
    wire_inv sent s' /\ m_sequenceid s' = m_sequenceid s /\ m_is_open s' = m_is_open s /\
    m_send_queue s' = m_send_queue s /\
    (m_is_open s = true -> contents (m_send_queue s) <> [] -> taken s' = true)).
Proof.
  intros Hinv Hfit. pose proof Hinv as (Hq & Hb & gone & todo & Hs & Hw & Hstate).
  unfold write_taken. unfold wire_state, taken in Hstate.
  destruct (m_writing s) as [[n []]|] eqn:E; cbn [w_taken] in Hstate.
  { apply returns_ret. split_and!; try done. intros _ _. unfold taken. by rewrite E. }
  2: { apply returns_ret. split_and!; try done. intros Ho Hne. rewrite Ho in Hstate. destruct Hstate as [Hc Hwr].
       destruct todo; [done|]. cbn [writes] in Hwr. destruct Hwr. congruence. }
  destruct (m_is_open s) eqn:Ho; [|done]. destruct Hstate as [Hc Hwr].
  destruct todo as [|m todo]; cbn [writes] in Hwr; [congruence|].
  rewrite E in Hwr. destruct Hwr as [Hn Hmem].
  assert (n = Z.of_nat (length (frame m))) as -> by congruence. clear Hn.
  pose proof (proj1 (Forall_forall _ _) Hfit m ltac:(rewrite Hs; set_solver)) as Hfitm.
  unfold sendable, frame_fits in Hfitm.
  assert (Z.of_nat (length (frame m)) <= Z.of_nat (length (send_memory s))) as Hle.
  { unfold frame in *. rewrite Hb. change HEADER_LENGTH with 4 in *. lia. }
  change (m_buffer (m_send_msg_buf s)) with (send_memory s). rewrite read_at_Ok by lia.
  cbn [mbind outcome_bind]. change (Z.to_nat 0) with 0%nat. rewrite drop_0, Nat2Z.id.
  rewrite Hmem. apply returns_ret. split_and!; [|done..]. split_and!; [done..|].
  exists (gone ++ [m]), todo. rewrite <- (assoc_L (++)). split; [done|].
  split; [rewrite frames_app, frames_one, <- Hw; done|].
  unfold wire_state, taken. simpl. rewrite Ho. by exists m.
Qed.

(** Its handler starts to write the next message. *)
Lemma handle_write_wire sent s :
  wire_inv sent s -> Forall sendable sent ->
  returns (handle_write s) (fun s' =>
    wire_inv sent s' /\ m_sequenceid s' = m_sequenceid s /\ m_is_open s' = m_is_open s /\ taken s' = false /\
    contents (m_send_queue s') = (if taken s then tail (contents (m_send_queue s))
                                  else contents (m_send_queue s))).
Proof.
  intros Hinv Hfit. pose proof Hinv as (Hq & Hb & gone & todo & Hs & Hw & Hstate).
  unfold handle_write, taken in *.
  destruct (m_writing s) as [[n []]|] eqn:E; cbn [w_taken] in *;
    [|apply returns_ret; by rewrite E..].
  set (s1 := s <| m_writing := None |>). unfold wire_state, taken in Hstate. rewrite E in Hstate. cbn [w_taken] in Hstate.
  assert (exists m rest, contents (m_send_queue s) = m :: rest /\ (m_is_open s = true -> rest = todo)) as (m & rest & Hc & Hrest).
  { destruct (m_is_open s); [destruct Hstate as [m Hm]; by exists m, todo|].
    destruct (contents (m_send_queue s)) as [|m rest]; [done|]. by exists m, rest. }
  unfold on_write_complete. cbn [negb]. change (m_send_queue s1) with (m_send_queue s).
  unfold front. rewrite Hc. cbn [head deref mbind outcome_bind].
  destruct (pop_spec (m_send_queue s) Hq) as (_ & Hpc & Hpq). rewrite Hc in Hpc. cbn [tail] in Hpc |- *.
  set (s2 := s1 <| m_send_queue := _ |>).
  change (contents (m_send_queue s2)) with (contents (pop (m_send_queue s)).2). rewrite Hpc.
  change (m_is_open s2) with (m_is_open s).
  assert (m_is_open s = false \/ rest = [] -> wire_inv sent s2) as Hdone.
  { intros Hcase. split_and!; [done..|]. exists gone, todo. split_and!; [done..|]. unfold wire_state, taken.
    change (m_is_open s2) with (m_is_open s). change (m_writing s2) with (@None AsyncWrite).
    change (contents (m_send_queue s2)) with (contents (pop (m_send_queue s)).2). rewrite Hpc.
    destruct (m_is_open s); [|done]. destruct Hcase as [?|Hn]; [done|]. rewrite <- Hrest, Hn by done. done. }
  destruct (is_empty (m_send_queue s2)) eqn:Ee; cbn [negb].
  - apply is_empty_spec in Ee. change (m_send_queue s2) with (pop (m_send_queue s)).2 in Ee.
    rewrite Ee in Hpc. apply returns_ret. split_and!; [by auto|done..|].
    change (contents (m_send_queue s2)) with (contents (pop (m_send_queue s)).2). by rewrite Ee.
  - destruct (m_is_open s) eqn:Ho; cbn [negb]; [|by apply returns_ret; split_and!; auto].
    rewrite (Hrest eq_refl) in *. destruct todo as [|[h p] todo].
    { exfalso. assert (is_empty (m_send_queue s2) = true); [by apply is_empty_spec|congruence]. }
    cbn [head deref mbind outcome_bind].
    assert (sendable (h, p)) as Hhp by (apply (proj1 (Forall_forall _ _) Hfit); rewrite Hs; set_solver).
    eapply returns_mono; [by apply (write_message_writes h p s2)|].
    intros s' (Hwr' & Hb' & Hq' & Hw' & Ho' & Hn' & _).
    change (m_is_open s2) with (m_is_open s) in Ho'. rewrite Ho in Ho'. pose proof Hwr' as [Hmw _].
    assert (taken s' = false) as Ht by (unfold taken; by rewrite Hmw).
    split_and!; [|done|done|unfold taken in Ht; exact Ht|by rewrite Hq'].
    split_and!; [by rewrite Hq'|done|]. exists gone, ((h, p) :: todo). rewrite Hw'. split_and!; [done..|].
    unfold wire_state. rewrite Ho', Ht, Hq'. by split.
Qed.

Lemma write_done_wire sent s :
  wire_inv sent s -> Forall sendable sent ->
  returns (write_done s) (fun s' =>
    wire_inv sent s' /\ m_sequenceid s' = m_sequenceid s /\ m_is_open s' = m_is_open s /\
    (m_is_open s = true -> length (contents (m_send_queue s')) <= pred (length (contents (m_send_queue s))))%nat).
Proof.
  intros Hinv Hfit. unfold write_done.
  eapply returns_bind; [by apply handle_write_wire|]. intros s1 (Hinv1 & Hn1 & Ho1 & Ht1 & Hc1).
  eapply returns_bind; [by apply (write_taken_wire sent)|]. intros s2 (Hinv2 & Hn2 & Ho2 & Hc2 & Ht2).
  eapply returns_mono; [by apply (handle_write_wire sent)|]. intros s3 (Hinv3 & Hn3 & Ho3 & Ht3 & Hc3).
  split_and!; [done|congruence|congruence|]. intros Ho.
  assert (length (contents (m_send_queue s1)) <= length (contents (m_send_queue s)))%nat as Hle1.
  { rewrite Hc1. destruct (taken s); [|done]. destruct (contents (m_send_queue s)); simpl; lia. }
  rewrite Hc2 in Hc3. destruct (taken s2) eqn:Et.
  - rewrite Hc3. revert Hle1. destruct (contents (m_send_queue s1)); simpl; lia.
  - rewrite Hc3. destruct (contents (m_send_queue s1)) as [|m l] eqn:Ec; [simpl; lia|exfalso].
    enough (false = true) by done. apply Ht2; [congruence|done].
Qed.
(** *** What is heard

    Reading leaves the write side alone; it deals messages, and what it deals last
    is that the session has closed. *)
Definition write_side s : MsgBuffer * B * Z * list Z :=
  (m_send_msg_buf s, m_send_queue s, m_sequenceid s, m_wire s).

Definition deals msgs : list Dealt := (fun m => Deal m.1 m.2) <$> msgs.

Definition heard s s' : Prop :=
  write_side s' = write_side s /\
  (if m_is_open s' then m_writing s' = m_writing s
   else m_writing s' = unless_aborted w_taken (m_writing s) /\ m_reading s' = None) /\
  exists msgs, m_dealt s' = m_dealt s ++ deals msgs ++ (if m_is_open s' then [] else [DealSessionClose]).

(** Only what is private to reading has changed. *)
Definition reads s s1 : Prop :=
  write_side s1 = write_side s /\ m_is_open s1 = true /\ m_writing s1 = m_writing s /\
  m_dealt s1 = m_dealt s /\ m_reading s1 = None.

Lemma close_heard s s1 : reads s s1 -> heard s (do_close s1).
Proof.
  intros (Hw & Ho & Hwr & Hd & Hr). unfold do_close. rewrite Ho. split; [done|].
  split; [simpl; by rewrite Hwr, Hr|]. exists []. unfold deal. simpl. by rewrite Hd.
Qed.

Lemma async_read_heard off n next s s1 : reads s s1 -> heard s (async_read off n next s1).
Proof.
  intros (Hw & Ho & Hwr & Hd & Hr). unfold async_read. rewrite Ho, orb_true_r.
  split; [done|]. simpl. rewrite Ho. split; [done|]. exists []. by rewrite Hd, app_nil_r.
Qed.

Lemma on_read_complete_heard err s s1 s' :
  reads s s1 -> on_read_complete maker err s1 = Ok s' -> heard s s'.
Proof.
  intros Hr. unfold on_read_complete. destruct err; cbn [negb]; [intros [= <-]; by apply close_heard|].
  destruct (make_msg maker s1) as [[p|]|]; [|intros [= <-]; by apply close_heard|done].
  intros [= <-]. destruct Hr as (Hw & Ho & Hwr & Hd & Hr). unfold do_read_head_len, async_read.
  set (s2 := deal _ _). assert (m_is_open s2 = true) as -> by exact Ho. rewrite orb_true_r.
  split; [done|]. simpl. rewrite Ho. split; [done|]. exists [(m_cur_header s1, p)]. by rewrite Hd.
Qed.

Lemma do_read_body_heard s s1 s' : reads s s1 -> do_read_body s1 = Ok s' -> heard s s'.
Proof.
  intros Hr. unfold do_read_body, check_header.
  destruct (decode_header _) as [[header buf]|]; [|done]. cbn [mbind outcome_bind].
  destruct header as [h|]; [|intros [= <-]; by apply close_heard].
  destruct (MSG_BUF_SIZE <? _); [intros [= <-]; by apply close_heard|].
  destruct (negb _); [intros [= <-]; by apply close_heard|].
  intros [= <-]. by apply async_read_heard.
Qed.

Lemma do_read_head_heard s s1 s' : reads s s1 -> do_read_head s1 = Ok s' -> heard s s'.
Proof.
  intros Hr. unfold do_read_head. destruct (decode_header_length _) as [buf|]; [|done].
  cbn [mbind outcome_bind]. destruct (MSG_BUF_SIZE <? _); [intros [= <-]; by apply close_heard|].
  intros [= <-]. by apply async_read_heard.
Qed.

Lemma read_handler_heard next err s s1 s' :
  reads s s1 -> read_handler maker next err s1 = Ok s' -> heard s s'.
Proof.
  intros Hr. destruct next; cbn [read_handler]; [| |by apply on_read_complete_heard].
  - unfold on_read_head_len_complete. destruct err; [intros [= <-]; by apply close_heard|].
    by apply do_read_head_heard.
  - unfold on_read_head_complete. destruct err; [intros [= <-]; by apply close_heard|].
    by apply do_read_body_heard.
Qed.

Lemma handle_read_heard s s' :
  m_is_open s = true -> handle_read maker s = Ok s' -> s' = s \/ heard s s'.
Proof.
  intros Ho. unfold handle_read. destruct (m_reading s) as [r|]; [|intros [= <-]; by left].
  destruct (completed r); [|intros [= <-]; by left]. intros E. right.
  exact (read_handler_heard _ _ s (s <| m_reading := None |>) s' (conj eq_refl (conj Ho (conj eq_refl (conj eq_refl eq_refl)))) E).
Qed.

Lemma read_error_heard s s' :
  m_is_open s = true -> read_error maker s = Ok s' -> s' = s \/ heard s s'.
Proof.
  intros Ho. unfold read_error. destruct (m_reading s) as [r|]; [|intros [= <-]; by left].
  destruct (completed r); [intros [= <-]; by left|]. intros E. right.
  exact (read_handler_heard _ _ s (s <| m_reading := None |>) s' (conj eq_refl (conj Ho (conj eq_refl (conj eq_refl eq_refl)))) E).
Qed.

(** A handler that runs after the close may still deal one message. *)
Record late s s' : Prop := mkLate {
  late_side : write_side s' = write_side s;
  late_open : m_is_open s' = false;
  late_writing : m_writing s' = m_writing s;
  late_reading : forall r, m_reading s' = Some r -> completed r = true;
  late_dealt : m_dealt s' = m_dealt s \/
    m_reading s' = None /\ exists h p, m_dealt s' = m_dealt s ++ [Deal h p]
}.

Lemma do_close_again s : m_is_open s = false -> do_close s = s.
Proof. unfold do_close. by intros ->. Qed.

Lemma late_refl s s1 :
  write_side s1 = write_side s -> m_is_open s1 = false -> m_writing s1 = m_writing s ->
  m_reading s1 = None -> m_dealt s1 = m_dealt s -> late s s1.
Proof. intros Hw Ho Hwr Hr Hd. split; [done..| |by left]. by rewrite Hr. Qed.

Lemma late_async_read off n next s s1 :
  write_side s1 = write_side s -> m_is_open s1 = false -> m_writing s1 = m_writing s ->
  m_reading s1 = None -> m_dealt s1 = m_dealt s -> late s (async_read off n next s1).
Proof.
  intros Hw Ho Hwr Hr Hd. unfold async_read. rewrite Ho, orb_false_r.
  destruct (u64 n =? 0) eqn:E; [|by apply late_refl].
  split; [done..| |by left]. intros r [= <-]. apply Z.eqb_eq. apply Z.eqb_eq in E. simpl. lia.
Qed.

Lemma late_handler next s s' :
  m_is_open s = false -> read_handler maker next false (s <| m_reading := None |>) = Ok s' -> late s s'.
Proof.
  intros Ho. set (s0 := s <| m_reading := None |>). assert (m_is_open s0 = false) as Ho0 by exact Ho.
  destruct next; cbn [read_handler]; intros E.
  - unfold on_read_head_len_complete, do_read_head in E. cbn [negb] in E.
    apply bind_Ok in E as (buf & _ & E). cbn zeta in E.
    destruct (MSG_BUF_SIZE <? _); injection E as <-; [|by apply late_async_read].
    rewrite do_close_again by exact Ho. by apply late_refl.
  - unfold on_read_head_complete, do_read_body, check_header in E. cbn [negb] in E.
    apply bind_Ok in E as ([ok s1] & E1 & E). apply bind_Ok in E1 as ([header buf] & _ & E1).
    assert (write_side s1 = write_side s /\ m_is_open s1 = false /\ m_writing s1 = m_writing s /\
      m_reading s1 = None /\ m_dealt s1 = m_dealt s) as (H1' & H2' & H3' & H4' & H5').
    { destruct header as [h|]; [|by injection E1 as _ <-].
      destruct (MSG_BUF_SIZE <? _); [by injection E1 as _ <-|]. by destruct (negb _); injection E1 as _ <-. }
    destruct ok; cbn [negb] in E; injection E as <-; [by apply late_async_read|].
    rewrite do_close_again by done. by apply late_refl.
  - unfold on_read_complete in E. cbn [negb] in E. apply bind_Ok in E as ([p|] & _ & E); injection E as <-.
    + unfold do_read_head_len, async_read. set (s1 := deal _ _).
      assert (m_is_open s1 = false) as -> by exact Ho.
      split; try done. right. split; [done|]. by exists (m_cur_header s0), p.
    + rewrite do_close_again by done. by apply late_refl.
Qed.

(** *** Runs *)

(** What the server was told.  A closed session has no read under way, and may have
    dealt the one message whose handler was waiting when it was closed. *)
Definition told_inv s : Prop :=
  exists msgs,
    if m_is_open s then m_dealt s = DealSessionOpen :: deals msgs
    else (forall r, m_reading s = Some r -> completed r = true) /\
      exists more, m_dealt s = DealSessionOpen :: deals msgs ++ DealSessionClose :: deals more /\
        (more = [] \/ length more = 1%nat /\ m_reading s = None).

Lemma kept_told s s' : kept s s' -> told_inv s -> told_inv s'.
Proof.
  unfold told_inv. intros [_ [(Ho & Hr & Hd)|(Ho & Ho' & Hr & Hd)]] [msgs Ht]; exists msgs.
  - by rewrite Ho, Hr, Hd.
  - rewrite Ho in Ht. rewrite Ho', Hr, Hd, Ht. split.
    + intros r. destruct (m_reading s) as [r0|]; [|done]. simpl. destruct (completed r0) eqn:E; [|done].
      by intros [= <-].
    + exists []. split; [done|by left].
Qed.

Lemma heard_told s s' : m_is_open s = true -> heard s s' -> told_inv s -> told_inv s'.
Proof.
  unfold told_inv. intros Ho (_ & Hstate & more & Hd) [msgs Ht]. rewrite Ho in Ht. exists (msgs ++ more).
  rewrite Hd, Ht. unfold deals. rewrite fmap_app. destruct (m_is_open s').
  - by rewrite app_nil_r.
  - destruct Hstate as [_ ->]. split; [done|]. exists []. split; [|by left]. by rewrite <- (assoc_L (++)).
Qed.

(** Nothing has been dealt after the close as long as a handler waits. *)
Lemma late_told s s' :
  m_is_open s = false -> is_Some (m_reading s) -> late s s' -> told_inv s -> told_inv s'.
Proof.
  unfold told_inv. intros Ho [r Hr] [_ Ho' _ Hall Hd] [msgs Ht]. rewrite Ho in Ht. rewrite Ho'.
  destruct Ht as (_ & more & Ht & [->|[_ Hn]]); [|congruence]. exists msgs. split; [done|].
  destruct Hd as [->|(Hn & h & p & ->)].
  - exists []. split; [done|by left].
  - exists [(h, p)]. rewrite Ht. split; [|by right]. simpl. f_equal. by rewrite <- (assoc_L (++)).
Qed.

(** What reading leaves of the write side. *)
Definition undisturbed s s' : Prop :=
  (forall sent, wire_inv sent s -> wire_inv sent s') /\ m_sequenceid s' = m_sequenceid s.

#[local] Instance undisturbed_trans : Transitive undisturbed.
Proof. intros s1 s2 s3 [Hw1 Hn1] [Hw2 Hn2]. split; [by auto|congruence]. Qed.

Lemma wire_inv_side sent s s' :
  write_side s' = write_side s -> (forall todo, wire_state todo s -> wire_state todo s') ->
  wire_inv sent s -> wire_inv sent s'.
Proof.
  intros Hw Hst (Hq & Hb & gone & todo & Hs & Hwire & Hold). injection Hw as Hbuf Hqueue _ Hwire'.
  unfold wire_inv, send_memory in *. rewrite Hbuf, Hqueue, Hwire'. split_and!; [done..|].
  exists gone, todo. by split_and!; [| |apply Hst].
Qed.

Lemma heard_undisturbed s s' : m_is_open s = true -> heard s s' -> undisturbed s s'.
Proof.
  intros Ho (Hw & Hstate & _). pose proof Hw as [= Hbuf Hqueue Hseq _]. split; [|done]. intros sent.
  apply wire_inv_side; [done|]. intros todo. unfold wire_state, taken, writes, send_memory. rewrite Ho, Hbuf, Hqueue.
  destruct (m_is_open s'); [by rewrite Hstate|]. destruct Hstate as [-> _]. rewrite unless_aborted_taken.
  destruct (m_writing s) as [[n []]|]; simpl; [|done..]. by intros [m ->].
Qed.

Lemma late_undisturbed s s' : m_is_open s = false -> late s s' -> undisturbed s s'.
Proof.
  intros Ho [Hw Ho' Hwr _ _]. pose proof Hw as [= Hbuf Hqueue Hseq _]. split; [|done]. intros sent.
  apply wire_inv_side; [done|]. intros todo. unfold wire_state, taken. by rewrite Ho, Ho', Hwr, Hqueue.
Qed.

(** The steps of reading, one at a time. *)
Definition reads_well s s' : Prop := undisturbed s s' /\ (told_inv s -> told_inv s').

#[local] Instance reads_well_refl : Reflexive reads_well.
Proof. by intros s. Qed.

#[local] Instance reads_well_trans : Transitive reads_well.
Proof. intros s1 s2 s3 [Hu1 Ht1] [Hu2 Ht2]. split; [by etrans|by auto]. Qed.

Lemma heard_well s s' : m_is_open s = true -> s' = s \/ heard s s' -> reads_well s s'.
Proof.
  intros Ho [->|Hh]; [done|]. split; [by apply heard_undisturbed|by apply heard_told].
Qed.

Lemma handle_read_well s s' : handle_read maker s = Ok s' -> reads_well s s'.
Proof.
  intros E. destruct (m_is_open s) eqn:Ho; [apply heard_well; [done|by apply handle_read_heard]|].
  unfold handle_read in E. destruct (m_reading s) as [r|] eqn:Hr; [|by injection E as <-].
  destruct (completed r); [|by injection E as <-]. apply late_handler in E; [|done].
  split; [by apply late_undisturbed|apply late_told; [done|by rewrite Hr|done]].
Qed.

Lemma handle_reads_well n s s' : handle_reads maker n s = Ok s' -> reads_well s s'.
Proof.
  revert s; induction n as [|n IH]; intros s E; [by injection E as <-|].
  apply bind_Ok in E as (s1 & E1 & E). etrans; [by apply handle_read_well|by apply IH].
Qed.

(** An aborted read gets no byte and no error. *)
Lemma take_byte_well b s s' : told_inv s -> take_byte b s = Ok s' -> reads_well s s'.
Proof.
  intros Ht E. unfold take_byte in E. destruct (m_reading s) as [r|] eqn:Hr; [|by injection E as <-].
  destruct (completed r) eqn:Hc; [by injection E as <-|]. apply bind_Ok in E as (memory & _ & [= <-]).
  destruct (m_is_open s) eqn:Ho.
  - split; [split; [|done]|].
    + intros sent. apply wire_inv_side; done.
    + intros [msgs Hd]. exists msgs. rewrite Ho in Hd. simpl. by rewrite Ho.
  - destruct Ht as [msgs Hd]. rewrite Ho in Hd. destruct Hd as [Hall _]. rewrite (Hall r Hr) in Hc. done.
Qed.

Lemma read_error_well s s' : told_inv s -> read_error maker s = Ok s' -> reads_well s s'.
Proof.
  intros Ht E. destruct (m_is_open s) eqn:Ho; [apply heard_well; [done|by apply read_error_heard]|].
  unfold read_error in E. destruct (m_reading s) as [r|] eqn:Hr; [|by injection E as <-].
  destruct Ht as [msgs Hd]. rewrite Ho in Hd. destruct Hd as [Hall _]. rewrite (Hall r Hr) in E. by injection E as <-.
Qed.

Lemma arrive_byte_well b s s' : told_inv s -> arrive_byte maker s b = Ok s' -> reads_well s s'.
Proof.
  intros Ht E. apply bind_Ok in E as (s1 & E1 & E).
  etrans; [by apply (take_byte_well b)|by eapply handle_reads_well].
Qed.

(** *** Runs *)

Definition session_inv sent s : Prop := wire_inv sent s /\ told_inv s.

Lemma start_told recv send now : told_inv (start (new_session recv send now)).
Proof. by exists []. Qed.

Lemma start_inv recv send now :
  Z.of_nat (length send) = MSG_BUF_SIZE + HEADER_LENGTH -> session_inv [] (start (new_session recv send now)).
Proof.
  intros Hl. destruct new_send_queue_ok as [Hq Hc]. split; [|apply start_told].
  split_and!; [done..|]. exists [], []. split_and!; [done..|]. by split.
Qed.

Lemma send_number h p s :
  send h p s = if cmdtype h =? CMD_SHUTDOWN_SESSION then Ok (do_close s)
               else do_write (number (m_sequenceid s) h) p (s <| m_sequenceid := u64 (m_sequenceid s + 1) |>).
Proof. done. Qed.

(** What reads, and what the server and the socket's writes do. *)
Definition is_read (e : Event) : bool :=
  match e with Arrived _ | Stored _ | HandleRead | ReadLost => true | _ => false end.

Lemma run_event_kept e s s' : is_read e = false -> run_event s e = Ok s' -> kept s s'.
Proof.
  intros He. destruct e as [h p|h p| |now| | | | | | | |]; cbn [run_event] in *; try done; intros E.
  - rewrite send_number in E. destruct (_ =? CMD_SHUTDOWN_SESSION); [injection E as <-; apply do_close_kept|].
    exact (do_write_kept _ _ _ _ E).
  - exact (do_write_kept _ _ _ _ E).
  - injection E as <-. unfold do_check_alive. destruct (is_alive s); [done|apply do_close_kept].
  - injection E as <-. split; [done|by left].
  - by apply write_done_kept.
  - by apply write_taken_kept.
  - by apply handle_write_kept.
  - by apply write_error_kept.
Qed.

Lemma run_event_reads e s s' :
  told_inv s -> is_read e = true -> run_event s e = Ok s' -> reads_well s s'.
Proof.
  intros Ht He. destruct e as [| | | |b|b| | | | | |]; cbn [run_event]; try done.
  - by apply (arrive_byte_well b).
  - by apply (take_byte_well b).
  - by apply handle_read_well.
  - by apply read_error_well.
Qed.

Lemma run_event_told e s s' : told_inv s -> run_event s e = Ok s' -> told_inv s'.
Proof.
  intros Ht E. destruct (is_read e) eqn:He.
  - by apply (run_event_reads e s s').
  - apply (kept_told s); [by apply (run_event_kept e)|done].
Qed.

Lemma run_told events s s' : told_inv s -> run events s = Ok s' -> told_inv s'.
Proof.
  revert s; induction events as [|e events IH]; intros s Ht E; [by injection E as <-|].
  apply bind_Ok in E as (s1 & E1 & E). by apply (IH s1); [apply (run_event_told e s)|].
Qed.

Lemma write_error_wire sent s :
  wire_inv sent s -> returns (write_error s) (fun s' => wire_inv sent s' /\ m_sequenceid s' = m_sequenceid s).
Proof.
  intros Hw. unfold write_error. destruct (m_writing s) as [[n []]|] eqn:E; [by apply returns_ret| |by apply returns_ret].
  unfold on_write_complete. cbn [negb]. apply returns_ret. set (s1 := s <| m_writing := None |>).
  split; [|apply (do_close_sequenceid s1)]. destruct Hw as (Hq & Hb & gone & todo & Hs & Hwire & Hstate).
  unfold wire_state, taken in Hstate. rewrite E in Hstate. cbn [w_taken] in Hstate.
  unfold do_close. change (m_is_open s1) with (m_is_open s). destruct (m_is_open s) eqn:Ho; [|done].
  split_and!; [done..|]. by exists gone, todo.
Qed.

Lemma run_event_writes sent e s :
  session_inv sent s -> Forall sendable (sent ++ sent_by (m_sequenceid s) e) -> is_read e = false ->
  returns (run_event s e) (fun s' =>
    session_inv (sent ++ sent_by (m_sequenceid s) e) s' /\
    m_sequenceid s' = next_number (m_sequenceid s) e /\ kept s s').
Proof.
  intros [Hw Ht] Hfit He.
  enough (returns (run_event s e) (fun s' => wire_inv (sent ++ sent_by (m_sequenceid s) e) s' /\
    m_sequenceid s' = next_number (m_sequenceid s) e)) as (s' & E & Hw' & Hn).
  { exists s'. split; [done|]. pose proof (run_event_kept e s s' He E) as Hk.
    split_and!; [split; [done|by apply (kept_told s)]|done|done]. }
  pose proof (do_close_wire sent s Hw) as Hclose.
  destruct e as [h p|h p| |now| | | | | | | |]; cbn [run_event sent_by next_number] in *; try done;
    try rewrite app_nil_r in Hfit; try rewrite (app_nil_r sent).
  - rewrite send_number. destruct (_ =? CMD_SHUTDOWN_SESSION).
    + apply returns_ret. rewrite app_nil_r. split; [done|apply do_close_sequenceid].
    + apply Forall_app in Hfit as [_ Hfit]. apply Forall_cons in Hfit as [Hfit _].
      set (s1 := s <| m_sequenceid := _ |>). assert (wire_inv sent s1) as Hw1 by exact Hw.
      eapply returns_mono; [by apply (do_write_wire _ _ sent s1)|]. by intros s' [Hw' Hn].
  - apply Forall_app in Hfit as [_ Hfit]. apply Forall_cons in Hfit as [Hfit _]. by apply do_write_wire.
  - apply returns_ret. unfold do_check_alive. destruct (is_alive s); [done|].
    split; [done|apply do_close_sequenceid].
  - by apply returns_ret.
  - eapply returns_mono; [by apply (write_done_wire sent)|]. by intros s' (? & ? & _).
  - eapply returns_mono; [by apply (write_taken_wire sent)|]. by intros s' (? & ? & _).
  - eapply returns_mono; [by apply (handle_write_wire sent)|]. by intros s' (? & ? & _).
  - by apply write_error_wire.
Qed.

Lemma run_event_inv sent e s s' :
  session_inv sent s -> Forall sendable (sent ++ sent_by (m_sequenceid s) e) -> run_event s e = Ok s' ->
  session_inv (sent ++ sent_by (m_sequenceid s) e) s' /\ m_sequenceid s' = next_number (m_sequenceid s) e.
Proof.
  intros Hinv Hfit Hrun. destruct (is_read e) eqn:He.
  - assert (sent_by (m_sequenceid s) e = [] /\ next_number (m_sequenceid s) e = m_sequenceid s)
      as [-> ->] by by destruct e.
    rewrite app_nil_r. destruct Hinv as [Hw Ht].
    destruct (run_event_reads e s s' Ht He Hrun) as [[Hw' Hn] Ht']. by split; [split; auto|].
  - pose proof (run_event_writes sent e s Hinv Hfit He) as Hr. rewrite Hrun in Hr.
    destruct Hr as (? & [= <-] & Hinv' & Hn & _). by split.
Qed.

Lemma run_inv events sent s s' :
  session_inv sent s -> Forall sendable (sent ++ sent_messages (m_sequenceid s) events) ->
  run events s = Ok s' -> session_inv (sent ++ sent_messages (m_sequenceid s) events) s'.
Proof.
  revert sent s; induction events as [|e events IH]; intros sent s Hinv Hfit Hrun.
  - injection Hrun as <-. by rewrite app_nil_r.
  - unfold run in Hrun. cbn [mfold] in Hrun. destruct (run_event s e) as [s1|] eqn:E; [|done].
    cbn [sent_messages] in *.  rewrite (assoc_L (++)) in *.
    destruct (run_event_inv sent e s s1) as [Hinv1 Hn1]; [done|by apply Forall_app in Hfit as [? _]|done|].
    rewrite <- Hn1 in *. by apply IH.
Qed.

Lemma started_inv recv memory now events s :
  Z.of_nat (length memory) = MSG_BUF_SIZE + HEADER_LENGTH ->
  Forall sendable (sent_messages 0 events) ->
  run events (start (new_session recv memory now)) = Ok s -> session_inv (sent_messages 0 events) s.
Proof.
  intros Hl Hfit Hrun. by apply (run_inv events [] (start (new_session recv memory now)) s (start_inv recv memory now Hl)).
Qed.

(** Every write that completes writes the next message. *)
Lemma written_all k sent s :
  session_inv sent s -> Forall sendable sent -> m_is_open s = true ->
  (length (contents (m_send_queue s)) <= k)%nat ->
  returns (run (replicate k Written) s) (fun s' =>
    session_inv sent s' /\ m_is_open s' = true /\ contents (m_send_queue s') = []).
Proof.
  revert s; induction k as [|k IH]; intros s Hinv Hfit Ho Hk.
  - apply returns_ret. split_and!; [done..|]. by destruct (contents (m_send_queue s)); [|simpl in Hk; lia].
  - unfold run. cbn [replicate mfold]. pose proof Hinv as [Hw Ht].
    destruct (write_done_wire sent s Hw Hfit) as (s1 & E & Hw1 & _ & Ho1 & Hc1). rewrite Ho in Ho1.
    cbn [run_event]. rewrite E. cbn [mbind outcome_bind]. apply IH; [|done|done|specialize (Hc1 Ho); lia].
    split; [done|]. apply (kept_told s); [by apply write_done_kept|done].
Qed.

(** C14: An open session, after any sends, reads and writes, has written all its
    messages once as many writes complete as the queue holds messages: the wire
    then has the frame of every message, in order, and nothing is being written. *)
Theorem queue_drains recv memory now events s :
  Z.of_nat (length memory) = MSG_BUF_SIZE + HEADER_LENGTH ->
  Forall sendable (sent_messages 0 events) ->
  run events (start (new_session recv memory now)) = Ok s -> m_is_open s = true ->
  returns (run (replicate (length (contents (m_send_queue s))) Written) s) (fun s' =>
    m_is_open s' = true /\ m_writing s' = None /\ m_wire s' = frames (sent_messages 0 events)).
Proof.
  intros Hl Hfit Hrun Ho. pose proof (started_inv _ _ _ _ _ Hl Hfit Hrun) as Hinv.
  eapply returns_mono; [by apply (written_all _ (sent_messages 0 events))|].
  intros s' ([(_ & _ & gone & todo & -> & Hw & Hstate) _] & Ho' & Hc'). unfold wire_state in Hstate.
  rewrite Ho', Hc' in Hstate. destruct (taken s'); [by destruct Hstate as [m ?]|].
  destruct Hstate as [<- Hwr]. by rewrite app_nil_r.
Qed.

(** C13: Whatever a session sends, reads, writes and loses, its wire brings to a
    peer that waits for a frame exactly the messages of a first part of what it
    was told to send: whole, in the order of the sends and with their numbers.
    It is all of them when the session is open and writes nothing.  The peer
    stays open and waits for the next frame. *)
Theorem messages_delivered_in_order peer_maker recv memory now events s (receiver : Session) :
  Z.of_nat (length memory) = MSG_BUF_SIZE + HEADER_LENGTH ->
  Forall (fun m => receivable peer_maker m.1 m.2) (sent_messages 0 events) ->
  run events (start (new_session recv memory now)) = Ok s -> waiting receiver ->
  exists arrived, arrived `prefix_of` sent_messages 0 events /\
    (m_is_open s = true -> m_writing s = None -> arrived = sent_messages 0 events) /\
    returns (arrive peer_maker (m_wire s) receiver) (fun receiver' =>
      m_dealt receiver' = m_dealt receiver ++ (dealt_of <$> arrived) /\
      m_is_open receiver' = m_is_open receiver /\ waiting receiver').
Proof.
  intros Hl Hrecv Hrun Hwait.
  assert (Forall sendable (sent_messages 0 events)) as Hfit.
  { eapply Forall_impl; [exact Hrecv|]. intros [h p] (_ & Hfit & _). exact Hfit. }
  destruct (started_inv _ _ _ _ _ Hl Hfit Hrun) as [(_ & _ & gone & todo & Hs & Hw & Hstate) _].
  exists gone. rewrite Hs in Hrecv |- *. apply Forall_app in Hrecv as [Hrecv _]. split_and!.
  - by exists todo.
  - intros Ho Hwr. unfold wire_state, taken in Hstate. rewrite Ho, Hwr in Hstate. destruct Hstate as [_ Hstate].
    destruct todo as [|m todo]; [by rewrite app_nil_r|]. destruct Hstate as [Hstate _]. congruence.
  - rewrite Hw. eapply returns_mono; [exact (receive_frames peer_maker gone receiver Hwait Hrecv)|].
    intros r (Hw' & Hd & Ho). exact (conj Hd (conj Ho Hw')).
Qed.

(** C15: A session that is started tells the server first that it has opened, then its
    messages, and once that it has closed.  After that it tells at most one more
    message, one whose read had completed before the close while its handler waited
    ([a_message_after_the_close]).  (A session that is refused is never started, and
    the server is told that it closes without having opened: [refused_session_told] of
    Sessions.v.) *)
Theorem opened_and_closed_once recv memory now events s :
  run events (start (new_session recv memory now)) = Ok s ->
  exists msgs late,
    m_dealt s = DealSessionOpen :: deals msgs ++ (if m_is_open s then [] else DealSessionClose :: deals late) /\
    (length late <= 1)%nat /\ (is_Some (m_reading s) -> late = []).
Proof.
  intros Hrun. destruct (run_told _ _ _ (start_told recv memory now) Hrun) as [msgs Ht].
  destruct (m_is_open s).
  - exists msgs, []. rewrite app_nil_r. by split_and!; [|simpl; lia|].
  - destruct Ht as (_ & more & Hd & Hmore). exists msgs, more. split; [done|].
    destruct Hmore as [->|[Hl Hn]]; [by split; [simpl; lia|]|]. split; [lia|]. rewrite Hn. by intros [r [=]].
Qed.
End delivery.

(** ** A run *)

Definition plain_hello : Header := mkHeader 7 0 0 0 0 0.

(** Two messages are sent and the first is written. *)
Definition plain_run : list (Event (Pb := Z * list Z)) :=
  [Send plain_hello (7, [1; 2; 3]); Send plain_hello (7, [4]); Written].

Definition plain_session (now : Z) : TcpSession (Pb := Z * list Z) (B := plain_queue) :=
  start (new_session plain_memory plain_memory now).

(** What the run leaves on the wire, and whether the session is open. *)
Definition plain_view (s : TcpSession (Pb := Z * list Z) (B := plain_queue)) : list Z * bool :=
  (m_wire s, m_is_open s).

Lemma plain_run_view :
  (s ← run plain_maker plain_run (plain_session 0); mret (plain_view s)) =
  Ok (frame (number 0 plain_hello, (7, [1; 2; 3])), true).
Proof. vm_compute. reflexivity. Qed.

Lemma plain_run_returns :
  exists s, run plain_maker plain_run (plain_session 0) = Ok s /\
    plain_view s = (frame (number 0 plain_hello, (7, [1; 2; 3])), true).
Proof. exact (bind_ret_Ok _ _ _ plain_run_view). Qed.

Lemma plain_run_receivable :
  Forall (fun m => receivable plain_maker m.1 m.2) (sent_messages 0 plain_run).
Proof.
  assert (forall h (p : Z * list Z), header_ok h -> Z.of_nat (length p.2) <= 100 -> cmdtype h = 7 ->
            make_message plain_maker (type h) 7 = Some p.1 -> receivable plain_maker h p) as Hr.
  { intros h p Hok Hl Hc Hmake. split; [done|]. split; [|by rewrite Hc].
    unfold frame_fits. rewrite frame_bytes_length.
    change (length (serialize_header _)) with (length (plain_header (stamp p h))). rewrite plain_header_length.
    change (serialize p) with p.2. assert (1000 <= MSG_BUF_SIZE) by (apply Z.leb_le; reflexivity). lia. }
  repeat apply Forall_cons_2; [| |by apply Forall_nil_2]; apply Hr; first [done | reflexivity | by vm_compute].
Qed.

Lemma plain_run_sendable : Forall sendable (sent_messages 0 plain_run).
Proof. eapply Forall_impl; [exact plain_run_receivable|]. intros [h p] (_ & Hfit & _). exact Hfit. Qed.

Lemma messages_delivered_in_order_witness :
  exists s arrived, run plain_maker plain_run (plain_session 0) = Ok s /\
    arrived `prefix_of` sent_messages 0 plain_run /\
    returns (arrive plain_maker (m_wire s) (plain_session 5)) (fun receiver =>
      m_dealt receiver = DealSessionOpen :: (dealt_of <$> arrived)).
Proof.
  destruct plain_run_returns as (s & Hrun & _). exists s.
  destruct (messages_delivered_in_order plain_maker plain_maker plain_memory plain_memory 0 plain_run s
              (plain_session 5) plain_memory_length plain_run_receivable Hrun
              (conj eq_refl (conj eq_refl plain_memory_length))) as (arrived & Hp & _ & Hr).
  exists arrived. split; [done|]. split; [done|]. eapply returns_mono; [exact Hr|]. intros r (Hd & _). exact Hd.
Defined.

Lemma queue_drains_witness :
  exists s, run plain_maker plain_run (plain_session 0) = Ok s /\
    returns (run plain_maker (replicate (length (contents (m_send_queue s))) Written) s) (fun s' =>
      m_wire s' = frames (sent_messages 0 plain_run)).
Proof.
  destruct plain_run_returns as (s & Hrun & Hview). injection Hview as _ Ho. exists s. split; [done|].
  eapply returns_mono; [exact (queue_drains plain_maker plain_memory plain_memory 0 plain_run s
    plain_memory_length plain_run_sendable Hrun Ho)|]. intros s' (_ & _ & Hw). exact Hw.
Defined.

(** The peer's message is there but for its handler when the server closes the
    session. *)
Definition late_bytes : list Z := frame (number 0 plain_hello, (7, [1; 2; 3])).

Definition late_run : list (Event (Pb := Z * list Z)) :=
  (Arrived <$> take (pred (length late_bytes)) late_bytes) ++
  (Stored <$> drop (pred (length late_bytes)) late_bytes) ++
  [Send (mkHeader CMD_SHUTDOWN_SESSION 0 0 0 0 0) (7, []); HandleRead].

Definition is_message (m : Dealt (Pb := Z * list Z)) : bool := match m with Deal _ _ => true | _ => false end.

Definition late_view (s : TcpSession (Pb := Z * list Z) (B := plain_queue)) : bool * list bool :=
  (m_is_open s, is_message <$> m_dealt s).

Lemma a_message_after_the_close :
  (s ← run plain_maker late_run (plain_session 0); mret (late_view s)) = Ok (false, [false; false; true]).
Proof. vm_compute. reflexivity. Qed.

Lemma late_run_returns :
  exists s, run plain_maker late_run (plain_session 0) = Ok s /\ late_view s = (false, [false; false; true]).
Proof. exact (bind_ret_Ok _ _ _ a_message_after_the_close). Qed.

Lemma opened_and_closed_once_witness :
  exists s, run plain_maker late_run (plain_session 0) = Ok s /\ m_is_open s = false /\
    exists msgs late, m_dealt s = DealSessionOpen :: deals msgs ++ DealSessionClose :: deals late /\
      (length late <= 1)%nat.
Proof.
  destruct late_run_returns as (s & Hrun & Hview). injection Hview as Ho _.
  exists s. split; [done|]. split; [done|].
  destruct (opened_and_closed_once plain_maker plain_memory plain_memory 0 late_run s Hrun)
    as (msgs & late & Hd & Hl & _).
  rewrite Ho in Hd. exists msgs, late. exact (conj Hd Hl).
Defined.
