(* ===== verification/Overrun.v ===== *)
(** * Where a session reads

    The bounds of the receive buffer: a session stays inside it unless a length it
    is told gets past the checks, which compare [int]s, and then the bytes of a
    peer run over the end. *)
From Stdlib Require Import ZArith Lia.
From stdpp Require Import base tactics numbers sorting option gmap list.
From S2P Require Import Prelude Bytes SendQueue Frame Plain TcpSession Delivery.

Section overrun.
Context {Pb Desc B : Type} `{Protobuf Pb Desc} `{HeaderFormat} `{CircularBuffer (Header * Pb) B}.
Variable maker : MessageMaker Desc.

Abbreviation Session := (TcpSession (Pb := Pb) (B := B)).
Implicit Types (s : Session) (h : Header) (p : Pb).

(** ** Reads inside the buffer *)

Definition whole_buffer s : Prop := Z.of_nat (length (recv_memory s)) = MSG_BUF_SIZE + HEADER_LENGTH.

(** The lengths the session holds when it reads a header and when it reads a body. *)
Definition head_fits s : Prop := 0 <= m_header_length (m_recv_msg_buf s) <= MSG_BUF_SIZE.
Definition body_fits s : Prop :=
  head_fits s /\ 0 <= m_msg_length (m_recv_msg_buf s) /\
  HEADER_LENGTH + m_header_length (m_recv_msg_buf s) + m_msg_length (m_recv_msg_buf s) <= MSG_BUF_SIZE.

Definition read_fits s (r : AsyncRead) : Prop :=
  0 <= r_got r <= r_wanted r /\
  match r_next r with
  | ReadHeadLen => r_offset r = 0 /\ r_wanted r = HEADER_LENGTH
  | ReadHead => head_fits s /\ r_offset r = HEADER_LENGTH /\ r_wanted r = m_header_length (m_recv_msg_buf s)
  | ReadBody => body_fits s /\ r_offset r = HEADER_LENGTH + m_header_length (m_recv_msg_buf s) /\
                r_wanted r = m_msg_length (m_recv_msg_buf s)
  end.

Definition read_ok s : Prop := whole_buffer s /\ forall r, m_reading s = Some r -> read_fits s r.

(** A read of 2 GB, less a frame, or more. *)
Definition oversized s : Prop :=
  exists r, m_reading s = Some r /\ 2 ^ 31 - HEADER_LENGTH - MSG_BUF_SIZE <= r_wanted r.

(** It has just been started. *)
Definition misled s : Prop :=
  exists r, m_reading s = Some r /\ r_got r = 0 /\ 2 ^ 31 - HEADER_LENGTH - MSG_BUF_SIZE <= r_wanted r.

Lemma misled_oversized s : misled s -> oversized s.
Proof. intros (r & Hr & _ & Hw). by exists r. Qed.

Lemma misled_idle s : misled s -> idle s.
Proof.
  intros (r & Hr & Hg & Hw) r'. rewrite Hr. intros [= <-]. apply Z.eqb_neq. rewrite Hg.
  pose proof MSG_BUF_SIZE_small. change HEADER_LENGTH with 4 in *. 
  assert (MSG_BUF_SIZE < 2 ^ 30) by (apply Z.ltb_lt; reflexivity). lia.
Qed.

Lemma read_ok_idle s : whole_buffer s -> m_reading s = None -> read_ok s.
Proof. intros Hb Hr. split; [done|]. by rewrite Hr. Qed.

Lemma read_ok_same s s' :
  m_recv_msg_buf s' = m_recv_msg_buf s -> (m_reading s' = m_reading s \/ m_reading s' = None) ->
  read_ok s -> read_ok s'.
Proof.
  intros Hb Hr [Hwhole Hfit]. unfold read_ok, whole_buffer, recv_memory, read_fits, body_fits, head_fits in *.
  rewrite Hb. split; [done|]. destruct Hr as [->| ->]; [done|by intros r [=]].
Qed.

Lemma read_ok_close s : whole_buffer s -> m_reading s = None -> read_ok (do_close s).
Proof.
  intros Hb Hr. apply (read_ok_same s); [| |by apply read_ok_idle]; unfold do_close; destruct (m_is_open s);
    [done..| |by left]. simpl. rewrite Hr. by left.
Qed.

Lemma read_ok_next s : whole_buffer s -> m_reading s = None -> read_ok (do_read_head_len s).
Proof.
  intros Hb Hr. unfold do_read_head_len, async_read. destruct (_ || _); [|by apply read_ok_idle].
  split; [done|]. intros r [= <-]. by split.
Qed.

Lemma read_fits_end s r : read_fits s r -> 0 <= r_offset r /\ r_offset r + r_wanted r <= MSG_BUF_SIZE + HEADER_LENGTH.
Proof.
  unfold read_fits, body_fits, head_fits. change HEADER_LENGTH with 4.
  assert (4 <= MSG_BUF_SIZE) by (apply Z.leb_le; reflexivity).
  destruct (r_next r); lia.
Qed.

(** Each handler in turn: it sets up the next read, closes, or is misled. *)
Definition next_read s : Prop := read_ok s \/ misled s.

Lemma on_read_complete_reads err s :
  whole_buffer s -> m_reading s = None -> body_fits s -> returns (on_read_complete maker err s) next_read.
Proof.
  intros Hb Hr [Hh Hm]. unfold on_read_complete.
  destruct err; cbn [negb]; [by apply returns_ret; left; apply read_ok_close|].
  unfold make_msg. destruct (make_message _ _ _) as [d|].
  2: { apply returns_ret. left. by apply read_ok_close. }
  unfold decode_message, head_fits, whole_buffer, recv_memory in *. change HEADER_LENGTH with 4 in *.
  rewrite read_at_Ok by lia. cbn [mbind outcome_bind mret outcome_ret].
  destruct (parse d _) as [p|]; apply returns_ret; left; [by apply read_ok_next|by apply read_ok_close].
Qed.

Lemma async_read_next off n next s :
  whole_buffer s -> m_reading s = None ->
  read_fits s (mkRead off (u64 n) 0 next) \/ 2 ^ 31 - HEADER_LENGTH - MSG_BUF_SIZE <= u64 n ->
  next_read (async_read off n next s).
Proof.
  intros Hb Hn Hr. unfold async_read. destruct (_ || _); [|left; by apply read_ok_idle].
  destruct Hr as [Hfit|Hbig]; [left|right].
  - split; [done|]. by intros r [= <-].
  - by exists (mkRead off (u64 n) 0 next).
Qed.

(** A length as [int] is itself, or far too large as [size_t]. *)
Lemma u64_i32 z : fits 32 z -> (z < 2 ^ 31 /\ i32 z = z /\ u64 (i32 z) = z) \/ (2 ^ 31 <= z /\ i32 z < 0 /\ 2 ^ 31 <= u64 (i32 z)).
Proof.
  intros [H0' H1']. destruct (decide (z < 2 ^ 31)) as [Hz|Hz].
  - left. by rewrite i32_small, u64_small by lia.
  - right. assert (i32 z = z - 2 ^ 32) as ->.
    { unfold i32, swrap. change (2 ^ (32 - 1)) with (2 ^ 31). change (2 ^ 32) with (2 * 2 ^ 31) in *.
      rewrite (Z.mod_eq (z + 2 ^ 31)) by lia.
      assert ((z + 2 ^ 31) / (2 * 2 ^ 31) = 1) as -> by (symmetry; apply Z.div_unique with (z - 2 ^ 31); lia). lia. }
    assert (u64 (z - 2 ^ 32) = z - 2 ^ 32 + 2 ^ 64) as ->.
    { unfold u64, wrap. symmetry. apply Z.mod_unique with (-1); [|lia].
      change (2 ^ 64) with (2 ^ 33 * 2 ^ 31). change (2 ^ 32) with (2 * 2 ^ 31) in *. lia. }
    change (2 ^ 64) with (2 ^ 33 * 2 ^ 31). change (2 ^ 32) with (2 * 2 ^ 31) in *. lia.
Qed.

Lemma do_read_body_reads s :
  whole_buffer s -> m_reading s = None -> head_fits s -> returns (do_read_body s) next_read.
Proof.
  intros Hb Hr Hh. pose proof MSG_BUF_SIZE_small as Hsmall. unfold do_read_body, check_header, decode_header.
  unfold head_fits, whole_buffer, recv_memory in *. change HEADER_LENGTH with 4 in *.
  rewrite read_at_Ok by lia. cbn [mbind outcome_bind mret outcome_ret].
  destruct (parse_header _) as [h|]; cbn [mbind outcome_bind mret outcome_ret negb].
  2: { apply returns_ret. left. by apply read_ok_close. }
  set (buf := (m_recv_msg_buf s) <| m_msg_length := _ |>). set (s1 := _ <| m_cur_header := h |>).
  assert (whole_buffer s1) as Hb1 by done.
  assert (head_fits s1) as Hh1 by done. assert (m_reading s1 = None) as Hr1 by done.
  destruct (MSG_BUF_SIZE <? buffer_length buf) eqn:E; cbn [negb mbind outcome_bind].
  { apply returns_ret. left. by apply read_ok_close. }
  destruct (negb _); cbn [negb mbind outcome_bind]; [apply returns_ret; left; by apply read_ok_close|].
  set (ml := u32 (msg_length h)) in *. pose proof (wrap_fits 32 (msg_length h) ltac:(lia) : fits 32 ml) as Hml.
  change (m_header_length (m_recv_msg_buf s1)) with (m_header_length (m_recv_msg_buf s)).
  change (body_length (m_recv_msg_buf s1)) with (i32 ml).
  assert (2 ^ 31 - 4 - MSG_BUF_SIZE <= u64 (i32 ml) \/ u64 (i32 ml) = ml /\ body_fits s1) as Hcases.
  { destruct (u64_i32 ml Hml) as [(Hz & _ & Hu)|(_ & _ & Hu)]; [rewrite Hu|left; lia].
    destruct (decide (4 + m_header_length (m_recv_msg_buf s) + ml < 2 ^ 31)) as [Hin|]; [right|left; lia].
    rewrite buffer_length_small in E by first [exact (proj1 Hh) | exact (proj1 Hml) | exact Hin].
    split; [done|]. split; [done|]. split; [apply Hml|]. apply Z.ltb_ge in E. exact E. }
  apply returns_ret, async_read_next; [done..|]. change (body_length (m_recv_msg_buf s1)) with (i32 ml).
  destruct Hcases as [Hbig|[Hu Hfit]]; [right; by change HEADER_LENGTH with 4|left].
  rewrite Hu. split; [destruct Hml; simpl; lia|done].
Qed.

Lemma do_read_head_reads s :
  whole_buffer s -> m_reading s = None -> returns (do_read_head s) next_read.
Proof.
  intros Hb Hr. pose proof MSG_BUF_SIZE_small as Hsmall. unfold do_read_head, decode_header_length.
  unfold whole_buffer, recv_memory in *. change HEADER_LENGTH with 4 in *.
  assert (0 <= MSG_BUF_SIZE) by (apply Z.leb_le; reflexivity).
  rewrite read_at_Ok by lia. cbn [mbind outcome_bind mret outcome_ret].
  set (hl := u32 _). set (s1 := s <| m_recv_msg_buf := _ |>).
  pose proof (wrap_fits 32 _ ltac:(lia) : fits 32 hl) as Hhl. change (header_length _) with (i32 hl).
  destruct (MSG_BUF_SIZE <? i32 hl) eqn:E; [apply returns_ret; left; by apply read_ok_close|].
  apply returns_ret, async_read_next; [done..|]. change (header_length _) with (i32 hl).
  destruct (u64_i32 hl Hhl) as [(Hz & Hi & Hu)|(_ & _ & Hu)]; [left|right; change HEADER_LENGTH with 4; lia].
  destruct Hhl as [Hhl _]. rewrite Hu. split; [simpl; lia|]. simpl. split; [|done]. unfold head_fits.
  change (m_header_length _) with hl. lia.
Qed.

Definition lengths_fit s (next : Reading) : Prop :=
  match next with ReadHeadLen => True | ReadHead => head_fits s | ReadBody => body_fits s end.

Lemma read_handler_reads next err s :
  whole_buffer s -> m_reading s = None -> lengths_fit s next -> returns (read_handler maker next err s) next_read.
Proof.
  intros Hb Hr Hl.
  assert (returns (Ok (do_close s)) next_read) as Hclose by (apply returns_ret; left; by apply read_ok_close).
  destruct next; cbn [read_handler lengths_fit] in *; [| |by apply on_read_complete_reads].
  - unfold on_read_head_len_complete. destruct err; [done|]. by apply do_read_head_reads.
  - unfold on_read_head_complete. destruct err; [done|]. by apply do_read_body_reads.
Qed.

Lemma read_fits_lengths s r : read_fits s r -> lengths_fit s (r_next r).
Proof. intros [_ Hr]. unfold lengths_fit. destruct (r_next r); tauto. Qed.

Lemma handle_read_reads s : next_read s -> returns (handle_read maker s) next_read.
Proof.
  intros [[Hb Hfit]|Hm].
  - unfold handle_read. destruct (m_reading s) as [r|] eqn:Hr; [|apply returns_ret; left; by apply read_ok_idle].
    destruct (completed r); [|apply returns_ret; left; split; [done|by rewrite Hr]].
    apply read_handler_reads; [done..|]. exact (read_fits_lengths s r (Hfit r eq_refl)).
  - exists s. split; [|by right]. by apply handle_read_idle, misled_idle.
Qed.

Lemma handle_reads_reads n s : next_read s -> returns (handle_reads maker n s) next_read.
Proof.
  revert s; induction n as [|n IH]; intros s Hn; [by apply returns_ret|].
  eapply returns_bind; [by apply handle_read_reads|]. exact IH.
Qed.

Lemma take_byte_reads b s : read_ok s -> returns (take_byte b s) read_ok.
Proof.
  intros [Hb Hfit]. unfold take_byte. destruct (m_reading s) as [r|] eqn:Hr; [|by apply returns_ret, read_ok_idle].
  destruct (completed r) eqn:Hc; [apply returns_ret; split; [done|by rewrite Hr]|].
  specialize (Hfit r eq_refl). pose proof (read_fits_end s r Hfit) as Hend. destruct Hfit as [Hgot Hnext].
  apply Z.eqb_neq in Hc. destruct r as [off want got next]. cbn [r_offset r_wanted r_got r_next] in *.
  change (m_buffer (m_recv_msg_buf s)) with (recv_memory s).
  set (mem := take (Z.to_nat (off + got)) (recv_memory s) ++ [b] ++ drop (Z.to_nat (off + got) + 1) (recv_memory s)).
  assert (write_at (off + got) [b] (recv_memory s) = Ok mem) as Hw.
  { apply write_at_Ok; unfold whole_buffer in Hb; simpl; lia. }
  rewrite Hw. apply returns_ret. split.
  - unfold whole_buffer in *. rewrite <- Hb, <- (write_at_length _ _ _ _ Hw). done.
  - intros r [= <-]. split; [simpl; lia|exact Hnext].
Qed.

Lemma arrive_byte_reads b s : read_ok s -> returns (arrive_byte maker s b) next_read.
Proof.
  intros Hs. unfold arrive_byte. eapply returns_bind; [by apply take_byte_reads|].
  intros s1 Hs1. apply handle_reads_reads. by left.
Qed.

Lemma read_error_reads s : read_ok s -> returns (read_error maker s) next_read.
Proof.
  intros [Hb Hfit]. unfold read_error. destruct (m_reading s) as [r|] eqn:Hr.
  - destruct (completed r); [apply returns_ret; left; split; [done|by rewrite Hr]|].
    apply read_handler_reads; [done..|]. exact (read_fits_lengths s r (Hfit r eq_refl)).
  - apply returns_ret. left. by apply read_ok_idle.
Qed.

Lemma kept_reads s s' : kept s s' -> read_ok s -> read_ok s'.
Proof.
  intros [Hb [(_ & Hr & _)|(_ & _ & Hr & _)]]; apply read_ok_same; try done; [by left|].
  rewrite Hr. destruct (m_reading s) as [r|]; [|by left]. simpl. destruct (completed r); [by left|by right].
Qed.

(** Every event is handled as long as the session is not misled. *)
Lemma run_event_returns sent e s :
  session_inv sent s -> Forall sendable (sent ++ sent_by (m_sequenceid s) e) -> read_ok s ->
  returns (run_event maker s e) (fun s' =>
    session_inv (sent ++ sent_by (m_sequenceid s) e) s' /\
    m_sequenceid s' = next_number (m_sequenceid s) e /\ next_read s').
Proof.
  intros Hinv Hfit Hread. destruct (is_read e) eqn:He.
  - assert (returns (run_event maker s e) next_read) as (s' & Hrun & Hnext).
    { destruct e as [| | | |b|b| | | | | |]; try done; cbn [run_event].
      - by apply arrive_byte_reads.
      - eapply returns_mono; [by apply take_byte_reads|]. by left.
      - apply handle_read_reads. by left.
      - by apply read_error_reads. }
    exists s'. split; [done|]. destruct (run_event_inv maker sent e s s' Hinv Hfit Hrun). by split_and!.
  - eapply returns_mono; [exact (run_event_writes maker sent e s Hinv Hfit He)|].
    intros s' (Hinv' & Hn & Hk). split; [done|]. split; [done|]. left.
    by eapply kept_reads.
Qed.

Lemma run_returns events sent s :
  session_inv sent s -> Forall sendable (sent ++ sent_messages (m_sequenceid s) events) -> read_ok s ->
  returns (run maker events s) read_ok \/ exists n, returns (run maker (take n events) s) oversized.
Proof.
  revert sent s; induction events as [|e events IH]; intros sent s Hinv Hfit Hread.
  - left. by apply returns_ret.
  - cbn [sent_messages] in Hfit. rewrite (assoc_L (++)) in Hfit.
    destruct (run_event_returns sent e s) as (s1 & Hrun & Hinv1 & Hn1 & [Hok|Hover]);
      [done|by apply Forall_app in Hfit as [? _]|done| |].
    + rewrite <- Hn1 in Hfit. destruct (IH _ s1 Hinv1 Hfit Hok) as [Hall|[n Hsome]].
      * left. unfold run. cbn [mfold]. by rewrite Hrun.
      * right. exists (S n). unfold run. cbn [take mfold]. by rewrite Hrun.
    + right. exists 1%nat. unfold run. cbn [take mfold]. rewrite Hrun. by apply returns_ret, misled_oversized.
Qed.

Lemma read_ok_start recv memory now :
  Z.of_nat (length recv) = MSG_BUF_SIZE + HEADER_LENGTH -> read_ok (start (new_session recv memory now)).
Proof. intros Hr. split; [exact Hr|]. intros r [= <-]. by split. Qed.

(** C24: As long as the server itself sends only messages whose frames fit the send
    buffer (which the code does not check), a session handles every event from its start
    without leaving its buffers or failing otherwise, whatever bytes its peer sends,
    unless these bytes make it start a read of about 2 GB or more (the next theorem
    shows that they can); the reads of all others are inside the receive buffer. *)
Theorem session_stays_in_buffer recv memory now events :
  Z.of_nat (length recv) = MSG_BUF_SIZE + HEADER_LENGTH ->
  Z.of_nat (length memory) = MSG_BUF_SIZE + HEADER_LENGTH ->
  Forall sendable (sent_messages 0 events) ->
  returns (run maker events (start (new_session recv memory now))) read_ok \/
  exists n, returns (run maker (take n events) (start (new_session recv memory now))) oversized.
Proof.
  intros Hr Hm Hfit.
  exact (run_returns events [] (start (new_session recv memory now)) (start_inv recv memory now Hm) Hfit
           (read_ok_start recv memory now Hr)).
Qed.

(** ** The end of the buffer *)

Lemma arrive_part off want got next (l : list Z) s :
  m_reading s = Some (mkRead off want got next) -> 0 <= off -> 0 <= got ->
  got + Z.of_nat (length l) < want -> off + got + Z.of_nat (length l) <= Z.of_nat (length (recv_memory s)) ->
  returns (arrive maker l s) (fun s' =>
    m_reading s' = Some (mkRead off want (got + Z.of_nat (length l)) next) /\
    length (recv_memory s') = length (recv_memory s)).
Proof.
  revert got s; induction l as [|b l IH]; intros got s Hr Hoff Hgot Hw Hfit.
  - apply returns_ret. by rewrite Z.add_0_r.
  - unfold arrive. cbn [mfold]. cbn [length] in *. set (mem := recv_memory s) in *.
    set (mem1 := take (Z.to_nat (off + got)) mem ++ [b] ++ drop (Z.to_nat (off + got) + 1) mem).
    assert (write_at (off + got) [b] mem = Ok mem1) as Hwr by (apply write_at_Ok; simpl; lia).
    rewrite (arrive_byte_reading maker off want got next b mem1 s Hr ltac:(lia) Hwr).
    rewrite (proj2 (Z.eqb_neq (got + 1) want)) by lia. cbn [mbind outcome_bind].
    set (s1 := recv_bytes mem1 s <| m_reading := _ |>).
    pose proof (write_at_length _ _ _ _ Hwr) as Hlen. change mem1 with (recv_memory s1) in Hlen.
    eapply returns_mono; [apply (IH (got + 1) s1); [done|done|lia|lia|rewrite Hlen; lia]|].
    intros s' [Hr' Hl']. rewrite Hr', Hl', Hlen. split; [|done]. do 2 f_equal. lia.
Qed.

(** A peer that announces a header of 2 GB or more passes the check of the
    length, and the session writes the bytes that follow into its buffer of 128 KB
    until one lies beyond the end. *)
Theorem overlong_header_overruns n (l : list Z) b s :
  waiting s -> 2 ^ 31 <= n < 2 ^ 32 -> Z.of_nat (length l) = MSG_BUF_SIZE ->
  returns (arrive maker (le_bytes 4 (hton32 n) ++ l) s) (fun _ => True) /\
  arrive maker (le_bytes 4 (hton32 n) ++ l ++ [b]) s = Fault OutOfBounds.
Proof.
  intros (Ho & Hr & Hb) Hn Hl. set (pre := le_bytes 4 (hton32 n)).
  assert (length pre = 4%nat) as Hpre by apply le_bytes_length. change HEADER_LENGTH with 4 in *.
  assert (0 <= MSG_BUF_SIZE < 2 ^ 30) as Hsmall by (split; [apply Z.leb_le|apply Z.ltb_lt]; reflexivity).
  assert (fits 32 n) as Hf by (unfold fits; lia).
  set (s1 := recv_bytes (pre ++ drop 4 (recv_memory s)) s <| m_reading := None |>
               <| m_recv_msg_buf ::= (fun buf => buf <| m_header_length := n |>) |>
               <| m_reading := Some (mkRead 4 (u64 (i32 n)) 0 ReadHead) |>).
  destruct (u64_i32 n Hf) as [(? & _)|(_ & Hneg & Hbig)]; [lia|].
  assert (arrive maker pre s = Ok s1) as Harrive.
  { rewrite (arrive_fill maker 0 4 0 ReadHeadLen pre s Hr) by (rewrite ?Hpre; lia).
    change (Z.to_nat (0 + 0)) with 0%nat. rewrite take_0, app_nil_l.
    set (s0 := recv_bytes _ s <| m_reading := None |>). cbn [read_handler]. unfold on_read_head_len_complete, do_read_head, decode_header_length. cbn [negb].
    change (m_buffer (m_recv_msg_buf s0)) with (pre ++ drop 4 (recv_memory s)).
    rewrite read_at_Ok; [|lia|lia|rewrite length_app, Hpre; lia].
    change (Z.to_nat 0) with 0%nat. rewrite drop_0. change (Z.to_nat 4) with 4%nat.
    rewrite take_app_length' by done. cbn [mbind outcome_bind mret outcome_ret]. unfold pre.
    rewrite le_value_bytes by by apply Swap32_fits. rewrite ntoh32_hton32, (wrap_id 32) by done.
    change (header_length _) with (i32 n). rewrite (proj2 (Z.ltb_ge _ _)) by lia.
    unfold async_read. set (s2 := s0 <| m_recv_msg_buf := _ |>).
    assert (m_is_open s2 = true) as -> by exact Ho. rewrite orb_true_r. cbn [mbind outcome_bind mret outcome_ret].
    apply handle_reads_idle, (reading_idle _ 4 (u64 (i32 n)) 0 ReadHead); [done|lia]. }
  assert (Z.of_nat (length (recv_memory s1)) = MSG_BUF_SIZE + 4) as Hb1.
  { change (recv_memory s1) with (pre ++ drop 4 (recv_memory s)). rewrite length_app, length_drop. lia. }
  destruct (arrive_part 4 (u64 (i32 n)) 0 ReadHead l s1) as (s2 & Hl2 & Hr2 & Hb2); try done; try lia.
  rewrite !arrive_app, Harrive. cbn [mbind outcome_bind]. split; [by exists s2|].
  rewrite arrive_app, Hl2. cbn [mbind outcome_bind]. unfold arrive. cbn [mfold]. unfold arrive_byte, take_byte, completed. rewrite Hr2.
  cbn [r_offset r_got r_wanted]. rewrite (proj2 (Z.eqb_neq _ _)) by lia. change (m_buffer (m_recv_msg_buf s2)) with (recv_memory s2). unfold write_at. rewrite Hb2, Hb1.
  rewrite (proj2 (Z.leb_gt _ (MSG_BUF_SIZE + 4))) by (simpl; lia). by rewrite andb_false_r.
Qed.
End overrun.

Lemma session_stays_in_buffer_witness :
  let events := plain_run ++ [Arrived 0; Arrived 0; Arrived 0; Arrived 32; WriteLost] in
  returns (run plain_maker events (plain_session 0)) read_ok \/
  exists n, returns (run plain_maker (take n events) (plain_session 0)) oversized.
Proof.
  intros events.
  exact (session_stays_in_buffer plain_maker plain_memory plain_memory 0 events plain_memory_length
           plain_memory_length plain_run_sendable).
Defined.

Lemma overlong_header_overruns_witness :
  arrive plain_maker (le_bytes 4 (hton32 (2 ^ 31)) ++ replicate (Z.to_nat MSG_BUF_SIZE) 65 ++ [65])
    (plain_session 0) = Fault OutOfBounds.
Proof.
  apply (overlong_header_overruns plain_maker (2 ^ 31) (replicate (Z.to_nat MSG_BUF_SIZE) 65) 65 (plain_session 0)).
  - exact (conj eq_refl (conj eq_refl plain_memory_length)).
  - split; [apply Z.leb_le|apply Z.ltb_lt]; reflexivity.
  - rewrite length_replicate. apply Z2Nat.id. apply Z.leb_le. reflexivity.
Defined.
