(* ===== verification/Base64.v ===== *)
(** * Base64

    The two encoders of Base64.cpp.  The older one has two character sets and
    works on plain [char], which is signed; the newer one is the one that tokens
    are made with (Token.v). *)
From Stdlib Require Import ZArith Lia Ascii String.
From stdpp Require Import base tactics numbers sorting option strings list.
From S2P Require Import Prelude.

(** The bytes of a literal. *)
Definition chars (s : string) : list Z :=
  (fun c => Z.of_nat (nat_of_ascii c)) <$> list_ascii_of_string s.

(** A pointer to characters that becomes a [std::string]: the bytes before the
    first null. *)
Fixpoint c_string (l : list Z) : list Z :=
  match l with
  | [] => []
  | c :: l' => if c =? 0 then [] else c :: c_string l'
  end.

Definition BASE64_CH_NORMAL : Z := 0.
Definition BASE64_CH_SECRET : Z := 1.

(** ** The older encoder *)

Definition base64o : list Z :=
  chars "ABCDEFGHIJKLMNOPQRSTUVWXYZabcdefghijklmnopqrstuvwxyz0123456789+/".

Definition base64i : list Z :=
  [-1; -1; -1; -1; -1; -1; -1; -1; -1; -1; -1; -1; -1; -1; -1; -1;
   -1; -1; -1; -1; -1; -1; -1; -1; -1; -1; -1; -1; -1; -1; -1; -1;
   -1; -1; -1; -1; -1; -1; -1; -1; -1; -1; -1; 62; -1; -1; -1; 63;
   52; 53; 54; 55; 56; 57; 58; 59; 60; 61; -1; -1; -1; -1; -1; -1;
   -1; 0; 1; 2; 3; 4; 5; 6; 7; 8; 9; 10; 11; 12; 13; 14;
   15; 16; 17; 18; 19; 20; 21; 22; 23; 24; 25; -1; -1; -1; -1; -1;
   -1; 26; 27; 28; 29; 30; 31; 32; 33; 34; 35; 36; 37; 38; 39; 40;
   41; 42; 43; 44; 45; 46; 47; 48; 49; 50; 51; -1; -1; -1; -1; -1].

Definition base64o_ex : list Z :=
  chars "Tiger_xu1984206bz#5%3$WwpIQ7*&[,]mNoYEs@!XUHBaZCqRtOcD<fGF+>.hjJ".

Definition base64i_ex : list Z :=
  [-1; -1; -1; -1; -1; -1; -1; -1; -1; -1;
   -1; -1; -1; -1; -1; -1; -1; -1; -1; -1;
   -1; -1; -1; -1; -1; -1; -1; -1; -1; -1;
   -1; -1; -1; 40; -1; 17; 21; 19; 29; -1;
   -1; -1; 28; 58; 31; -1; 60; -1; 13; 8;
   12; 20; 11; 18; 14; 27; 10; 9; -1; -1;
   54; -1; 59; -1; 39; -1; 44; 47; 53; 37;
   57; 56; 43; 25; 63; -1; -1; -1; 34; 51;
   -1; 26; 49; -1; 0; 42; -1; 22; 41; 36;
   46; 30; -1; 32; -1; 5; -1; 45; 15; 52;
   -1; 3; 55; 2; 61; 1; 62; -1; -1; 33;
   -1; 35; 24; 48; 4; 38; 50; 7; -1; 23;
   6; -1; 16; -1; -1; -1; -1; -1].

Definition local_base64o (chSet : Z) : list Z :=
  if chSet =? BASE64_CH_SECRET then base64o_ex else base64o.
Definition local_base64i (chSet : Z) : list Z :=
  if chSet =? BASE64_CH_SECRET then base64i_ex else base64i.

(** ['#'] or ['=']. *)
Definition local_end (chSet : Z) : Z := if chSet =? BASE64_CH_SECRET then 35 else 61.

(** [m << 8 | c], in an [unsigned long]: the character is extended with its sign. *)
Definition append_char (m c : Z) : Z := Z.lor (u64 (Z.shiftl m 8)) (u64 (i8 c)).

(** [for (i = n; i > 0; m >>= 6) d[--i] = table[m & 0x3F];] *)
Fixpoint digits (table : list Z) (n : nat) (m : Z) (d : list Z) : list Z :=
  match n with
  | O => d
  | S n' => digits table n' (Z.shiftr m 6) (nth (Z.to_nat (Z.land m 63)) table 0 :: d)
  end.

Fixpoint encode_loop (table : list Z) (end_ : Z) (s : list Z) : list Z :=
  match s with
  | s0 :: s1 :: s2 :: s' =>
      digits table 4 (append_char (append_char (u64 (i8 s0)) s1) s2) [] ++ encode_loop table end_ s'
  | [] => []
  | _ =>
      let n := length s in
      let m := foldl append_char 0 s in
      let m := Nat.iter (3 - n) (fun m => u64 (Z.shiftl m 8)) m in
      take (S n) (digits table 4 m []) ++ replicate (3 - n) end_
  end.

(** [Base64Encode(s, n, chSet)] *)
Definition Base64Encode_set (s : list Z) (chSet : Z) : list Z :=
  encode_loop (local_base64o chSet) (local_end chSet) s.

(** A character's value: the table has 128 entries. *)
Definition code_of (table : list Z) (i : Z) : outcome Z :=
  if 0 <=? i then access (table !! Z.to_nat i) else Fault OutOfBounds.

(** [strEn.at(i++)], with the characters that are left. *)
Definition next_char (s : list Z) : outcome (Z * list Z) :=
  match s with [] => Fault ThrowOutOfRange | c :: s' => mret (c, s') end.

(** The first character of a group: characters without a value are skipped. *)
Fixpoint first_code (table s : list Z) : outcome (Z * list Z) :=
  match s with
  | [] => Fault ThrowOutOfRange
  | c :: s' =>
      c1 ← code_of table (Z.land c 255);
      if negb (bool_decide (s' = [])) && (c1 =? -1) then first_code table s' else mret (c1, s')
  end.

(** The third and the fourth character; [None] is the end mark. *)
Fixpoint last_code (table : list Z) (end_ : Z) (s : list Z) : outcome (option Z * list Z) :=
  match s with
  | [] => Fault ThrowOutOfRange
  | c :: s' =>
      let c3 := i8 (Z.land c 255) in
      if c3 =? end_ then mret (None, s')
      else
        c3 ← code_of table c3;
        if negb (bool_decide (s' = [])) && (c3 =? -1) then last_code table end_ s' else mret (Some c3, s')
  end.

(** [buf[length++] = c], in a buffer of [cap] bytes. *)
Definition put_char (cap : Z) (c : Z) (buf : list Z) : outcome (list Z) :=
  if Z.of_nat (length buf) <? cap then mret (buf ++ [u8 c]) else Fault OutOfBounds.

(** The loop over the groups.  The result is what was written; [Some] of it means
    that the loop ended by itself or at the end mark, [None] that it gave up. *)
Fixpoint decode_loop (fuel : nat) (table : list Z) (end_ cap : Z) (s buf : list Z) : outcome (option (list Z)) :=
  match fuel with
  | O => Fault NoFuel
  | S fuel' =>
      if bool_decide (s = []) then mret (if bool_decide (buf = []) then None else Some buf)
      else
        '(c1, s) ← first_code table s;
        if c1 =? -1 then mret None
        else
          '(c, s) ← next_char s;
          c2 ← code_of table (Z.land c 255);
          if c2 =? -1 then mret None
          else
            buf ← put_char cap (Z.lor (Z.shiftl c1 2) (Z.shiftr (Z.land c2 48) 4)) buf;
            '(c3, s) ← last_code table end_ s;
            match c3 with
            | None => mret (Some buf)
            | Some c3 =>
                if c3 =? -1 then mret None
                else
                  buf ← put_char cap (Z.lor (Z.shiftl (Z.land c2 15) 4) (Z.shiftr (Z.land c3 60) 2)) buf;
                  '(c4, s) ← last_code table end_ s;
                  match c4 with
                  | None => mret (Some buf)
                  | Some c4 =>
                      if c4 =? -1 then mret None
                      else
                        buf ← put_char cap (Z.lor (Z.shiftl (Z.land c3 3) 6) c4) buf;
                        decode_loop fuel' table end_ cap s buf
                  end
            end
  end.

(** [Base64Decode(strEn, buf, length, chSet)]: [None] is the result -1. *)
Definition Base64Decode_set (strEn : list Z) (chSet : Z) : outcome (option (list Z)) :=
  let iBuffLen := Z.quot (Z.of_nat (length strEn)) 4 * 3 + 1 in
  if iBuffLen <=? 1 then mret None
  else decode_loop (S (length strEn)) (local_base64i chSet) (local_end chSet) iBuffLen strEn [].

(** ** The newer encoder *)

Definition BASE64_TAB : list Z :=
  chars "ABCDEFGHIJKLMNOPQRSTUVWXYZabcdefghijklmnopqrstuvwxyz0123456789+/".

Definition equals_sign : Z := 61.

Definition tab (i : Z) : Z := nth (Z.to_nat i) BASE64_TAB 0.

Definition Unit_Code (c0 c1 c2 : Z) : list Z :=
  [tab (Z.shiftr c0 2);
   tab (Z.lor (Z.land (Z.shiftl c0 4) 63) (Z.shiftr c1 4));
   tab (Z.lor (Z.land (Z.shiftl c1 2) 63) (Z.shiftr c2 6));
   tab (Z.land c2 63)].

(** The last one or two bytes; [Ch_fill] starts as zeros. *)
Definition Fill_Code (s : list Z) : outcome (list Z) :=
  match s with
  | [c0; c1] =>
      mret [tab (Z.shiftr c0 2);
            tab (Z.lor (Z.land (Z.shiftl c0 4) 63) (Z.shiftr c1 4));
            tab (Z.lor (Z.land (Z.shiftl c1 2) 63) (Z.shiftr 0 6));
            equals_sign]
  | [c0] =>
      mret [tab (Z.shiftr c0 2);
            tab (Z.lor (Z.land (Z.shiftl c0 4) 63) (Z.shiftr 0 4));
            equals_sign; equals_sign]
  | _ => Fault AssertFailed
  end.

(** [Base64Encode(src, src_length, dest)] *)
Fixpoint encode_units (src : list Z) : outcome (list Z) :=
  match src with
  | [] => mret []
  | c0 :: c1 :: c2 :: src' => rest ← encode_units src'; mret (Unit_Code c0 c1 c2 ++ rest)
  | _ => Fill_Code src
  end.

(** [Base64Encode(src, length)] *)
Definition Base64Encode (src : list Z) : outcome (list Z) :=
  buf ← encode_units src; mret (c_string buf).

(** [strchr] also finds the null at the end of the table; without the character
    it is null, and its distance from the table has no meaning. *)
Definition Base64ChPos (ch : Z) : outcome Z :=
  match list_find (eq ch) (BASE64_TAB ++ [0]) with
  | Some (i, _) => mret (Z.of_nat i)
  | None => Fault NullDeref
  end.

(** The bytes that one unit of four characters stands for: three, two or one. *)
Definition Unit_Decode (s0 s1 s2 s3 : Z) : outcome (list Z) :=
  if negb (s3 =? equals_sign) then
    code0 ← Base64ChPos s0;
    code1 ← Base64ChPos s1;
    code2 ← Base64ChPos s2;
    code3 ← Base64ChPos s3;
    mret [u8 (Z.lor (Z.shiftl code0 2) (Z.shiftr code1 4));
          u8 (Z.lor (Z.shiftl code1 4) (Z.shiftr code2 2));
          u8 (Z.lor (Z.shiftl code2 6) code3)]
  else if s2 =? equals_sign then
    code0 ← Base64ChPos s0;
    code1 ← Base64ChPos s1;
    mret [u8 (Z.lor (Z.shiftl code0 2) (Z.shiftr code1 4))]
  else
    code0 ← Base64ChPos s0;
    code1 ← Base64ChPos s1;
    code2 ← Base64ChPos s2;
    mret [u8 (Z.lor (Z.shiftl code0 2) (Z.shiftr code1 4));
          u8 (Z.lor (Z.shiftl code1 4) (Z.shiftr code2 2))].

(** The units go to every third place of [dest]; [None] is a byte that is not
    written. *)
Fixpoint decode_units (src : list Z) : outcome (list (option Z)) :=
  match src with
  | s0 :: s1 :: s2 :: s3 :: src' =>
      bytes ← Unit_Decode s0 s1 s2 s3;
      rest ← decode_units src';
      mret ((Some <$> bytes) ++ replicate (3 - length bytes) None ++ rest)
  | _ => mret []
  end.

Definition padding_of (src : list Z) : Z :=
  match reverse src with
  | last :: before :: _ =>
      if last =? equals_sign then if before =? equals_sign then 2 else 1 else 0
  | _ => 0
  end.

(** [Base64Decode(src, src_length, dest, decode_length)]: what is written to
    [dest] and to [*decode_length], if anything is. *)
Definition Base64Decode_raw (src : list Z) : outcome (list (option Z) * option Z) :=
  if (length src <? 4)%nat then mret ([], None)
  else
    dest ← decode_units src;
    mret (dest, Some (Z.quot (Z.of_nat (length src)) 4 * 3 - padding_of src)).

(** [Base64Decode(strEn, buf, length)]: a [length] of [None] is the caller's own. *)
Definition Base64Decode (strEn : list Z) : outcome (list (option Z) * option Z) :=
  if bool_decide (strEn = []) then mret ([], Some 0) else Base64Decode_raw strEn.

(** ** Six bits at a time *)

#[local] Ltac Zify.zify_post_hook ::= Z.to_euclidean_division_equations.

Definition sextet (i : Z) : Prop := 0 <= i < 64.

Lemma tab_spec i :
  sextet i -> Base64ChPos (tab i) = Ok i /\ tab i <> 0 /\ tab i <> equals_sign /\ fits 8 (tab i).
Proof.
  intros Hi.
  pose (P := fun i => bool_decide (Base64ChPos (tab i) = Ok i /\ tab i <> 0 /\ tab i <> equals_sign /\ fits 8 (tab i))).
  change (0 <= i < 64) in Hi.
  enough (P i = true) by by apply (bool_decide_eq_true_1 _).
  revert i Hi. apply (forall_below P 64). vm_compute. reflexivity.
Qed.

Lemma ChPos_tab i : sextet i -> Base64ChPos (tab i) = Ok i.
Proof. intros. by apply tab_spec. Qed.

Lemma tab_not_end i : sextet i -> (tab i =? equals_sign) = false.
Proof. intros. apply Z.eqb_neq. by apply tab_spec. Qed.

(** The four sextets of three bytes, by arithmetic. *)
Lemma sextet0 a : fits 8 a -> Z.shiftr a 2 = a / 4 /\ sextet (a / 4).
Proof. unfold fits, sextet. intros. rewrite Z.shiftr_div_pow2 by lia. split; [done|]. lia. Qed.

Lemma sextet1 a b :
  fits 8 a -> fits 8 b ->
  Z.lor (Z.land (Z.shiftl a 4) 63) (Z.shiftr b 4) = a mod 4 * 16 + b / 16 /\
  sextet (a mod 4 * 16 + b / 16).
Proof.
  unfold fits, sextet. intros. rewrite Z.shiftl_mul_pow2, Z.shiftr_div_pow2 by lia.
  change 63 with (Z.ones 6). rewrite Z.land_ones by lia.
  replace (a * 2 ^ 4 mod 2 ^ 6) with (a mod 4 * 2 ^ 4) by lia. rewrite lor_add by lia. lia.
Qed.

Lemma sextet2 b c :
  fits 8 b -> fits 8 c ->
  Z.lor (Z.land (Z.shiftl b 2) 63) (Z.shiftr c 6) = b mod 16 * 4 + c / 64 /\
  sextet (b mod 16 * 4 + c / 64).
Proof.
  unfold fits, sextet. intros. rewrite Z.shiftl_mul_pow2, Z.shiftr_div_pow2 by lia.
  change 63 with (Z.ones 6). rewrite Z.land_ones by lia.
  replace (b * 2 ^ 2 mod 2 ^ 6) with (b mod 16 * 2 ^ 2) by lia. rewrite lor_add by lia. lia.
Qed.

Lemma sextet3 c : Z.land c 63 = c mod 64 /\ sextet (c mod 64).
Proof.
  unfold fits, sextet. intros. change 63 with (Z.ones 6). rewrite Z.land_ones by lia. split; [done|]. lia.
Qed.

(** The bytes of four sextets. *)
Lemma octet0 x y : sextet x -> sextet y -> u8 (Z.lor (Z.shiftl x 2) (Z.shiftr y 4)) = x * 4 + y / 16.
Proof.
  unfold sextet, wrap. intros. rewrite Z.shiftl_mul_pow2, Z.shiftr_div_pow2 by lia.
  rewrite lor_add by lia. lia.
Qed.

Lemma octet1 x y : sextet x -> sextet y -> u8 (Z.lor (Z.shiftl x 4) (Z.shiftr y 2)) = x mod 16 * 16 + y / 4.
Proof.
  unfold sextet, wrap. intros. rewrite Z.shiftl_mul_pow2, Z.shiftr_div_pow2 by lia.
  rewrite lor_add by lia. lia.
Qed.

Lemma octet2 x y : sextet x -> sextet y -> u8 (Z.lor (Z.shiftl x 6) y) = x mod 4 * 64 + y.
Proof. unfold sextet, wrap. intros. rewrite Z.shiftl_mul_pow2 by lia. rewrite lor_add by lia. lia. Qed.

(** ** The newer encoder goes round *)

(** Induction by threes. *)
Lemma triples_ind {A} (P : list A -> Prop) :
  P [] -> (forall a, P [a]) -> (forall a b, P [a; b]) ->
  (forall a b c l, P l -> P (a :: b :: c :: l)) -> forall l, P l.
Proof.
  intros H0 H1 H2 H3. fix IH 1. intros [|a [|b [|c l]]]; [done|apply H1|apply H2|apply H3, IH].
Qed.

(** How a run of bytes is written: the characters come back, the end marks say
    how many bytes are missing. *)
Definition missing (n : nat) : nat :=
  match (n mod 3)%nat with 0%nat => 0%nat | 1%nat => 2%nat | _ => 1%nat end.

Lemma missing_add3 n : missing (S (S (S n))) = missing n.
Proof.
  unfold missing. replace (S (S (S n))) with (n + 1 * 3)%nat by lia. by rewrite Nat.Div0.mod_add.
Qed.

Record encoding (s e : list Z) : Prop := mkEncoding {
  enc_text : Forall (fun c => c <> 0 /\ fits 8 c) e;
  enc_length : (3 * length e = 4 * (length s + missing (length s)))%nat;
  enc_padding : s <> [] -> padding_of e = Z.of_nat (missing (length s));
  enc_decode : decode_units e = Ok ((Some <$> s) ++ replicate (missing (length s)) None)
}.

Lemma Unit_Code_decodes a b c :
  fits 8 a -> fits 8 b -> fits 8 c ->
  exists x y z w, sextet x /\ sextet y /\ sextet z /\ sextet w /\
    Unit_Code a b c = [tab x; tab y; tab z; tab w] /\
    Unit_Decode (tab x) (tab y) (tab z) (tab w) = Ok [a; b; c].
Proof.
  intros Ha Hb Hc. unfold Unit_Code.
  destruct (sextet0 a Ha) as [-> H0], (sextet1 a b Ha Hb) as [-> H1], (sextet2 b c Hb Hc) as [-> H2],
    (sextet3 c) as [-> H3].
  exists (a / 4), (a mod 4 * 16 + b / 16), (b mod 16 * 4 + c / 64), (c mod 64). do 5 (split; [done|]). unfold Unit_Decode.
  rewrite tab_not_end by done. cbn [negb]. rewrite !ChPos_tab by done.
  cbn [mbind outcome_bind mret outcome_ret]. rewrite octet0, octet1, octet2 by done.
  unfold fits in *. do 2 f_equal; [lia|]. f_equal; [lia|]. f_equal. lia.
Qed.

Lemma padding_of_4 w x y z :
  padding_of [w; x; y; z] = if z =? equals_sign then if y =? equals_sign then 2 else 1 else 0.
Proof. done. Qed.

Lemma padding_of_app l r : (2 <= length r)%nat -> padding_of (l ++ r) = padding_of r.
Proof.
  intros Hl. unfold padding_of. rewrite reverse_app.
  destruct (reverse r) as [|x [|y r']] eqn:E; [..|done];
    apply (f_equal length) in E; rewrite length_reverse in E; simpl in E; lia.
Qed.

Lemma Forall_tab (l : list Z) : Forall sextet l -> Forall (fun c => c <> 0 /\ fits 8 c) (tab <$> l).
Proof.
  intros Hl. rewrite Forall_fmap. eapply Forall_impl; [exact Hl|]. intros x Hx.
  by destruct (tab_spec x Hx) as (_ & ? & _ & ?).
Qed.

Lemma end_text : equals_sign <> 0 /\ fits 8 equals_sign.
Proof. done. Qed.

Lemma encode_units_encoding s :
  Forall (fits 8) s -> exists e, encode_units s = Ok e /\ encoding s e.
Proof.
  induction s as [|a|a b|a b c s IH] using triples_ind.
  - intros _. exists []. by split.
  - rewrite Forall_cons. intros [Ha _]. eexists. split; [reflexivity|].
    destruct (sextet0 a Ha) as [-> H0], (sextet1 a 0 Ha) as [-> H1]; [done|].
    split; [|done..|].
    + repeat apply Forall_cons_2; try apply end_text; [by destruct (tab_spec _ H0) as (_ & ? & _ & ?)|
        by destruct (tab_spec _ H1) as (_ & ? & _ & ?)|by apply Forall_nil].
    + cbn [decode_units]. unfold Unit_Decode. cbn [negb Z.eqb equals_sign Pos.eqb].
      rewrite !ChPos_tab by done. cbn [mbind outcome_bind mret outcome_ret].
      rewrite octet0 by done. unfold fits in Ha.
      by replace (a / 4 * 4 + (a mod 4 * 16 + 0 / 16) / 16) with a by lia.
  - rewrite !Forall_cons. intros (Ha & Hb & _). eexists. split; [reflexivity|].
    destruct (sextet0 a Ha) as [-> H0], (sextet1 a b Ha Hb) as [-> H1], (sextet2 b 0 Hb) as [-> H2]; [done|].
    split; [|done| |].
    + repeat apply Forall_cons_2; try apply end_text; [by destruct (tab_spec _ H0) as (_ & ? & _ & ?)|
        by destruct (tab_spec _ H1) as (_ & ? & _ & ?)|by destruct (tab_spec _ H2) as (_ & ? & _ & ?)|by apply Forall_nil].
    + intros _. by rewrite padding_of_4, tab_not_end.
    + cbn [decode_units]. unfold Unit_Decode. cbn [negb Z.eqb equals_sign Pos.eqb].
      rewrite tab_not_end by done. rewrite !ChPos_tab by done. cbn [mbind outcome_bind mret outcome_ret].
      rewrite octet0, octet1 by done. unfold fits in Ha, Hb.
      replace (a / 4 * 4 + (a mod 4 * 16 + b / 16) / 16) with a by lia.
      by replace ((a mod 4 * 16 + b / 16) mod 16 * 16 + (b mod 16 * 4 + 0 / 64) / 4) with b by lia.
  - rewrite !Forall_cons. intros (Ha & Hb & Hc & Hs). destruct (IH Hs) as (e & E & [Ht Hl Hp Hd]).
    destruct (Unit_Code_decodes a b c Ha Hb Hc) as (x & y & z & w & Hx & Hy & Hz & Hw & Eu & Ed).
    cbn [encode_units]. rewrite E, Eu. cbn [mbind outcome_bind mret outcome_ret].
    eexists. split; [reflexivity|]. split.
    + apply Forall_app. split; [|done]. apply (Forall_tab [x; y; z; w]). by repeat apply Forall_cons_2.
    + rewrite length_app. cbn [length]. rewrite missing_add3. lia.
    + intros _. cbn [length]. rewrite missing_add3. destruct s as [|d s'].
      * injection E as <-. cbn [app]. by rewrite padding_of_4, tab_not_end.
      * rewrite padding_of_app; [by apply Hp|]. cbn [length] in Hl. lia.
    + cbn [app decode_units]. rewrite Ed, Hd. cbn [mbind outcome_bind mret outcome_ret length].
      by rewrite missing_add3.
Qed.

Lemma c_string_text e : Forall (fun c => c <> 0 /\ fits 8 c) e -> c_string e = e.
Proof.
  induction 1 as [|c e [Hc _] _ IH]; [done|]. cbn [c_string]. rewrite (proj2 (Z.eqb_neq c 0) Hc). by rewrite IH.
Qed.

Lemma Base64Encode_encoding s : Forall (fits 8) s -> exists e, Base64Encode s = Ok e /\ encoding s e.
Proof.
  intros Hs. destruct (encode_units_encoding s Hs) as (e & E & He). exists e. split; [|done].
  unfold Base64Encode. rewrite E. cbn [mbind outcome_bind]. by rewrite c_string_text by apply He.
Qed.

Lemma missing_bound n : (missing n <= 2)%nat.
Proof. unfold missing. repeat case_match; lia. Qed.

Lemma Base64Decode_encoding s e :
  encoding s e ->
  Base64Decode e = Ok ((Some <$> s) ++ replicate (missing (length s)) None, Some (Z.of_nat (length s))).
Proof.
  intros [Ht Hl Hp Hd]. pose proof (missing_bound (length s)) as Hm. unfold Base64Decode.
  destruct s as [|c s].
  { destruct e; [done|]. cbn [length] in *. change (missing 0) with 0%nat in Hl. lia. }
  rewrite bool_decide_eq_false_2 by (intros ->; cbn [length] in Hl; lia).
  unfold Base64Decode_raw. destruct (length e <? 4)%nat eqn:E4.
  { apply Nat.ltb_lt in E4. cbn [length] in Hl. lia. }
  rewrite Hd. cbn [mbind outcome_bind mret outcome_ret]. rewrite (Hp ltac:(done)). do 3 f_equal.
  revert Hl Hm. generalize (length e), (length (c :: s)), (missing (length (c :: s))). lia.
Qed.

(** C28: The encoder that tokens are made with goes round: for every string of bytes
    it makes four characters of three bytes, none of them a null, and the decoder
    writes the bytes to its buffer and counts them. *)
Theorem base64_roundtrip s :
  Forall (fits 8) s ->
  exists e, Base64Encode s = Ok e /\ (3 * length e = 4 * (length s + missing (length s)))%nat /\
    Base64Decode e = Ok ((Some <$> s) ++ replicate (missing (length s)) None, Some (Z.of_nat (length s))).
Proof.
  intros Hs. destruct (Base64Encode_encoding s Hs) as (e & E & He). exists e.
  split; [done|]. split; [apply He|by apply Base64Decode_encoding].
Qed.

Lemma base64_roundtrip_witness :
  exists e, Base64Encode [255; 0; 128; 7] = Ok e /\
    Base64Decode e = Ok ([Some 255; Some 0; Some 128; Some 7; None; None], Some 4).
Proof.
  destruct (base64_roundtrip [255; 0; 128; 7]) as (e & H1 & _ & H3).
  { by repeat (apply Forall_cons_2; [done|]). }
  by exists e.
Defined.

(** ** The older encoder on plain text *)

Definition ascii_text (c : Z) : Prop := 0 <= c < 128.

Lemma append_char_ascii m c : 0 <= m < 2 ^ 56 -> ascii_text c -> append_char m c = m * 256 + c.
Proof.
  unfold ascii_text. intros Hm Hc. unfold append_char. rewrite Z.shiftl_mul_pow2 by lia.
  rewrite (swrap_id 8) by lia. rewrite !wrap_id by (unfold fits; lia). apply (lor_add 8); lia.
Qed.

Lemma digits_four m :
  0 <= m -> digits base64o 4 m [] =
    [tab (m / 2 ^ 18 mod 64); tab (m / 2 ^ 12 mod 64); tab (m / 2 ^ 6 mod 64); tab (m mod 64)].
Proof.
  intros Hm. cbn [digits]. change 63 with (Z.ones 6). rewrite !Z.land_ones by lia.
  rewrite !Z.shiftr_shiftr by lia. rewrite !Z.shiftr_div_pow2 by lia. done.
Qed.

Lemma Unit_Code_eq a b c :
  fits 8 a -> fits 8 b -> fits 8 c ->
  Unit_Code a b c = [tab (a / 4); tab (a mod 4 * 16 + b / 16); tab (b mod 16 * 4 + c / 64); tab (c mod 64)].
Proof.
  intros Ha Hb Hc. unfold Unit_Code. destruct (sextet0 a Ha) as [-> _], (sextet1 a b Ha Hb) as [-> _],
    (sextet2 b c Hb Hc) as [-> _], (sextet3 c) as [-> _]. done.
Qed.

Lemma digits_unit a b c :
  fits 8 a -> fits 8 b -> fits 8 c -> digits base64o 4 ((a * 256 + b) * 256 + c) [] = Unit_Code a b c.
Proof.
  intros Ha Hb Hc. rewrite Unit_Code_eq by done. unfold fits in *. rewrite digits_four by lia.
  do 3 (f_equal; [f_equal; lia|]). do 2 f_equal. lia.
Qed.

Lemma encode_loop_ascii s :
  Forall ascii_text s -> encode_units s = Ok (encode_loop base64o equals_sign s).
Proof.
  assert (forall c, ascii_text c -> fits 8 c) as Hfits by (unfold ascii_text, fits; lia).
  assert (forall c, ascii_text c -> append_char 0 c = c) as Hone.
  { intros c Hc. rewrite append_char_ascii by (done || lia). lia. }
  induction s as [|a|a b|a b c s IH] using triples_ind; [done|..]; rewrite ?Forall_cons.
  - intros [Ha _]. cbn [encode_loop length foldl Nat.iter Nat.sub].
    rewrite Hone by done. unfold ascii_text in Ha.
    assert (Nat.iter 2 (fun m => u64 (Z.shiftl m 8)) a = (a * 256 + 0) * 256 + 0) as ->.
    { cbn [Nat.iter nat_rect]. rewrite !Z.shiftl_mul_pow2 by lia. unfold wrap. lia. }
    rewrite digits_unit by (unfold fits; lia). reflexivity.
  - intros (Ha & Hb & _). cbn [encode_loop length foldl Nat.iter Nat.sub].
    rewrite Hone by done. unfold ascii_text in Ha, Hb. rewrite append_char_ascii by (unfold ascii_text; lia).
    assert (Nat.iter 1 (fun m => u64 (Z.shiftl m 8)) (a * 256 + b) = (a * 256 + b) * 256 + 0) as ->.
    { cbn [Nat.iter nat_rect]. rewrite !Z.shiftl_mul_pow2 by lia. unfold wrap. lia. }
    rewrite digits_unit by (unfold fits; lia). reflexivity.
  - intros (Ha & Hb & Hc & Hs). cbn [encode_units encode_loop]. rewrite (IH Hs).
    cbn [mbind outcome_bind mret outcome_ret]. unfold ascii_text in *.
    rewrite (swrap_id 8) by lia. rewrite (wrap_id 64 a) by (unfold fits; lia).
    rewrite (append_char_ascii a b), append_char_ascii by (unfold ascii_text; lia). rewrite digits_unit by (unfold fits; lia). done.
Qed.

(** On 7-bit text the two encoders agree. *)
Theorem base64_encoders_agree s :
  Forall ascii_text s -> Base64Encode s = Ok (Base64Encode_set s BASE64_CH_NORMAL).
Proof.
  intros Hs. pose proof (encode_loop_ascii s Hs) as E.
  assert (Forall (fits 8) s) as Hf by (eapply Forall_impl; [exact Hs|]; unfold ascii_text, fits; lia).
  destruct (encode_units_encoding s Hf) as (e & E' & He). rewrite E in E'. injection E' as E'.
  unfold Base64Encode. rewrite E. cbn [mbind outcome_bind].
  change (Base64Encode_set s BASE64_CH_NORMAL) with (encode_loop base64o equals_sign s).
  rewrite E', c_string_text by apply He. done.
Qed.

Lemma base64_encoders_agree_witness :
  Base64Encode (chars "stars_gaming") = Ok (Base64Encode_set (chars "stars_gaming") BASE64_CH_NORMAL).
Proof.
  apply base64_encoders_agree. vm_compute. repeat (apply Forall_cons_2; [by split|]). apply Forall_nil_2.
Defined.

(** *** Its decoder *)

Lemma code_of_tab x :
  sextet x -> code_of base64i (Z.land (tab x) 255) = Ok x /\ code_of base64i (i8 (Z.land (tab x) 255)) = Ok x /\
    (i8 (Z.land (tab x) 255) =? equals_sign) = false /\ (x =? -1) = false.
Proof.
  intros Hx.
  pose (P := fun x => bool_decide (code_of base64i (Z.land (tab x) 255) = Ok x /\
    code_of base64i (i8 (Z.land (tab x) 255)) = Ok x /\
    (i8 (Z.land (tab x) 255) =? equals_sign) = false /\ (x =? -1) = false)).
  enough (P x = true) by by apply (bool_decide_eq_true_1 _).
  change (0 <= x < 64) in Hx. revert x Hx. apply (forall_below P 64). vm_compute. reflexivity.
Qed.

Lemma masked_shift x :
  sextet x -> Z.shiftr (Z.land x 60) 2 = Z.shiftr x 2 /\ Z.shiftr (Z.land x 48) 4 = Z.shiftr x 4.
Proof.
  intros Hx.
  pose (P := fun x => bool_decide (Z.shiftr (Z.land x 60) 2 = Z.shiftr x 2 /\ Z.shiftr (Z.land x 48) 4 = Z.shiftr x 4)).
  enough (P x = true) by by apply (bool_decide_eq_true_1 _).
  change (0 <= x < 64) in Hx. revert x Hx. apply (forall_below P 64). vm_compute. reflexivity.
Qed.

Lemma first_code_tab x s : sextet x -> first_code base64i (tab x :: s) = Ok (x, s).
Proof.
  intros Hx. cbn [first_code]. destruct (code_of_tab x Hx) as (-> & _ & _ & E).
  cbn [mbind outcome_bind]. by rewrite E, andb_false_r.
Qed.

Lemma last_code_tab x s : sextet x -> last_code base64i equals_sign (tab x :: s) = Ok (Some x, s).
Proof.
  intros Hx. cbn [last_code]. destruct (code_of_tab x Hx) as (_ & -> & -> & E).
  cbn [mbind outcome_bind]. by rewrite E, andb_false_r.
Qed.

Lemma put_char_Ok cap c buf : Z.of_nat (length buf) < cap -> put_char cap c buf = Ok (buf ++ [u8 c]).
Proof. intros Hc. unfold put_char. by rewrite (proj2 (Z.ltb_lt _ _) Hc). Qed.

(** The first two characters of a unit give its first byte. *)
Lemma decode_first fuel cap x y s buf :
  sextet x -> sextet y -> Z.of_nat (length buf) < cap ->
  decode_loop (S fuel) base64i equals_sign cap (tab x :: tab y :: s) buf =
    (let buf := buf ++ [x * 4 + y / 16] in
     '(c3, s) ← last_code base64i equals_sign s;
     match c3 with
     | None => mret (Some buf)
     | Some c3 =>
         if c3 =? -1 then mret None
         else
           buf ← put_char cap (Z.lor (Z.shiftl (Z.land y 15) 4) (Z.shiftr (Z.land c3 60) 2)) buf;
           '(c4, s) ← last_code base64i equals_sign s;
           match c4 with
           | None => mret (Some buf)
           | Some c4 =>
               if c4 =? -1 then mret None
               else
                 buf ← put_char cap (Z.lor (Z.shiftl (Z.land c3 3) 6) c4) buf;
                 decode_loop fuel base64i equals_sign cap s buf
           end
     end).
Proof.
  intros Hx Hy Hc. cbn [decode_loop]. rewrite (bool_decide_eq_false_2 (_ :: _ = [])) by done.
  rewrite first_code_tab by done. cbn [mbind outcome_bind]. destruct (code_of_tab x Hx) as (_ & _ & _ & ->).
  cbn [next_char mbind outcome_bind mret outcome_ret]. destruct (code_of_tab y Hy) as (-> & _ & _ & Hy1).
  cbn [mbind outcome_bind]. rewrite Hy1, put_char_Ok by done. cbn [mbind outcome_bind].
  destruct (masked_shift y Hy) as [_ ->]. by rewrite octet0.
Qed.

Lemma low_bits y z : sextet y -> sextet z ->
  u8 (Z.lor (Z.shiftl (Z.land y 15) 4) (Z.shiftr (Z.land z 60) 2)) = y mod 16 * 16 + z / 4.
Proof.
  intros Hy Hz. destruct (masked_shift z Hz) as [-> _]. change 15 with (Z.ones 4). rewrite Z.land_ones by lia.
  rewrite octet1 by (done || unfold sextet in *; lia). change (2 ^ 4) with 16. by rewrite Z.mod_mod.
Qed.

Lemma lowest_bits z w : sextet z -> sextet w ->
  u8 (Z.lor (Z.shiftl (Z.land z 3) 6) w) = z mod 4 * 64 + w.
Proof.
  intros Hz Hw. change 3 with (Z.ones 2). rewrite Z.land_ones by lia.
  rewrite octet2 by (done || unfold sextet in *; lia). change (2 ^ 2) with 4. by rewrite Z.mod_mod.
Qed.

Lemma decode_loop_units s :
  Forall (fits 8) s -> forall e fuel buf cap,
  encode_units s = Ok e -> (length e < fuel)%nat -> Z.of_nat (length buf + length s) <= cap ->
  decode_loop fuel base64i equals_sign cap e buf =
    Ok (if bool_decide (buf ++ s = []) then None else Some (buf ++ s)).
Proof.
  induction s as [|a|a b|a b c s IH] using triples_ind; rewrite ?Forall_cons;
    intros Hs e [|fuel] buf cap E Hf Hcap; try lia.
  - injection E as <-. cbn [decode_loop]. rewrite app_nil_r. done.
  - destruct Hs as [Ha _]. injection E as <-. cbn [length] in Hcap.
    destruct (sextet0 a Ha) as [-> H0], (sextet1 a 0 Ha) as [-> H1]; [done|].
    rewrite decode_first by (done || lia). cbn zeta. cbn [last_code Z.land].
    change (i8 (Z.land equals_sign 255) =? equals_sign) with true. cbn [mbind outcome_bind].
    unfold fits in Ha. replace (a / 4 * 4 + (a mod 4 * 16 + 0 / 16) / 16) with a by lia.
    by rewrite (bool_decide_eq_false_2 (_ = [])) by (by destruct buf).
  - destruct Hs as (Ha & Hb & _). injection E as <-. cbn [length] in Hcap.
    destruct (sextet0 a Ha) as [-> H0], (sextet1 a b Ha Hb) as [-> H1], (sextet2 b 0 Hb) as [-> H2]; [done|].
    rewrite decode_first by (done || lia). cbn zeta. rewrite last_code_tab by done.
    cbn [mbind outcome_bind]. destruct (code_of_tab _ H2) as (_ & _ & _ & ->).
    rewrite put_char_Ok by (rewrite length_app; cbn [length]; lia). cbn [mbind outcome_bind last_code].
    change (i8 (Z.land equals_sign 255) =? equals_sign) with true. cbn [mbind outcome_bind].
    rewrite low_bits by done. unfold fits in Ha, Hb.
    replace (a / 4 * 4 + (a mod 4 * 16 + b / 16) / 16) with a by lia.
    replace ((a mod 4 * 16 + b / 16) mod 16 * 16 + (b mod 16 * 4 + 0 / 64) / 4) with b by lia.
    rewrite <- (assoc_L (++)). by rewrite (bool_decide_eq_false_2 (_ = [])) by (by destruct buf).
  - destruct Hs as (Ha & Hb & Hc & Hs). cbn [encode_units] in E.
    rewrite Unit_Code_eq in E by done. apply bind_Ok in E as (e' & E' & E). injection E as <-.
    cbn [length] in Hcap, Hf.
    destruct (sextet0 a Ha) as [_ H0], (sextet1 a b Ha Hb) as [_ H1], (sextet2 b c Hb Hc) as [_ H2],
      (sextet3 c) as [_ H3].
    rewrite decode_first by (done || lia). cbn zeta. rewrite last_code_tab by done.
    cbn [mbind outcome_bind]. destruct (code_of_tab _ H2) as (_ & _ & _ & ->).
    rewrite put_char_Ok by (rewrite length_app; cbn [length]; lia). cbn [mbind outcome_bind].
    rewrite last_code_tab by done. cbn [mbind outcome_bind]. destruct (code_of_tab _ H3) as (_ & _ & _ & ->).
    rewrite put_char_Ok by (rewrite !length_app; cbn [length]; lia). cbn [mbind outcome_bind].
    rewrite low_bits, lowest_bits by done. unfold fits in Ha, Hb, Hc.
    replace (a / 4 * 4 + (a mod 4 * 16 + b / 16) / 16) with a by lia.
    replace ((a mod 4 * 16 + b / 16) mod 16 * 16 + (b mod 16 * 4 + c / 64) / 4) with b by lia.
    replace ((b mod 16 * 4 + c / 64) mod 4 * 64 + c mod 64) with c by lia.
    rewrite (IH Hs e') by (done || rewrite ?length_app; cbn [length]; lia).
    rewrite <- !(assoc_L (++)). done.
Qed.

(** The older decoder undoes the older encoder on 7-bit text. *)
Theorem base64_set_roundtrip s :
  Forall ascii_text s -> s <> [] ->
  Base64Decode_set (Base64Encode_set s BASE64_CH_NORMAL) BASE64_CH_NORMAL = Ok (Some s).
Proof.
  intros Hs Hne. pose proof (encode_loop_ascii s Hs) as E.
  assert (Forall (fits 8) s) as Hf by (eapply Forall_impl; [exact Hs|]; unfold ascii_text, fits; lia).
  destruct (encode_units_encoding s Hf) as (e & E' & [_ Hl _ _]).
  assert (Base64Encode_set s BASE64_CH_NORMAL = e) as ->.
  { change (encode_loop base64o equals_sign s = e). congruence. }
  pose proof (missing_bound (length s)) as Hm. unfold Base64Decode_set.
  assert (0 < length s)%nat as Hpos by (destruct s; [done|simpl; lia]).
  destruct (_ <=? 1) eqn:Ec; [lia|].
  change (local_base64i BASE64_CH_NORMAL) with base64i. change (local_end BASE64_CH_NORMAL) with equals_sign.
  rewrite (decode_loop_units s Hf e) by (done || cbn [length]; lia).
  by rewrite bool_decide_eq_false_2.
Qed.

Lemma base64_set_roundtrip_witness :
  Base64Decode_set (Base64Encode_set (chars "stars") BASE64_CH_NORMAL) BASE64_CH_NORMAL =
    Ok (Some (chars "stars")).
Proof.
  apply base64_set_roundtrip; [|done].
  vm_compute. repeat (apply Forall_cons_2; [by split|]). apply Forall_nil_2.
Defined.

(** ** What the encoders do with other input *)

(** A byte from 128 on is a negative [char]: its sign covers the bytes before it. *)
Example high_byte_covers_text :
  Base64Decode_set (Base64Encode_set [65; 66; 200] BASE64_CH_NORMAL) BASE64_CH_NORMAL =
    Ok (Some [255; 255; 200]).
Proof. vm_compute. reflexivity. Qed.

(** The secret character set uses its end mark as the digit 17 too: text that has
    the digit in the third or fourth place of a group is cut short. *)
Example secret_text_is_cut :
  Base64Decode_set (Base64Encode_set (chars "rummy") BASE64_CH_SECRET) BASE64_CH_SECRET =
    Ok (Some (chars "rummy")) /\
  Base64Decode_set (Base64Encode_set (chars "stars") BASE64_CH_SECRET) BASE64_CH_SECRET = Ok (Some (chars "s")).
Proof. vm_compute. split; reflexivity. Qed.

(** Seven characters are given a buffer for three bytes and one more, but decode to
    five: the last one is written behind the buffer. *)
Example seven_characters_overrun :
  Base64Decode_set (chars "AAAAAAA") BASE64_CH_NORMAL = Fault OutOfBounds.
Proof. vm_compute. reflexivity. Qed.

(** A group that is cut off after its first character throws. *)
Example five_characters_throw :
  Base64Decode_set (chars "AAAAA") BASE64_CH_NORMAL = Fault ThrowOutOfRange.
Proof. vm_compute. reflexivity. Qed.

(** A character from 128 on is looked up behind the table. *)
Example high_character_overruns :
  Base64Decode_set [65; 65; 65; 200] BASE64_CH_NORMAL = Fault OutOfBounds.
Proof. vm_compute. reflexivity. Qed.

(** The newer decoder subtracts from a null pointer for a character that is not in
    its table, and leaves the length to the caller for less than four. *)
Example unknown_character_fails : Base64Decode (chars "AB*D") = Fault NullDeref.
Proof. vm_compute. reflexivity. Qed.

Example short_text_has_no_length : Base64Decode (chars "abc") = Ok ([], None).
Proof. vm_compute. reflexivity. Qed.
