(* ===== verification/AesCore.v ===== *)
(** * AES

    The block cipher of AesCore.cpp, in the form the build uses (without
    FULL_UNROLL): the schedules of the round keys and the rounds on four words of 32
    bits, by tables.  Decrypting undoes encrypting for keys of every size. *)
From Stdlib Require Import ZArith Lia Btauto.
From stdpp Require Import base tactics numbers sorting option list.
From S2P Require Import Prelude Bytes AesTables.

Definition AES_BLOCK_SIZE : nat := 16.

(** [rd_key], as far as it is filled, and [rounds]. *)
Record AES_KEY : Type := mkAesKey { rd_key : list Z; rounds : Z }.

(** A subscript of a table of 256 words: the indexes are bytes. *)
Definition at_ (table : list Z) (i : Z) : Z := nth (Z.to_nat i) table 0.

(** The bytes of a word, as the code takes them out. *)
Definition byte3 (w : Z) : Z := Z.shiftr w 24.
Definition byte2 (w : Z) : Z := Z.land (Z.shiftr w 16) 0xff.
Definition byte1 (w : Z) : Z := Z.land (Z.shiftr w 8) 0xff.
Definition byte0 (w : Z) : Z := Z.land w 0xff.

(** [GETU32], from four bytes. *)
Definition GETU32 (a b c d : Z) : Z :=
  Z.lxor (Z.lxor (Z.lxor (Z.shiftl a 24) (Z.shiftl b 16)) (Z.shiftl c 8)) d.

Definition PUTU32 (st : Z) : list Z :=
  [u8 (Z.shiftr st 24); u8 (Z.shiftr st 16); u8 (Z.shiftr st 8); u8 st].

(** The words of a block of bytes. *)
Fixpoint get_words (l : list Z) : list Z :=
  match l with a :: b :: c :: d :: l' => GETU32 a b c d :: get_words l' | _ => [] end.

(** *** Key schedules *)

Definition sub_word (x3 x2 x1 x0 : Z) : Z :=
  Z.lxor (Z.lxor (Z.lxor (Z.land (at_ Te2 x3) 0xff000000) (Z.land (at_ Te3 x2) 0x00ff0000))
                 (Z.land (at_ Te0 x1) 0x0000ff00)) (Z.land (at_ Te1 x0) 0x000000ff).

(** [temp], rotated, or as it is in the middle of a key of 256 bits. *)
Definition rot_sub (temp : Z) (i : nat) : Z :=
  Z.lxor (sub_word (byte2 temp) (byte1 temp) (byte0 temp) (byte3 temp)) (nth i rcon 0).
Definition plain_sub (temp : Z) : Z := sub_word (byte3 temp) (byte2 temp) (byte1 temp) (byte0 temp).

(** What the loops append to the schedule; [n] is the number of rounds left. *)
Fixpoint expand128 (n i : nat) (r0 r1 r2 r3 : Z) : list Z :=
  match n with
  | O => []
  | S n' =>
      let r4 := Z.lxor r0 (rot_sub r3 i) in
      let r5 := Z.lxor r1 r4 in
      let r6 := Z.lxor r2 r5 in
      let r7 := Z.lxor r3 r6 in
      r4 :: r5 :: r6 :: r7 :: expand128 n' (S i) r4 r5 r6 r7
  end.

Fixpoint expand192 (n i : nat) (r0 r1 r2 r3 r4 r5 : Z) : list Z :=
  match n with
  | O => []
  | S n' =>
      let r6 := Z.lxor r0 (rot_sub r5 i) in
      let r7 := Z.lxor r1 r6 in
      let r8 := Z.lxor r2 r7 in
      let r9 := Z.lxor r3 r8 in
      r6 :: r7 :: r8 :: r9 ::
        match n' with
        | O => []
        | S _ =>
            let r10 := Z.lxor r4 r9 in
            let r11 := Z.lxor r5 r10 in
            r10 :: r11 :: expand192 n' (S i) r6 r7 r8 r9 r10 r11
        end
  end.

Fixpoint expand256 (n i : nat) (r0 r1 r2 r3 r4 r5 r6 r7 : Z) : list Z :=
  match n with
  | O => []
  | S n' =>
      let r8 := Z.lxor r0 (rot_sub r7 i) in
      let r9 := Z.lxor r1 r8 in
      let r10 := Z.lxor r2 r9 in
      let r11 := Z.lxor r3 r10 in
      r8 :: r9 :: r10 :: r11 ::
        match n' with
        | O => []
        | S _ =>
            let r12 := Z.lxor r4 (plain_sub r11) in
            let r13 := Z.lxor r5 r12 in
            let r14 := Z.lxor r6 r13 in
            let r15 := Z.lxor r7 r14 in
            r12 :: r13 :: r14 :: r15 :: expand256 n' (S i) r8 r9 r10 r11 r12 r13 r14 r15
        end
  end.

(** [None]: the number of bits is refused, or the key is too short to be read. *)
Definition AES_set_encrypt_key (userKey : list Z) (bits : Z) : option AES_KEY :=
  if bits =? 128 then
    match get_words userKey with
    | r0 :: r1 :: r2 :: r3 :: _ =>
        Some (mkAesKey (r0 :: r1 :: r2 :: r3 :: expand128 10 0 r0 r1 r2 r3) 10)
    | _ => None
    end
  else if bits =? 192 then
    match get_words userKey with
    | r0 :: r1 :: r2 :: r3 :: r4 :: r5 :: _ =>
        Some (mkAesKey (r0 :: r1 :: r2 :: r3 :: r4 :: r5 :: expand192 8 0 r0 r1 r2 r3 r4 r5) 12)
    | _ => None
    end
  else if bits =? 256 then
    match get_words userKey with
    | r0 :: r1 :: r2 :: r3 :: r4 :: r5 :: r6 :: r7 :: _ =>
        Some (mkAesKey (r0 :: r1 :: r2 :: r3 :: r4 :: r5 :: r6 :: r7 ::
                        expand256 7 0 r0 r1 r2 r3 r4 r5 r6 r7) 14)
    | _ => None
    end
  else None.

(** Exchange the round keys that start at [i] and [j]. *)
Definition swap_words (i j : nat) (rk : list Z) : list Z :=
  foldl (fun rk k => <[(i + k)%nat := nth (j + k) rk 0]> (<[(j + k)%nat := nth (i + k) rk 0]> rk))
    rk [0; 1; 2; 3]%nat.

Fixpoint swap_loop (n i j : nat) (rk : list Z) : list Z :=
  match n with
  | O => rk
  | S n' => if (i <? j)%nat then swap_loop n' (i + 4) (j - 4) (swap_words i j rk) else rk
  end.

(** The inverse MixColumn transform of a round key. *)
Definition inv_mix (w : Z) : Z :=
  Z.lxor (Z.lxor (Z.lxor (at_ Td0 (Z.land (at_ Te1 (byte3 w)) 0xff)) (at_ Td1 (Z.land (at_ Te1 (byte2 w)) 0xff)))
                 (at_ Td2 (Z.land (at_ Te1 (byte1 w)) 0xff))) (at_ Td3 (Z.land (at_ Te1 (byte0 w)) 0xff)).

Fixpoint inv_mix_loop (n : nat) (rk : list Z) : list Z :=
  match n, rk with
  | S n', r0 :: r1 :: r2 :: r3 :: rk' =>
      inv_mix r0 :: inv_mix r1 :: inv_mix r2 :: inv_mix r3 :: inv_mix_loop n' rk'
  | _, _ => rk
  end.

Definition AES_set_decrypt_key (userKey : list Z) (bits : Z) : option AES_KEY :=
  key ← AES_set_encrypt_key userKey bits;
  let n := Z.to_nat (rounds key) in
  let rk := swap_loop n 0 (4 * n) (rd_key key) in
  Some (mkAesKey (take 4 rk ++ inv_mix_loop (n - 1) (drop 4 rk)) (rounds key)).

(** *** Rounds *)

(** The state, and a round key. *)
Definition quad : Type := (Z * Z * Z * Z)%type.

Definition add_quad (s k : quad) : quad :=
  let '(s0, s1, s2, s3) := s in
  let '(k0, k1, k2, k3) := k in
  (Z.lxor s0 k0, Z.lxor s1 k1, Z.lxor s2 k2, Z.lxor s3 k3).

(** The round key at the start of [rk]. *)
Definition key_at (rk : list Z) : quad :=
  match rk with r0 :: r1 :: r2 :: r3 :: _ => (r0, r1, r2, r3) | _ => (0, 0, 0, 0) end.

Definition mix (x3 x2 x1 x0 : Z) : Z :=
  Z.lxor (Z.lxor (Z.lxor (at_ Te0 (byte3 x3)) (at_ Te1 (byte2 x2))) (at_ Te2 (byte1 x1))) (at_ Te3 (byte0 x0)).

Definition enc_round (s k : quad) : quad :=
  let '(s0, s1, s2, s3) := s in
  add_quad (mix s0 s1 s2 s3, mix s1 s2 s3 s0, mix s2 s3 s0 s1, mix s3 s0 s1 s2) k.

Definition mix_inv (x3 x2 x1 x0 : Z) : Z :=
  Z.lxor (Z.lxor (Z.lxor (at_ Td0 (byte3 x3)) (at_ Td1 (byte2 x2))) (at_ Td2 (byte1 x1))) (at_ Td3 (byte0 x0)).

Definition dec_round (s k : quad) : quad :=
  let '(s0, s1, s2, s3) := s in
  add_quad (mix_inv s0 s3 s2 s1, mix_inv s1 s0 s3 s2, mix_inv s2 s1 s0 s3, mix_inv s3 s2 s1 s0) k.

(** [for (;;)]: two rounds at a time, the second one not after the last. *)
Fixpoint rounds_loop (round : quad -> quad -> quad) (r : nat) (s : quad) (rk : list Z) : quad * list Z :=
  match r with
  | O => (s, rk)
  | S r' =>
      let t := round s (key_at (drop 4 rk)) in
      let rk := drop 8 rk in
      match r' with
      | O => (t, rk)
      | S _ => rounds_loop round r' (round t (key_at rk)) rk
      end
  end.

Definition enc_last (t k : quad) : quad :=
  let '(t0, t1, t2, t3) := t in
  let column x3 x2 x1 x0 := sub_word (byte3 x3) (byte2 x2) (byte1 x1) (byte0 x0) in
  add_quad (column t0 t1 t2 t3, column t1 t2 t3 t0, column t2 t3 t0 t1, column t3 t0 t1 t2) k.

Definition dec_last (t k : quad) : quad :=
  let '(t0, t1, t2, t3) := t in
  let column x3 x2 x1 x0 :=
    Z.lxor (Z.lxor (Z.lxor (Z.shiftl (at_ Td4 (byte3 x3)) 24) (Z.shiftl (at_ Td4 (byte2 x2)) 16))
                   (Z.shiftl (at_ Td4 (byte1 x1)) 8)) (at_ Td4 (byte0 x0)) in
  add_quad (column t0 t3 t2 t1, column t1 t0 t3 t2, column t2 t1 t0 t3, column t3 t2 t1 t0) k.

Definition put_quad (s : quad) : list Z :=
  let '(s0, s1, s2, s3) := s in PUTU32 s0 ++ PUTU32 s1 ++ PUTU32 s2 ++ PUTU32 s3.

(** One block of 16 bytes. *)
Definition AES_encrypt (in_ : list Z) (key : AES_KEY) : list Z :=
  let s := add_quad (key_at (get_words in_)) (key_at (rd_key key)) in
  let '(t, rk) := rounds_loop enc_round (Z.to_nat (Z.shiftr (rounds key) 1)) s (rd_key key) in
  put_quad (enc_last t (key_at rk)).

Definition AES_decrypt (in_ : list Z) (key : AES_KEY) : list Z :=
  let s := add_quad (key_at (get_words in_)) (key_at (rd_key key)) in
  let '(t, rk) := rounds_loop dec_round (Z.to_nat (Z.shiftr (rounds key) 1)) s (rd_key key) in
  put_quad (dec_last t (key_at rk)).

(** ** Words of bytes *)

Definition sub (x : Z) : Z := Z.land (at_ Te1 x) 0xff.

(** Equations between exclusive sums. *)
Ltac xor_ring := apply Z.bits_inj; intros ?; rewrite !Z.lxor_spec, ?Z.bits_0; btauto.

Lemma at_fits table x : Forall (fits 32) table -> fits 32 (at_ table x).
Proof.
  intros Ht. unfold at_. destruct (nth_in_or_default (Z.to_nat x) table 0) as [Hin| ->]; [|done].
  rewrite Forall_forall in Ht. by apply Ht, list_elem_of_In.
Qed.

Ltac table_fits := apply at_fits; by apply (bool_decide_eq_true_1 _).

Lemma Te0_fits x : fits 32 (at_ Te0 x).
Proof. table_fits. Qed.
Lemma Te1_fits x : fits 32 (at_ Te1 x).
Proof. table_fits. Qed.
Lemma Te2_fits x : fits 32 (at_ Te2 x).
Proof. table_fits. Qed.
Lemma Te3_fits x : fits 32 (at_ Te3 x).
Proof. table_fits. Qed.

Lemma lxor_fits w a b : 0 <= w -> fits w a -> fits w b -> fits w (Z.lxor a b).
Proof.
  intros Hw Ha Hb. apply testbit_fits; [done| |].
  - apply Z.lxor_nonneg. unfold fits in *. lia.
  - intros n Hn. rewrite Z.lxor_spec, !(fits_testbit w) by done. done.
Qed.

Lemma shiftl_fits w a k : 0 <= k -> fits w a -> 0 <= w -> fits (w + k) (Z.shiftl a k).
Proof. unfold fits. intros. rewrite Z.shiftl_mul_pow2, Z.pow_add_r by lia. nia. Qed.

Lemma fits_mono w w' a : 0 <= w <= w' -> fits w a -> fits w' a.
Proof. unfold fits. intros Hw Ha. pose proof (Z.pow_le_mono_r 2 w w'). lia. Qed.

Lemma GETU32_fits a b c d : fits 8 a -> fits 8 b -> fits 8 c -> fits 8 d -> fits 32 (GETU32 a b c d).
Proof.
  intros Ha Hb Hc Hd. unfold GETU32. repeat apply lxor_fits; try done.
  - by apply (shiftl_fits 8 a 24).
  - apply (fits_mono 24); [done|]. by apply (shiftl_fits 8 b 16).
  - apply (fits_mono 16); [done|]. by apply (shiftl_fits 8 c 8).
  - by apply (fits_mono 8).
Qed.

(** Bytes side by side are added. *)
Lemma GETU32_sum a b c d :
  fits 8 a -> fits 8 b -> fits 8 c -> fits 8 d -> GETU32 a b c d = ((a * 256 + b) * 256 + c) * 256 + d.
Proof.
  intros Ha Hb Hc Hd. unfold GETU32, fits in *. rewrite !Z.shiftl_mul_pow2 by lia. rewrite lxor_add by lia.
  replace (a * 2 ^ 24 + b * 2 ^ 16) with ((a * 256 + b) * 2 ^ 16) by lia. rewrite lxor_add by lia.
  replace ((a * 256 + b) * 2 ^ 16 + c * 2 ^ 8) with (((a * 256 + b) * 256 + c) * 2 ^ 8) by lia.
  rewrite lxor_add by lia. lia.
Qed.

#[local] Ltac Zify.zify_post_hook ::= Z.to_euclidean_division_equations.

Lemma byte_values w :
  byte3 w = w / 2 ^ 24 /\ byte2 w = w / 2 ^ 16 mod 256 /\ byte1 w = w / 2 ^ 8 mod 256 /\ byte0 w = w mod 256.
Proof.
  unfold byte3, byte2, byte1, byte0. change 0xff with (Z.ones 8). rewrite !Z.land_ones by lia.
  rewrite !Z.shiftr_div_pow2 by lia. done.
Qed.

Lemma GETU32_bytes a b c d :
  fits 8 a -> fits 8 b -> fits 8 c -> fits 8 d ->
  byte3 (GETU32 a b c d) = a /\ byte2 (GETU32 a b c d) = b /\
  byte1 (GETU32 a b c d) = c /\ byte0 (GETU32 a b c d) = d.
Proof.
  intros Ha Hb Hc Hd. destruct (byte_values (GETU32 a b c d)) as (-> & -> & -> & ->).
  rewrite GETU32_sum by done. unfold fits in *. lia.
Qed.

Lemma word_bytes_fit w :
  fits 32 w -> fits 8 (byte3 w) /\ fits 8 (byte2 w) /\ fits 8 (byte1 w) /\ fits 8 (byte0 w).
Proof. intros Hw. destruct (byte_values w) as (-> & -> & -> & ->). unfold fits in *. lia. Qed.

Lemma byte3_fits w : fits 32 w -> fits 8 (byte3 w).
Proof. intros Hw. by destruct (word_bytes_fit w Hw). Qed.
Lemma byte2_fits w : fits 32 w -> fits 8 (byte2 w).
Proof. intros Hw. by destruct (word_bytes_fit w Hw) as (_ & ? & _). Qed.
Lemma byte1_fits w : fits 32 w -> fits 8 (byte1 w).
Proof. intros Hw. by destruct (word_bytes_fit w Hw) as (_ & _ & ? & _). Qed.
Lemma byte0_fits w : fits 32 w -> fits 8 (byte0 w).
Proof. intros Hw. by destruct (word_bytes_fit w Hw) as (_ & _ & _ & ?). Qed.

Create HintDb aes.
#[export] Hint Resolve byte3_fits byte2_fits byte1_fits byte0_fits GETU32_fits
  Te0_fits Te1_fits Te2_fits Te3_fits : aes.

Lemma GETU32_of_bytes w : fits 32 w -> GETU32 (byte3 w) (byte2 w) (byte1 w) (byte0 w) = w.
Proof.
  intros Hw. destruct (word_bytes_fit w Hw) as (H3 & H2 & H1 & H0). rewrite GETU32_sum by done.
  destruct (byte_values w) as (-> & -> & -> & ->). unfold fits in *. lia.
Qed.

Lemma PUTU32_bytes w : fits 32 w -> PUTU32 w = [byte3 w; byte2 w; byte1 w; byte0 w].
Proof.
  intros Hw. unfold PUTU32. destruct (byte_values w) as (-> & -> & -> & ->).
  rewrite !Z.shiftr_div_pow2 by lia. unfold wrap, fits in *. repeat f_equal; lia.
Qed.

(** ** The tables are linear *)

(** A sum over the bits of a byte. *)
Definition bit_sum (F : Z -> Z) (ks : list Z) (x : Z) : Z :=
  foldr (fun k acc => Z.lxor (if Z.testbit x k then F (2 ^ k) else 0) acc) 0 ks.

Lemma bit_sum_cons F k ks x :
  bit_sum F (k :: ks) x = Z.lxor (if Z.testbit x k then F (2 ^ k) else 0) (bit_sum F ks x).
Proof. done. Qed.

Lemma bit_sum_lxor F ks x y : bit_sum F ks (Z.lxor x y) = Z.lxor (bit_sum F ks x) (bit_sum F ks y).
Proof.
  induction ks as [|k ks IH]; [done|]. rewrite !bit_sum_cons, IH, Z.lxor_spec.
  destruct (Z.testbit x k), (Z.testbit y k); cbn [xorb]; xor_ring.
Qed.

Definition bits8 : list Z := [0; 1; 2; 3; 4; 5; 6; 7].

(** The inverse mix of one substituted byte. *)
Definition mixed (table : list Z) (x : Z) : Z := at_ table (sub x).

Lemma mixed_lxor table x y :
  (forall x, fits 8 x -> mixed table x = bit_sum (mixed table) bits8 x) ->
  fits 8 x -> fits 8 y -> mixed table (Z.lxor x y) = Z.lxor (mixed table x) (mixed table y).
Proof.
  intros Ht Hx Hy. rewrite (Ht x Hx), (Ht y Hy), Ht by by apply lxor_fits. apply bit_sum_lxor.
Qed.

Lemma mixed_Td0 x : fits 8 x -> mixed Td0 x = bit_sum (mixed Td0) bits8 x.
Proof. intros Hx. by_bytes Hx. Qed.
Lemma mixed_Td1 x : fits 8 x -> mixed Td1 x = bit_sum (mixed Td1) bits8 x.
Proof. intros Hx. by_bytes Hx. Qed.
Lemma mixed_Td2 x : fits 8 x -> mixed Td2 x = bit_sum (mixed Td2) bits8 x.
Proof. intros Hx. by_bytes Hx. Qed.
Lemma mixed_Td3 x : fits 8 x -> mixed Td3 x = bit_sum (mixed Td3) bits8 x.
Proof. intros Hx. by_bytes Hx. Qed.

Lemma inv_mix_mixed w :
  inv_mix w = Z.lxor (Z.lxor (Z.lxor (mixed Td0 (byte3 w)) (mixed Td1 (byte2 w))) (mixed Td2 (byte1 w)))
                     (mixed Td3 (byte0 w)).
Proof. done. Qed.

Lemma bytes_lxor v w :
  byte3 (Z.lxor v w) = Z.lxor (byte3 v) (byte3 w) /\ byte2 (Z.lxor v w) = Z.lxor (byte2 v) (byte2 w) /\
  byte1 (Z.lxor v w) = Z.lxor (byte1 v) (byte1 w) /\ byte0 (Z.lxor v w) = Z.lxor (byte0 v) (byte0 w).
Proof.
  unfold byte3, byte2, byte1, byte0. rewrite !Z.shiftr_lxor.
  assert (forall x y m, Z.land (Z.lxor x y) m = Z.lxor (Z.land x m) (Z.land y m)) as Hd.
  { intros. apply Z.bits_inj. intros n. rewrite !Z.land_spec, !Z.lxor_spec, !Z.land_spec. btauto. }
  by rewrite !Hd.
Qed.

Lemma inv_mix_lxor v w :
  fits 32 v -> fits 32 w -> inv_mix (Z.lxor v w) = Z.lxor (inv_mix v) (inv_mix w).
Proof.
  intros Hv Hw. destruct (word_bytes_fit v Hv) as (V3 & V2 & V1 & V0), (word_bytes_fit w Hw) as (W3 & W2 & W1 & W0).
  rewrite !inv_mix_mixed. destruct (bytes_lxor v w) as (-> & -> & -> & ->).
  rewrite (mixed_lxor Td0), (mixed_lxor Td1), (mixed_lxor Td2), (mixed_lxor Td3)
    by auto using mixed_Td0, mixed_Td1, mixed_Td2, mixed_Td3.
  xor_ring.
Qed.

(** *** What the tables undo *)

Lemma inv_mix_Te0 x : fits 8 x -> inv_mix (at_ Te0 x) = Z.shiftl (sub x) 24.
Proof. intros Hx. by_bytes Hx. Qed.
Lemma inv_mix_Te1 x : fits 8 x -> inv_mix (at_ Te1 x) = Z.shiftl (sub x) 16.
Proof. intros Hx. by_bytes Hx. Qed.
Lemma inv_mix_Te2 x : fits 8 x -> inv_mix (at_ Te2 x) = Z.shiftl (sub x) 8.
Proof. intros Hx. by_bytes Hx. Qed.
Lemma inv_mix_Te3 x : fits 8 x -> inv_mix (at_ Te3 x) = sub x.
Proof. intros Hx. by_bytes Hx. Qed.

Lemma masked_Te2 x : fits 8 x -> Z.land (at_ Te2 x) 0xff000000 = Z.shiftl (sub x) 24.
Proof. intros Hx. by_bytes Hx. Qed.
Lemma masked_Te3 x : fits 8 x -> Z.land (at_ Te3 x) 0x00ff0000 = Z.shiftl (sub x) 16.
Proof. intros Hx. by_bytes Hx. Qed.
Lemma masked_Te0 x : fits 8 x -> Z.land (at_ Te0 x) 0x0000ff00 = Z.shiftl (sub x) 8.
Proof. intros Hx. by_bytes Hx. Qed.

Lemma sub_fits x : fits 8 x -> fits 8 (sub x).
Proof. intros Hx. apply (bool_decide_eq_true_1 _). by_bytes Hx. Qed.

#[export] Hint Resolve sub_fits : aes.

Lemma Td4_sub x : fits 8 x -> at_ Td4 (sub x) = x.
Proof. intros Hx. by_bytes Hx. Qed.

Lemma sub_word_eq a b c d :
  fits 8 a -> fits 8 b -> fits 8 c -> fits 8 d -> sub_word a b c d = GETU32 (sub a) (sub b) (sub c) (sub d).
Proof. intros. unfold sub_word. by rewrite masked_Te2, masked_Te3, masked_Te0. Qed.

(** ** One round undoes another *)

Definition quad_fits (s : quad) : Prop :=
  let '(s0, s1, s2, s3) := s in fits 32 s0 /\ fits 32 s1 /\ fits 32 s2 /\ fits 32 s3.

Definition map_quad (f : Z -> Z) (s : quad) : quad :=
  let '(s0, s1, s2, s3) := s in (f s0, f s1, f s2, f s3).

(** Bytes substituted, rows shifted. *)
Definition sub_shift (s : quad) : quad :=
  let '(s0, s1, s2, s3) := s in
  let column x3 x2 x1 x0 := GETU32 (sub (byte3 x3)) (sub (byte2 x2)) (sub (byte1 x1)) (sub (byte0 x0)) in
  (column s0 s1 s2 s3, column s1 s2 s3 s0, column s2 s3 s0 s1, column s3 s0 s1 s2).

Lemma add_quad_cancel s k : add_quad (add_quad s k) k = s.
Proof.
  destruct s as [[[s0 s1] s2] s3], k as [[[k0 k1] k2] k3]. cbn [add_quad].
  by rewrite !Z.lxor_assoc, !Z.lxor_nilpotent, !Z.lxor_0_r.
Qed.

Lemma add_quad_fits s k : quad_fits s -> quad_fits k -> quad_fits (add_quad s k).
Proof.
  destruct s as [[[s0 s1] s2] s3], k as [[[k0 k1] k2] k3]. cbn [add_quad quad_fits].
  intros (? & ? & ? & ?) (? & ? & ? & ?). split_and!; by apply lxor_fits.
Qed.

Lemma mix_fits a b c d : fits 32 (mix a b c d).
Proof. unfold mix. repeat apply lxor_fits; auto with aes; done. Qed.

Lemma enc_round_fits s k : quad_fits k -> quad_fits (enc_round s k).
Proof.
  destruct s as [[[s0 s1] s2] s3]. intros Hk. unfold enc_round. apply add_quad_fits; [|done].
  unfold quad_fits. auto using mix_fits.
Qed.

Section column.
Context (a b c d : Z).
Hypotheses (Ha : fits 32 a) (Hb : fits 32 b) (Hc : fits 32 c) (Hd : fits 32 d).

(** What the last round does to a column, and what a round of the inverse does to
    the mix of it. *)
Lemma sub_word_column :
  sub_word (byte3 a) (byte2 b) (byte1 c) (byte0 d) =
    GETU32 (sub (byte3 a)) (sub (byte2 b)) (sub (byte1 c)) (sub (byte0 d)).
Proof. apply sub_word_eq; auto with aes. Qed.

Lemma inv_mix_column :
  inv_mix (mix a b c d) = GETU32 (sub (byte3 a)) (sub (byte2 b)) (sub (byte1 c)) (sub (byte0 d)).
Proof.
  unfold mix. rewrite !inv_mix_lxor by (repeat apply lxor_fits; auto with aes; done).
  rewrite inv_mix_Te0, inv_mix_Te1, inv_mix_Te2, inv_mix_Te3 by auto with aes. done.
Qed.

(** The bytes of a column are the substituted ones. *)
Lemma column_bytes :
  let w := GETU32 (sub (byte3 a)) (sub (byte2 b)) (sub (byte1 c)) (sub (byte0 d)) in
  byte3 w = sub (byte3 a) /\ byte2 w = sub (byte2 b) /\ byte1 w = sub (byte1 c) /\ byte0 w = sub (byte0 d).
Proof. apply GETU32_bytes; auto with aes. Qed.
End column.

Lemma sub_shift_fits s : quad_fits s -> quad_fits (sub_shift s).
Proof.
  destruct s as [[[s0 s1] s2] s3]. intros (H0 & H1 & H2 & H3). unfold sub_shift, quad_fits.
  split_and!; auto 6 with aes.
Qed.

Lemma enc_last_sub_shift s k : quad_fits s -> enc_last s k = add_quad (sub_shift s) k.
Proof.
  destruct s as [[[s0 s1] s2] s3]. intros (H0 & H1 & H2 & H3). unfold enc_last, sub_shift. cbn zeta.
  by rewrite !sub_word_column.
Qed.

Lemma dec_round_sub_shift s k : quad_fits s -> dec_round (sub_shift s) k = add_quad (map_quad inv_mix s) k.
Proof.
  destruct s as [[[s0 s1] s2] s3]. intros (H0 & H1 & H2 & H3). unfold dec_round, sub_shift, mix_inv, map_quad.
  destruct (column_bytes s0 s1 s2 s3) as (-> & -> & -> & ->); [done..|].
  destruct (column_bytes s1 s2 s3 s0) as (-> & -> & -> & ->); [done..|].
  destruct (column_bytes s2 s3 s0 s1) as (-> & -> & -> & ->); [done..|].
  destruct (column_bytes s3 s0 s1 s2) as (-> & -> & -> & ->); [done..|]. done.
Qed.

Lemma dec_last_sub_shift s k : quad_fits s -> dec_last (sub_shift s) k = add_quad s k.
Proof.
  destruct s as [[[s0 s1] s2] s3]. intros (H0 & H1 & H2 & H3). unfold dec_last, sub_shift. cbn zeta.
  destruct (column_bytes s0 s1 s2 s3) as (-> & -> & -> & ->); [done..|].
  destruct (column_bytes s1 s2 s3 s0) as (-> & -> & -> & ->); [done..|].
  destruct (column_bytes s2 s3 s0 s1) as (-> & -> & -> & ->); [done..|].
  destruct (column_bytes s3 s0 s1 s2) as (-> & -> & -> & ->); [done..|].
  rewrite !Td4_sub by auto with aes. f_equal. repeat f_equal; by apply GETU32_of_bytes.
Qed.

Lemma inv_mix_quad_add s k :
  quad_fits s -> quad_fits k ->
  map_quad inv_mix (add_quad s k) = add_quad (map_quad inv_mix s) (map_quad inv_mix k).
Proof.
  destruct s as [[[s0 s1] s2] s3], k as [[[k0 k1] k2] k3]. cbn [quad_fits add_quad map_quad].
  intros (? & ? & ? & ?) (? & ? & ? & ?). by rewrite !inv_mix_lxor.
Qed.

(** A round of the inverse on a round of the cipher. *)
Lemma dec_enc_round s k :
  quad_fits s -> quad_fits k -> dec_round (sub_shift (enc_round s k)) (map_quad inv_mix k) = sub_shift s.
Proof.
  intros Hs Hk. rewrite dec_round_sub_shift by by apply enc_round_fits.
  rewrite <- inv_mix_quad_add by (done || by apply enc_round_fits).
  destruct s as [[[s0 s1] s2] s3]. unfold enc_round. rewrite add_quad_cancel.
  destruct Hs as (H0 & H1 & H2 & H3). unfold map_quad, sub_shift. by rewrite !inv_mix_column.
Qed.

Lemma enc_rounds_fits s ks : quad_fits s -> Forall quad_fits ks -> quad_fits (foldl enc_round s ks).
Proof.
  intros Hs Hks. revert s Hs. induction Hks as [|k ks Hk _ IH]; intros s Hs; [done|].
  cbn [foldl]. apply IH. by apply enc_round_fits.
Qed.

Lemma dec_enc_rounds s ks :
  quad_fits s -> Forall quad_fits ks ->
  foldl dec_round (sub_shift (foldl enc_round s ks)) (map_quad inv_mix <$> reverse ks) = sub_shift s.
Proof.
  intros Hs Hks. revert s Hs. induction Hks as [|k ks Hk Hks IH]; intros s Hs; [done|].
  cbn [foldl]. rewrite reverse_cons, fmap_app, foldl_app, IH by by apply enc_round_fits.
  cbn [fmap list_fmap foldl]. by apply dec_enc_round.
Qed.

(** ** The schedules *)

(** The words of round keys. *)
Definition flat (ks : list quad) : list Z := ks ≫= fun '(k0, k1, k2, k3) => [k0; k1; k2; k3].

Lemma flat_cons k ks : flat (k :: ks) = (let '(k0, k1, k2, k3) := k in [k0; k1; k2; k3]) ++ flat ks.
Proof. done. Qed.

Lemma key_at_flat k ks : key_at (flat (k :: ks)) = k.
Proof. by destruct k as [[[k0 k1] k2] k3]. Qed.

Lemma drop_flat k ks : drop 4 (flat (k :: ks)) = flat ks.
Proof. by destruct k as [[[k0 k1] k2] k3]. Qed.

Lemma drop_flat2 k k' ks : drop 8 (flat (k :: k' :: ks)) = flat ks.
Proof. by destruct k as [[[k0 k1] k2] k3], k' as [[[? ?] ?] ?]. Qed.

(** The loop goes through the round keys and stops before the last. *)
Lemma rounds_loop_flat round r s k0 ks kl :
  (length ks + 1 = 2 * S r)%nat ->
  rounds_loop round (S r) s (flat (k0 :: ks ++ [kl])) = (foldl round s ks, flat [kl]).
Proof.
  revert s k0 ks. induction r as [|r IH]; intros s k0 ks Hl.
  - destruct ks as [|k1 [|]]; try (simpl in Hl; lia). cbn [rounds_loop app].
    by rewrite drop_flat, key_at_flat, drop_flat2.
  - destruct ks as [|k1 [|k2 ks]]; try (simpl in Hl; lia). cbn [rounds_loop app].
    rewrite drop_flat, key_at_flat, drop_flat2, key_at_flat. cbn [foldl].
    apply IH. simpl in Hl. lia.
Qed.

(** The round keys of a schedule of whole round keys. *)
Lemma flat_exists n rk :
  length rk = (4 * n)%nat -> Forall (fits 32) rk ->
  exists ks, rk = flat ks /\ length ks = n /\ Forall quad_fits ks.
Proof.
  revert rk. induction n as [|n IH]; intros rk Hl Hf.
  - exists []. by destruct rk.
  - destruct rk as [|a [|b [|c [|d rk]]]]; try (simpl in Hl; lia).
    rewrite !Forall_cons in Hf. destruct Hf as (Ha & Hb & Hc & Hd & Hf).
    destruct (IH rk) as (ks & -> & Hk & Hq); [simpl in Hl; lia|done|].
    exists ((a, b, c, d) :: ks). split_and!; [done|simpl; lia|]. by apply Forall_cons_2.
Qed.

Lemma sub_word_fits a b c d : fits 32 (sub_word a b c d).
Proof.
  unfold sub_word. assert (forall x m, fits 32 x -> fits 32 (Z.land x m)) as Hl by (intros; by apply land_fits).
  repeat apply lxor_fits; auto with aes; done.
Qed.

Lemma rcon_fits i : fits 32 (nth i rcon 0).
Proof.
  destruct (nth_in_or_default i rcon 0) as [Hin| ->]; [|done].
  assert (Forall (fits 32) rcon) as Ht by by apply (bool_decide_eq_true_1 _).
  rewrite Forall_forall in Ht. by apply Ht, list_elem_of_In.
Qed.

Lemma rot_sub_fits t i : fits 32 (rot_sub t i).
Proof. apply lxor_fits; [done|apply sub_word_fits|apply rcon_fits]. Qed.

Lemma lxor32_fits a b : fits 32 a -> fits 32 b -> fits 32 (Z.lxor a b).
Proof. by apply lxor_fits. Qed.

#[export] Hint Resolve lxor32_fits sub_word_fits rot_sub_fits : aes.

Lemma expand128_fits n i r0 r1 r2 r3 :
  fits 32 r0 -> fits 32 r1 -> fits 32 r2 -> fits 32 r3 -> Forall (fits 32) (expand128 n i r0 r1 r2 r3).
Proof.
  revert i r0 r1 r2 r3. induction n as [|n IH]; intros i r0 r1 r2 r3 H0 H1 H2 H3; [by apply Forall_nil|].
  cbn [expand128]. do 4 (apply Forall_cons_2; [auto 10 with aes|]). apply IH; auto 10 with aes.
Qed.

Lemma expand192_fits n i r0 r1 r2 r3 r4 r5 :
  fits 32 r0 -> fits 32 r1 -> fits 32 r2 -> fits 32 r3 -> fits 32 r4 -> fits 32 r5 ->
  Forall (fits 32) (expand192 n i r0 r1 r2 r3 r4 r5).
Proof.
  revert i r0 r1 r2 r3 r4 r5. induction n as [|n IH]; intros i r0 r1 r2 r3 r4 r5 H0 H1 H2 H3 H4 H5;
    [by apply Forall_nil|].
  cbn [expand192]. do 4 (apply Forall_cons_2; [auto 12 with aes|]). destruct n as [|n]; [by apply Forall_nil|].
  do 2 (apply Forall_cons_2; [auto 12 with aes|]). apply IH; auto 12 with aes.
Qed.

Lemma expand256_fits n i r0 r1 r2 r3 r4 r5 r6 r7 :
  fits 32 r0 -> fits 32 r1 -> fits 32 r2 -> fits 32 r3 -> fits 32 r4 -> fits 32 r5 -> fits 32 r6 -> fits 32 r7 ->
  Forall (fits 32) (expand256 n i r0 r1 r2 r3 r4 r5 r6 r7).
Proof.
  revert i r0 r1 r2 r3 r4 r5 r6 r7.
  induction n as [|n IH]; intros i r0 r1 r2 r3 r4 r5 r6 r7 H0 H1 H2 H3 H4 H5 H6 H7; [by apply Forall_nil|].
  cbn [expand256]. unfold plain_sub.
  do 4 (apply Forall_cons_2; [auto 12 with aes|]). destruct n as [|n]; [by apply Forall_nil|].
  do 4 (apply Forall_cons_2; [auto 12 with aes|]). apply IH; auto 12 with aes.
Qed.

(** The sizes of keys. *)
Definition key_bits (bits : Z) : Prop := bits = 128 \/ bits = 192 \/ bits = 256.

Lemma get_words_fits l : Forall (fits 8) l -> Forall (fits 32) (get_words l).
Proof.
  revert l. fix IH 1. intros [|a [|b [|c [|d l]]]] Hl; try by apply Forall_nil.
  rewrite !Forall_cons in Hl. destruct Hl as (Ha & Hb & Hc & Hd & Hl).
  cbn [get_words]. apply Forall_cons_2; [auto with aes|by apply IH].
Qed.

Lemma get_words_length l n : (4 * n <= length l)%nat -> (n <= length (get_words l))%nat.
Proof.
  revert l. induction n as [|n IH]; intros l Hl; [lia|].
  destruct l as [|a [|b [|c [|d l]]]]; try (simpl in Hl; lia). cbn [get_words length].
  specialize (IH l). simpl in Hl. lia.
Qed.

(** The schedule of a key: a first round key, an odd number of others, a last. *)
Record schedule (key : AES_KEY) (r : nat) (k0 : quad) (ks : list quad) (kl : quad) : Prop := mkSchedule {
  sch_keys : rd_key key = flat (k0 :: ks ++ [kl]);
  sch_rounds : rounds key = Z.of_nat (2 * S r);
  sch_length : (length ks + 1 = 2 * S r)%nat;
  sch_sizes : r = 4%nat \/ r = 5%nat \/ r = 6%nat;
  sch_fits : Forall quad_fits (k0 :: ks ++ [kl])
}.

Lemma schedule_intro rk r :
  length rk = (4 * (2 * S r + 1))%nat -> r = 4%nat \/ r = 5%nat \/ r = 6%nat -> Forall (fits 32) rk ->
  exists k0 ks kl, schedule (mkAesKey rk (Z.of_nat (2 * S r))) r k0 ks kl.
Proof.
  intros Hl Hr Hf. destruct (flat_exists _ _ Hl Hf) as (qs & -> & Hq & Hqf).
  destruct qs as [|k0 qs]; [simpl in Hq; lia|].
  destruct (exists_last (l := qs)) as (ks & kl & ->); [intros ->; simpl in Hq; lia|].
  exists k0, ks, kl. split; try done. cbn [length] in Hq. rewrite length_app in Hq. simpl in Hq. lia.
Qed.

Lemma AES_set_encrypt_key_returns userKey bits :
  key_bits bits -> Forall (fits 8) userKey -> bits <= 8 * Z.of_nat (length userKey) ->
  exists key r k0 ks kl, AES_set_encrypt_key userKey bits = Some key /\ schedule key r k0 ks kl.
Proof.
  intros Hb Hf Hl. pose proof (get_words_fits _ Hf) as Hw.
  assert (Z.to_nat (bits / 32) <= length (get_words userKey))%nat as Hn.
  { apply get_words_length. lia. }
  revert Hw Hn. unfold AES_set_encrypt_key. generalize (get_words userKey). intros w Hw Hn.
  destruct Hb as [-> | [-> | ->]]; cbn [Z.eqb Pos.eqb]; simpl in Hn.
  - do 4 (destruct w as [|? w]; [simpl in Hn; lia|]). rewrite !Forall_cons in Hw.
    destruct Hw as (H0 & H1 & H2 & H3 & _). match goal with |- context [Some (mkAesKey ?rk _)] =>
      destruct (schedule_intro rk 4) as (k0 & ks & kl & Hs); [done|by left| |] end.
    { do 4 (apply Forall_cons_2; [done|]). by apply expand128_fits. }
    eexists _, 4%nat, k0, ks, kl. split; [done|exact Hs].
  - do 6 (destruct w as [|? w]; [simpl in Hn; lia|]). rewrite !Forall_cons in Hw.
    destruct Hw as (H0 & H1 & H2 & H3 & H4 & H5 & _). match goal with |- context [Some (mkAesKey ?rk _)] =>
      destruct (schedule_intro rk 5) as (k0 & ks & kl & Hs); [done|by right; left| |] end.
    { do 6 (apply Forall_cons_2; [done|]). by apply expand192_fits. }
    eexists _, 5%nat, k0, ks, kl. split; [done|exact Hs].
  - do 8 (destruct w as [|? w]; [simpl in Hn; lia|]). rewrite !Forall_cons in Hw.
    destruct Hw as (H0 & H1 & H2 & H3 & H4 & H5 & H6 & H7 & _). match goal with |- context [Some (mkAesKey ?rk _)] =>
      destruct (schedule_intro rk 6) as (k0 & ks & kl & Hs); [done|by right; right| |] end.
    { do 8 (apply Forall_cons_2; [done|]). by apply expand256_fits. }
    eexists _, 6%nat, k0, ks, kl. split; [done|exact Hs].
Qed.

(** The swaps reverse the round keys. *)
Ltac destruct_quads ks n :=
  match n with
  | O => destruct ks; [|done]
  | S ?n' => destruct ks as [|[[[? ?] ?] ?] ks]; [done|]; destruct_quads ks n'
  end.

Lemma swap_loop_flat r qs :
  r = 4%nat \/ r = 5%nat \/ r = 6%nat -> length qs = (2 * S r + 1)%nat ->
  swap_loop (2 * S r) 0 (4 * (2 * S r)) (flat qs) = flat (reverse qs).
Proof.
  intros [-> | [-> | ->]] Hl.
  - destruct_quads qs 11%nat. reflexivity.
  - destruct_quads qs 13%nat. reflexivity.
  - destruct_quads qs 15%nat. reflexivity.
Qed.

Lemma inv_mix_loop_flat ks kl :
  inv_mix_loop (length ks) (flat (ks ++ [kl])) = flat ((map_quad inv_mix <$> ks) ++ [kl]).
Proof.
  induction ks as [|[[[k0 k1] k2] k3] ks IH]; [by destruct kl as [[[? ?] ?] ?]|].
  cbn [length app fmap list_fmap map_quad]. rewrite !flat_cons. cbn [app inv_mix_loop]. by rewrite IH.
Qed.

Lemma AES_set_decrypt_key_eq userKey bits key r k0 ks kl :
  AES_set_encrypt_key userKey bits = Some key -> schedule key r k0 ks kl ->
  AES_set_decrypt_key userKey bits =
    Some (mkAesKey (flat (kl :: (map_quad inv_mix <$> reverse ks) ++ [k0])) (rounds key)).
Proof.
  intros E [Hk Hr Hl Hs _]. unfold AES_set_decrypt_key. rewrite E. cbn [mbind option_bind].
  rewrite Hr, Nat2Z.id, Hk. rewrite swap_loop_flat by (done || (cbn [length]; rewrite length_app; simpl; lia)).
  rewrite reverse_cons, reverse_app. change (reverse [kl]) with [kl].
  rewrite <- (assoc_L (++)). cbn [app]. rewrite drop_flat.
  assert (2 * S r - 1 = length (reverse ks))%nat as -> by (rewrite length_reverse; lia).
  rewrite inv_mix_loop_flat. by destruct kl as [[[? ?] ?] ?].
Qed.

(** ** The cipher and its inverse *)

Lemma put_get s : quad_fits s -> key_at (get_words (put_quad s)) = s.
Proof.
  destruct s as [[[s0 s1] s2] s3]. intros (H0 & H1 & H2 & H3). unfold put_quad.
  rewrite !PUTU32_bytes by done. cbn [app get_words key_at]. by rewrite !GETU32_of_bytes.
Qed.

Lemma get_put l : length l = AES_BLOCK_SIZE -> Forall (fits 8) l -> put_quad (key_at (get_words l)) = l.
Proof.
  intros Hl Hf. do 16 (destruct l as [|? l]; [done|]). destruct l; [|done].
  rewrite !Forall_cons in Hf. destruct_and! Hf. cbn [get_words key_at]. unfold put_quad.
  rewrite !PUTU32_bytes by auto with aes.
  repeat match goal with |- context [byte3 (GETU32 ?a ?b ?c ?d)] =>
    destruct (GETU32_bytes a b c d) as (-> & -> & -> & ->); [done..|] end. done.
Qed.

Lemma get_quad_fits l : length l = AES_BLOCK_SIZE -> Forall (fits 8) l -> quad_fits (key_at (get_words l)).
Proof.
  intros Hl Hf. do 16 (destruct l as [|? l]; [done|]). rewrite !Forall_cons in Hf. destruct_and! Hf.
  cbn [get_words key_at quad_fits]. auto with aes.
Qed.

(** The rounds of the schedule. *)
Lemma rounds_loop_key round key r k0 ks kl s :
  rounds key = Z.of_nat (2 * S r) -> (length ks + 1 = 2 * S r)%nat -> rd_key key = flat (k0 :: ks ++ [kl]) ->
  rounds_loop round (Z.to_nat (Z.shiftr (rounds key) 1)) s (rd_key key) = (foldl round s ks, flat [kl]).
Proof.
  intros -> Hl ->. rewrite Z.shiftr_div_pow2 by lia.
  replace (Z.to_nat (Z.of_nat (2 * S r) / 2 ^ 1)) with (S r) by lia. by apply rounds_loop_flat.
Qed.

Lemma AES_encrypt_eq in_ key r k0 ks kl :
  schedule key r k0 ks kl -> length in_ = AES_BLOCK_SIZE -> Forall (fits 8) in_ ->
  AES_encrypt in_ key =
    put_quad (add_quad (sub_shift (foldl enc_round (add_quad (key_at (get_words in_)) k0) ks)) kl).
Proof.
  intros [Hk Hr Hl _ Hf] Hin Hb. unfold AES_encrypt.
  rewrite (rounds_loop_key _ _ r k0 ks kl) by done. rewrite Hk, !key_at_flat.
  rewrite Forall_cons, Forall_app in Hf. destruct Hf as (H0 & Hks & _).
  rewrite enc_last_sub_shift; [done|]. apply enc_rounds_fits; [|done].
  apply add_quad_fits; [by apply get_quad_fits|done].
Qed.

Lemma put_quad_bytes s : quad_fits s -> length (put_quad s) = AES_BLOCK_SIZE /\ Forall (fits 8) (put_quad s).
Proof.
  destruct s as [[[s0 s1] s2] s3]. intros (H0 & H1 & H2 & H3). unfold put_quad.
  rewrite !PUTU32_bytes by done. split; [done|]. cbn [app]. repeat (apply Forall_cons_2; [auto with aes|]). done.
Qed.

(** The two schedules of a key, and what they do to every block. *)
Lemma schedules_invert userKey bits :
  key_bits bits -> Forall (fits 8) userKey -> bits <= 8 * Z.of_nat (length userKey) ->
  exists ek dk, AES_set_encrypt_key userKey bits = Some ek /\ AES_set_decrypt_key userKey bits = Some dk /\
    forall b, length b = AES_BLOCK_SIZE -> Forall (fits 8) b ->
      AES_decrypt (AES_encrypt b ek) dk = b /\ length (AES_encrypt b ek) = AES_BLOCK_SIZE /\
      Forall (fits 8) (AES_encrypt b ek).
Proof.
  intros Hb Hf Hl.
  destruct (AES_set_encrypt_key_returns userKey bits Hb Hf Hl) as (ek & r & k0 & ks & kl & E & Hs).
  pose proof Hs as [_ Hr Hlen _ Hfit]. rewrite Forall_cons, Forall_app, Forall_cons in Hfit.
  destruct Hfit as (H0 & Hks & Hkl & _).
  exists ek. eexists. split; [done|]. split; [by apply (AES_set_decrypt_key_eq _ _ ek r)|].
  intros b Hin Hbytes. rewrite (AES_encrypt_eq _ _ r k0 ks kl) by done.
  set (s := add_quad (key_at (get_words b)) k0).
  assert (quad_fits s) as Hsf by (apply add_quad_fits; [by apply get_quad_fits|done]).
  assert (quad_fits (add_quad (sub_shift (foldl enc_round s ks)) kl)) as Hout.
  { apply add_quad_fits; [|done]. apply sub_shift_fits. by apply enc_rounds_fits. }
  split; [|by apply put_quad_bytes].
  unfold AES_decrypt. rewrite put_get by done.
  rewrite (rounds_loop_key _ _ r kl (map_quad inv_mix <$> reverse ks) k0);
    [|done|by rewrite length_fmap, length_reverse|done].
  cbn [rd_key]. rewrite !key_at_flat, add_quad_cancel, dec_enc_rounds by done.
  rewrite dec_last_sub_shift by done. unfold s. rewrite add_quad_cancel. by apply get_put.
Qed.

(** C26: Decrypting undoes encrypting, for every block and every key of 128, 192 or
    256 bits; both schedules can be made. *)
Theorem aes_roundtrip userKey bits in_ :
  key_bits bits -> Forall (fits 8) userKey -> bits <= 8 * Z.of_nat (length userKey) ->
  length in_ = AES_BLOCK_SIZE -> Forall (fits 8) in_ ->
  exists ek dk, AES_set_encrypt_key userKey bits = Some ek /\ AES_set_decrypt_key userKey bits = Some dk /\
    AES_decrypt (AES_encrypt in_ ek) dk = in_.
Proof.
  intros Hb Hf Hl Hin Hbytes. destruct (schedules_invert userKey bits Hb Hf Hl) as (ek & dk & He & Hd & Hi).
  exists ek, dk. split; [done|]. split; [done|]. by apply Hi.
Qed.

(** The examples of the standard (FIPS 197, appendix C). *)
Definition example_block : list Z := (fun i => 0x11 * i) <$> seqZ 0 16.
Definition example_key (n : nat) : list Z := seqZ 0 (Z.of_nat n).

Example fips_197 :
  (fun key => AES_encrypt example_block key) <$> AES_set_encrypt_key (example_key 16) 128 =
    Some [0x69; 0xc4; 0xe0; 0xd8; 0x6a; 0x7b; 0x04; 0x30; 0xd8; 0xcd; 0xb7; 0x80; 0x70; 0xb4; 0xc5; 0x5a] /\
  (fun key => AES_encrypt example_block key) <$> AES_set_encrypt_key (example_key 24) 192 =
    Some [0xdd; 0xa9; 0x7c; 0xa4; 0x86; 0x4c; 0xdf; 0xe0; 0x6e; 0xaf; 0x70; 0xa0; 0xec; 0x0d; 0x71; 0x91] /\
  (fun key => AES_encrypt example_block key) <$> AES_set_encrypt_key (example_key 32) 256 =
    Some [0x8e; 0xa2; 0xb7; 0xca; 0x51; 0x67; 0x45; 0xbf; 0xea; 0xfc; 0x49; 0x90; 0x4b; 0x49; 0x60; 0x89].
Proof. vm_compute. split_and!; reflexivity. Qed.

Lemma aes_roundtrip_witness :
  exists ek dk, AES_set_encrypt_key (example_key 16) 128 = Some ek /\
    AES_set_decrypt_key (example_key 16) 128 = Some dk /\
    AES_decrypt (AES_encrypt example_block ek) dk = example_block.
Proof.
  apply aes_roundtrip; [by left| |done|done|].
  - by apply (bool_decide_eq_true_1 _).
  - by apply (bool_decide_eq_true_1 _).
Defined.
