(* ===== verification/Md5.v ===== *)
(** * MD5

    The hash of MD5.cpp, from which the keys of tokens are made.  A message may be
    given in pieces ([MD5Update]); the digest is that of the whole message.  Integers
    are in the byte order of the target, where [byteReverse] does nothing. *)
From Stdlib Require Import ZArith Lia String.
From stdpp Require Import base tactics numbers sorting option strings list.
From S2P Require Import Prelude Bytes Base64.

(** The chaining value: four words. *)
Record words4 : Set := mkWords { w0 : Z; w1 : Z; w2 : Z; w3 : Z }.

(** [MD5_CTX]: [bits] is a counter of two words, [in_] holds 64 bytes. *)
Record MD5_CTX : Set := mkCtx { buf : words4; bits0 : Z; bits1 : Z; in_ : list Z }.

#[export] Instance eta_ctx : Eta MD5_CTX := fun r => mkCtx (buf r) (bits0 r) (bits1 r) (in_ r).

(** The complement of a word. *)
Definition lnot32 (z : Z) : Z := Z.lxor z 0xffffffff.

Definition F1 (x y z : Z) : Z := Z.lxor z (Z.land x (Z.lxor y z)).
Definition F2 (x y z : Z) : Z := F1 z x y.
Definition F3 (x y z : Z) : Z := Z.lxor (Z.lxor x y) z.
Definition F4 (x y z : Z) : Z := Z.lxor y (Z.lor x (lnot32 z)).

Definition MD5STEP (f : Z -> Z -> Z -> Z) (w x y z data s : Z) : Z :=
  let w := u32 (w + (f x y z + data)) in
  let w := Z.lor (u32 (Z.shiftl w s)) (Z.shiftr w (32 - s)) in
  u32 (w + x).

Definition MD5Transform (buf : words4) (words : list Z) : words4 :=
  let word (i : nat) := nth i words 0 in
  let a := w0 buf in
  let b := w1 buf in
  let c := w2 buf in
  let d := w3 buf in
  let a := MD5STEP F1 a b c d (word 0%nat + 0xd76aa478) 7 in
  let d := MD5STEP F1 d a b c (word 1%nat + 0xe8c7b756) 12 in
  let c := MD5STEP F1 c d a b (word 2%nat + 0x242070db) 17 in
  let b := MD5STEP F1 b c d a (word 3%nat + 0xc1bdceee) 22 in
  let a := MD5STEP F1 a b c d (word 4%nat + 0xf57c0faf) 7 in
  let d := MD5STEP F1 d a b c (word 5%nat + 0x4787c62a) 12 in
  let c := MD5STEP F1 c d a b (word 6%nat + 0xa8304613) 17 in
  let b := MD5STEP F1 b c d a (word 7%nat + 0xfd469501) 22 in
  let a := MD5STEP F1 a b c d (word 8%nat + 0x698098d8) 7 in
  let d := MD5STEP F1 d a b c (word 9%nat + 0x8b44f7af) 12 in
  let c := MD5STEP F1 c d a b (word 10%nat + 0xffff5bb1) 17 in
  let b := MD5STEP F1 b c d a (word 11%nat + 0x895cd7be) 22 in
  let a := MD5STEP F1 a b c d (word 12%nat + 0x6b901122) 7 in
  let d := MD5STEP F1 d a b c (word 13%nat + 0xfd987193) 12 in
  let c := MD5STEP F1 c d a b (word 14%nat + 0xa679438e) 17 in
  let b := MD5STEP F1 b c d a (word 15%nat + 0x49b40821) 22 in
  let a := MD5STEP F2 a b c d (word 1%nat + 0xf61e2562) 5 in
  let d := MD5STEP F2 d a b c (word 6%nat + 0xc040b340) 9 in
  let c := MD5STEP F2 c d a b (word 11%nat + 0x265e5a51) 14 in
  let b := MD5STEP F2 b c d a (word 0%nat + 0xe9b6c7aa) 20 in
  let a := MD5STEP F2 a b c d (word 5%nat + 0xd62f105d) 5 in
  let d := MD5STEP F2 d a b c (word 10%nat + 0x02441453) 9 in
  let c := MD5STEP F2 c d a b (word 15%nat + 0xd8a1e681) 14 in
  let b := MD5STEP F2 b c d a (word 4%nat + 0xe7d3fbc8) 20 in
  let a := MD5STEP F2 a b c d (word 9%nat + 0x21e1cde6) 5 in
  let d := MD5STEP F2 d a b c (word 14%nat + 0xc33707d6) 9 in
  let c := MD5STEP F2 c d a b (word 3%nat + 0xf4d50d87) 14 in
  let b := MD5STEP F2 b c d a (word 8%nat + 0x455a14ed) 20 in
  let a := MD5STEP F2 a b c d (word 13%nat + 0xa9e3e905) 5 in
  let d := MD5STEP F2 d a b c (word 2%nat + 0xfcefa3f8) 9 in
  let c := MD5STEP F2 c d a b (word 7%nat + 0x676f02d9) 14 in
  let b := MD5STEP F2 b c d a (word 12%nat + 0x8d2a4c8a) 20 in
  let a := MD5STEP F3 a b c d (word 5%nat + 0xfffa3942) 4 in
  let d := MD5STEP F3 d a b c (word 8%nat + 0x8771f681) 11 in
  let c := MD5STEP F3 c d a b (word 11%nat + 0x6d9d6122) 16 in
  let b := MD5STEP F3 b c d a (word 14%nat + 0xfde5380c) 23 in
  let a := MD5STEP F3 a b c d (word 1%nat + 0xa4beea44) 4 in
  let d := MD5STEP F3 d a b c (word 4%nat + 0x4bdecfa9) 11 in
  let c := MD5STEP F3 c d a b (word 7%nat + 0xf6bb4b60) 16 in
  let b := MD5STEP F3 b c d a (word 10%nat + 0xbebfbc70) 23 in
  let a := MD5STEP F3 a b c d (word 13%nat + 0x289b7ec6) 4 in
  let d := MD5STEP F3 d a b c (word 0%nat + 0xeaa127fa) 11 in
  let c := MD5STEP F3 c d a b (word 3%nat + 0xd4ef3085) 16 in
  let b := MD5STEP F3 b c d a (word 6%nat + 0x04881d05) 23 in
  let a := MD5STEP F3 a b c d (word 9%nat + 0xd9d4d039) 4 in
  let d := MD5STEP F3 d a b c (word 12%nat + 0xe6db99e5) 11 in
  let c := MD5STEP F3 c d a b (word 15%nat + 0x1fa27cf8) 16 in
  let b := MD5STEP F3 b c d a (word 2%nat + 0xc4ac5665) 23 in
  let a := MD5STEP F4 a b c d (word 0%nat + 0xf4292244) 6 in
  let d := MD5STEP F4 d a b c (word 7%nat + 0x432aff97) 10 in
  let c := MD5STEP F4 c d a b (word 14%nat + 0xab9423a7) 15 in
  let b := MD5STEP F4 b c d a (word 5%nat + 0xfc93a039) 21 in
  let a := MD5STEP F4 a b c d (word 12%nat + 0x655b59c3) 6 in
  let d := MD5STEP F4 d a b c (word 3%nat + 0x8f0ccc92) 10 in
  let c := MD5STEP F4 c d a b (word 10%nat + 0xffeff47d) 15 in
  let b := MD5STEP F4 b c d a (word 1%nat + 0x85845dd1) 21 in
  let a := MD5STEP F4 a b c d (word 8%nat + 0x6fa87e4f) 6 in
  let d := MD5STEP F4 d a b c (word 15%nat + 0xfe2ce6e0) 10 in
  let c := MD5STEP F4 c d a b (word 6%nat + 0xa3014314) 15 in
  let b := MD5STEP F4 b c d a (word 13%nat + 0x4e0811a1) 21 in
  let a := MD5STEP F4 a b c d (word 4%nat + 0xf7537e82) 6 in
  let d := MD5STEP F4 d a b c (word 11%nat + 0xbd3af235) 10 in
  let c := MD5STEP F4 c d a b (word 2%nat + 0x2ad7d2bb) 15 in
  let b := MD5STEP F4 b c d a (word 9%nat + 0xeb86d391) 21 in
  mkWords (u32 (w0 buf + a)) (u32 (w1 buf + b)) (u32 (w2 buf + c)) (u32 (w3 buf + d)).

(** A new context: its buffer holds what memory held. *)
Definition MD5Init (memory : list Z) : MD5_CTX :=
  mkCtx (mkWords 0x67452301 0xefcdab89 0x98badcfe 0x10325476) 0 0 memory.

(** The words of 64 bytes. *)
Fixpoint le_words (l : list Z) : list Z :=
  match l with
  | a :: b :: c :: d :: l' => le_value [a; b; c; d] :: le_words l'
  | _ => []
  end.

(** [memcpy] and [memset] into the buffer at [off]. *)
Definition fill (off : nat) (bytes : list Z) (mem : list Z) : list Z :=
  take off mem ++ bytes ++ drop (off + length bytes) mem.

(** [while (len >= 64)], and the rest of the data. *)
Fixpoint update_loop (fuel : nat) (ctx : MD5_CTX) (data : list Z) : MD5_CTX :=
  match fuel with
  | O => ctx
  | S fuel' =>
      if (64 <=? length data)%nat then
        let mem := fill 0 (take 64 data) (in_ ctx) in
        update_loop fuel' (ctx <| in_ := mem |> <| buf := MD5Transform (buf ctx) (le_words mem) |>) (drop 64 data)
      else ctx <| in_ := fill 0 data (in_ ctx) |>
  end.

Definition MD5Update (ctx : MD5_CTX) (data : list Z) : MD5_CTX :=
  let len := u32 (Z.of_nat (length data)) in
  let data := take (Z.to_nat len) data in
  let t := bits0 ctx in
  let low := u32 (t + u32 (Z.shiftl len 3)) in
  let high := if low <? t then u32 (bits1 ctx + 1) else bits1 ctx in
  let high := u32 (high + Z.shiftr len 29) in
  let ctx := ctx <| bits0 := low |> <| bits1 := high |> in
  let t := Z.to_nat (Z.land (Z.shiftr t 3) 0x3f) in
  if (t =? 0)%nat then update_loop (S (length data)) ctx data
  else
    let left := (64 - t)%nat in
    if (length data <? left)%nat then ctx <| in_ ::= fill t data |>
    else
      let mem := fill t (take left data) (in_ ctx) in
      let ctx := ctx <| in_ := mem |> <| buf := MD5Transform (buf ctx) (le_words mem) |> in
      update_loop (S (length data)) ctx (drop left data).

Definition MD5Final (ctx : MD5_CTX) : list Z :=
  let count := Z.to_nat (Z.land (Z.shiftr (bits0 ctx) 3) 0x3f) in
  let mem := fill count [0x80] (in_ ctx) in
  let left := (64 - 1 - count)%nat in
  let '(value, mem) :=
    (if (left <? 8)%nat then
       let mem := fill (S count) (replicate left 0) mem in
       (MD5Transform (buf ctx) (le_words mem), fill 0 (replicate 56 0) mem)
     else (buf ctx, fill (S count) (replicate (left - 8) 0) mem)) in
  let words := take 14 (le_words mem) ++ [bits0 ctx; bits1 ctx] in
  let value := MD5Transform value words in
  le_bytes 4 (w0 value) ++ le_bytes 4 (w1 value) ++ le_bytes 4 (w2 value) ++ le_bytes 4 (w3 value).

(** [MD5_16]: the digest of a message.  An [unsigned] holds its length. *)
Definition MD5_16 (memory msg : list Z) : list Z := MD5Final (MD5Update (MD5Init memory) msg).

(** [bin2hex] (BaseTool.cpp) *)
Definition hex : list Z := chars "0123456789abcdef".
Definition bin2hex (p : list Z) : list Z :=
  p ≫= fun b => [nth (Z.to_nat (Z.shiftr b 4)) hex 0; nth (Z.to_nat (Z.land b 0x0f)) hex 0].

(** [MD5_32]: the digest as a string of its digits. *)
Definition MD5_32 (memory msg : list Z) : list Z := c_string (bin2hex (MD5_16 memory msg)).

(** ** The definition of the hash

    The message is padded to whole blocks: a bit, zeros, and the number of bits. *)
Definition md5_init : words4 := mkWords 0x67452301 0xefcdab89 0x98badcfe 0x10325476.

Definition block (i : nat) (l : list Z) : list Z := take 64 (drop (64 * i) l).

Definition blocks (l : list Z) (n : nat) : words4 :=
  foldl (fun v i => MD5Transform v (le_words (block i l))) md5_init (seq 0 n).

Definition words_bytes (v : words4) : list Z :=
  le_bytes 4 (w0 v) ++ le_bytes 4 (w1 v) ++ le_bytes 4 (w2 v) ++ le_bytes 4 (w3 v).

Definition zeros_for (n : nat) : nat :=
  let m := (n mod 64)%nat in if (m <? 56)%nat then (55 - m)%nat else (119 - m)%nat.

Definition padded (msg : list Z) : list Z :=
  msg ++ 0x80 :: replicate (zeros_for (length msg)) 0 ++ le_bytes 8 (u64 (8 * Z.of_nat (length msg))).

Definition md5 (msg : list Z) : list Z :=
  words_bytes (blocks (padded msg) (length (padded msg) / 64)).

(** ** The context of a message *)

Lemma blocks_S l n : blocks l (S n) = MD5Transform (blocks l n) (le_words (block n l)).
Proof. unfold blocks. by rewrite seq_S, foldl_app. Qed.

Lemma block_app i l l' : (64 * S i <= length l)%nat -> block i (l ++ l') = block i l.
Proof.
  intros Hl. unfold block. rewrite drop_app_le by lia. apply take_app_le. rewrite length_drop. lia.
Qed.

Lemma blocks_app l l' n : (64 * n <= length l)%nat -> blocks (l ++ l') n = blocks l n.
Proof.
  induction n as [|n IH]; intros Hl; [done|]. rewrite !blocks_S, IH, block_app by lia. done.
Qed.

(** The last whole block. *)
Lemma block_end n l b : length l = (64 * n)%nat -> length b = 64%nat -> block n (l ++ b) = b.
Proof.
  intros Hl Hb. unfold block. rewrite drop_app_length' by done. apply take_ge. lia.
Qed.

Lemma blocks_end n l b :
  length l = (64 * n)%nat -> length b = 64%nat ->
  blocks (l ++ b) (S n) = MD5Transform (blocks l n) (le_words b).
Proof. intros Hl Hb. rewrite blocks_S, blocks_app, block_end by (done || lia). done. Qed.

(** What the buffer holds is [rest]: the bytes behind the whole blocks. *)
Record absorbed (whole rest : list Z) (ctx : MD5_CTX) : Prop := mkAbsorbed {
  abs_whole : exists n, length whole = (64 * n)%nat /\ buf ctx = blocks whole n;
  abs_rest : (length rest < 64)%nat;
  abs_mem : length (in_ ctx) = 64%nat;
  abs_in : take (length rest) (in_ ctx) = rest
}.

Definition counts (n : nat) (ctx : MD5_CTX) : Prop :=
  bits0 ctx = 8 * Z.of_nat n mod 2 ^ 32 /\ bits1 ctx = 8 * Z.of_nat n / 2 ^ 32 mod 2 ^ 32.

(** [ctx] has taken up the message. *)
Definition ctx_of (msg : list Z) (ctx : MD5_CTX) : Prop :=
  counts (length msg) ctx /\ exists whole rest, msg = whole ++ rest /\ absorbed whole rest ctx.

Lemma fill_length off bytes mem :
  (off + length bytes <= length mem)%nat -> length (fill off bytes mem) = length mem.
Proof. intros Hl. unfold fill. rewrite !length_app, length_take, length_drop. lia. Qed.

Lemma take_fill off bytes mem :
  (off + length bytes <= length mem)%nat -> take (off + length bytes) (fill off bytes mem) = take off mem ++ bytes.
Proof.
  intros Hl. unfold fill. rewrite (assoc_L (++)). apply take_app_length'. rewrite length_app, length_take. lia.
Qed.

(** A full buffer. *)
Lemma fill_full off bytes mem :
  length mem = 64%nat -> (off + length bytes = 64)%nat -> fill off bytes mem = take off mem ++ bytes.
Proof.
  intros Hm Hl. rewrite <- (take_fill off bytes mem) by lia. symmetry. apply take_ge.
  rewrite fill_length; lia.
Qed.

Lemma update_loop_absorbs fuel whole ctx data :
  (length data < fuel)%nat -> absorbed whole [] ctx ->
  exists whole' rest', whole ++ data = whole' ++ rest' /\ absorbed whole' rest' (update_loop fuel ctx data) /\
    bits0 (update_loop fuel ctx data) = bits0 ctx /\ bits1 (update_loop fuel ctx data) = bits1 ctx.
Proof.
  revert whole ctx data. induction fuel as [|fuel IH]; intros whole ctx data Hf [(n & Hn & Hb) _ Hm _]; [lia|].
  cbn [update_loop]. destruct (64 <=? length data)%nat eqn:E.
  - apply Nat.leb_le in E.
    assert (length (take 64 data) = 64)%nat as Ht by (rewrite length_take; lia).
    rewrite fill_full by (done || lia). cbn [take app].
    destruct (IH (whole ++ take 64 data)
      (ctx <| in_ := take 64 data |> <| buf := MD5Transform (buf ctx) (le_words (take 64 data)) |>) (drop 64 data))
      as (whole' & rest' & Hw & Ha & H0 & H1).
    + rewrite length_drop. lia.
    + split; cbn; [|lia|done|done]. exists (S n). rewrite length_app. split; [lia|].
      by rewrite blocks_end, Hb.
    + exists whole', rest'. rewrite <- (assoc_L (++)), take_drop in Hw. by split_and!.
  - apply Nat.leb_gt in E. exists whole, data. split_and!; [done| |done|done].
    split; cbn; [by exists n|done|rewrite fill_length; lia|].
    exact (take_fill 0 data (in_ ctx) ltac:(simpl; lia)).
Qed.

#[local] Ltac Zify.zify_post_hook ::= Z.to_euclidean_division_equations.

Lemma counted n : Z.to_nat (Z.land (Z.shiftr (8 * Z.of_nat n mod 2 ^ 32) 3) 0x3f) = (n mod 64)%nat.
Proof.
  change 0x3f with (Z.ones 6). rewrite Z.land_ones, Z.shiftr_div_pow2 by lia.
  apply Nat2Z.inj. rewrite Z2Nat.id by (apply Z.mod_pos_bound; lia).
  rewrite Nat2Z.inj_mod. change (Z.of_nat 64) with 64.
  lia.
Qed.

Lemma counts_add n len ctx :
  (Z.of_nat len < 2 ^ 32) -> counts n ctx ->
  let low := u32 (bits0 ctx + u32 (Z.shiftl (u32 (Z.of_nat len)) 3)) in
  let high := if low <? bits0 ctx then u32 (bits1 ctx + 1) else bits1 ctx in
  low = 8 * Z.of_nat (n + len) mod 2 ^ 32 /\
  u32 (high + Z.shiftr (u32 (Z.of_nat len)) 29) = 8 * Z.of_nat (n + len) / 2 ^ 32 mod 2 ^ 32.
Proof.
  intros Hl [-> ->]. rewrite (wrap_id 32 (Z.of_nat len)) by (unfold fits; lia).
  rewrite Z.shiftl_mul_pow2, Z.shiftr_div_pow2 by lia. unfold wrap. cbn zeta.
  rewrite Nat2Z.inj_add. set (N := Z.of_nat n). set (L := Z.of_nat len) in *.
  assert (0 <= N /\ 0 <= L) as [HN HL] by lia. clearbody N L.
  replace (L / 2 ^ 29) with (8 * L / 2 ^ 32) by lia.
  replace (8 * (N + L)) with (8 * N + 8 * L) by lia. replace (L * 2 ^ 3) with (8 * L) by lia.
  generalize (8 * N), (8 * L). clear. intros x y. change (2 ^ 32) with 4294967296. split; [lia|].
  destruct (_ <? _) eqn:E; lia.
Qed.

Lemma whole_mod n r : (r < 64)%nat -> ((64 * n + r) mod 64 = r)%nat.
Proof. intros Hr. rewrite Nat.add_comm, Nat.mul_comm, Nat.Div0.mod_add. by apply Nat.mod_small. Qed.

(** The part of [MD5Update] that follows the count, with [t] bytes in the buffer. *)
Definition take_up (t : nat) (ctx : MD5_CTX) (data : list Z) : MD5_CTX :=
  if (t =? 0)%nat then update_loop (S (length data)) ctx data
  else
    let left := (64 - t)%nat in
    if (length data <? left)%nat then ctx <| in_ ::= fill t data |>
    else
      let mem := fill t (take left data) (in_ ctx) in
      let ctx := ctx <| in_ := mem |> <| buf := MD5Transform (buf ctx) (le_words mem) |> in
      update_loop (S (length data)) ctx (drop left data).

Lemma take_up_absorbs whole rest ctx data :
  absorbed whole rest ctx ->
  (exists whole' rest', (whole ++ rest) ++ data = whole' ++ rest' /\
     absorbed whole' rest' (take_up (length rest) ctx data)) /\
  bits0 (take_up (length rest) ctx data) = bits0 ctx /\ bits1 (take_up (length rest) ctx data) = bits1 ctx.
Proof.
  intros Habs. pose proof Habs as [(n & Hn & Hb) Hr Hm Hi]. unfold take_up.
  destruct (length rest =? 0)%nat eqn:Et.
  { apply Nat.eqb_eq, nil_length_inv in Et. subst rest. rewrite app_nil_r.
    destruct (update_loop_absorbs (S (length data)) whole ctx data) as (w & r & H1 & H2 & H3); [lia|done|].
    split; [by exists w, r|done]. }
  destruct (length data <? 64 - length rest)%nat eqn:El.
  - apply Nat.ltb_lt in El. split; [|done]. exists whole, (rest ++ data).
    split; [by rewrite (assoc_L (++))|]. split; [by exists n| | |].
    + rewrite length_app. lia.
    + change (length (fill (length rest) data (in_ ctx)) = 64%nat). rewrite fill_length; lia.
    + change (take (length (rest ++ data)) (fill (length rest) data (in_ ctx)) = rest ++ data).
      rewrite length_app, take_fill, Hi by lia. done.
  - apply Nat.ltb_ge in El.
    assert (length (take (64 - length rest) data) = 64 - length rest)%nat as Ht by (rewrite length_take; lia).
    rewrite fill_full, Hi by lia. set (b := rest ++ take (64 - length rest) data).
    assert (length b = 64%nat) as Hbl by (unfold b; rewrite length_app, Ht; lia).
    match goal with |- context [update_loop _ ?c _] => set (ctx' := c) end.
    destruct (update_loop_absorbs (S (length data)) (whole ++ b) ctx' (drop (64 - length rest) data))
      as (w & r & H1 & H2 & H3); [rewrite length_drop; lia| |].
    + split; [|simpl; lia|done|done]. exists (S n). rewrite length_app. split; [lia|].
      rewrite blocks_end by done. unfold ctx'. cbn. by rewrite Hb.
    + split; [|done]. exists w, r. split; [|done]. rewrite <- H1. unfold b.
      rewrite <- !(assoc_L (++)). by rewrite take_drop.
Qed.

Lemma MD5Update_of msg data ctx :
  Z.of_nat (length data) < 2 ^ 32 -> ctx_of msg ctx -> ctx_of (msg ++ data) (MD5Update ctx data).
Proof.
  intros Hl [Hcnt (whole & rest & -> & Habs)]. pose proof Habs as [(n & Hn & Hb) Hr Hm Hi].
  destruct (counts_add _ (length data) ctx Hl Hcnt) as [Hlow Hhigh].
  unfold MD5Update. rewrite (wrap_id 32 (Z.of_nat (length data))) in * by (unfold fits; lia).
  rewrite Nat2Z.id, take_ge by done. cbn zeta in *.
  set (low := u32 (bits0 ctx + _)) in *. set (high := u32 (_ + Z.shiftr _ 29)) in *.
  destruct Hcnt as [Hc0 _].
  assert (Z.to_nat (Z.land (Z.shiftr (bits0 ctx) 3) 0x3f) = length rest) as ->.
  { rewrite Hc0, counted, length_app, Hn. by apply whole_mod. }
  set (ctx' := ctx <| bits0 := low |> <| bits1 := high |>).
  change (ctx_of ((whole ++ rest) ++ data) (take_up (length rest) ctx' data)).
  assert (absorbed whole rest ctx') as Habs' by by destruct Habs.
  destruct (take_up_absorbs whole rest ctx' data Habs') as [Hex [H0 H1]].
  split; [|exact Hex]. unfold counts. rewrite H0, H1, length_app. split; [exact Hlow|exact Hhigh].
Qed.

Lemma MD5Init_of memory : length memory = 64%nat -> ctx_of [] (MD5Init memory).
Proof.
  intros Hm. split; [by split|]. exists [], []. split; [done|]. split; [by exists 0%nat|simpl; lia|exact Hm|done].
Qed.

(** ** The last blocks *)

Lemma le_words_app k l l' : length l = (4 * k)%nat -> le_words (l ++ l') = le_words l ++ le_words l'.
Proof.
  revert l. induction k as [|k IH]; intros l Hl; [by destruct l|].
  destruct l as [|a [|b [|c [|d l]]]]; try (simpl in Hl; lia). cbn [app le_words]. f_equal.
  apply IH. simpl in Hl. lia.
Qed.

Lemma le_words_length k l : length l = (4 * k)%nat -> length (le_words l) = k.
Proof.
  revert l. induction k as [|k IH]; intros l Hl; [by destruct l|].
  destruct l as [|a [|b [|c [|d l]]]]; try (simpl in Hl; lia). cbn [le_words length]. f_equal.
  apply IH. simpl in Hl. lia.
Qed.

Lemma take_le_words k l : (4 * k <= length l)%nat -> take k (le_words l) = le_words (take (4 * k) l).
Proof.
  intros Hl. rewrite <- (take_drop (4 * k) l) at 1.
  assert (length (take (4 * k) l) = 4 * k)%nat as Ht by (rewrite length_take; lia).
  rewrite (le_words_app k) by done. apply take_app_length'. symmetry. by apply le_words_length.
Qed.

(** The two words of the count are its eight bytes. *)
Lemma count_words n ctx :
  counts n ctx -> le_words (le_bytes 8 (u64 (8 * Z.of_nat n))) = [bits0 ctx; bits1 ctx].
Proof.
  intros [H0 H1]. set (z := u64 (8 * Z.of_nat n)).
  assert (le_bytes 8 z = le_bytes 4 z ++ le_bytes 4 (Z.shiftr z 32)) as ->.
  { rewrite !le_bytes_S, !Z.shiftr_shiftr by lia. done. }
  rewrite (le_words_app 1) by done.
  assert (forall z, le_words (le_bytes 4 z) = [le_value (le_bytes 4 z)]) as Hw by done. rewrite !Hw.
  assert (le_bytes 4 z = le_bytes 4 (bits0 ctx)) as ->.
  { rewrite H0. unfold z. by rewrite (le_bytes_wrap 4 64), <- (le_bytes_wrap 4 32). }
  assert (Z.shiftr z 32 = bits1 ctx) as ->.
  { rewrite H1, Z.shiftr_div_pow2 by lia. unfold z, wrap.
    change (2 ^ 64) with (4294967296 * 4294967296). change (2 ^ 32) with 4294967296. lia. }
  rewrite !le_value_bytes; [done|..]; unfold fits; change (8 * Z.of_nat 4) with 32; lia.
Qed.

(** What the last block is, with the buffer as [MD5Final] fills it. *)
Lemma last_words front ctx n mem :
  length front = 56%nat -> length mem = 64%nat -> take 56 mem = front -> counts n ctx ->
  take 14 (le_words mem) ++ [bits0 ctx; bits1 ctx] = le_words (front ++ le_bytes 8 (u64 (8 * Z.of_nat n))).
Proof.
  intros Hf Hm Ht Hc. rewrite (le_words_app 14) by done. rewrite (count_words n ctx) by done.
  rewrite take_le_words by lia. change (4 * 14)%nat with 56%nat. by rewrite Ht.
Qed.

(** The end mark behind the rest. *)
Lemma marked rest mem :
  (length rest < 64)%nat -> length mem = 64%nat -> take (length rest) mem = rest ->
  length (fill (length rest) [0x80] mem) = 64%nat /\
  take (S (length rest)) (fill (length rest) [0x80] mem) = rest ++ [0x80].
Proof.
  intros Hr Hm Ht. split; [rewrite fill_length; simpl; lia|].
  pose proof (take_fill (length rest) [0x80] mem) as E. rewrite Ht in E. simpl in E.
  rewrite Nat.add_1_r in E. apply E. lia.
Qed.

Lemma padded_length msg : exists n, length (padded msg) = (64 * n)%nat.
Proof.
  exists (length msg / 64 + (if (length msg mod 64 <? 56)%nat then 1 else 2))%nat.
  unfold padded. rewrite length_app. cbn [length]. rewrite length_app, length_replicate, le_bytes_length.
  unfold zeros_for. pose proof (Nat.div_mod_eq (length msg) 64). pose proof (Nat.mod_upper_bound (length msg) 64).
  destruct (_ <? 56)%nat eqn:E; [apply Nat.ltb_lt in E|apply Nat.ltb_ge in E]; lia.
Qed.

Lemma md5_blocks msg whole n b :
  padded msg = whole ++ b -> length whole = (64 * n)%nat -> length b = 64%nat ->
  md5 msg = words_bytes (MD5Transform (blocks whole n) (le_words b)).
Proof.
  intros Hp Hn Hb. unfold md5. rewrite Hp.
  assert (length (whole ++ b) / 64 = S n)%nat as ->.
  { rewrite length_app, Hn, Hb. replace (64 * n + 64)%nat with (S n * 64)%nat by lia. by apply Nat.div_mul. }
  by rewrite blocks_end.
Qed.

(** [MD5Final], with [count] bytes in the buffer. *)
Definition final_words (count : nat) (ctx : MD5_CTX) : words4 :=
  let mem := fill count [0x80] (in_ ctx) in
  let left := (63 - count)%nat in
  let tail mem := take 14 (le_words mem) ++ [bits0 ctx; bits1 ctx] in
  if (left <? 8)%nat then
    let mem := fill (S count) (replicate left 0) mem in
    MD5Transform (MD5Transform (buf ctx) (le_words mem)) (tail (fill 0 (replicate 56 0) mem))
  else MD5Transform (buf ctx) (tail (fill (S count) (replicate (left - 8) 0) mem)).

Lemma MD5Final_words ctx :
  MD5Final ctx = words_bytes (final_words (Z.to_nat (Z.land (Z.shiftr (bits0 ctx) 3) 0x3f)) ctx).
Proof.
  unfold MD5Final, final_words. cbn zeta. change (64 - 1)%nat with 63%nat. by destruct (_ <? 8)%nat.
Qed.

Lemma MD5Final_of msg ctx : ctx_of msg ctx -> MD5Final ctx = md5 msg.
Proof.
  intros [Hcnt (whole & rest & Hmsg & [(n & Hn & Hb) Hr Hm Hi])].
  assert (length msg mod 64 = length rest)%nat as Hmod by (rewrite Hmsg, length_app, Hn; by apply whole_mod).
  rewrite MD5Final_words. destruct Hcnt as [Hc0 Hc1]. rewrite Hc0, counted, Hmod.
  unfold final_words. cbn zeta.
  destruct (marked rest (in_ ctx) Hr Hm Hi) as [Hml Hmt].
  set (mem := fill (length rest) [0x80] (in_ ctx)) in *.
  assert (padded msg = (whole ++ rest ++ [0x80]) ++ replicate (zeros_for (length msg)) 0 ++
            le_bytes 8 (u64 (8 * Z.of_nat (length msg)))) as Hp.
  { unfold padded. rewrite Hmsg at 1. by rewrite <- !(assoc_L (++)). }
  unfold zeros_for in Hp. rewrite Hmod in Hp.
  destruct (63 - length rest <? 8)%nat eqn:E; [apply Nat.ltb_lt in E|apply Nat.ltb_ge in E].
  - rewrite (proj2 (Nat.ltb_ge (length rest) 56)) in Hp by lia.
    set (first := (rest ++ [0x80]) ++ replicate (63 - length rest) 0).
    assert (fill (S (length rest)) (replicate (63 - length rest) 0) mem = first) as ->.
    { rewrite fill_full, Hmt by (rewrite ?length_replicate; lia). done. }
    assert (length first = 64)%nat as Hfl.
    { unfold first. rewrite !length_app, length_replicate. simpl. lia. }
    rewrite (md5_blocks msg (whole ++ first) (S n) (replicate 56 0 ++ le_bytes 8 (u64 (8 * Z.of_nat (length msg))))).
    + rewrite blocks_end, Hb by done.
      rewrite (last_words (replicate 56 0) ctx (length msg)); [done|done| | |by split].
      * rewrite fill_length; rewrite ?length_replicate; lia.
      * by rewrite (take_fill 0 (replicate 56 0)) by (rewrite length_replicate; lia).
    + rewrite Hp. unfold first. replace (119 - length rest)%nat with (63 - length rest + 56)%nat by lia.
      rewrite replicate_add. by rewrite <- !(assoc_L (++)).
    + rewrite length_app. lia.
    + by rewrite length_app, length_replicate, le_bytes_length.
  - rewrite (proj2 (Nat.ltb_lt (length rest) 56)) in Hp by lia.
    set (front := (rest ++ [0x80]) ++ replicate (63 - length rest - 8) 0).
    assert (length front = 56)%nat as Hfl.
    { unfold front. rewrite !length_app, length_replicate. simpl. lia. }
    rewrite (md5_blocks msg whole n (front ++ le_bytes 8 (u64 (8 * Z.of_nat (length msg))))).
    + rewrite Hb. rewrite (last_words front ctx (length msg)); [done|done| | |by split].
      * rewrite fill_length; rewrite ?length_replicate; lia.
      * pose proof (take_fill (S (length rest)) (replicate (63 - length rest - 8) 0) mem) as Htf.
        rewrite length_replicate in Htf. replace (S (length rest) + (63 - length rest - 8))%nat with 56%nat in Htf by lia.
        rewrite Htf, Hmt by lia. done.
    + rewrite Hp. unfold front. replace (63 - length rest - 8)%nat with (55 - length rest)%nat by lia.
      by rewrite <- !(assoc_L (++)).
    + done.
    + by rewrite length_app, Hfl, le_bytes_length.
Qed.

(** C27: A message that is hashed in pieces has the digest of the whole message,
    whatever the pieces and whatever the buffer held before: the hash of the blocks
    of the message and its padding. *)
Theorem md5_of_pieces memory pieces :
  length memory = 64%nat -> Forall (fun p => Z.of_nat (length p) < 2 ^ 32) pieces ->
  MD5Final (foldl MD5Update (MD5Init memory) pieces) = md5 (concat pieces).
Proof.
  intros Hm Hp. apply MD5Final_of.
  enough (forall msg ctx, ctx_of msg ctx -> ctx_of (msg ++ concat pieces) (foldl MD5Update ctx pieces)) as Hall.
  { by apply (Hall []), MD5Init_of. }
  induction Hp as [|p pieces Hlen _ IH]; intros msg ctx Hc; cbn [concat foldl]; [by rewrite app_nil_r|].
  rewrite (assoc_L (++)). apply IH. by apply MD5Update_of.
Qed.

(** The examples of RFC 1321. *)
Definition some_memory : list Z := replicate 64 0xcc.

Example rfc_1321 :
  MD5_32 some_memory [] = chars "d41d8cd98f00b204e9800998ecf8427e" /\
  MD5_32 some_memory (chars "message digest") = chars "f96b697d7cb7938d525a2f31aaf161d0" /\
  MD5_32 some_memory (chars "ABCDEFGHIJKLMNOPQRSTUVWXYZabcdefghijklmnopqrstuvwxyz0123456789") =
    chars "d174ab98d277d9f5a5611c2c9f419d9f".
Proof. vm_compute. split_and!; reflexivity. Qed.

Lemma md5_of_pieces_witness :
  MD5Final (foldl MD5Update (MD5Init some_memory) [chars "message "; []; chars "digest"]) =
    md5 (chars "message digest").
Proof.
  apply (md5_of_pieces some_memory [chars "message "; []; chars "digest"]); [done|].
  by repeat (apply Forall_cons_2; [done|]).
Defined.

(** ** The digest as text *)

Lemma hex_digit_text i : 0 <= i < 16 -> nth (Z.to_nat i) hex 0 <> 0 /\ fits 8 (nth (Z.to_nat i) hex 0).
Proof.
  intros Hi. pose (P := fun i => bool_decide (nth (Z.to_nat i) hex 0 <> 0 /\ fits 8 (nth (Z.to_nat i) hex 0))).
  enough (P i = true) by by apply (bool_decide_eq_true_1 _).
  revert i Hi. apply (forall_below P 16). vm_compute. reflexivity.
Qed.

Lemma bin2hex_text p : Forall (fits 8) p -> Forall (fun c => c <> 0 /\ fits 8 c) (bin2hex p).
Proof.
  induction 1 as [|b p Hb _ IH]; [by apply Forall_nil|]. unfold fits in Hb.
  cbn [bin2hex mbind list_bind]. repeat apply Forall_cons_2; [..|exact IH]; apply hex_digit_text.
  - rewrite Z.shiftr_div_pow2 by lia. lia.
  - change 0x0f with (Z.ones 4). rewrite Z.land_ones by lia. lia.
Qed.

Lemma bin2hex_length p : length (bin2hex p) = (2 * length p)%nat.
Proof. induction p as [|b p IH]; [done|]. cbn [bin2hex mbind list_bind app length] in *. unfold bin2hex in IH. lia. Qed.

Lemma words_bytes_fits v : Forall (fits 8) (words_bytes v) /\ length (words_bytes v) = 16%nat.
Proof.
  unfold words_bytes. split; [|by rewrite !length_app, !le_bytes_length].
  rewrite !Forall_app. split_and!; apply le_bytes_fits.
Qed.

(** Thirty-two characters. *)
Lemma MD5_32_text memory msg :
  length memory = 64%nat -> Z.of_nat (length msg) < 2 ^ 32 ->
  MD5_32 memory msg = bin2hex (md5 msg) /\ length (MD5_32 memory msg) = 32%nat /\
  Forall (fun c => c <> 0 /\ fits 8 c) (MD5_32 memory msg).
Proof.
  intros Hm Hl. assert (MD5_16 memory msg = md5 msg) as E.
  { apply MD5Final_of. apply (MD5Update_of [] msg); [done|]. by apply MD5Init_of. }
  destruct (words_bytes_fits (blocks (padded msg) (length (padded msg) / 64))) as [Hf Hn].
  fold (md5 msg) in Hf, Hn. pose proof (bin2hex_text _ Hf) as Ht.
  unfold MD5_32. rewrite E, c_string_text by done. split_and!; [done| |done].
  by rewrite bin2hex_length, Hn.
Qed.
