(* ===== verification/Token.v ===== *)
(** * Tokens

    AesBt.cpp: a text is encrypted block by block under a key made from a seed, and
    written in Base64; the other direction ends the text at its first null.  The
    login server makes the tokens of users with it, and the other servers read them. *)
From Stdlib Require Import ZArith Lia String.
From stdpp Require Import base tactics numbers sorting option strings list.
From S2P Require Import Prelude Bytes Base64 AesTables AesCore Md5.

Section token.

(** What new memory holds: the buffer of the hash, and the buffer of a text. *)
Context (hash_memory text_memory : list Z).

(** [get_key(seed)]: the first half of the digest of the seed. *)
Definition get_key (seed : list Z) : list Z := take 16 (MD5_32 hash_memory seed).

Definition default_seed : list Z := chars "safsdfsdfkjl-s-123lkfls".

(** [round] blocks, and the last one filled up with zeros. *)
Fixpoint encrypt_blocks (round : nat) (in_ : list Z) (key : AES_KEY) : list Z :=
  match round with
  | O =>
      if bool_decide (in_ = []) then []
      else AES_encrypt (in_ ++ replicate (AES_BLOCK_SIZE - length in_) 0) key
  | S round' => AES_encrypt (take AES_BLOCK_SIZE in_) key ++ encrypt_blocks round' (drop AES_BLOCK_SIZE in_) key
  end.

Fixpoint decrypt_blocks (round : nat) (in_ : list Z) (key : AES_KEY) : list Z :=
  match round with
  | O => []
  | S round' => AES_decrypt (take AES_BLOCK_SIZE in_) key ++ decrypt_blocks round' (drop AES_BLOCK_SIZE in_) key
  end.

(** [AES_ecb128_encrypt(in, length, out, key)]: what is written to [out]. *)
Definition ecb128_encrypt (in_ key : list Z) : outcome (list Z) :=
  aes_key ← access (AES_set_encrypt_key key 128);
  mret (encrypt_blocks (length in_ / AES_BLOCK_SIZE) in_ aes_key).

Definition ecb128_decrypt (in_ key : list Z) : outcome (list Z) :=
  aes_key ← access (AES_set_decrypt_key key 128);
  mret (decrypt_blocks (length in_ / AES_BLOCK_SIZE) in_ aes_key).

(** [AES_ecb128_encrypt(in, key_seed)] *)
Definition AES_ecb128_encrypt (in_ key_seed : list Z) : outcome (list Z) :=
  buffer ← ecb128_encrypt in_ (get_key key_seed);
  Base64Encode buffer.

(** [AES_ecb128_decrypt(in, key_seed)].  [length] starts as zero; a byte of
    [bin_in] that was not written must not be read. *)
Definition AES_ecb128_decrypt (in_ key_seed : list Z) : outcome (list Z) :=
  '(dest, decoded) ← Base64Decode (c_string in_);
  let length := Z.to_nat (default 0 decoded) in
  bin_in ← access (mapM id (take (length / AES_BLOCK_SIZE * AES_BLOCK_SIZE) dest));
  bin_out ← ecb128_decrypt bin_in (get_key key_seed);
  mret (c_string (bin_out ++ drop (List.length bin_out) (take length text_memory) ++ [0])).

(** The functions without a seed. *)
Definition AES_ecb128_encrypt_default (in_ : list Z) : outcome (list Z) := AES_ecb128_encrypt in_ default_seed.
Definition AES_ecb128_decrypt_default (in_ : list Z) : outcome (list Z) := AES_ecb128_decrypt in_ default_seed.

(** The last function decodes into a null pointer: with four characters or more
    the first byte is written there.  [out_len] is the caller's. *)
Definition AES_ecb128_decrypt_to (in_ : list Z) (out_len : Z) (key_seed : list Z) : outcome (list Z) :=
  if (length in_ <? 4)%nat then
    if out_len <? Z.of_nat AES_BLOCK_SIZE then mret [] else Fault NullDeref
  else Fault NullDeref.

(** ** The blocks go round *)

Lemma blocks_roundtrip ek dk round in_ :
  (forall b, length b = AES_BLOCK_SIZE -> Forall (fits 8) b ->
     AES_decrypt (AES_encrypt b ek) dk = b /\ length (AES_encrypt b ek) = AES_BLOCK_SIZE /\
     Forall (fits 8) (AES_encrypt b ek)) ->
  Forall (fits 8) in_ -> round = (length in_ / AES_BLOCK_SIZE)%nat ->
  exists n pad, length (encrypt_blocks round in_ ek) = (AES_BLOCK_SIZE * n)%nat /\
    (length in_ + pad = AES_BLOCK_SIZE * n)%nat /\
    Forall (fits 8) (encrypt_blocks round in_ ek) /\
    decrypt_blocks n (encrypt_blocks round in_ ek) dk = in_ ++ replicate pad 0.
Proof.
  intros Hb. revert in_. induction round as [|round IH]; intros in_ Hf Hr; cbn [encrypt_blocks].
  - case_bool_decide as Hin; [subst in_; by exists 0%nat, 0%nat|].
    assert (length in_ < AES_BLOCK_SIZE)%nat as Hl.
    { apply Nat.div_small_iff; [done|]. by symmetry. }
    set (b := in_ ++ replicate (AES_BLOCK_SIZE - length in_) 0).
    destruct (Hb b) as (Hd & Hlen & Hbytes).
    { unfold b. rewrite length_app, length_replicate. lia. }
    { unfold b. apply Forall_app. split; [done|]. by apply Forall_replicate. }
    exists 1%nat, (AES_BLOCK_SIZE - length in_)%nat. rewrite Nat.mul_1_r. split_and!; [done|lia|done|].
    cbn [decrypt_blocks]. rewrite take_ge, Hd by lia. by rewrite app_nil_r.
  - assert (AES_BLOCK_SIZE <= length in_)%nat as Hl.
    { destruct (le_lt_dec AES_BLOCK_SIZE (length in_)) as [|Hlt]; [done|]. by rewrite Nat.div_small in Hr. }
    destruct (Hb (take AES_BLOCK_SIZE in_)) as (Hd & Hlen & Hbytes); [rewrite length_take; lia|by apply Forall_take|].
    destruct (IH (drop AES_BLOCK_SIZE in_)) as (n & pad & Hn & Hpad & Hfn & Hdn); [by apply Forall_drop| |].
    { rewrite length_drop. replace (length in_) with ((length in_ - AES_BLOCK_SIZE) + 1 * AES_BLOCK_SIZE)%nat in Hr by lia.
      rewrite Nat.div_add in Hr by done. lia. }
    exists (S n), pad. split_and!; [rewrite length_app, Hlen, Hn; lia|rewrite length_drop in Hpad; lia|by apply Forall_app|].
    cbn [decrypt_blocks]. rewrite take_app_length', drop_app_length' by done. rewrite Hd, Hdn.
    by rewrite (assoc_L (++)), take_drop.
Qed.

Lemma mapM_id_Some (l : list Z) : mapM id (Some <$> l) = Some l.
Proof. induction l as [|c l IH]; [done|]. cbn [fmap list_fmap mapM]. by rewrite IH. Qed.

Lemma c_string_filled l pad : c_string (l ++ replicate pad 0 ++ [0]) = c_string l.
Proof.
  induction l as [|c l IH]; [by destruct pad|]. cbn [app c_string]. by rewrite IH.
Qed.

Hypothesis hash_block : length hash_memory = 64%nat.

(** The key of a seed makes both schedules. *)
Lemma key_schedules seed :
  Z.of_nat (length seed) < 2 ^ 32 ->
  exists ek dk, AES_set_encrypt_key (get_key seed) 128 = Some ek /\ AES_set_decrypt_key (get_key seed) 128 = Some dk /\
    forall b, length b = AES_BLOCK_SIZE -> Forall (fits 8) b ->
      AES_decrypt (AES_encrypt b ek) dk = b /\ length (AES_encrypt b ek) = AES_BLOCK_SIZE /\
      Forall (fits 8) (AES_encrypt b ek).
Proof.
  intros Hseed. destruct (MD5_32_text _ _ hash_block Hseed) as (_ & Hlen & Hf).
  apply schedules_invert; [by left| |].
  - apply Forall_take, (Forall_impl _ _ _ Hf). by intros ? [].
  - unfold get_key. rewrite length_take, Hlen. done.
Qed.

(** C25: A token is made of every text, and the text comes back from it under the
    same seed, up to the first null of the text. *)
Theorem token_roundtrip in_ key_seed :
  Forall (fits 8) in_ -> Z.of_nat (length key_seed) < 2 ^ 32 ->
  exists token, AES_ecb128_encrypt in_ key_seed = Ok token /\
    AES_ecb128_decrypt token key_seed = Ok (c_string in_).
Proof.
  intros Hin Hseed. destruct (key_schedules key_seed Hseed) as (ek & dk & He & Hd & Hi).
  destruct (blocks_roundtrip ek dk _ in_ Hi Hin eq_refl) as (n & pad & Hlen & Hpad & Hbytes & Hdec).
  set (out := encrypt_blocks (length in_ / AES_BLOCK_SIZE) in_ ek) in *.
  destruct (Base64Encode_encoding out Hbytes) as (token & Htoken & Henc). exists token. split.
  { unfold AES_ecb128_encrypt, ecb128_encrypt. rewrite He. exact Htoken. }
  unfold AES_ecb128_decrypt, ecb128_decrypt.
  rewrite c_string_text by apply Henc. rewrite (Base64Decode_encoding _ _ Henc).
  cbn [mbind outcome_bind]. change (default 0 (Some (Z.of_nat (length out)))) with (Z.of_nat (length out)).
  assert (length out / AES_BLOCK_SIZE = n)%nat as Hn by (rewrite Hlen, (Nat.mul_comm AES_BLOCK_SIZE), Nat.div_mul; done).
  rewrite Nat2Z.id, Hn, take_app_length' by (rewrite length_fmap; lia).
  rewrite mapM_id_Some. cbn [access mbind outcome_bind mret outcome_ret]. rewrite Hd. cbn [access mbind outcome_bind].
  rewrite Hn, Hdec.
  assert (length out = length (in_ ++ replicate pad 0)) as Hl.
  { rewrite length_app, length_replicate. lia. }
  cbn [mbind outcome_bind mret outcome_ret].
  rewrite (drop_ge (take _ _)) by (rewrite length_take, Hl; lia). cbn [app].
  rewrite <- (assoc_L (++)), c_string_filled. done.
Qed.

End token.

(** A text of more than one block, under a seed; a user may not hold a null. *)
Definition sample_text : list Z := chars "the user with the number 100001".
Definition sample_seed : list Z := chars "key".

Lemma token_roundtrip_witness :
  exists token, AES_ecb128_encrypt some_memory sample_text sample_seed = Ok token /\
    AES_ecb128_decrypt some_memory [] token sample_seed = Ok sample_text.
Proof.
  destruct (token_roundtrip some_memory [] eq_refl sample_text sample_seed) as (token & H1 & H2).
  - by apply (bool_decide_eq_true_1 _).
  - done.
  - exists token. split; [exact H1|]. exact H2.
Defined.

(** What follows a null in a text is lost. *)
Example text_cut_at_null :
  (token ← AES_ecb128_encrypt some_memory (chars "ab" ++ [0] ++ chars "cd") sample_seed;
   AES_ecb128_decrypt some_memory [] token sample_seed) = Ok (chars "ab").
Proof. vm_compute. reflexivity. Qed.

(** A token that another seed made is not refused: its text is other bytes. *)
Definition text_under_other_seed : outcome (list Z) :=
  token ← AES_ecb128_encrypt some_memory (chars "100001") sample_seed;
  AES_ecb128_decrypt some_memory [] token (chars "yek").

Example other_seed_decrypts : text_under_other_seed = Ok [38; 191].
Proof. vm_compute. reflexivity. Qed.

(** A character outside the table stops the server that reads the token. *)
Example bad_token_faults : AES_ecb128_decrypt some_memory [] (chars "AB*D") sample_seed = Fault NullDeref.
Proof. vm_compute. reflexivity. Qed.

(** The function with a buffer of the caller faults on every whole token. *)
Example token_to_buffer_faults :
  (token ← AES_ecb128_encrypt some_memory (chars "100001") sample_seed;
   AES_ecb128_decrypt_to token 0 sample_seed) = Fault NullDeref.
Proof. vm_compute. reflexivity. Qed.
