(* ===== verification/Waiting.v ===== *)
(** * Requests that wait for an answer

    AsyncRequest.inl, and the sends of Session.inl that use it: a request is kept
    with its callback under its sequence number, a timer is started for it, and the
    callback is posted when the answer comes or the time is over.  The timers are
    those of boost: a wait completes once, because its time has come or because it
    was cancelled before that, and its handler runs some time later. *)
From Stdlib Require Import ZArith Lia.
From stdpp Require Import base tactics numbers sorting option gmap list.
From S2P Require Import Prelude Bytes SendQueue Frame Plain TcpSession Delivery.

Definition CODE_WAIT_RESP_TIMEOUT : Z := 3.

(** *** Timers *)

(** Due and Aborted: the handler is on its way, without and with an error. *)
Inductive TimerState : Set := Running | Due | Aborted.

#[export] Instance TimerState_eq_dec : EqDecision TimerState.
Proof. solve_decision. Defined.

Record Timer : Set := mkTimer { t_sequnceid : Z; t_state : TimerState }.

Section waiting.
(** Messages, and the callbacks and the loops that they are posted to. *)
Context {Pb Desc B F L : Type} `{Protobuf Pb Desc} `{HeaderFormat} `{CircularBuffer (Header * Pb) B}.
Variable maker : MessageMaker Desc.

Abbreviation Session := (TcpSession (Pb := Pb) (B := B)).
Implicit Types (h : Header) (p : Pb) (f : F) (loop : option L) (s : Session).

(** The body of a message: one that was received, or a new one of a type; there is
    none for a command that is not registered. *)
Inductive Body : Type := Received (p : Pb) | Fresh (d : option Desc).

Record Response : Type := mkResponse { resp_header : Header; resp_body : Body }.

(** [Session::make_response]. *)
Definition make_response (cmd_type : Z) : Response :=
  mkResponse empty_header (Fresh (make_message maker MsgType.RESPONSE_MASK cmd_type)).

Record AsynItem : Type := mkItem {
  m_sequnce_id : Z;
  m_io_loop : option L;
  m_request : Header * Pb;
  m_fun : F;
  m_timer : nat
}.

(** A callback that was posted to a loop, with its arguments; [None] is the loop of
    the session. *)
Record Call : Type := mkCall {
  c_loop : option L;
  c_fun : F;
  c_request : Header * Pb;
  c_response : Response
}.

(** [m_timers]: the waits that have not been handled yet. *)
Record AsyncRequest : Type := mkAsync {
  m_items : gmap Z AsynItem;
  m_timers : gmap nat Timer;
  m_next_timer : nat;
  m_posted : list Call
}.

#[export] Instance eta_AsyncRequest : Eta AsyncRequest := fun a =>
  mkAsync (m_items a) (m_timers a) (m_next_timer a) (m_posted a).

Implicit Types (a : AsyncRequest) (it : AsynItem).

Definition new_async : AsyncRequest := mkAsync ∅ ∅ 0 [].

(** [deadline_timer::cancel]: too late when the time has come. *)
Definition cancel (t : nat) a : AsyncRequest :=
  match m_timers a !! t with
  | Some (mkTimer n Running) => a <| m_timers := <[t := mkTimer n Aborted]> (m_timers a) |>
  | _ => a
  end.

Definition post it (response : Response) a : AsyncRequest :=
  a <| m_posted ::= (fun l => l ++ [mkCall (m_io_loop it) (m_fun it) (m_request it) response]) |>.

(** [AsynItem::on_response_come] and [AsynItem::on_response_timeout]. *)
Definition item_response_come it (response : Response) a : AsyncRequest := post it response (cancel (m_timer it) a).
Definition item_response_timeout it (response : Response) a : AsyncRequest := post it response a.

Definition async_response_come (response : Response) a : AsyncRequest :=
  match m_items a !! sequenceid (resp_header response) with
  | None => a
  | Some it => item_response_come it response a
  end.

Definition timeout_response (cmd_type sequnceid : Z) : Response :=
  let r := make_response cmd_type in
  mkResponse ((resp_header r) <| response_result := CODE_WAIT_RESP_TIMEOUT |> <| sequenceid := sequnceid |>) (resp_body r).

Definition on_response_timeout (err_code : bool) (sequnceid : Z) a : outcome AsyncRequest :=
  let found := m_items a !! sequnceid in
  _ ← assert_that (bool_decide (is_Some found));
  it ← access found;
  let a := if negb err_code
           then item_response_timeout it (timeout_response (cmdtype (m_request it).1) sequnceid) a
           else a in
  mret (a <| m_items := delete sequnceid (m_items a) |>).

(** The constructor of an item starts its timer. *)
Definition send_request loop h p f a : AsyncRequest :=
  match m_items a !! sequenceid h with
  | Some _ => a
  | None =>
      let t := m_next_timer a in
      a <| m_timers := <[t := mkTimer (sequenceid h) Running]> (m_timers a) |>
        <| m_next_timer := S t |>
        <| m_items := <[sequenceid h := mkItem (sequenceid h) loop (h, p) f t]> (m_items a) |>
  end.

(** *** A session with its requests *)

Record AsyncSession : Type := mkAsyncSession { session : Session; requests : AsyncRequest }.

Implicit Type x : AsyncSession.

Definition do_send_asyn_message loop h p f x : outcome AsyncSession :=
  let h := h <| type := MsgType.ASYN_REQUEST |> in
  let (h, s) := set_msg_sequenceid h (session x) in
  let a := send_request loop h p f (requests x) in
  s ← do_write h p s;
  mret (mkAsyncSession s a).

(** [send] with a callback; [close] is posted like the message. *)
Definition send_asyn loop h p f x : outcome AsyncSession :=
  if cmdtype h =? CMD_SHUTDOWN_SESSION then mret (mkAsyncSession (do_close (session x)) (requests x))
  else do_send_asyn_message loop h p f x.

Definition asyn_response_come (response : Response) x : AsyncSession :=
  mkAsyncSession (session x) (async_response_come response (requests x)).

(** *** Events *)

Inductive WaitEvent : Type :=
  | OnSession (e : Event (Pb := Pb))
  | SendAsyn loop h p f
  | ResponseCome h p
  | TimeComes (t : nat)
  | TimerHandled (t : nat).

Definition time_comes (t : nat) a : AsyncRequest :=
  match m_timers a !! t with
  | Some (mkTimer n Running) => a <| m_timers := <[t := mkTimer n Due]> (m_timers a) |>
  | _ => a
  end.

(** The handler of a wait that has completed. *)
Definition timer_handled (t : nat) a : outcome AsyncRequest :=
  let completed := a <| m_timers := delete t (m_timers a) |> in
  match m_timers a !! t with
  | Some (mkTimer n Due) => on_response_timeout false n completed
  | Some (mkTimer n Aborted) => on_response_timeout true n completed
  | _ => mret a
  end.

Definition run_wait_event x (e : WaitEvent) : outcome AsyncSession :=
  match e with
  | OnSession e => s ← run_event maker (session x) e; mret (mkAsyncSession s (requests x))
  | SendAsyn loop h p f => send_asyn loop h p f x
  | ResponseCome h p => mret (asyn_response_come (mkResponse h (Received p)) x)
  | TimeComes t => mret (mkAsyncSession (session x) (time_comes t (requests x)))
  | TimerHandled t => a ← timer_handled t (requests x); mret (mkAsyncSession (session x) a)
  end.

Definition run_waiting (events : list WaitEvent) x : outcome AsyncSession := mfold run_wait_event x events.

(** *** The requests of a run *)

(** What was asked for: the request as it is sent, its callback and its loop. *)
Record Asked : Type := mkAsked { q_loop : option L; q_fun : F; q_request : Header * Pb }.

Definition q_number (q : Asked) : Z := sequenceid (q_request q).1.

Definition next_wait_number (n : Z) (e : WaitEvent) : Z :=
  match e with
  | OnSession e => next_number n e
  | SendAsyn _ h _ _ => if cmdtype h =? CMD_SHUTDOWN_SESSION then n else u64 (n + 1)
  | _ => n
  end.

Definition asked_by (n : Z) (e : WaitEvent) : list Asked :=
  match e with
  | SendAsyn loop h p f =>
      if cmdtype h =? CMD_SHUTDOWN_SESSION then []
      else [mkAsked loop f (number n (h <| type := MsgType.ASYN_REQUEST |>), p)]
  | _ => []
  end.

Fixpoint asked (n : Z) (events : list WaitEvent) : list Asked :=
  match events with
  | [] => []
  | e :: events => asked_by n e ++ asked (next_wait_number n e) events
  end.

(** The calls of a request's callback, and the state of its timer. *)
Definition calls_of (n : Z) a : list Call := filter (fun c => sequenceid (c_request c).1 = n) (m_posted a).

Definition waits (n : Z) a : option TimerState :=
  it ← m_items a !! n; t_state <$> m_timers a !! m_timer it.

(** ** The number of a session *)

(** Only sending counts the number up. *)
Lemma do_close_number s : m_sequenceid (do_close s) = m_sequenceid s.
Proof. unfold do_close. by destruct (m_is_open s). Qed.

(** Take a successful run apart. *)
Ltac run_ok := repeat match goal with
  | H : mret _ = Ok _ |- _ => injection H; clear H; intros; subst
  | H : Ok _ = Ok _ |- _ => injection H; clear H; intros; subst
  | H : Fault _ = Ok _ |- _ => discriminate H
  | H : _ ≫= _ = Ok _ |- _ => apply bind_Ok in H as (? & ? & H)
  | H : (if ?b then _ else _) = Ok _ |- _ => destruct b
  | H : match ?o with _ => _ end = Ok _ |- _ => destruct o
  end; rewrite ?do_close_number; try done.

Lemma write_message_number h p s s' : write_message h p s = Ok s' -> m_sequenceid s' = m_sequenceid s.
Proof. unfold write_message. intros Hs. by run_ok. Qed.

Lemma do_write_number h p s s' : do_write h p s = Ok s' -> m_sequenceid s' = m_sequenceid s.
Proof. unfold do_write. intros Hs. cbv zeta in Hs. run_ok; try by apply write_message_number in Hs. Qed.

Lemma async_read_number off n next s : m_sequenceid (async_read off n next s) = m_sequenceid s.
Proof. unfold async_read. by destruct (_ || _). Qed.

Lemma on_read_complete_number err s s' :
  on_read_complete maker err s = Ok s' -> m_sequenceid s' = m_sequenceid s.
Proof. unfold on_read_complete, do_read_head_len. intros Hs. run_ok. by rewrite async_read_number. Qed.

Lemma check_header_number s b s' : check_header s = Ok (b, s') -> m_sequenceid s' = m_sequenceid s.
Proof. unfold check_header. intros Hs. by run_ok. Qed.

Lemma do_read_body_number s s' : do_read_body s = Ok s' -> m_sequenceid s' = m_sequenceid s.
Proof.
  unfold do_read_body. intros Hs. apply bind_Ok in Hs as ([b s1] & Hc & Hs).
  apply check_header_number in Hc. rewrite <- Hc. run_ok. apply async_read_number.
Qed.

Lemma read_handler_number next err s s' :
  read_handler maker next err s = Ok s' -> m_sequenceid s' = m_sequenceid s.
Proof.
  destruct next; cbn [read_handler].
  - unfold on_read_head_len_complete. intros Hs. run_ok. unfold do_read_head in Hs. run_ok.
    by rewrite async_read_number.
  - unfold on_read_head_complete. intros Hs. run_ok. by apply do_read_body_number.
  - apply on_read_complete_number.
Qed.

Lemma handle_read_number s s' : handle_read maker s = Ok s' -> m_sequenceid s' = m_sequenceid s.
Proof. unfold handle_read. intros Hs. run_ok. by apply read_handler_number in Hs. Qed.

Lemma handle_reads_number n s s' : handle_reads maker n s = Ok s' -> m_sequenceid s' = m_sequenceid s.
Proof.
  revert s; induction n as [|n IH]; intros s Hs; [by injection Hs as <-|]. apply bind_Ok in Hs as (s1 & Hs1 & Hs).
  rewrite (IH s1 Hs). by apply handle_read_number.
Qed.

Lemma take_byte_number b s s' : take_byte b s = Ok s' -> m_sequenceid s' = m_sequenceid s.
Proof. unfold take_byte. intros Hs. by run_ok. Qed.

Lemma on_write_complete_number err s s' : on_write_complete err s = Ok s' -> m_sequenceid s' = m_sequenceid s.
Proof. unfold on_write_complete. intros Hs. cbv zeta in Hs. run_ok. by apply write_message_number in Hs. Qed.

Lemma handle_write_number s s' : handle_write s = Ok s' -> m_sequenceid s' = m_sequenceid s.
Proof.
  unfold handle_write. destruct (m_writing s) as [[n []]|]; intros Hs; [|by run_ok..].
  by apply on_write_complete_number in Hs.
Qed.

Lemma write_taken_number s s' : write_taken s = Ok s' -> m_sequenceid s' = m_sequenceid s.
Proof. unfold write_taken. destruct (m_writing s) as [[n []]|]; intros Hs; by run_ok. Qed.

Lemma run_event_number e s s' :
  run_event maker s e = Ok s' -> m_sequenceid s' = next_number (m_sequenceid s) e.
Proof.
  destruct e; cbn [run_event next_number]; intros Hs.
  - unfold send in Hs. run_ok. unfold do_send_message, set_msg_sequenceid in Hs. cbv zeta in Hs.
    by apply do_write_number in Hs.
  - by apply do_write_number in Hs.
  - unfold do_check_alive in Hs. run_ok. case_match; [done|apply do_close_number].
  - by run_ok.
  - apply bind_Ok in Hs as (s1 & Hs1 & Hs). apply take_byte_number in Hs1. apply handle_reads_number in Hs. congruence.
  - by apply take_byte_number in Hs.
  - by apply handle_read_number.
  - unfold read_error in Hs. run_ok. by apply read_handler_number in Hs.
  - apply bind_Ok in Hs as (s1 & Hs1%handle_write_number & Hs). apply bind_Ok in Hs as (s2 & Hs2%write_taken_number & Hs%handle_write_number).
    congruence.
  - by apply write_taken_number in Hs.
  - by apply handle_write_number in Hs.
  - unfold write_error in Hs. destruct (m_writing s) as [[n []]|]; [by run_ok| |by run_ok].
    by apply on_write_complete_number in Hs.
Qed.

(** ** What is known of the requests *)

Definition item_of (q : Asked) (t : nat) : AsynItem := mkItem (q_number q) (q_loop q) (q_request q) (q_fun q) t.

(** A call of the callback of a request, with a response that has its number. *)
Definition answers (q : Asked) (c : Call) : Prop :=
  c_loop c = q_loop q /\ c_fun c = q_fun q /\ c_request c = q_request q /\
  sequenceid (resp_header (c_response c)) = q_number q.

(** Every wait that is not handled belongs to an item and every item to a wait; a
    request without an item, or with a cancelled timer, has been answered. *)
Record async_inv (qs : list Asked) (a : AsyncRequest) : Prop := mkAsyncInv {
  ai_timer t n st : m_timers a !! t = Some (mkTimer n st) ->
    exists it, m_items a !! n = Some it /\ m_timer it = t;
  ai_item n it : m_items a !! n = Some it ->
    exists q st, q ∈ qs /\ q_number q = n /\ it = item_of q (m_timer it) /\
      m_timers a !! m_timer it = Some (mkTimer n st);
  ai_next t tm : m_timers a !! t = Some tm -> (t < m_next_timer a)%nat;
  ai_calls : Forall (fun c => exists q, q ∈ qs /\ answers q c) (m_posted a);
  ai_answered q : q ∈ qs ->
    match waits (q_number q) a with None | Some Aborted => calls_of (q_number q) a <> [] | _ => True end
}.

Lemma async_inv_new : async_inv [] new_async.
Proof.
  split; cbn; try (intros; by rewrite lookup_empty in *); [done|]. intros q Hq. by apply not_elem_of_nil in Hq.
Qed.

(** The state of the timer of an item. *)
Lemma waits_item qs a n it t st :
  async_inv qs a -> m_items a !! n = Some it -> m_timers a !! m_timer it = Some (mkTimer t st) ->
  t = n /\ waits n a = Some st.
Proof.
  intros Hinv Hit Ht. destruct (ai_item _ _ Hinv n it Hit) as (q & st' & _ & _ & _ & Ht').
  rewrite Ht in Ht'. injection Ht' as -> ->. split; [done|]. unfold waits. rewrite Hit. cbn [mbind option_bind].
  by rewrite Ht.
Qed.

(** Two items do not share a timer. *)
Lemma item_timer_inj qs a n n' it it' :
  async_inv qs a -> m_items a !! n = Some it -> m_items a !! n' = Some it' -> m_timer it = m_timer it' -> n = n'.
Proof.
  intros Hinv Hit Hit' E. destruct (ai_item _ _ Hinv n it Hit) as (_ & st & _ & _ & _ & Ht).
  destruct (ai_item _ _ Hinv n' it' Hit') as (_ & st' & _ & _ & _ & Ht').
  rewrite E, Ht' in Ht. by injection Ht.
Qed.

(** One timer gets another state. *)
Lemma waits_set_timer qs a n n' it st :
  async_inv qs a -> m_items a !! n = Some it ->
  waits n' (a <| m_timers := <[m_timer it := mkTimer n st]> (m_timers a) |>) =
    if decide (n' = n) then Some st else waits n' a.
Proof.
  intros Hinv Hit. unfold waits. cbn [update m_items m_timers]. case_decide as E.
  - subst n'. rewrite Hit. cbn [mbind option_bind]. by rewrite lookup_insert_eq.
  - destruct (m_items a !! n') as [it'|] eqn:Hit'; [|done]. cbn [mbind option_bind].
    rewrite lookup_insert_ne; [done|]. intros Ht. by apply E, (item_timer_inj qs a n' n it' it).
Qed.

Lemma calls_of_post n it r a :
  calls_of n (post it r a) =
    calls_of n a ++ (if decide (sequenceid (m_request it).1 = n)
                     then [mkCall (m_io_loop it) (m_fun it) (m_request it) r] else []).
Proof.
  unfold calls_of, post. cbn [update m_posted]. rewrite filter_app. f_equal.
Qed.

(** Posting the callback of an item that waits. *)
Lemma post_inv qs a n it r :
  async_inv qs a -> m_items a !! n = Some it -> sequenceid (resp_header r) = n ->
  async_inv qs (post it r a) /\ calls_of n (post it r a) <> [].
Proof.
  intros Hinv Hit Hr. destruct (ai_item _ _ Hinv n it Hit) as (q & st & Hq & Hn & Hitem & Ht). split.
  - destruct Hinv as [I1 I2 I3 I4 I5]. split; try done.
    + apply Forall_app. split; [done|]. apply Forall_singleton. exists q. split; [done|].
      rewrite Hitem. unfold answers. cbn [c_loop c_fun c_request c_response item_of m_io_loop m_fun m_request].
      by rewrite Hr.
    + intros q' Hq'. specialize (I5 q' Hq'). change (waits (q_number q') (post it r a)) with (waits (q_number q') a).
      rewrite calls_of_post. destruct (waits (q_number q') a) as [[]|]; [done..| |];
        intros E; apply app_nil in E as [E _]; by apply I5.
  - rewrite calls_of_post, Hitem. cbn [item_of m_request]. rewrite decide_True by done.
    intros E. by apply app_nil in E as [_ E].
Qed.

(** The timer of an item gets another state. *)
Lemma set_timer_inv qs a n it st :
  async_inv qs a -> m_items a !! n = Some it -> (st = Aborted -> calls_of n a <> []) ->
  async_inv qs (a <| m_timers := <[m_timer it := mkTimer n st]> (m_timers a) |>).
Proof.
  intros Hinv Hit Hst. pose proof (waits_set_timer qs a n) as Hwaits.
  pose proof (item_timer_inj qs a) as Hinj. destruct (ai_item _ _ Hinv n it Hit) as (_ & st0 & _ & _ & _ & Ht0).
  pose proof Hinv as [I1 I2 I3 I4 I5]. split; cbn [update m_items m_timers m_next_timer m_posted].
  - intros t n' st'. rewrite lookup_insert. case_decide as E; [|by apply I1].
    intros [= <- _]. by exists it.
  - intros n' it' Hit'. destruct (I2 n' it' Hit') as (q & st' & Hq & Hn & Hi & Ht).
    destruct (decide (n' = n)) as [->|Hne].
    + rewrite Hit in Hit'. injection Hit' as <-. exists q, st. by rewrite lookup_insert_eq.
    + exists q, st'. rewrite lookup_insert_ne; [done|]. intros E. by apply Hne, (Hinj n' n it' it).
  - intros t tm. rewrite lookup_insert. case_decide as E; [|by apply I3]. intros _. subst t. by eapply I3.
  - done.
  - intros q Hq. rewrite Hwaits by done. change (calls_of (q_number q) _) with (calls_of (q_number q) a).
    case_decide as E; [|by apply I5]. rewrite E. destruct st; [done..|]. by apply Hst.
Qed.

(** An item and its timer go. *)
Definition forget (n : Z) it a : AsyncRequest :=
  a <| m_timers := delete (m_timer it) (m_timers a) |> <| m_items := delete n (m_items a) |>.

Lemma waits_forget qs a n n' it :
  async_inv qs a -> m_items a !! n = Some it ->
  waits n' (forget n it a) = if decide (n' = n) then None else waits n' a.
Proof.
  intros Hinv Hit. unfold waits, forget. cbn [update m_items m_timers]. case_decide as E.
  - subst n'. by rewrite lookup_delete_eq.
  - rewrite lookup_delete_ne by done. destruct (m_items a !! n') as [it'|] eqn:Hit'; [|done].
    cbn [mbind option_bind]. rewrite lookup_delete_ne; [done|].
    intros Ht. by apply E, (item_timer_inj qs a n' n it' it).
Qed.

Lemma forget_inv qs a n it :
  async_inv qs a -> m_items a !! n = Some it -> calls_of n a <> [] -> async_inv qs (forget n it a).
Proof.
  intros Hinv Hit Hcalls. pose proof (waits_forget qs a n) as Hwaits. pose proof (item_timer_inj qs a) as Hinj.
  destruct (ai_item _ _ Hinv n it Hit) as (_ & st0 & _ & _ & _ & Ht0).
  pose proof Hinv as [I1 I2 I3 I4 I5]. split; unfold forget; cbn [update m_items m_timers m_next_timer m_posted].
  - intros t n' st' Ht. apply lookup_delete_Some in Ht as [Hne Ht]. destruct (I1 t n' st' Ht) as (it' & Hit' & Et).
    exists it'. rewrite lookup_delete_ne; [done|]. intros E. subst n'. rewrite Hit in Hit'. injection Hit' as E.
    apply Hne. by rewrite E.
  - intros n' it' Hit'. apply lookup_delete_Some in Hit' as [Hne Hit'].
    destruct (I2 n' it' Hit') as (q & st' & Hq & Hn & Hi & Ht). exists q, st'.
    rewrite lookup_delete_ne; [done|]. intros E. by apply Hne, (Hinj n n' it it').
  - intros t tm Ht. apply lookup_delete_Some in Ht as [_ Ht]. by eapply I3.
  - done.
  - intros q Hq. fold (forget n it a). rewrite Hwaits by done.
    change (calls_of (q_number q) (forget n it a)) with (calls_of (q_number q) a).
    case_decide as E; [by rewrite E|by apply I5].
Qed.

(** *** The events *)

Lemma cancel_eq qs a n it :
  async_inv qs a -> m_items a !! n = Some it ->
  cancel (m_timer it) a =
    match waits n a with
    | Some Running => a <| m_timers := <[m_timer it := mkTimer n Aborted]> (m_timers a) |>
    | _ => a
    end.
Proof.
  intros Hinv Hit. destruct (ai_item _ _ Hinv n it Hit) as (_ & st & _ & _ & _ & Ht).
  destruct (waits_item qs a n it n st Hinv Hit Ht) as [_ ->]. unfold cancel. by rewrite Ht; destruct st.
Qed.

Lemma response_come_inv qs a r : async_inv qs a -> async_inv qs (async_response_come r a).
Proof.
  intros Hinv. unfold async_response_come. destruct (_ !! _) as [it|] eqn:Hit; [|done].
  unfold item_response_come. destruct (post_inv qs a _ it r Hinv Hit eq_refl) as [Hp Hc].
  rewrite (cancel_eq qs a _ it Hinv Hit).
  destruct (waits _ a) as [[]|]; try done. by apply (set_timer_inv qs (post it r a) _ it Aborted).
Qed.

Lemma time_comes_inv qs a t : async_inv qs a -> async_inv qs (time_comes t a).
Proof.
  intros Hinv. unfold time_comes. destruct (_ !! _) as [[n []]|] eqn:Ht; try done.
  destruct (ai_timer _ _ Hinv t n Running Ht) as (it & Hit & <-). by apply set_timer_inv.
Qed.

(** The handler finds the item, and leaves the request answered. *)
Lemma timer_handled_returns qs a t n st :
  async_inv qs a -> m_timers a !! t = Some (mkTimer n st) -> st <> Running ->
  returns (timer_handled t a) (fun a' => async_inv qs a' /\ m_items a' !! n = None /\ calls_of n a' <> []).
Proof.
  intros Hinv Ht Hst. destruct (ai_timer _ _ Hinv t n st Ht) as (it & Hit & <-).
  assert (forall a', async_inv qs a' -> m_items a' !! n = Some it -> calls_of n a' <> [] ->
    returns (Ok (forget n it a')) (fun a' => async_inv qs a' /\ m_items a' !! n = None /\ calls_of n a' <> [])) as Hend.
  { intros a' Hi Hit' Hc. apply returns_ret. split; [by apply forget_inv|]. split; [apply lookup_delete_eq|done]. }
  unfold timer_handled. rewrite Ht. unfold on_response_timeout. cbn [update m_items]. rewrite Hit.
  destruct (ai_item _ _ Hinv n it Hit) as (q & st' & Hq & Hn & Hitem & Ht').
  rewrite Ht in Ht'. injection Ht' as <-. destruct st; [done| |]; cbn.
  - apply (Hend (post it (timeout_response (cmdtype (m_request it).1) n) a)); [| done |];
      by apply (post_inv qs a n it).
  - apply Hend; [done..|]. pose proof (ai_answered _ _ Hinv q Hq) as Hans. rewrite Hn in Hans.
    destruct (waits_item qs a n it n Aborted Hinv Hit Ht) as [_ E]. by rewrite E in Hans.
Qed.

Lemma timer_handled_inv qs a a' t : async_inv qs a -> timer_handled t a = Ok a' -> async_inv qs a'.
Proof.
  intros Hinv E. destruct (m_timers a !! t) as [[n st]|] eqn:Ht.
  - destruct (decide (st = Running)) as [->|Hst].
    + unfold timer_handled in E. rewrite Ht in E. by injection E as <-.
    + destruct (timer_handled_returns qs a t n st Hinv Ht Hst) as (a1 & E1 & Hi & _).
      rewrite E in E1. by injection E1 as <-.
  - unfold timer_handled in E. rewrite Ht in E. by injection E as <-.
Qed.

(** A new request: its number is new. *)
Lemma waits_send_request qs a loop h p f n :
  async_inv qs a -> m_items a !! sequenceid h = None ->
  waits n (send_request loop h p f a) = if decide (n = sequenceid h) then Some Running else waits n a.
Proof.
  intros Hinv Hnew. unfold waits, send_request. rewrite Hnew. cbn [update m_items m_timers m_next_timer].
  case_decide as E.
  - subst n. rewrite lookup_insert_eq. cbn [mbind option_bind m_timer]. by rewrite lookup_insert_eq.
  - rewrite lookup_insert_ne by done. destruct (m_items a !! n) as [it|] eqn:Hit; [|done].
    cbn [mbind option_bind]. rewrite lookup_insert_ne; [done|].
    destruct (ai_item _ _ Hinv n it Hit) as (_ & st & _ & _ & _ & Ht). apply (ai_next _ _ Hinv) in Ht. lia.
Qed.

Lemma send_request_inv qs a q :
  async_inv qs a -> Forall (fun q' => q_number q' < q_number q) qs ->
  async_inv (qs ++ [q]) (send_request (q_loop q) (q_request q).1 (q_request q).2 (q_fun q) a).
Proof.
  intros Hinv Hnew.
  assert (m_items a !! q_number q = None) as Hnone.
  { destruct (m_items a !! q_number q) as [it|] eqn:Hit; [|done].
    destruct (ai_item _ _ Hinv _ it Hit) as (q' & _ & Hq' & E & _). rewrite Forall_forall in Hnew.
    specialize (Hnew q' Hq'). lia. }
  pose proof (waits_send_request qs a (q_loop q) (q_request q).1 (q_request q).2 (q_fun q)) as Hwaits.
  pose proof Hinv as [I1 I2 I3 I4 I5].
  split; unfold send_request in *; fold (q_number q) in *; rewrite Hnone in *;
    cbn [update m_items m_timers m_next_timer m_posted] in *.
  - intros t n st. rewrite lookup_insert. case_decide as E.
    + intros [= <- _]. subst t. eexists. by rewrite lookup_insert_eq.
    + intros Ht. destruct (I1 t n st Ht) as (it & Hit & Et). exists it. rewrite lookup_insert_ne; [done|].
      intros E'. subst n. by rewrite Hit in Hnone.
  - intros n it. rewrite lookup_insert. case_decide as E.
    + intros [= <-]. subst n. exists q, Running. cbn [m_timer]. rewrite lookup_insert_eq. split_and!; try done.
      * apply elem_of_app. right. by left.
      * unfold item_of. by destruct q as [? ? []].
    + intros Hit. destruct (I2 n it Hit) as (q' & st & Hq' & Hn & Hi & Ht). exists q', st.
      split_and!; try done; [apply elem_of_app; by left|]. rewrite lookup_insert_ne; [done|].
      apply I3 in Ht. lia.
  - intros t tm. rewrite lookup_insert. case_decide as E; [intros _; lia|]. intros Ht. apply I3 in Ht. lia.
  - eapply Forall_impl; [exact I4|]. intros c (q' & Hq' & Hc). exists q'. split; [apply elem_of_app; by left|done].
  - intros q' Hq'. rewrite Hwaits by done. case_decide as E; [done|].
    apply elem_of_app in Hq' as [Hq'|Hq']; [by apply I5|]. apply list_elem_of_singleton in Hq'. by subst.
Qed.

(** *** Runs *)

(** The requests so far are numbered below the number of the session. *)
Definition waiting_inv (qs : list Asked) (k : Z) x : Prop :=
  async_inv qs (requests x) /\ 0 <= m_sequenceid (session x) <= k /\
  Forall (fun q => q_number q < m_sequenceid (session x)) qs.

Lemma set_msg_sequenceid_number h s :
  set_msg_sequenceid h s = (number (m_sequenceid s) h, s <| m_sequenceid := u64 (m_sequenceid s + 1) |>).
Proof. unfold set_msg_sequenceid, number. by case_match. Qed.

Lemma next_number_bound n (e : Event (Pb := Pb)) k : 0 <= n <= k -> k + 1 < 2 ^ 64 -> n <= next_number n e <= k + 1.
Proof.
  intros Hn Hk. unfold next_number. destruct e; try lia. case_match; [lia|].
  unfold u64, wrap. rewrite Z.mod_small; lia.
Qed.

Lemma waiting_inv_weaken qs k k' n s a a' x :
  waiting_inv qs k x -> requests x = a -> m_sequenceid (session x) <= n <= k' -> m_sequenceid s = n ->
  async_inv qs a' -> waiting_inv qs k' (mkAsyncSession s a').
Proof.
  intros (Ha & Hn & Hf) <- Hk Hs Ha'. split; [done|]. cbn [session]. split; [lia|].
  eapply Forall_impl; [exact Hf|]. cbn. lia.
Qed.

Lemma run_wait_event_inv qs k x e x' :
  waiting_inv qs k x -> k + 1 < 2 ^ 64 -> run_wait_event x e = Ok x' ->
  waiting_inv (qs ++ asked_by (m_sequenceid (session x)) e) (k + 1) x' /\
  m_sequenceid (session x') = next_wait_number (m_sequenceid (session x)) e.
Proof.
  intros Hinv Hk. pose proof Hinv as (Ha & Hn & Hf).
  destruct e as [e|loop h p f|h p|t|t]; cbn [run_wait_event asked_by next_wait_number]; rewrite ?app_nil_r.
  - intros Hrun. apply bind_Ok in Hrun as (s & Hs & [= <-]). apply run_event_number in Hs. split; [|done].
    eapply waiting_inv_weaken; [done|done| |exact Hs|done]. by apply next_number_bound.
  - unfold send_asyn. destruct (_ =? _).
    + intros [= <-]. rewrite app_nil_r. cbn [session]. split; [|apply do_close_number].
      eapply waiting_inv_weaken; [done|done| |by apply do_close_number|done]. lia.
    + unfold do_send_asyn_message. rewrite set_msg_sequenceid_number. intros Hrun.
      apply bind_Ok in Hrun as (s & Hs & [= <-]). apply do_write_number in Hs. cbn [update m_sequenceid] in Hs.
      cbn [session]. split; [|done].
      pose proof (next_number_bound (m_sequenceid (session x)) (Send (mkHeader 0 0 0 0 0 0) p) k Hn Hk) as Hb.
      cbn in Hb. assert (u64 (m_sequenceid (session x) + 1) = m_sequenceid (session x) + 1) as E.
      { unfold u64, wrap. rewrite Z.mod_small; lia. }
      split; [|split].
      * apply (send_request_inv qs (requests x)
          (mkAsked loop f (number (m_sequenceid (session x)) (h <| type := MsgType.ASYN_REQUEST |>), p))); done.
      * cbn [session]. lia.
      * apply Forall_app. cbn [session]. rewrite Hs, E. split.
        -- eapply Forall_impl; [exact Hf|]. cbn. lia.
        -- apply Forall_singleton. unfold q_number. cbn. lia.
  - intros [= <-]. split; [|done]. eapply waiting_inv_weaken; [done|done| |done|by apply response_come_inv]. lia.
  - intros [= <-]. split; [|done]. eapply waiting_inv_weaken; [done|done| |done|by apply time_comes_inv]. lia.
  - intros Hrun. apply bind_Ok in Hrun as (a & Hr & [= <-]). split; [|done].
    eapply waiting_inv_weaken; [done|done| |done|by eapply timer_handled_inv]. lia.
Qed.

Lemma run_waiting_inv qs k x events x' :
  waiting_inv qs k x -> k + Z.of_nat (length events) < 2 ^ 64 -> run_waiting events x = Ok x' ->
  waiting_inv (qs ++ asked (m_sequenceid (session x)) events) (k + Z.of_nat (length events)) x'.
Proof.
  revert qs k x. induction events as [|e events IH]; intros qs k x Hinv Hk Hrun; cbn [asked length].
  - injection Hrun as <-. rewrite app_nil_r. by rewrite Z.add_0_r.
  - apply bind_Ok in Hrun as (x1 & Hx1 & Hrun). cbn [length] in Hk.
    destruct (run_wait_event_inv qs k x e x1 Hinv ltac:(lia) Hx1) as [Hinv1 Hn1].
    specialize (IH _ _ _ Hinv1 ltac:(lia) Hrun). rewrite Hn1, <- (assoc_L (++)) in IH.
    by replace (k + Z.of_nat (S (length events))) with (k + 1 + Z.of_nat (length events)) by lia.
Qed.

(** ** Every request is answered *)

Definition open_waiting (recv send : list Z) (now : Z) : AsyncSession :=
  mkAsyncSession (start (new_session recv send now)) new_async.

Lemma open_waiting_inv recv send now : waiting_inv [] 0 (open_waiting recv send now).
Proof. split; [apply async_inv_new|]. by split. Qed.

Lemma reached_inv recv send now events x :
  Z.of_nat (length events) < 2 ^ 64 -> run_waiting events (open_waiting recv send now) = Ok x ->
  async_inv (asked 0 events) (requests x).
Proof.
  intros Hl Hrun. by destruct (run_waiting_inv [] 0 _ events x (open_waiting_inv recv send now) Hl Hrun).
Qed.

(** C16: The handler of a timer never fails its assertion.  A callback is only called
    with its own request and a response that has its number; a request that no timer
    waits for has been answered, and one that waits is answered at the latest when
    the handler of its timer has run. *)
Theorem requests_answered recv send now events x :
  Z.of_nat (length events) < 2 ^ 64 -> run_waiting events (open_waiting recv send now) = Ok x ->
  (forall t, returns (timer_handled t (requests x)) (fun _ => True)) /\
  Forall (fun c => exists q, q ∈ asked 0 events /\ answers q c) (m_posted (requests x)) /\
  forall q, q ∈ asked 0 events ->
    (m_items (requests x) !! q_number q = None -> calls_of (q_number q) (requests x) <> []) /\
    (forall it, m_items (requests x) !! q_number q = Some it ->
       returns (timer_handled (m_timer it) (time_comes (m_timer it) (requests x))) (fun a =>
         m_items a !! q_number q = None /\ calls_of (q_number q) a <> [])).
Proof.
  intros Hl Hrun. pose proof (reached_inv _ _ _ _ _ Hl Hrun) as Hinv. set (a := requests x) in *. split; [|split].
  - intros t. destruct (m_timers a !! t) as [[n st]|] eqn:Ht.
    + destruct (decide (st = Running)) as [->|Hst].
      * unfold timer_handled. rewrite Ht. by eexists.
      * by eapply returns_mono; [eapply timer_handled_returns|].
    + unfold timer_handled. rewrite Ht. by eexists.
  - apply Hinv.
  - intros q Hq. split.
    + intros Hnone. pose proof (ai_answered _ _ Hinv q Hq) as Hans. unfold waits in Hans. by rewrite Hnone in Hans.
    + intros it Hit. destruct (ai_item _ _ Hinv _ it Hit) as (q' & st & Hq' & Hn & Hi & Ht).
      assert (exists st', m_timers (time_comes (m_timer it) a) !! m_timer it = Some (mkTimer (q_number q) st') /\
        st' <> Running) as (st' & Ht' & Hst').
      { unfold time_comes. rewrite Ht. destruct st; [|by exists Due|by exists Aborted].
        exists Due. cbn [update m_timers]. by rewrite lookup_insert_eq. }
      eapply returns_mono; [exact (timer_handled_returns _ _ _ _ _ (time_comes_inv _ _ _ Hinv) Ht' Hst')|].
      by intros a' (_ & ? & ?).
Qed.

(** ** How often a callback is called *)

(** Calls so far, when answers come while the timer runs or after its handler. *)
Definition expected (w : option TimerState) : nat :=
  match w with Some Running | Some Due => 0%nat | _ => 1%nat end.

Definition counted (qs : list Asked) a : Prop :=
  forall q, q ∈ qs -> length (calls_of (q_number q) a) = expected (waits (q_number q) a).

(** An answer comes neither twice before the handler of the timer nor late. *)
Definition prompt_event x (e : WaitEvent) : bool :=
  match e with
  | ResponseCome h _ =>
      match waits (sequenceid h) (requests x) with None | Some Running => true | _ => false end
  | _ => true
  end.

Fixpoint prompt (events : list WaitEvent) x : bool :=
  match events with
  | [] => true
  | e :: events =>
      prompt_event x e && match run_wait_event x e with Ok x' => prompt events x' | Fault _ => true end
  end.

Lemma calls_of_item qs a n n' it r :
  async_inv qs a -> m_items a !! n = Some it ->
  length (calls_of n' (post it r a)) = (length (calls_of n' a) + if decide (n' = n) then 1 else 0)%nat.
Proof.
  intros Hinv Hit. rewrite calls_of_post, length_app.
  destruct (ai_item _ _ Hinv n it Hit) as (q & st & _ & Hn & -> & _). cbn [item_of m_request].
  fold (q_number q). rewrite Hn. repeat case_decide; naive_solver.
Qed.

Lemma counted_update qs a a' n d :
  counted qs a -> (forall n', waits n' a' = if decide (n' = n) then d else waits n' a) ->
  (forall n', length (calls_of n' a') = if decide (n' = n) then expected d else length (calls_of n' a)) ->
  counted qs a'.
Proof. intros Hc Hw Hl q Hq. rewrite Hw, Hl. case_decide; [done|by apply Hc]. Qed.

Lemma counted_of qs a n it :
  async_inv qs a -> counted qs a -> m_items a !! n = Some it -> length (calls_of n a) = expected (waits n a).
Proof. intros Hinv Hc Hit. destruct (ai_item _ _ Hinv n it Hit) as (q & _ & Hq & <- & _). by apply Hc. Qed.

Lemma response_come_counted qs a r :
  async_inv qs a -> counted qs a ->
  match waits (sequenceid (resp_header r)) a with None | Some Running => True | _ => False end ->
  counted qs (async_response_come r a).
Proof.
  intros Hinv Hc Hw. unfold async_response_come. set (n := sequenceid _) in *.
  destruct (m_items a !! n) as [it|] eqn:Hit; [|done].
  pose proof (counted_of _ _ _ _ Hinv Hc Hit) as Hn.
  destruct (post_inv qs a n it r Hinv Hit eq_refl) as [Hinv' _].
  unfold item_response_come. rewrite (cancel_eq qs a n it Hinv Hit).
  destruct (waits n a) as [[]|] eqn:E; try done.
  - change (post it r (a <| m_timers := ?v |>)) with ((post it r a) <| m_timers := v |>).
    apply (counted_update qs a _ n (Some Aborted) Hc).
    + intros n'. by rewrite (waits_set_timer qs (post it r a)) by done.
    + intros n'. rewrite <- (Nat.add_0_r (length (calls_of n' a))).
      change (calls_of n' (update _ _ ?b)) with (calls_of n' b).
      rewrite (calls_of_item qs a n n' it r Hinv Hit). case_decide; [|done]. subst n'. by rewrite Hn.
  - exfalso. destruct (ai_item _ _ Hinv n it Hit) as (_ & st & _ & _ & _ & Ht).
    destruct (waits_item qs a n it n st Hinv Hit Ht) as [_ E']. congruence.
Qed.

Lemma time_comes_counted qs a t : async_inv qs a -> counted qs a -> counted qs (time_comes t a).
Proof.
  intros Hinv Hc. unfold time_comes. destruct (_ !! _) as [[n []]|] eqn:Ht; try done.
  destruct (ai_timer _ _ Hinv t n Running Ht) as (it & Hit & <-).
  pose proof (counted_of _ _ _ _ Hinv Hc Hit) as Hn.
  destruct (waits_item qs a n it n Running Hinv Hit Ht) as [_ E]. rewrite E in Hn.
  apply (counted_update qs a _ n (Some Due) Hc).
  - intros n'. by rewrite (waits_set_timer qs a).
  - intros n'. case_decide; [|done]. by subst n'.
Qed.

Lemma timer_handled_counted qs a a' t :
  async_inv qs a -> counted qs a -> timer_handled t a = Ok a' -> counted qs a'.
Proof.
  intros Hinv Hc Hrun. unfold timer_handled in Hrun.
  destruct (m_timers a !! t) as [[n st]|] eqn:Ht; [|by injection Hrun as <-].
  destruct (ai_timer _ _ Hinv t n st Ht) as (it & Hit & <-).
  pose proof (counted_of _ _ _ _ Hinv Hc Hit) as Hn.
  destruct (waits_item qs a n it n st Hinv Hit Ht) as [_ E]. rewrite E in Hn.
  destruct st; [by injection Hrun as <-| |];
    unfold on_response_timeout in Hrun; cbn [update m_items] in Hrun; rewrite Hit in Hrun; injection Hrun as <-.
  - change (counted qs (forget n it (post it (timeout_response (cmdtype (m_request it).1) n) a))).
    destruct (post_inv qs a n it (timeout_response (cmdtype (m_request it).1) n) Hinv Hit eq_refl) as [Hinv' _].
    apply (counted_update qs a _ n None Hc).
    + intros n'. by rewrite (waits_forget qs (post it _ a)).
    + intros n'. change (calls_of n' (forget n it ?b)) with (calls_of n' b).
      rewrite (calls_of_item qs a n) by done. case_decide; [subst n'; by rewrite Hn|lia].
  - change (counted qs (forget n it a)). apply (counted_update qs a _ n None Hc).
    + intros n'. by rewrite (waits_forget qs a).
    + intros n'. change (calls_of n' (forget n it a)) with (calls_of n' a). case_decide; [by subst n'|done].
Qed.

Lemma send_request_counted qs a q :
  async_inv qs a -> counted qs a -> Forall (fun q' => q_number q' < q_number q) qs ->
  counted (qs ++ [q]) (send_request (q_loop q) (q_request q).1 (q_request q).2 (q_fun q) a).
Proof.
  intros Hinv Hc Hnew q' Hq'. rewrite Forall_forall in Hnew.
  assert (m_items a !! q_number q = None) as Hnone.
  { destruct (m_items a !! q_number q) as [it|] eqn:Hit; [|done].
    destruct (ai_item _ _ Hinv _ it Hit) as (q0 & _ & Hq0 & E & _). specialize (Hnew q0 Hq0). lia. }
  rewrite (waits_send_request qs) by done. fold (q_number q).
  assert (forall n, calls_of n (send_request (q_loop q) (q_request q).1 (q_request q).2 (q_fun q) a) = calls_of n a) as ->.
  { intros n. unfold send_request. fold (q_number q). by rewrite Hnone. }
  apply elem_of_app in Hq' as [Hq'|Hq'].
  - rewrite decide_False by (specialize (Hnew q' Hq'); lia). by apply Hc.
  - apply list_elem_of_singleton in Hq'. subst q'. rewrite decide_True by done. cbn [expected].
    destruct (calls_of (q_number q) a) as [|c l] eqn:E; [done|]. exfalso.
    assert (c ∈ calls_of (q_number q) a) as Hcall by (rewrite E; by left).
    apply list_elem_of_filter in Hcall as [Hcn Hcall]. pose proof (ai_calls _ _ Hinv) as Hcalls.
    rewrite Forall_forall in Hcalls. destruct (Hcalls c Hcall) as (q0 & Hq0 & _ & _ & Hreq & _).
    specialize (Hnew q0 Hq0). unfold q_number in Hnew. rewrite <- Hreq, Hcn in Hnew. unfold q_number in Hnew. lia.
Qed.

Lemma run_wait_event_counted qs k x e x' :
  waiting_inv qs k x -> counted qs (requests x) -> prompt_event x e = true -> run_wait_event x e = Ok x' ->
  counted (qs ++ asked_by (m_sequenceid (session x)) e) (requests x').
Proof.
  intros (Ha & _ & Hf) Hc Hp.
  destruct e as [e|loop h p f|h p|t|t]; cbn [run_wait_event asked_by]; rewrite ?app_nil_r.
  - intros Hrun. by apply bind_Ok in Hrun as (s & _ & [= <-]).
  - unfold send_asyn. destruct (_ =? _); [intros [= <-]; by rewrite app_nil_r|].
    unfold do_send_asyn_message. rewrite set_msg_sequenceid_number. intros Hrun.
    apply bind_Ok in Hrun as (s & _ & [= <-]). cbn [requests].
    by apply (send_request_counted qs (requests x)
      (mkAsked loop f (number (m_sequenceid (session x)) (h <| type := MsgType.ASYN_REQUEST |>), p))).
  - intros [= <-]. apply response_come_counted; [done..|]. cbn [prompt_event] in Hp. cbn [resp_header].
    by repeat case_match.
  - intros [= <-]. by apply time_comes_counted.
  - intros Hrun. apply bind_Ok in Hrun as (a & Hr & [= <-]). by eapply timer_handled_counted.
Qed.

Lemma run_waiting_counted qs k x events x' :
  waiting_inv qs k x -> counted qs (requests x) -> k + Z.of_nat (length events) < 2 ^ 64 ->
  prompt events x = true -> run_waiting events x = Ok x' ->
  counted (qs ++ asked (m_sequenceid (session x)) events) (requests x').
Proof.
  revert qs k x. induction events as [|e events IH]; intros qs k x Hinv Hc Hk Hp Hrun; cbn [asked].
  - injection Hrun as <-. by rewrite app_nil_r.
  - apply bind_Ok in Hrun as (x1 & Hx1 & Hrun). cbn [length] in Hk. cbn [prompt] in Hp. rewrite Hx1 in Hp.
    apply andb_true_iff in Hp as [Hp Hp1].
    destruct (run_wait_event_inv qs k x e x1 Hinv ltac:(lia) Hx1) as [Hinv1 Hn1].
    pose proof (run_wait_event_counted qs k x e x1 Hinv Hc Hp Hx1) as Hc1.
    specialize (IH _ _ _ Hinv1 Hc1 ltac:(lia) Hp1 Hrun). by rewrite Hn1, <- (assoc_L (++)) in IH.
Qed.

(** C17: When every answer comes while its timer runs, or after its handler, each
    callback is called exactly once: not before an answer or the end of the time,
    and never again. *)
Theorem answered_once recv send now events x :
  Z.of_nat (length events) < 2 ^ 64 -> prompt events (open_waiting recv send now) = true ->
  run_waiting events (open_waiting recv send now) = Ok x ->
  forall q, q ∈ asked 0 events ->
    length (calls_of (q_number q) (requests x)) =
      match waits (q_number q) (requests x) with Some Running | Some Due => 0%nat | _ => 1%nat end.
Proof.
  intros Hl Hp Hrun. apply (run_waiting_counted [] 0 _ events x (open_waiting_inv recv send now)); try done.
  intros q Hq. by apply not_elem_of_nil in Hq.
Qed.
End waiting.

(** ** Runs *)

(** Requests of the plain format; a callback is a number, there is one loop. *)
Abbreviation PlainEvent := (WaitEvent (Pb := Z * list Z) (F := nat) (L := unit)).
Abbreviation PlainSession := (AsyncSession (Pb := Z * list Z) (Desc := Z) (B := plain_queue) (F := nat) (L := unit)).

Definition plain_open : PlainSession := open_waiting plain_memory plain_memory 0.

Definition ask (callback : nat) : PlainEvent := SendAsyn None plain_hello (7, [1; 2; 3]) callback.

(** A response with a number. *)
Definition plain_reply (n : Z) : PlainEvent := ResponseCome (plain_hello <| sequenceid := n |>) (107, [9]).

(** Two requests are sent; the first is answered in time, the second is not. *)
Definition plain_waits : list PlainEvent :=
  [ask 10; ask 11; plain_reply 0; TimeComes 1; TimerHandled 1; TimerHandled 0; plain_reply 1].

(** What was called, with the number and the result of the response. *)
Definition plain_called (x : PlainSession) : list (nat * Z * Z) :=
  (fun c => (c_fun c, sequenceid (resp_header (c_response c)), response_result (resp_header (c_response c))))
    <$> m_posted (requests x).

Definition plain_calls (events : list PlainEvent) : outcome (list (nat * Z * Z)) :=
  x ← run_waiting plain_maker events plain_open; mret (plain_called x).

Lemma plain_waits_calls :
  (x ← run_waiting plain_maker plain_waits plain_open; mret (plain_called x)) =
  Ok [(10%nat, 0, 0); (11%nat, 1, CODE_WAIT_RESP_TIMEOUT)].
Proof. vm_compute. reflexivity. Qed.

(** A peer that answers twice before the handler of the timer has run has the
    callback called twice: the item stays until then. *)
Example answered_twice : plain_calls [ask 10; plain_reply 0; plain_reply 0; TimerHandled 0] = Ok [(10%nat, 0, 0); (10%nat, 0, 0)].
Proof. vm_compute. reflexivity. Qed.

(** So has one that answers between the end of the time and the handler. *)
Example answered_late :
  plain_calls [ask 10; TimeComes 0; plain_reply 0; TimerHandled 0] = Ok [(10%nat, 0, 0); (10%nat, 0, CODE_WAIT_RESP_TIMEOUT)].
Proof. vm_compute. reflexivity. Qed.

Lemma plain_waits_return :
  exists x, run_waiting plain_maker plain_waits plain_open = Ok x /\
    plain_called x = [(10%nat, 0, 0); (11%nat, 1, CODE_WAIT_RESP_TIMEOUT)].
Proof. exact (bind_ret_Ok _ _ _ plain_waits_calls). Qed.

Lemma plain_waits_prompt : prompt plain_maker plain_waits plain_open = true.
Proof. vm_compute. reflexivity. Qed.

Lemma requests_answered_witness :
  exists x, run_waiting plain_maker plain_waits plain_open = Ok x /\
    (forall t, returns (timer_handled plain_maker t (requests x)) (fun _ => True)) /\
    Forall (fun c => exists q, q ∈ asked 0 plain_waits /\ answers q c) (m_posted (requests x)).
Proof.
  destruct plain_waits_return as (x & Hrun & _). exists x. split; [done|].
  destruct (requests_answered plain_maker plain_memory plain_memory 0 plain_waits x eq_refl Hrun) as (H1 & H2 & _).
  exact (conj H1 H2).
Defined.

Lemma answered_once_witness :
  exists x, run_waiting plain_maker plain_waits plain_open = Ok x /\
    forall q, q ∈ asked 0 plain_waits -> waits (q_number q) (requests x) = None ->
      length (calls_of (q_number q) (requests x)) = 1%nat.
Proof.
  destruct plain_waits_return as (x & Hrun & _). exists x. split; [done|]. intros q Hq Hw.
  pose proof (answered_once plain_maker plain_memory plain_memory 0 plain_waits x eq_refl plain_waits_prompt Hrun q Hq) as H.
  by rewrite Hw in H.
Defined.
