(* ===== verification/Blocking.v ===== *)
(** * Requests that block

    Synrequest.inl, and the blocking send of Session.inl: a thread numbers its
    request, announces the number, makes a promise, and waits for its future, while
    the loop of the session looks at each response and keeps the promise.  What the
    two threads do is cut into steps at every access to what they share: the
    atomic members, the promise under its lock, and [get_future], which is outside
    of it. *)
From Stdlib Require Import ZArith Lia.
From stdpp Require Import base tactics numbers sorting option gmap list.
From S2P Require Import Prelude Bytes SendQueue Frame Plain TcpSession Delivery Waiting.

(** [-1] in a [std::uint64_t]. *)
Definition no_request : Z := u64 (-1).

Section blocking.
Context {Pb Desc : Type}.
Abbreviation Response := (Response (Pb := Pb) (Desc := Desc)).
Implicit Types (h : Header) (r : Response) (t p : nat).

(** What a promise and its future share; a promise that goes away empty is broken. *)
Inductive Shared : Type := Empty | Value (r : Response) | Broken.

(** A promise: what it shares, and whether its future was taken. *)
Record Promise : Type := mkPromise { shared : Shared; retrieved : bool }.

(** Where a thread is: in [set_msg_sequenceid], and in [wait_response] before and
    after it waits. *)
Inductive Caller : Type :=
  | Numbering h
  | Counting h
  | Announcing h
  | Renewing h
  | Fetching h
  | Blocked h (fu : nat)
  | Clearing h r
  | Dropping h r.

(** [m_count] is the session's [m_sequenceid]; [m_checked] is a response that has
    passed the check of its number but is not set yet; [m_writes] are the requests
    that were posted to be written; [m_results] is what the threads got for theirs. *)
Record SynRequest : Type := mkSyn {
  m_count : Z;
  m_send_sequenceid : Z;
  m_promise : option nat;
  m_promises : gmap nat Promise;
  m_next_promise : nat;
  m_callers : gmap nat Caller;
  m_checked : option Response;
  m_writes : list Header;
  m_results : list (Header * Response)
}.

#[export] Instance eta_SynRequest : Eta SynRequest := fun x =>
  mkSyn (m_count x) (m_send_sequenceid x) (m_promise x) (m_promises x) (m_next_promise x) (m_callers x)
    (m_checked x) (m_writes x) (m_results x).

Implicit Type x : SynRequest.

Definition new_syn : SynRequest := mkSyn 0 0 None ∅ 0 ∅ None [] [].

(** [m_promise.reset]: the old promise goes away. *)
Definition break_promise p x : SynRequest :=
  match m_promises x !! p with
  | Some (mkPromise Empty got) => x <| m_promises := <[p := mkPromise Broken got]> (m_promises x) |>
  | _ => x
  end.

Definition reset_promise (next : option nat) x : SynRequest :=
  (match m_promise x with Some p => break_promise p x | None => x end) <| m_promise := next |>.

Definition new_promise x : SynRequest :=
  let p := m_next_promise x in
  reset_promise (Some p) (x <| m_promises := <[p := mkPromise Empty false]> (m_promises x) |>)
    <| m_next_promise := S p |>.

Definition get_future x : outcome (nat * SynRequest) :=
  p ← deref (m_promise x);
  promise ← access (m_promises x !! p);
  if retrieved promise then Fault ThrowFutureError
  else mret (p, x <| m_promises := <[p := mkPromise (shared promise) true]> (m_promises x) |>).

(** The response of a request that was not answered in time. *)
Definition syn_timeout h : Response :=
  mkResponse (empty_header <| response_result := CODE_WAIT_RESP_TIMEOUT |> <| sequenceid := sequenceid h |>) (Fresh None).

Definition set_caller t (c : Caller) x : SynRequest := x <| m_callers := <[t := c]> (m_callers x) |>.

(** The next step of a thread: [do_send_syn_message], then [wait_response]. *)
Definition caller_step t x : outcome SynRequest :=
  match m_callers x !! t with
  | None => mret x
  | Some (Numbering h) => mret (set_caller t (Counting (h <| sequenceid := m_count x |>)) x)
  | Some (Counting h) => mret (set_caller t (Announcing h) (x <| m_count := u64 (m_count x + 1) |>))
  | Some (Announcing h) => mret (set_caller t (Renewing h) (x <| m_send_sequenceid := sequenceid h |>))
  | Some (Renewing h) => mret (set_caller t (Fetching h) (new_promise x))
  | Some (Fetching h) => '(fu, x) ← get_future x; mret (set_caller t (Blocked h fu) (x <| m_writes ::= (fun l => l ++ [h]) |>))
  | Some (Blocked h fu) =>
      promise ← access (m_promises x !! fu);
      match shared promise with
      | Empty => mret x
      | Value r => mret (set_caller t (Clearing h r) x)
      | Broken => Fault ThrowFutureError
      end
  | Some (Clearing h r) => mret (set_caller t (Dropping h r) (x <| m_send_sequenceid := no_request |>))
  | Some (Dropping h r) =>
      mret ((reset_promise None x) <| m_callers := delete t (m_callers x) |>
              <| m_results := m_results x ++ [(h, r)] |>)
  end.

(** The time of a waiting thread is over. *)
Definition time_out t x : outcome SynRequest :=
  match m_callers x !! t with
  | Some (Blocked h fu) =>
      promise ← access (m_promises x !! fu);
      match shared promise with
      | Empty => mret (set_caller t (Clearing h (syn_timeout h)) x)
      | _ => mret x
      end
  | _ => mret x
  end.

(** [send] with a response to wait for: a thread that does not run the loop. *)
Definition call t h x : SynRequest :=
  match m_callers x !! t with
  | Some _ => x
  | None => set_caller t (Numbering (h <| type := MsgType.SYN_REQUEST |>)) x
  end.

(** [response_come], the check and the rest. *)
Definition check_response r x : SynRequest :=
  if m_send_sequenceid x =? sequenceid (resp_header r) then x <| m_checked := Some r |> else x.

Definition set_response x : outcome SynRequest :=
  match m_checked x with
  | None => mret x
  | Some r =>
      let x := x <| m_checked := None |> in
      match m_promise x with
      | None => mret x
      | Some p =>
          promise ← access (m_promises x !! p);
          match shared promise with
          | Empty => mret (x <| m_promises := <[p := mkPromise (Value r) (retrieved promise)]> (m_promises x) |>)
          | _ => Fault ThrowFutureError
          end
      end
  end.

Definition response_come r x : outcome SynRequest := set_response (check_response r x).

(** *** Schedules *)

Inductive SynEvent : Type :=
  | Call t h
  | Step t
  | TimeOut t
  | Counted
  | Checked r
  | Set_
  | Come r.

Definition run_syn_event x (e : SynEvent) : outcome SynRequest :=
  match e with
  | Call t h => mret (call t h x)
  | Step t => caller_step t x
  | TimeOut t => time_out t x
  | Counted => mret (x <| m_count := u64 (m_count x + 1) |>)
  | Checked r => mret (check_response r x)
  | Set_ => set_response x
  | Come r => response_come r x
  end.

Definition run_syn (events : list SynEvent) x : outcome SynRequest := mfold run_syn_event x events.

(** ** One thread, and a loop that is not interrupted *)

Definition one_thread (e : SynEvent) : bool :=
  match e with
  | Call t _ | Step t | TimeOut t => (t =? 0)%nat
  | Checked _ | Set_ => false
  | Counted | Come _ => true
  end.

Definition comes (events : list SynEvent) : list Response :=
  events ≫= fun e => match e with Come r => [r] | _ => [] end.

(** A result: a response that came with the number of the request, or the time is over. *)
Definition good (rs : list Response) h r : Prop :=
  r = syn_timeout h \/ (r ∈ rs /\ sequenceid (resp_header r) = sequenceid h).

Definition keeps (rs : list Response) h (got : bool) (fu : option nat) x : Prop :=
  exists p sh, m_promise x = Some p /\ m_promises x !! p = Some (mkPromise sh got) /\ (fu = None \/ fu = Some p) /\
    match sh with
    | Empty => True
    | Value r => r ∈ rs /\ sequenceid (resp_header r) = sequenceid h
    | Broken => False
    end.

Definition caller_inv (rs : list Response) (c : option Caller) x : Prop :=
  match c with
  | None | Some (Numbering _) | Some (Counting _) | Some (Announcing _) => m_promise x = None
  | Some (Renewing h) => m_promise x = None /\ m_send_sequenceid x = sequenceid h
  | Some (Fetching h) => keeps rs h false None x /\ m_send_sequenceid x = sequenceid h
  | Some (Blocked h fu) => keeps rs h true (Some fu) x /\ m_send_sequenceid x = sequenceid h
  | Some (Clearing h r) => keeps rs h true None x /\ m_send_sequenceid x = sequenceid h /\ good rs h r
  | Some (Dropping h r) => m_send_sequenceid x = no_request /\ good rs h r
  end.

Record one_inv (rs : list Response) x : Prop := mkOneInv {
  oi_alone t : t <> 0%nat -> m_callers x !! t = None;
  oi_checked : m_checked x = None;
  oi_caller : caller_inv rs (m_callers x !! 0%nat) x;
  oi_results : Forall (fun '(h, r) => good rs h r) (m_results x)
}.

Lemma one_inv_new : one_inv [] new_syn.
Proof. by split. Qed.

Lemma good_more rs r0 h r : good rs h r -> good (rs ++ [r0]) h r.
Proof. intros [Hr|[Hr Hs]]; [by left|right]. split; [apply elem_of_app; by left|done]. Qed.

Lemma keeps_more rs r0 h got fu x : keeps rs h got fu x -> keeps (rs ++ [r0]) h got fu x.
Proof.
  intros (p & sh & Hp & Hs & Hfu & Hsh). exists p, sh. split_and!; try done. destruct sh; [done| |done].
  destruct Hsh. split; [apply elem_of_app; by left|done].
Qed.

Lemma one_inv_more rs r0 x : one_inv rs x -> one_inv (rs ++ [r0]) x.
Proof.
  intros [I1 I2 I3 I4]. split; try done.
  - destruct (m_callers x !! 0%nat) as [[]|]; cbn [caller_inv] in *; naive_solver eauto using keeps_more, good_more.
  - eapply Forall_impl; [exact I4|]. intros [h r]. apply good_more.
Qed.

(** The one thread goes on, and nothing else changes for it. *)
Lemma one_inv_at rs x x' c :
  one_inv rs x -> m_callers x' = <[0%nat := c]> (m_callers x) -> m_checked x' = None -> m_results x' = m_results x ->
  caller_inv rs (Some c) x' -> one_inv rs x'.
Proof.
  intros [I1 I2 I3 I4] Hc Hk Hr Hi. split; rewrite ?Hr; try done.
  - intros t Ht. rewrite Hc, lookup_insert_ne by done. by apply I1.
  - by rewrite Hc, lookup_insert_eq.
Qed.

Lemma caller_step_inv rs x : one_inv rs x -> returns (caller_step 0 x) (one_inv rs).
Proof.
  intros Hinv. pose proof Hinv as [I1 I2 I3 I4]. unfold caller_step.
  destruct (m_callers x !! 0%nat) as [c|] eqn:Hc; [|by apply returns_ret].
  destruct c as [h|h|h|h|h|h fu|h r|h r]; cbn [caller_inv] in I3.
  - apply returns_ret. by eapply one_inv_at.
  - apply returns_ret. by eapply one_inv_at.
  - apply returns_ret. by eapply one_inv_at.
  - apply returns_ret. destruct I3 as [Hp Hs]. eapply one_inv_at; [exact Hinv|..]; unfold new_promise, reset_promise;
      cbn [update m_promise]; rewrite Hp; try done.
    split; [|done]. eexists _, Empty. split; [done|]. split; [apply lookup_insert_eq|]. split; [by left|done].
  - destruct I3 as [(p & sh & Hp & Hpr & _ & Hsh) Hs]. unfold get_future. rewrite Hp. cbn [deref mbind outcome_bind].
    rewrite Hpr. apply returns_ret. eapply one_inv_at; [exact Hinv|done..|]. split; [|done].
    exists p, sh. split; [done|]. split; [apply lookup_insert_eq|]. split; [by right|done].
  - destruct I3 as [(p & sh & Hp & Hpr & [?|[= ->]] & Hsh) Hs]; [done|]. rewrite Hpr. cbn [access mbind outcome_bind shared].
    destruct sh as [|r|]; [by apply returns_ret| |done]. apply returns_ret. eapply one_inv_at; [exact Hinv|done..|].
    split; [|by split; [|right]]. exists p, (Value r). split; [done|]. split; [done|]. by split; [left|].
  - apply returns_ret. destruct I3 as (Hk & Hs & Hg). by eapply one_inv_at.
  - apply returns_ret. destruct I3 as (Hs & Hg). split; cbn.
    + intros t Ht. rewrite lookup_delete_ne by done. unfold reset_promise, break_promise. repeat case_match; by apply I1.
    + unfold reset_promise, break_promise. by repeat case_match.
    + by rewrite lookup_delete_eq.
    + apply Forall_app. split; [done|]. by apply Forall_singleton.
Qed.

Lemma time_out_inv rs x : one_inv rs x -> returns (time_out 0 x) (one_inv rs).
Proof.
  intros Hinv. pose proof Hinv as [I1 I2 I3 I4]. unfold time_out.
  destruct (m_callers x !! 0%nat) as [[]|] eqn:Hc; try by apply returns_ret. cbn [caller_inv] in I3.
  destruct I3 as [(p & sh & Hp & Hpr & [?|[= ->]] & Hsh) Hs]; [done|]. rewrite Hpr. cbn [access mbind outcome_bind shared].
  destruct sh as [|r|]; [|by apply returns_ret|done]. apply returns_ret. eapply one_inv_at; [exact Hinv|done..|].
  split; [|by split; [|left]]. exists p, Empty. split; [done|]. split; [done|]. by split; [left|].
Qed.

Lemma come_inv rs r x :
  one_inv rs x -> sequenceid (resp_header r) ∉ (fun r => sequenceid (resp_header r)) <$> rs ->
  sequenceid (resp_header r) <> no_request -> returns (response_come r x) (one_inv (rs ++ [r])).
Proof.
  intros Hinv Hnew Hno. apply (one_inv_more _ r) in Hinv as Hmore. pose proof Hmore as [I1 I2 I3 I4].
  unfold response_come, check_response.
  destruct (_ =? _) eqn:E; [|unfold set_response; rewrite I2; by apply returns_ret].
  apply Z.eqb_eq in E. unfold set_response. cbn [update m_checked m_promise].
  assert (one_inv (rs ++ [r]) (x <| m_checked := Some r |> <| m_checked := None |>)) as Hsame by by split.
  destruct (m_promise x) as [p|] eqn:Hp; [|by apply returns_ret].
  assert (exists c, m_callers x !! 0%nat = Some c /\
    exists h got fu, keeps rs h got fu x /\ m_send_sequenceid x = sequenceid h /\
      forall x', keeps (rs ++ [r]) h got fu x' -> m_send_sequenceid x' = m_send_sequenceid x ->
        caller_inv (rs ++ [r]) (Some c) x') as (c & Hc & h & got & fu & Hk & Hs & Hback).
  { pose proof (oi_caller _ _ Hinv) as I. destruct (m_callers x !! 0%nat) as [c|]; cbn [caller_inv] in I; [|congruence].
    exists c. split; [done|]. destruct c as [h|h|h|h|h|h fu|h r'|h r']; cbn [caller_inv] in I; try (destruct I; congruence);
      try congruence; destruct I as (Hk & Hs & ?) || destruct I as (Hk & Hs).
    - exists h, false, None. split_and!; try done. intros x' Hk' Hs'. split; [done|congruence].
    - exists h, true, (Some fu). split_and!; try done. intros x' Hk' Hs'. split; [done|congruence].
    - exists h, true, None. split_and!; try done. intros x' Hk' Hs'. split; [done|]. split; [congruence|].
      by apply good_more. }
  destruct Hk as (p' & sh & Hp' & Hpr & Hfu & Hsh). rewrite Hp in Hp'. injection Hp' as <-.
  cbn [update m_promises]. rewrite Hpr. cbn [access mbind outcome_bind shared retrieved].
  destruct sh as [|r'|]; [|exfalso|done].
  - apply returns_ret. split; [done|done| |done]. cbn [update m_callers]. rewrite Hc. apply Hback; [|done].
    exists p, (Value r). split; [done|]. split; [apply lookup_insert_eq|]. split; [done|].
    split; [apply elem_of_app; right; by left|congruence].
  - destruct Hsh as [Hr' Hn']. apply Hnew. apply list_elem_of_fmap. exists r'. split; [congruence|done].
Qed.

Lemma run_syn_inv rs events x :
  one_inv rs x -> forallb one_thread events = true ->
  NoDup ((fun r => sequenceid (resp_header r)) <$> rs ++ comes events) ->
  Forall (fun r => sequenceid (resp_header r) <> no_request) (comes events) ->
  returns (run_syn events x) (one_inv (rs ++ comes events)).
Proof.
  revert rs x. induction events as [|e events IH]; intros rs x Hinv Hone Hnd Hno; cbn [run_syn mfold].
  - apply returns_ret. by rewrite app_nil_r.
  - cbn [forallb] in Hone. apply andb_true_iff in Hone as [He Hone].
    change (comes (e :: events)) with ((match e with Come r => [r] | _ => [] end) ++ comes events) in *.
    rewrite (assoc_L (++)) in *. apply Forall_app in Hno as [Hno0 Hno].
    apply (returns_bind _ _ (one_inv (rs ++ match e with Come r => [r] | _ => [] end)));
      [|intros x' Hx'; by apply IH].
    destruct e as [t h|t|t| |r| |r]; cbn [one_thread] in He; try done;
      try (apply Nat.eqb_eq in He; subst t); rewrite ?app_nil_r; cbn [run_syn_event].
    + apply returns_ret. unfold call. pose proof Hinv as [I1 I2 I3 I4].
      destruct (m_callers x !! 0%nat) eqn:Hc; [done|by eapply one_inv_at].
    + by apply caller_step_inv.
    + by apply time_out_inv.
    + apply returns_ret. destruct Hinv as [I1 I2 I3 I4]. by split.
    + apply come_inv; [done| |].
      * rewrite fmap_app in Hnd. apply NoDup_app in Hnd as (Hnd & _). rewrite fmap_app in Hnd.
        apply NoDup_app in Hnd as (_ & Hdis & _). intros Hin. apply (Hdis _ Hin). by left.
      * by inversion Hno0.
Qed.

(** A thread that has a result returns it. *)
Lemma set_caller_lookup t c x : m_callers (set_caller t c x) !! t = Some c.
Proof. apply lookup_insert_eq. Qed.

Lemma clearing_ends t h r x :
  m_callers x !! t = Some (Clearing h r) ->
  returns (run_syn [Step t; Step t] x) (fun x' =>
    m_callers x' !! t = None /\ m_results x' = m_results x ++ [(h, r)]).
Proof.
  intros Hc. cbn [run_syn mfold run_syn_event]. unfold caller_step at 2. rewrite Hc. cbn [mbind outcome_bind mret outcome_ret].
  unfold caller_step. rewrite set_caller_lookup. apply returns_ret. split; [apply lookup_delete_eq|done].
Qed.

(** One that is blocked returns a result after its time, if not before. *)
Lemma blocked_ends rs x h fu :
  one_inv rs x -> m_callers x !! 0%nat = Some (Blocked h fu) ->
  returns (run_syn [TimeOut 0; Step 0; Step 0; Step 0] x) (fun x' =>
    m_callers x' !! 0%nat = None /\ exists r, m_results x' = m_results x ++ [(h, r)]).
Proof.
  intros [I1 I2 I3 I4] Hc. rewrite Hc in I3. destruct I3 as [(p & sh & Hp & Hpr & [?|[= ->]] & Hsh) _]; [done|].
  destruct sh as [|r|]; [| |done].
  - assert (run_syn [TimeOut 0; Step 0; Step 0; Step 0] x =
      run_syn [Step 0; Step 0] (set_caller 0 (Clearing h (syn_timeout h)) x) ≫= caller_step 0) as ->.
    { cbn [run_syn mfold run_syn_event]. unfold time_out. rewrite Hc, Hpr.
      cbn [access mbind outcome_bind shared mret outcome_ret].
      destruct (caller_step 0 _) as [x1|]; [|done]. cbn [mbind outcome_bind].
      destruct (caller_step 0 _) as [x2|]; [|done]. cbn [mbind outcome_bind]. by rewrite bind_Ok_r. }
    eapply returns_bind; [apply clearing_ends, set_caller_lookup|]. intros x' [Hn Hr].
    unfold caller_step. rewrite Hn. apply returns_ret. split; [done|]. by eexists.
  - cbn [run_syn mfold run_syn_event]. unfold time_out. rewrite Hc, Hpr.
    cbn [access mbind outcome_bind shared mret outcome_ret].
    unfold caller_step at 3. rewrite Hc, Hpr. cbn [access mbind outcome_bind shared mret outcome_ret].
    eapply returns_mono; [apply clearing_ends, set_caller_lookup|]. intros x' [Hn Hr]. split; [done|]. by eexists.
Qed.

(** C18: With one thread that sends, a loop that checks and sets a response without
    interruption, and responses that all have different numbers, none of them the one that
    is reserved for no request, nothing throws ([second_thread_breaks_promise] and
    [second_answer_throws] show what happens otherwise):
    every result is a response that came with the number of its request, or the end
    of the time, and a thread that waits always gets one. *)
Theorem blocking_result_is_answer events :
  forallb one_thread events = true ->
  NoDup ((fun r => sequenceid (resp_header r)) <$> comes events) ->
  Forall (fun r => sequenceid (resp_header r) <> no_request) (comes events) ->
  returns (run_syn events new_syn) (fun x =>
    Forall (fun '(h, r) => r = syn_timeout h \/
      (r ∈ comes events /\ sequenceid (resp_header r) = sequenceid h)) (m_results x) /\
    forall h fu, m_callers x !! 0%nat = Some (Blocked h fu) ->
      returns (run_syn [TimeOut 0; Step 0; Step 0; Step 0] x) (fun x' =>
        m_callers x' !! 0%nat = None /\ exists r, m_results x' = m_results x ++ [(h, r)])).
Proof.
  intros Hone Hnd Hno. eapply returns_mono; [by apply (run_syn_inv [])|]. cbn [app].
  intros x Hinv. split; [apply Hinv|]. intros h fu Hc. by eapply blocked_ends.
Qed.
End blocking.

(** ** Runs *)

Abbreviation PlainSyn := (SynRequest (Pb := Z * list Z) (Desc := Z)).
Abbreviation PlainSynEvent := (SynEvent (Pb := Z * list Z) (Desc := Z)).

Definition syn_reply (n : Z) : Response (Pb := Z * list Z) (Desc := Z) :=
  mkResponse (plain_hello <| sequenceid := n |>) (Received (107, [9])).

(** A call until it waits, and from the result on until it returns. *)
Definition calls (t : nat) : list PlainSynEvent := Call t plain_hello :: replicate 5 (Step t).
Definition ends (t : nat) : list PlainSynEvent := replicate 3 (Step t).
Definition times_out (t : nat) : list PlainSynEvent := TimeOut t :: replicate 2 (Step t).

(** The numbers of the requests, and of the responses that were returned for them. *)
Definition syn_results (x : PlainSyn) : list (Z * Z * Z) :=
  (fun '(h, r) => (sequenceid h, sequenceid (resp_header r), response_result (resp_header r))) <$> m_results x.

Definition syn_calls : list PlainSynEvent := calls 0 ++ [Come (syn_reply 0)] ++ ends 0 ++ calls 0 ++ times_out 0.

Lemma syn_calls_view :
  (x ← run_syn syn_calls new_syn; mret (syn_results x)) = Ok [(0, 0, 0); (1, 1, CODE_WAIT_RESP_TIMEOUT)].
Proof. vm_compute. reflexivity. Qed.

Lemma blocking_result_is_answer_witness :
  returns (run_syn syn_calls new_syn) (fun x =>
    Forall (fun '(h, r) => r = syn_timeout h \/
      (r ∈ comes syn_calls /\ sequenceid (resp_header r) = sequenceid h)) (m_results x)).
Proof.
  eapply returns_mono; [apply (blocking_result_is_answer syn_calls)|].
  - reflexivity.
  - vm_compute. apply NoDup_singleton.
  - vm_compute. apply Forall_cons_2; [discriminate|apply Forall_nil_2].
  - intros x [Hx _]. exact Hx.
Defined.

(** The loop checks the number of a response, then the thread gives up, and its next
    request makes a new promise: the response is returned for the wrong request. *)
Example checked_too_early :
  (x ← run_syn (calls 0 ++ [Checked (syn_reply 0)] ++ times_out 0 ++ calls 0 ++ [Set_] ++ ends 0) new_syn;
   mret (syn_results x)) = Ok [(0, 0, CODE_WAIT_RESP_TIMEOUT); (1, 0, 0)].
Proof. vm_compute. reflexivity. Qed.

(** A peer that answers twice makes the loop throw. *)
Example second_answer_throws :
  (x ← run_syn (calls 0 ++ [Come (syn_reply 0); Come (syn_reply 0)]) new_syn; mret (syn_results x)) =
  Fault ThrowFutureError.
Proof. vm_compute. reflexivity. Qed.

(** Two threads that send at the same time: the promise of the first is broken. *)
Example second_thread_breaks_promise :
  (x ← run_syn (calls 0 ++ calls 1 ++ [Step 0]) new_syn; mret (syn_results x)) = Fault ThrowFutureError.
Proof. vm_compute. reflexivity. Qed.

(** They may even have the same number, which is read and counted up in two steps. *)
Example same_number_twice :
  (x ← run_syn ([Call 0 plain_hello; Call 1 plain_hello; Step 0; Step 1; Step 0; Step 1]) (new_syn : PlainSyn);
   mret (omap (fun t => match m_callers x !! t with Some (Announcing h) => Some (sequenceid h) | _ => None end) [0; 1]%nat)) =
  Ok [0; 0].
Proof. vm_compute. reflexivity. Qed.
