(* ===== verification/Sessions.v ===== *)
(** * The sessions of a server

    ServerSessionManager.cpp, and Server::on_accept_complete of Server.cpp: sessions
    are numbered and kept under their numbers, weakly, up to a limit.  The manager
    does its work on a loop: adding and closing a session are posted to it. *)
From Stdlib Require Import ZArith Lia.
From stdpp Require Import base tactics numbers sorting option gmap list.
From S2P Require Import Prelude.

(** A session, as far as the manager sees it: its number, whether its socket is open,
    and whether it was started. *)
Record Managed : Set := mkManaged { m_session_id : Z; m_opened : bool; m_started : bool }.

#[export] Instance eta_Managed : Eta Managed := fun s => mkManaged (m_session_id s) (m_opened s) (m_started s).

(** What is posted to the loop of the manager. *)
Inductive Task : Set := AddSession (o : nat) | CloseSession (o : nat).

(** What a session tells the server. *)
Inductive Told : Set := ToldOpen (o : nat) | ToldClose (o : nat).

(** [m_live]: the sessions that exist; a pointer to one is its key. *)
Record ServerSessionManager : Set := mkManager {
  m_max_session_count : nat;
  m_current_session : Z;
  m_session_all : gmap Z nat;
  m_live : gmap nat Managed;
  m_next_live : nat;
  m_tasks : list Task;
  m_told : list Told
}.

#[export] Instance eta_ServerSessionManager : Eta ServerSessionManager := fun x =>
  mkManager (m_max_session_count x) (m_current_session x) (m_session_all x) (m_live x) (m_next_live x)
    (m_tasks x) (m_told x).

Definition m_max_session_id : Z := 2 ^ 31 - 1.

Definition new_manager (max_session_count : nat) : ServerSessionManager :=
  mkManager max_session_count 0 ∅ ∅ 0 [] [].

Implicit Types (x : ServerSessionManager) (o : nat).

Definition is_session_over_limit x : bool := (m_max_session_count x <=? size (m_session_all x))%nat.

Definition set_live o (s : Managed) x : ServerSessionManager := x <| m_live := <[o := s]> (m_live x) |>.

(** [TcpSession::do_close]: an open session tells the manager and the server. *)
Definition close_managed o x : outcome ServerSessionManager :=
  s ← access (m_live x !! o);
  if m_opened s then
    mret (set_live o (s <| m_opened := false |>) x <| m_tasks ::= (fun l => l ++ [CloseSession o]) |>
            <| m_told ::= (fun l => l ++ [ToldClose o]) |>)
  else mret x.

(** [TcpSession::start], as far as it is seen here. *)
Definition start_session o x : outcome ServerSessionManager :=
  s ← access (m_live x !! o);
  mret (set_live o (s <| m_started := true |>) x <| m_told ::= (fun l => l ++ [ToldOpen o]) |>).

Definition set_sesssion_id o (id : Z) x : outcome ServerSessionManager :=
  s ← access (m_live x !! o); mret (set_live o (s <| m_session_id := id |>) x).

(** A signed addition. *)
Definition add_int (a b : Z) : outcome Z :=
  if decide (- 2 ^ 31 <= a + b < 2 ^ 31) then mret (a + b) else Fault OutOfBounds.

(** [m_current_session + 1 % m_max_session_id] adds one: [%] binds more strongly. *)
Definition do_add_session o x : outcome ServerSessionManager :=
  if is_session_over_limit x then close_managed o x
  else
    id ← add_int (m_current_session x) (Z.rem 1 m_max_session_id);
    let x := x <| m_current_session := id |> in
    x ← set_sesssion_id o id x;
    let x := match m_session_all x !! id with
             | Some _ => x
             | None => x <| m_session_all := <[id := o]> (m_session_all x) |>
             end in
    start_session o x.

Definition do_close_session o x : outcome ServerSessionManager :=
  s ← access (m_live x !! o);
  set_sesssion_id o (-1) (x <| m_session_all := delete (m_session_id s) (m_session_all x) |>).

(** The sweep drops the numbers of sessions that are gone, and has the others check
    whether they are alive, which may make them close. *)
Definition check_session_alive x : ServerSessionManager :=
  x <| m_session_all := filter (fun '(_, o) => is_Some (m_live x !! o)) (m_session_all x) |>.

(** A connection is accepted: [add_session] posts. *)
Definition accepted x : ServerSessionManager :=
  let o := m_next_live x in
  set_live o (mkManaged 0 true false) x <| m_next_live := S o |> <| m_tasks ::= (fun l => l ++ [AddSession o]) |>.

Definition run_task (t : Task) x : outcome ServerSessionManager :=
  match t with AddSession o => do_add_session o x | CloseSession o => do_close_session o x end.

Definition mentions o (t : Task) : bool :=
  match t with AddSession o' | CloseSession o' => (o' =? o)%nat end.

(** What happens: a started session that closes for whatever reason; one that closed
    is destroyed once nothing that is posted holds it. *)
Inductive ManagerEvent : Set :=
  | Accepted
  | NextTask
  | SessionCloses (o : nat)
  | Destroyed (o : nat)
  | Sweep.

Definition run_manager_event x (e : ManagerEvent) : outcome ServerSessionManager :=
  match e with
  | Accepted => mret (accepted x)
  | NextTask =>
      match m_tasks x with
      | [] => mret x
      | t :: tasks => run_task t (x <| m_tasks := tasks |>)
      end
  | SessionCloses o =>
      match m_live x !! o with
      | Some s => if m_started s then close_managed o x else mret x
      | None => mret x
      end
  | Destroyed o =>
      match m_live x !! o with
      | Some s =>
          if m_opened s || existsb (mentions o) (m_tasks x) then mret x
          else mret (x <| m_live := delete o (m_live x) |>)
      | None => mret x
      end
  | Sweep => mret (check_session_alive x)
  end.

Definition run_manager (events : list ManagerEvent) x : outcome ServerSessionManager :=
  mfold run_manager_event x events.

(** ** The life of a session

    Each session is in one of five states, which its members, the tasks that mention
    it and the map of the manager agree on. *)
Inductive Life : Set := ToAdd | Open (id : Z) | Closing (id : Z) | Refused | Closed.

Definition managed_of (l : Life) : Managed :=
  match l with
  | ToAdd => mkManaged 0 true false
  | Open id => mkManaged id true true
  | Closing id => mkManaged id false true
  | Refused => mkManaged 0 false false
  | Closed => mkManaged (-1) false false
  end.

(** [m_started] of a closed session says whether it had been added. *)
Definition lives (l : Life) (s : Managed) : Prop :=
  match l with Closed => m_session_id s = -1 /\ m_opened s = false | _ => s = managed_of l end.

Definition task_of (l : Life) o : option Task :=
  match l with
  | ToAdd => Some (AddSession o)
  | Closing _ | Refused => Some (CloseSession o)
  | Open _ | Closed => None
  end.

Definition number_of (l : Life) : option Z := match l with Open id | Closing id => Some id | _ => None end.

Definition task_session (t : Task) : nat := match t with AddSession o | CloseSession o => o end.

(** [ls] gives the state of each session that exists. *)
Definition lives_ok (ls : gmap nat Life) (live : gmap nat Managed) (next : nat) : Prop :=
  forall o, match ls !! o, live !! o with
            | Some l, Some s => lives l s /\ (o < next)%nat
            | None, None => True
            | _, _ => False
            end.

Record manager_inv (ls : gmap nat Life) x : Prop := mkManagerInv {
  mi_live : lives_ok ls (m_live x) (m_next_live x);
  mi_tasks t : t ∈ m_tasks x <-> ls !! task_session t ≫= (fun l => task_of l (task_session t)) = Some t;
  mi_nodup : NoDup (task_session <$> m_tasks x);
  mi_all id o : m_session_all x !! id = Some o <-> ls !! o ≫= number_of = Some id;
  mi_ids id o : m_session_all x !! id = Some o -> 0 < id <= m_current_session x;
  mi_size : (size (m_session_all x) <= m_max_session_count x)%nat;
  mi_current : 0 <= m_current_session x
}.

Lemma manager_inv_new n : manager_inv ∅ (new_manager n).
Proof.
  split; cbn; try done.
  - intros t. by rewrite lookup_empty, elem_of_nil.
  - constructor.
  - rewrite map_size_empty. lia.
Qed.

Lemma live_of ls x o l : manager_inv ls x -> ls !! o = Some l ->
  exists s, m_live x !! o = Some s /\ lives l s /\ (o < m_next_live x)%nat.
Proof.
  intros Hinv Hl. pose proof (mi_live _ _ Hinv o) as H. rewrite Hl in H.
  destruct (m_live x !! o) as [s|]; [|done]. by exists s.
Qed.

Lemma life_of ls x o s : manager_inv ls x -> m_live x !! o = Some s ->
  exists l, ls !! o = Some l /\ lives l s /\ (o < m_next_live x)%nat.
Proof.
  intros Hinv Hl. pose proof (mi_live _ _ Hinv o) as H. rewrite Hl in H.
  destruct (ls !! o) as [l|]; [|done]. by exists l.
Qed.

(** The tasks of all sessions but one. *)
Definition tasks_but o (ls : gmap nat Life) (tasks : list Task) : Prop :=
  (forall t, t ∈ tasks <->
     task_session t <> o /\ ls !! task_session t ≫= (fun l => task_of l (task_session t)) = Some t) /\
  NoDup (task_session <$> tasks).

Lemma tasks_but_none ls x o :
  manager_inv ls x -> ls !! o ≫= (fun l => task_of l o) = None -> tasks_but o ls (m_tasks x).
Proof.
  intros Hinv Hl. split; [|apply Hinv]. intros t. rewrite (mi_tasks _ _ Hinv). split; [|by intros [_ ?]].
  intros Ht. split; [|done]. intros <-. congruence.
Qed.

Lemma tasks_but_next ls x t tasks :
  manager_inv ls x -> m_tasks x = t :: tasks ->
  tasks_but (task_session t) ls tasks /\ ls !! task_session t ≫= (fun l => task_of l (task_session t)) = Some t.
Proof.
  intros Hinv E. pose proof (mi_nodup _ _ Hinv) as Hnd. pose proof (mi_tasks _ _ Hinv) as Ht. rewrite E in Hnd, Ht.
  cbn [fmap list_fmap] in Hnd. apply NoDup_cons in Hnd as [Hni Hnd]. split; [split; [|done]|apply Ht; by left].
  intros t'. split.
  - intros Hin. split; [|apply Ht; by right]. intros Es. apply Hni. rewrite <- Es. by apply list_elem_of_fmap_2.
  - intros [Hne Hl]. apply Ht in Hl. apply elem_of_cons in Hl as [->|Hl]; done.
Qed.

Lemma tasks_but_session ls tasks o t : tasks_but o ls tasks -> task_session t = o -> o ∉ task_session <$> tasks.
Proof.
  intros [Hiff _] _ Hin. apply list_elem_of_fmap in Hin as (t' & -> & Hin). apply Hiff in Hin as [? _]. done.
Qed.

(** A session without a task, with the others' tasks, and one that posts its task. *)
Definition tasks_ok (ls : gmap nat Life) (tasks : list Task) : Prop :=
  (forall t, t ∈ tasks <-> ls !! task_session t ≫= (fun l => task_of l (task_session t)) = Some t) /\
  NoDup (task_session <$> tasks).

Lemma tasks_keep ls tasks o l : tasks_but o ls tasks -> task_of l o = None -> tasks_ok (<[o := l]> ls) tasks.
Proof.
  intros [Hiff Hnd] Hl. split; [|done]. intros t. rewrite Hiff, lookup_insert. case_decide as E; [|naive_solver].
  subst o. cbn [mbind option_bind]. rewrite Hl. naive_solver.
Qed.

Lemma tasks_append ls tasks o l t :
  tasks_but o ls tasks -> task_of l o = Some t -> task_session t = o -> tasks_ok (<[o := l]> ls) (tasks ++ [t]).
Proof.
  intros Hbut Hl Hs. pose proof (tasks_but_session _ _ _ _ Hbut Hs) as Hni. destruct Hbut as [Hiff Hnd]. split.
  - intros t'. rewrite elem_of_app, list_elem_of_singleton, Hiff, lookup_insert. case_decide as E.
    + subst o. cbn [mbind option_bind]. rewrite <- E, Hl. naive_solver.
    + split; [naive_solver|]. intros Ht. left. naive_solver.
  - rewrite fmap_app. apply NoDup_app. split; [done|]. split; [|apply NoDup_singleton].
    intros o' Hin Hin'. cbn in Hin'. apply list_elem_of_singleton in Hin'. by subst.
Qed.

Lemma tasks_gone ls tasks o : tasks_but o ls tasks -> tasks_ok (delete o ls) tasks.
Proof.
  intros [Hiff Hnd]. split; [|done]. intros t. rewrite Hiff, lookup_delete. case_decide; naive_solver.
Qed.

(** The numbers of all sessions but one. *)
Definition numbers_ok (ls : gmap nat Life) (all : gmap Z nat) : Prop :=
  forall id o, all !! id = Some o <-> ls !! o ≫= number_of = Some id.

Lemma numbers_keep ls all o l :
  numbers_ok ls all -> ls !! o ≫= number_of = number_of l -> numbers_ok (<[o := l]> ls) all.
Proof.
  intros Hok Hl id o'. rewrite (Hok id o'), lookup_insert. case_decide as E; [|done]. subst o'. cbn [mbind option_bind]. by rewrite Hl.
Qed.

Lemma numbers_new ls all o id :
  numbers_ok ls all -> ls !! o ≫= number_of = None -> all !! id = None ->
  numbers_ok (<[o := Open id]> ls) (<[id := o]> all).
Proof.
  intros Hok Hl Hid id' o'. rewrite !lookup_insert. destruct (decide (o = o')) as [<-|Ho].
  - cbn [mbind option_bind number_of]. case_decide; [naive_solver|]. split; [|congruence].
    intros Ha. apply (Hok id' o) in Ha. congruence.
  - case_decide as E; [|apply Hok]. subst id'. split; [congruence|].
    intros Ho'. apply (Hok id o') in Ho'. congruence.
Qed.

Lemma numbers_gone ls all o id l :
  numbers_ok ls all -> ls !! o ≫= number_of = Some id -> number_of l = None ->
  numbers_ok (<[o := l]> ls) (delete id all).
Proof.
  intros Hok Hl Hn id' o'. rewrite lookup_insert, lookup_delete. destruct (decide (o = o')) as [<-|Ho].
  - cbn [mbind option_bind]. rewrite Hn. case_decide; [done|]. split; [|done].
    intros Ha. apply (Hok id' o) in Ha. congruence.
  - case_decide as E; [|apply Hok]. subst id'. split; [done|]. intros Ho'. apply (Hok id o') in Ho'.
    apply (Hok id o) in Hl. congruence.
Qed.

(** One session goes on to another state. *)
Lemma live_update ls live o l s' next next' :
  lives_ok ls live next -> lives l s' -> (o < next')%nat -> (next <= next')%nat ->
  lives_ok (<[o := l]> ls) (<[o := s']> live) next'.
Proof.
  intros Hok Hl Ho Hle o'. rewrite !lookup_insert. case_decide as E; [by subst|].
  specialize (Hok o'). destruct (ls !! o'), (live !! o'); try done. destruct Hok. split; [done|lia].
Qed.

(** *** The events *)

Lemma accepted_inv ls x : manager_inv ls x -> manager_inv (<[m_next_live x := ToAdd]> ls) (accepted x).
Proof.
  intros Hinv. pose proof Hinv as [I1 I2 I3 I4 I5 I6 I7].
  assert (ls !! m_next_live x = None) as Hnone.
  { destruct (ls !! m_next_live x) as [l|] eqn:Hl; [|done]. destruct (live_of _ _ _ _ Hinv Hl) as (_ & _ & _ & ?). lia. }
  destruct (tasks_append ls (m_tasks x) (m_next_live x) ToAdd (AddSession (m_next_live x))) as [T1 T2]; [|done..|].
  { apply tasks_but_none; [done|]. by rewrite Hnone. }
  split; try done.
  - eapply live_update; [exact I1|done|cbn; lia|cbn; lia].
  - apply numbers_keep; [exact I4|]. by rewrite Hnone.
Qed.

(** What holds when a task of a session, or one of its events, is about to run. *)
Record manager_but o (ls : gmap nat Life) x : Prop := mkManagerBut {
  mb_live : lives_ok ls (m_live x) (m_next_live x);
  mb_tasks : tasks_but o ls (m_tasks x);
  mb_all : numbers_ok ls (m_session_all x);
  mb_ids id o : m_session_all x !! id = Some o -> 0 < id <= m_current_session x;
  mb_size : (size (m_session_all x) <= m_max_session_count x)%nat;
  mb_current : 0 <= m_current_session x
}.

Lemma manager_but_none ls x o :
  manager_inv ls x -> ls !! o ≫= (fun l => task_of l o) = None -> manager_but o ls x.
Proof.
  intros Hinv Ho. pose proof Hinv as [I1 I2 I3 I4 I5 I6 I7]. split; try done. by apply tasks_but_none.
Qed.

Lemma manager_but_next ls x t tasks :
  manager_inv ls x -> m_tasks x = t :: tasks ->
  manager_but (task_session t) ls (x <| m_tasks := tasks |>) /\
  ls !! task_session t ≫= (fun l => task_of l (task_session t)) = Some t.
Proof.
  intros Hinv E. destruct (tasks_but_next _ _ _ _ Hinv E) as [Hbut Ht]. split; [|done].
  destruct Hinv as [I1 I2 I3 I4 I5 I6 I7]. by split.
Qed.

Lemma but_live o ls x l : manager_but o ls x -> ls !! o = Some l ->
  exists s, m_live x !! o = Some s /\ lives l s /\ (o < m_next_live x)%nat.
Proof.
  intros Hinv Hl. pose proof (mb_live _ _ _ Hinv o) as H. rewrite Hl in H.
  destruct (m_live x !! o) as [s|]; [|done]. by exists s.
Qed.

(** A session closes, or is refused: its task is posted. *)
Lemma close_managed_inv o ls x l l' :
  manager_but o ls x -> ls !! o = Some l ->
  (l = ToAdd /\ l' = Refused \/ exists id, l = Open id /\ l' = Closing id) ->
  returns (close_managed o x) (manager_inv (<[o := l']> ls)).
Proof.
  intros Hbut Hl Hcase. destruct (but_live _ _ _ _ Hbut Hl) as (s & Hs & Hlives & Hlt).
  pose proof Hbut as [I1 I2 I3 I4 I5 I6]. unfold close_managed. rewrite Hs. cbn [access mbind outcome_bind].
  assert (m_opened s = true /\ lives l' (s <| m_opened := false |>) /\ task_of l' o = Some (CloseSession o) /\
    number_of l = number_of l') as (-> & Hl' & Ht & Hn).
  { destruct Hcase as [[-> ->] | (id & -> & ->)]; cbn in Hlives; by subst s. }
  apply returns_ret. destruct (tasks_append _ _ _ _ (CloseSession o) I2 Ht eq_refl) as [T1 T2].
  split; try done.
  - by eapply live_update.
  - apply numbers_keep; [done|]. by rewrite Hl.
Qed.

(** A session is added under the next number, or refused. *)
Lemma do_add_session_inv o ls x :
  manager_but o ls x -> ls !! o = Some ToAdd -> m_current_session x + 1 < 2 ^ 31 ->
  returns (do_add_session o x) (fun x' => exists l, manager_inv (<[o := l]> ls) x').
Proof.
  intros Hbut Hl Hmax. pose proof Hbut as [I1 I2 I3 I4 I5 I6]. unfold do_add_session.
  destruct (is_session_over_limit x) eqn:Hlim.
  { eapply returns_mono; [apply (close_managed_inv o ls x ToAdd Refused); [done|done|by left]|]. intros x' Hx'. by exists Refused. }
  apply Nat.leb_gt in Hlim. destruct (but_live _ _ _ _ Hbut Hl) as (s & Hs & Hlives & Hlt). cbn in Hlives. subst s.
  set (id := m_current_session x + 1).
  assert (add_int (m_current_session x) (Z.rem 1 m_max_session_id) = Ok id) as ->.
  { change (Z.rem 1 m_max_session_id) with 1. unfold add_int. rewrite decide_True; [done|]. lia. }
  cbn [mbind outcome_bind]. unfold set_sesssion_id. cbn [update m_live]. rewrite Hs. cbn [access mbind outcome_bind mret outcome_ret].
  assert (m_session_all x !! id = None) as Hfresh.
  { destruct (m_session_all x !! id) as [o'|] eqn:E; [|done]. apply I4 in E. unfold id in E. lia. }
  unfold set_live. cbn [update m_session_all]. rewrite Hfresh. unfold start_session. cbn [update m_live].
  rewrite lookup_insert_eq. cbn [access mbind outcome_bind].
  apply returns_ret. exists (Open id). destruct (tasks_keep _ _ o (Open id) I2 eq_refl) as [T1 T2].
  split; unfold set_live; cbn [update m_live m_session_all m_tasks m_next_live m_current_session m_max_session_count];
    try done.
  - rewrite insert_insert_eq. by eapply live_update.
  - apply numbers_new; [done| |done]. by rewrite Hl.
  - intros id' o'. rewrite lookup_insert. case_decide; [unfold id in *; lia|]. intros Ha. apply I4 in Ha. unfold id. lia.
  - rewrite map_size_insert_None by done. lia.
  - unfold id. lia.
Qed.

(** A closed session loses its number. *)
Lemma do_close_session_inv o ls x l :
  manager_but o ls x -> ls !! o = Some l -> (l = Refused \/ exists id, l = Closing id) ->
  returns (do_close_session o x) (manager_inv (<[o := Closed]> ls)).
Proof.
  intros Hbut Hl Hcase. pose proof Hbut as [I1 I2 I3 I4 I5 I6].
  destruct (but_live _ _ _ _ Hbut Hl) as (s & Hs & Hlives & Hlt).
  destruct (tasks_keep _ _ o Closed I2 eq_refl) as [T1 T2].
  unfold do_close_session, set_sesssion_id. rewrite Hs. cbn [access mbind outcome_bind update m_live]. rewrite Hs.
  cbn [access mbind outcome_bind]. apply returns_ret. split; unfold set_live;
    cbn [update m_live m_session_all m_tasks m_next_live m_current_session m_max_session_count]; try done.
  - eapply live_update; [done| |done|done]. by destruct Hcase as [-> | (id & ->)]; cbn in Hlives; subst s.
  - destruct Hcase as [-> | (id & ->)]; cbn in Hlives; subst s; cbn [m_session_id].
    + rewrite delete_id; [apply numbers_keep; [done|]; by rewrite Hl|].
      destruct (m_session_all x !! 0) as [o'|] eqn:E; [|done]. apply I4 in E. lia.
    + eapply numbers_gone; [done| |done]. by rewrite Hl.
  - intros id' o' Ha. apply lookup_delete_Some in Ha as [_ Ha]. by eapply I4.
  - etrans; [|exact I5]. apply map_subseteq_size. apply delete_subseteq.
Qed.

(** The sweep finds no session that is gone. *)
Lemma check_session_alive_same ls x : manager_inv ls x -> check_session_alive x = x.
Proof.
  intros Hinv. unfold check_session_alive.
  assert (filter (fun '(_, o) => is_Some (m_live x !! o)) (m_session_all x) = m_session_all x) as E.
  { apply map_filter_id. intros id o Ha. apply (mi_all _ _ Hinv) in Ha.
    destruct (ls !! o) as [l|] eqn:Hl; [|done]. destruct (live_of _ _ _ _ Hinv Hl) as (s & Hs & _). by exists s. }
  destruct x as [max cur all live next tasks told]. cbn [update m_session_all m_live] in *. by rewrite E.
Qed.

Lemma existsb_mentions o (tasks : list Task) :
  existsb (mentions o) tasks = false -> o ∉ task_session <$> tasks.
Proof.
  intros Hex Hin. apply list_elem_of_fmap in Hin as (t & -> & Hin).
  assert (existsb (mentions (task_session t)) tasks = true) as Ht; [|congruence].
  apply existsb_exists. exists t. split; [by apply list_elem_of_In|]. destruct t; apply Nat.eqb_refl.
Qed.

Lemma destroyed_inv ls x o s :
  manager_inv ls x -> m_live x !! o = Some s -> m_opened s = false -> existsb (mentions o) (m_tasks x) = false ->
  manager_inv (delete o ls) (x <| m_live := delete o (m_live x) |>).
Proof.
  intros Hinv Hs Ho Hex. apply existsb_mentions in Hex. pose proof Hinv as [I1 I2 I3 I4 I5 I6 I7].
  destruct (life_of _ _ _ _ Hinv Hs) as (l & Hl & Hlives & _).
  assert (forall t, task_of l o = Some t -> False) as Hno.
  { intros t Ht. assert (task_session t = o) as Es by (destruct l; cbn in Ht; by simplify_eq).
    apply Hex. rewrite <- Es. apply list_elem_of_fmap_2, I2. rewrite Es, Hl. done. }
  assert (l = Closed) as -> by (destruct l; cbn in Hlives; [by subst s|by subst s|by edestruct Hno|by edestruct Hno|done]).
  assert (tasks_but o ls (m_tasks x)) as Hbut by (apply tasks_but_none; [done|by rewrite Hl]).
  destruct (tasks_gone _ _ _ Hbut) as [T1 T2]. split; try done.
  - intros o'. cbn [update m_live m_next_live]. rewrite !lookup_delete. case_decide; [done|apply I1].
  - intros id o'. cbn [update m_session_all]. rewrite I4, lookup_delete. case_decide; [|done]. subst o'.
    rewrite Hl. split; [done|]. done.
Qed.

Lemma run_manager_event_inv ls x e :
  manager_inv ls x -> m_current_session x + 1 < 2 ^ 31 ->
  returns (run_manager_event x e) (fun x' => exists ls', manager_inv ls' x').
Proof.
  intros Hinv Hmax. destruct e as [| |o|o|]; cbn [run_manager_event].
  - apply returns_ret. eexists. by apply accepted_inv.
  - destruct (m_tasks x) as [|t tasks] eqn:E; [apply returns_ret; by exists ls|].
    destruct (manager_but_next _ _ _ _ Hinv E) as [Hbut Ht]. destruct (ls !! task_session t) as [l|] eqn:Hl; [|done].
    cbn in Ht. destruct t as [o|o]; cbn [task_session run_task] in *.
    + assert (l = ToAdd) as -> by by destruct l.
      eapply returns_mono; [by apply do_add_session_inv|]. intros x' (l' & Hx'). by eexists.
    + eapply returns_mono; [eapply do_close_session_inv; [done|done|destruct l; naive_solver]|]. intros x' Hx'. by eexists.
  - destruct (m_live x !! o) as [s|] eqn:Hs; [|apply returns_ret; by exists ls].
    destruct (m_started s) eqn:Hst; [|apply returns_ret; by exists ls].
    destruct (life_of _ _ _ _ Hinv Hs) as (l & Hl & Hlives & _).
    destruct (m_opened s) eqn:Ho; [|unfold close_managed; rewrite Hs; cbn [access mbind outcome_bind]; rewrite Ho;
      apply returns_ret; by exists ls].
    assert (exists id, l = Open id) as (id & ->).
    { destruct l; cbn in Hlives; [by subst s|by eexists|by subst s|by subst s|destruct Hlives; congruence]. }
    eapply returns_mono; [eapply (close_managed_inv o ls x (Open id) (Closing id)); [|done|right; by exists id]|].
    + apply manager_but_none; [done|]. by rewrite Hl.
    + intros x' Hx'. by eexists.
  - destruct (m_live x !! o) as [s|] eqn:Hs; [|apply returns_ret; by exists ls].
    destruct (m_opened s || existsb (mentions o) (m_tasks x)) eqn:E; [apply returns_ret; by exists ls|].
    apply orb_false_iff in E as [Ho Hex]. apply returns_ret. eexists. by eapply destroyed_inv.
  - apply returns_ret. exists ls. by erewrite check_session_alive_same.
Qed.

(** The number counts the sessions that were added. *)
Lemma close_managed_current o x x' :
  close_managed o x = Ok x' -> m_current_session x' = m_current_session x /\ m_max_session_count x' = m_max_session_count x.
Proof.
  unfold close_managed. intros H. apply bind_Ok in H as (s & _ & H). by destruct (m_opened s); injection H as <-.
Qed.

Lemma run_manager_event_current x e x' :
  run_manager_event x e = Ok x' -> m_current_session x' <= m_current_session x + 1 /\
  m_max_session_count x' = m_max_session_count x.
Proof.
  destruct e as [| |o|o|]; cbn [run_manager_event].
  - intros [= <-]. cbn. lia.
  - destruct (m_tasks x) as [|[o|o] tasks]; cbn [run_task].
    + intros [= <-]. lia.
    + unfold do_add_session. destruct (is_session_over_limit _).
      { intros H. apply close_managed_current in H as [-> ->]. cbn. lia. }
      cbn [update m_current_session]. change (Z.rem 1 m_max_session_id) with 1. unfold add_int. case_decide; [|done].
      cbn [mbind outcome_bind mret outcome_ret]. intros Hr. apply bind_Ok in Hr as (x1 & H1 & Hr).
      apply bind_Ok in H1 as (s & _ & [= <-]). apply bind_Ok in Hr as (s' & _ & [= <-]). destruct (_ !! _); cbn; lia.
    + intros H. apply bind_Ok in H as (s & _ & H). apply bind_Ok in H as (s' & _ & [= <-]). cbn. lia.
  - destruct (m_live x !! o) as [s|]; [|intros [= <-]; lia]. destruct (m_started s); [|intros [= <-]; lia].
    intros H. apply close_managed_current in H as [-> ->]. lia.
  - destruct (m_live x !! o) as [s|]; [|intros [= <-]; lia]. destruct (_ || _); intros [= <-]; cbn; lia.
  - intros [= <-]. cbn. lia.
Qed.

Lemma run_manager_inv events ls x :
  manager_inv ls x -> m_current_session x + Z.of_nat (length events) < 2 ^ 31 ->
  returns (run_manager events x) (fun x' => (exists ls', manager_inv ls' x') /\
    m_max_session_count x' = m_max_session_count x).
Proof.
  revert ls x. induction events as [|e events IH]; intros ls x Hinv Hmax.
  - apply returns_ret. split; [by exists ls|done].
  - cbn [length] in Hmax. destruct (run_manager_event_inv ls x e Hinv ltac:(lia)) as (x1 & E & ls1 & Hinv1).
    destruct (run_manager_event_current _ _ _ E) as [Hc Hm]. cbn [run_manager mfold]. rewrite E. cbn [mbind outcome_bind].
    rewrite <- Hm. apply (IH ls1); [done|lia].
Qed.

(** C19: Whatever happens, up to the limit of [int], the manager keeps at most the
    allowed number of sessions, each under its own number; no two sessions share one;
    and when its loop has no task left, it keeps exactly the open ones. *)
Theorem sessions_kept max events :
  Z.of_nat (length events) < 2 ^ 31 ->
  returns (run_manager events (new_manager max)) (fun x =>
    (size (m_session_all x) <= max)%nat /\
    (forall id o, m_session_all x !! id = Some o ->
       exists s, m_live x !! o = Some s /\ m_session_id s = id /\ 0 < id) /\
    (forall o o' s s', m_live x !! o = Some s -> m_live x !! o' = Some s' -> 0 < m_session_id s ->
       m_session_id s = m_session_id s' -> o = o') /\
    (m_tasks x = [] -> forall o s, m_live x !! o = Some s ->
       (m_opened s = true <-> m_session_all x !! m_session_id s = Some o))).
Proof.
  intros Hmax. eapply returns_mono; [apply (run_manager_inv events ∅ (new_manager max) (manager_inv_new max)); exact Hmax|].
  intros x [[ls Hinv] Hm]. cbn in Hm. pose proof Hinv as [I1 I2 I3 I4 I5 I6 I7].
  assert (forall o s, m_live x !! o = Some s -> 0 < m_session_id s -> m_session_all x !! m_session_id s = Some o) as Hpos.
  { intros o s Hs Hid. destruct (life_of _ _ _ _ Hinv Hs) as (l & Hl & Hlives & _). apply I4. rewrite Hl.
    destruct l; cbn in *; try (subst s; cbn in Hid; done). destruct Hlives. lia. }
  split; [lia|]. split; [|split].
  - intros id o Ha. pose proof (I5 id o Ha). apply I4 in Ha. destruct (ls !! o) as [l|] eqn:Hl; [|done].
    destruct (live_of _ _ _ _ Hinv Hl) as (s & Hs & Hlives & _). exists s. split; [done|].
    cbn in Ha. destruct l; cbn in Ha, Hlives; simplify_eq; cbn; split; (done || lia).
  - intros o o' s s' Hs Hs' Hid E. apply Hpos in Hs; [|done]. apply Hpos in Hs'; [|lia]. congruence.
  - intros Hno o s Hs. destruct (life_of _ _ _ _ Hinv Hs) as (l & Hl & Hlives & _).
    assert (forall t, task_of l o = Some t -> False) as Hnone.
    { intros t Ht. assert (t ∈ m_tasks x) as Hin; [|rewrite Hno in Hin; by apply not_elem_of_nil in Hin].
      apply I2. assert (task_session t = o) as -> by (destruct l; cbn in Ht; by simplify_eq). by rewrite Hl. }
    destruct l as [|id|id| |]; cbn in Hlives; try (by edestruct Hnone).
    + subst s. cbn. split; [|done]. intros _. apply I4. by rewrite Hl.
    + destruct Hlives as [Hi Ho]. rewrite Hi, Ho. split; [done|]. intros Ha. apply I5 in Ha. lia.
Qed.

(** ** Runs *)

(** With a limit of one, the second connection is refused. *)
Definition two_connections : list ManagerEvent := [Accepted; Accepted; NextTask; NextTask; NextTask].

Lemma sessions_kept_witness :
  returns (run_manager two_connections (new_manager 1)) (fun x => (size (m_session_all x) <= 1)%nat).
Proof.
  eapply returns_mono; [apply (sessions_kept 1 two_connections)|].
  - reflexivity.
  - intros x [Hx _]. exact Hx.
Defined.

(** The server is told that the refused session has closed, which it never heard of. *)
Example refused_session_told :
  (x ← run_manager two_connections (new_manager 1); mret (m_told x)) = Ok [ToldOpen 0; ToldClose 1].
Proof. vm_compute. reflexivity. Qed.

(** The number is not taken modulo the largest one: after that many sessions the
    addition overflows. *)
Example numbers_overflow : add_int m_max_session_id (Z.rem 1 m_max_session_id) = Fault OutOfBounds.
Proof. vm_compute. reflexivity. Qed.
