(* ===== verification/Dispatch.v ===== *)
(** * Dealing messages out

    MessageDealer.inl, TaskManager.inl and Message.inl: what a received message is
    given to by its type, which handler a request gets by its command, and the
    headers of responses. *)
From Stdlib Require Import ZArith Lia.
From stdpp Require Import base tactics numbers sorting option gmap list.
From S2P Require Import Prelude Bytes SendQueue Frame Plain TcpSession Delivery Waiting.

Definition CMD_HEARTBEAT : Z := 1.
Definition CMD_SESSION_OPEN : Z := 2.
Definition CMD_SESSION_CLOSE : Z := 3.

(** ** Headers of responses *)

(** [(type ^ REQUEST_MASK) | RESPONSE_MASK] *)
Definition response_type (msg_type : Z) : Z :=
  Z.lor (Z.lxor msg_type MsgType.REQUEST_MASK) MsgType.RESPONSE_MASK.

(** [Message::send_response(response)]: the header [r] of the response to [h]. *)
Definition send_response (h r : Header) : Header :=
  r <| cmdtype := cmdtype h |> <| type := response_type (type h) |> <| sequenceid := sequenceid h |>.

(** [Message::send_failed_reason] *)
Definition send_failed_reason (h : Header) (fail_reson : Z) : Header :=
  send_response h (empty_header <| response_result := fail_reson |>).

(** [Message::send_response(fail_reson, response)]: neither the reason nor the number
    of the request is set. *)
Definition send_response_reason (h : Header) (fail_reson : Z) : Header :=
  empty_header <| cmdtype := cmdtype h |> <| type := response_type (type h) |>.

Section dispatch.
Context {Pb Desc : Type}.
Implicit Types (h : Header) (p : Pb).

(** What the dealer does with a message: it gives it to the task manager, answers it,
    or gives it to the requests of its session that wait. *)
Inductive Action : Type :=
  | Handle h p
  | Answer h
  | ToSyn (r : Response (Pb := Pb) (Desc := Desc))
  | ToAsyn (r : Response (Pb := Pb) (Desc := Desc)).

(** The command and the type that are set first are set again. *)
Definition deal_heart_beat_message h : list Action :=
  [Answer (send_response h (empty_header <| cmdtype := CMD_HEARTBEAT |> <| type := MsgType.HEARTBEAT_RESPONSE |>))].

(** An unknown type is added to the literal that closes the log line. *)
Definition basic_deal h p : outcome (list Action) :=
  if type h =? MsgType.SYN_REQUEST then mret [Handle h p]
  else if type h =? MsgType.NOTIFY_REQUEST then mret [Handle h p]
  else if type h =? MsgType.ASYN_REQUEST then mret [Handle h p]
  else if type h =? MsgType.ASYN_RESPONSE then mret [ToAsyn (mkResponse h (Received p))]
  else if type h =? MsgType.SYN_RESPONSE then mret [ToSyn (mkResponse h (Received p))]
  else if type h =? MsgType.NOTIFY_RESPONSE then mret []
  else if type h =? MsgType.HEARTBEAT_REQUEST then mret (deal_heart_beat_message h ++ [Handle h p])
  else if type h =? MsgType.HEARTBEAT_RESPONSE then mret []
  else _ ← print_literal 1 (type h); mret [].

(** The reader of messages lets the type of a registration (REGISTER_REQUEST) through,
    like any with the bit of a request, but the dealer does not know it. *)
Lemma unknown_type_fails maker cmd h p :
  type h = 0x4003 ->
  make_message maker (type h) cmd = make_request_message (Desc := Desc) maker cmd /\
  basic_deal h p = Fault OutOfBounds.
Proof. intros Ht. unfold basic_deal. by rewrite Ht. Qed.
End dispatch.

(** ** The task manager *)

Section task_manager.
Context {Handler : Type}.

(** [m_cmd_handler] *)
Definition TaskManager : Type := gmap Z Handler.

Definition register_msg_handler (cmd : Z) (handler : Handler) (tasks : TaskManager) : TaskManager :=
  <[cmd := handler]> tasks.

(** The function that gets a message; the first four are virtual. *)
Inductive Chosen : Type := OnSessionOpen | OnSessionClose | OnHeartBeat | OnUnknown | Registered (handler : Handler).

Definition do_handle_message (tasks : TaskManager) (h : Header) : Chosen :=
  if cmdtype h =? CMD_SESSION_OPEN then OnSessionOpen
  else if cmdtype h =? CMD_SESSION_CLOSE then OnSessionClose
  else if cmdtype h =? CMD_HEARTBEAT then OnHeartBeat
  else match tasks !! cmdtype h with Some handler => Registered handler | None => OnUnknown end.

(** The last handler that is registered for a command gets its messages, unless the
    command is one of the three above. *)
Lemma registered_is_chosen tasks cmd handler h :
  cmdtype h = cmd -> cmd ∉ [CMD_SESSION_OPEN; CMD_SESSION_CLOSE; CMD_HEARTBEAT] ->
  do_handle_message (register_msg_handler cmd handler tasks) h = Registered handler.
Proof.
  intros <- Hno. rewrite !not_elem_of_cons in Hno. destruct Hno as (H1 & H2 & H3 & _).
  unfold do_handle_message, register_msg_handler. apply Z.eqb_neq in H1, H2, H3.
  rewrite H1, H2, H3. 
  match goal with |- match ?o with _ => _ end = _ => assert (o = Some handler) as -> end; [|done].
  apply (lookup_insert_eq (M := gmap Z)).
Qed.
End task_manager.

(** ** Answers find their way *)

(** A request's type is answered with the response type of the same kind. *)
Lemma response_types :
  response_type MsgType.SYN_REQUEST = MsgType.SYN_RESPONSE /\
  response_type MsgType.ASYN_REQUEST = MsgType.ASYN_RESPONSE /\
  response_type MsgType.NOTIFY_REQUEST = MsgType.NOTIFY_RESPONSE /\
  response_type MsgType.HEARTBEAT_REQUEST = MsgType.HEARTBEAT_RESPONSE.
Proof. vm_compute. by split_and!. Qed.

(** A response that is sent with a reason loses it, and the number of its request. *)
Lemma reason_is_lost h reason :
  response_result (send_response_reason h reason) = 0 /\ sequenceid (send_response_reason h reason) = 0.
Proof. done. Qed.

Section answers.
Context {Pb Desc B F L : Type} `{Protobuf Pb Desc} `{HeaderFormat} `{CircularBuffer (Header * Pb) B}.
Variable maker : MessageMaker Desc.

Lemma asked_by_inv n (e : WaitEvent (Pb := Pb) (F := F) (L := L)) q :
  q ∈ asked_by n e ->
  asked_by n e = [q] /\ q_number q = n /\ next_wait_number n e = u64 (n + 1) /\
  type (q_request q).1 = MsgType.ASYN_REQUEST.
Proof.
  destruct e as [?|loop h p f|? ?|?|?]; cbn [asked_by next_wait_number]; try by intros Hq%not_elem_of_nil.
  destruct (_ =? _); [by intros Hq%not_elem_of_nil|]. intros Hq%list_elem_of_singleton. by subst q.
Qed.

Lemma asked_type n (events : list (WaitEvent (Pb := Pb) (F := F) (L := L))) q :
  q ∈ asked n events -> type (q_request q).1 = MsgType.ASYN_REQUEST.
Proof.
  revert n. induction events as [|e events IH]; intros n; cbn [asked]; [by intros ?%not_elem_of_nil|].
  rewrite elem_of_app. intros [Hq|Hq]; [by apply asked_by_inv in Hq as (_ & _ & _ & ?)|by eapply IH].
Qed.

Lemma next_wait_number_bound n (e : WaitEvent (Pb := Pb) (F := F) (L := L)) :
  0 <= n -> n + 1 < 2 ^ 64 -> n <= next_wait_number n e <= n + 1.
Proof.
  intros Hn Hn'. destruct e; cbn [next_wait_number]; try lia; [by apply (next_number_bound n _ n)|].
  destruct (_ =? _); [lia|]. unfold u64, wrap. rewrite Z.mod_small; lia.
Qed.

(** A request is known by its number. *)
Lemma asked_number n (events : list (WaitEvent (Pb := Pb) (F := F) (L := L))) :
  0 <= n -> n + Z.of_nat (length events) < 2 ^ 64 ->
  Forall (fun q => n <= q_number q) (asked n events) /\
  forall q q', q ∈ asked n events -> q' ∈ asked n events -> q_number q = q_number q' -> q = q'.
Proof.
  revert n. induction events as [|e events IH]; intros n Hn Hl; cbn [asked length] in *.
  { split; [done|]. by intros q q' ?%not_elem_of_nil. }
  pose proof (next_wait_number_bound n e ltac:(lia) ltac:(lia)) as Hb.
  destruct (IH (next_wait_number n e) ltac:(lia) ltac:(lia)) as [Hge Hinj]. rewrite Forall_forall in Hge.
  assert (forall q, q ∈ asked_by n e -> q_number q = n /\ next_wait_number n e = n + 1) as Hone.
  { intros q Hq. apply asked_by_inv in Hq as (_ & ? & -> & _). split; [done|].
    unfold u64, wrap. rewrite Z.mod_small; lia. }
  split.
  - apply Forall_forall. intros q [Hq|Hq]%elem_of_app; [by destruct (Hone q Hq); lia|].
    specialize (Hge q Hq). lia.
  - intros q q' [Hq|Hq]%elem_of_app [Hq'|Hq']%elem_of_app E.
    + apply asked_by_inv in Hq as (Hq & _). rewrite Hq in Hq'. by apply list_elem_of_singleton in Hq'.
    + destruct (Hone q Hq). specialize (Hge q' Hq'). lia.
    + destruct (Hone q' Hq'). specialize (Hge q Hq). lia.
    + by apply Hinj.
Qed.

(** C20: When the answer that [send_failed_reason] makes for a request comes while the
    timer of the request still runs, it reaches the callback of exactly this request: the
    dealer of the client gives the answer to the requests that wait, and this one answer
    posts one call, of this callback, with the request, the answer and the reason.  (This
    is about this one event: an answer that comes when the time is over, or a second one,
    can have the callback called twice, [answered_late] and [answered_twice] of Waiting.v,
    and the other way to answer with a reason loses it, [reason_is_lost].) *)
Theorem failed_reason_reaches_callback recv memory now events
    (x : AsyncSession (Pb := Pb) (Desc := Desc) (B := B) (F := F) (L := L)) q p p' reason :
  Z.of_nat (length events) < 2 ^ 64 ->
  run_waiting maker events (open_waiting recv memory now) = Ok x ->
  q ∈ asked 0 events -> waits (q_number q) (requests x) = Some Running ->
  let r := mkResponse (stamp p' (send_failed_reason (stamp p (q_request q).1) reason)) (Received p') in
  basic_deal (Desc := Desc) (resp_header r) p' = Ok [ToAsyn r] /\
  m_posted (requests (asyn_response_come r x)) =
    m_posted (requests x) ++ [mkCall (q_loop q) (q_fun q) (q_request q) r] /\
  response_result (resp_header r) = reason.
Proof.
  intros Hl Hrun Hq Hw r. pose proof (reached_inv maker _ _ _ _ _ Hl Hrun) as Hinv.
  pose proof (asked_type _ _ _ Hq) as Ht.
  assert (type (resp_header r) = MsgType.ASYN_RESPONSE) as Htype.
  { change (type (resp_header r)) with (response_type (type (q_request q).1)). by rewrite Ht. }
  assert (sequenceid (resp_header r) = q_number q) as Hseq by done.
  split; [|split; [|done]].
  - unfold basic_deal. by rewrite Htype.
  - unfold asyn_response_come, async_response_come. cbn [requests]. rewrite Hseq.
    unfold waits in Hw. destruct (m_items (requests x) !! q_number q) as [it|] eqn:Hit; [|done].
    destruct (ai_item _ _ Hinv _ it Hit) as (q' & st & Hq' & Hn & Hi & Htm).
    assert (q' = q) as ->.
    { destruct (asked_number 0 events ltac:(lia) Hl) as [_ Hinj]. by apply Hinj. }
    unfold item_response_come, post. cbn [update m_posted].
    assert (m_posted (cancel (m_timer it) (requests x)) = m_posted (requests x)) as ->.
    { unfold cancel. by repeat case_match. }
    by rewrite Hi.
Qed.
End answers.

(** The plain request is refused with a reason. *)
Lemma plain_ask_waits :
  (x ← run_waiting plain_maker [ask 10] plain_open; mret (waits 0 (requests x))) = Ok (Some Running).
Proof. vm_compute. reflexivity. Qed.

Lemma failed_reason_reaches_callback_witness :
  exists x q, run_waiting plain_maker [ask 10] plain_open = Ok x /\ q ∈ asked 0 [ask 10] /\
    let r := mkResponse (stamp (107, [9])
      (send_failed_reason (stamp (7, [1; 2; 3]) (q_request q).1) CODE_WAIT_RESP_TIMEOUT)) (Received (107, [9])) in
    m_posted (requests (asyn_response_come r x)) =
      m_posted (requests x) ++ [mkCall (q_loop q) (q_fun q) (q_request q) r].
Proof.
  destruct (bind_ret_Ok _ _ _ plain_ask_waits) as (x & Hrun & Hw).
  eexists x, _. split; [done|]. split; [left|].
  exact (proj1 (proj2 (failed_reason_reaches_callback plain_maker plain_memory plain_memory 0 [ask 10] x _
    (7, [1; 2; 3]) (107, [9]) CODE_WAIT_RESP_TIMEOUT eq_refl Hrun ltac:(left) Hw))).
Defined.
