(* ===== verification/Login.v ===== *)
(** * Who is logged in

    The game server in the build (src/server/server/gamesvr): PlayerManager.cpp keeps
    the users who are logged in, and under which session; Player.cpp, GameRoom.cpp and
    RoomManager.cpp the users and the rooms they are in.  The rooms have no desk yet.
    A session and a player are pointers, here numbers; the prefix [room_] marks what
    is a member of GameRoom. *)
From Stdlib Require Import ZArith Lia String.
From stdpp Require Import base tactics numbers sorting option gmap strings list.
From S2P Require Import Prelude Bytes Frame Base64 Md5 Token TcpSession Dispatch.

Definition CODE_SUCCESS : Z := 0.
Definition CODE_CHECK_GAME_TOKEN_FAILED : Z := 1000.
Definition CMD_APPLY_ENTER_ROOM : Z := 1000.

(** What the server uses of the JSON library: a text may not parse and a value may
    have no field, which throws. *)
Class JsonReader (J : Type) : Type := {
  json_parse : list Z -> outcome J;
  json_is_valid : J -> bool;
  json_field : J -> string -> outcome J;
  json_is_number : J -> bool;
  json_is_string : J -> bool;
  json_get_int : J -> outcome Z
}.

(** [Player] *)
Record OnlinePlayer : Set := mkOnline {
  m_user_id : Z;
  m_online_check_time : Z;
  m_room : option Z;
  m_session : option nat;
  m_is_recv_broadcast : bool
}.

#[export] Instance eta_OnlinePlayer : Eta OnlinePlayer := fun p =>
  mkOnline (m_user_id p) (m_online_check_time p) (m_room p) (m_session p) (m_is_recv_broadcast p).

(** What is sent to a session. *)
Inductive Outgoing : Set :=
  | FailedReason (code : Z)
  | ShutDownSession
  | PlayerLoginElsewhere (reason : Z) (description : list Z)
  | RoomMessage (cmd_type : Z).

(** [GameRoom], of which there is the map of its players. *)
Record GameRoom : Set := mkRoom { m_room_id : Z; m_room_player : gmap Z nat }.

#[export] Instance eta_GameRoom : Eta GameRoom := fun r => mkRoom (m_room_id r) (m_room_player r).

(** The two managers, which are singletons, the players and what was sent. *)
Record PlayerManager : Set := mkPlayerManager {
  m_login_user : gmap Z nat;
  m_online_user : gmap nat nat;
  m_game_room : gmap Z GameRoom;
  m_players : gmap nat OnlinePlayer;
  m_next_player : nat;
  m_time : Z;
  m_out : list (nat * Outgoing)
}.

#[export] Instance eta_PlayerManager : Eta PlayerManager := fun x =>
  mkPlayerManager (m_login_user x) (m_online_user x) (m_game_room x) (m_players x) (m_next_player x)
    (m_time x) (m_out x).

Section login.
(** What the memory of a new player holds where the constructor leaves it. *)
Context (new_flag : bool).
Implicit Types (x : PlayerManager) (pl : OnlinePlayer) (room : GameRoom) (u r : Z) (s p : nat).

Definition set_player p pl x : PlayerManager := x <| m_players := <[p := pl]> (m_players x) |>.
Definition send_to_session s (o : Outgoing) x : PlayerManager := x <| m_out ::= (fun l => l ++ [(s, o)]) |>.

(** A new player with a user and a session, who is logged in. *)
Definition log_in_new u s x : nat * PlayerManager :=
  let p := m_next_player x in
  (p, set_player p (mkOnline u (m_time x) None (Some s) new_flag) x
        <| m_next_player := S p |>
        <| m_login_user := <[u := p]> (m_login_user x) |>
        <| m_online_user := <[s := p]> (m_online_user x) |>).

(** [Player::session_close], [set_session], [flush_online_time], [set_player_room] *)
Definition session_close pl : OnlinePlayer := pl <| m_session := None |>.
Definition set_session s pl : OnlinePlayer := pl <| m_session := Some s |>.
Definition flush_time x pl : OnlinePlayer := pl <| m_online_check_time := m_time x |>.
Definition set_player_room r pl : OnlinePlayer := pl <| m_room := Some r |>.

(** [m_online_user.erase(session.get())] *)
Definition erase_online (session : option nat) x : PlayerManager :=
  match session with Some s => x <| m_online_user := delete s (m_online_user x) |> | None => x end.

Definition on_session_close s x : outcome PlayerManager :=
  match m_online_user x !! s with
  | None => mret x
  | Some p =>
      pl ← access (m_players x !! p);
      let x := erase_online (Some s) (set_player p (session_close pl) x) in
      match m_room pl with
      | Some _ => mret x
      | None =>
          _ ← assert_that (bool_decide (is_Some (m_login_user x !! m_user_id pl)));
          mret (x <| m_login_user := delete (m_user_id pl) (m_login_user x) |>)
      end
  end.

Definition shutdown_user_session s x : PlayerManager := send_to_session s ShutDownSession x.

Definition add_user_session u s x : outcome PlayerManager :=
  '(old, x) ← match m_login_user x !! u with
              | Some p =>
                  pl ← access (m_players x !! p);
                  let x := erase_online (m_session pl) (set_player p (set_session s pl) x) in
                  mret (m_session pl, x <| m_online_user := <[s := p]> (m_online_user x) |>)
              | None => mret (None, (log_in_new u s x).2)
              end;
  match old with
  | Some o => if decide (o = s) then mret x else mret (shutdown_user_session o x)
  | None => mret x
  end.

Definition recv_session u x : outcome (option nat) :=
  match m_login_user x !! u with
  | Some p => pl ← access (m_players x !! p); mret (m_session pl)
  | None => mret None
  end.

Definition is_player_online u x : outcome bool := o ← recv_session u x; mret (bool_decide (is_Some o)).

(** The log line adds the number of the room to a literal. *)
Definition make_player u s x : outcome (option nat * PlayerManager) :=
  match m_login_user x !! u with
  | None => let (p, x) := log_in_new u s x in mret (Some p, x)
  | Some p =>
      pl ← access (m_players x !! p);
      match m_room pl with
      | None => mret (Some p, set_player p (flush_time x pl) x)
      | Some r => _ ← print_literal 1 r; mret (None, x)
      end
  end.

Definition destory_player p x : outcome PlayerManager :=
  pl ← access (m_players x !! p);
  match m_login_user x !! m_user_id pl with
  | Some p' =>
      pl' ← access (m_players x !! p');
      mret (erase_online (m_session pl') x <| m_login_user := delete (m_user_id pl) (m_login_user x) |>)
  | None => Fault AssertFailed
  end.

Definition check_player_session u (session : option nat) x : outcome bool :=
  match m_login_user x !! u with
  | Some p => pl ← access (m_players x !! p); mret (bool_decide (m_session pl = session))
  | None => mret false
  end.

Definition is_player_in_room u x : outcome (option Z) :=
  match m_login_user x !! u with
  | Some p => pl ← access (m_players x !! p); mret (m_room pl)
  | None => mret None
  end.

(** [get_ingame_user]: the users in the order of the map. *)
Definition get_ingame_user x : list Z := (map_to_list (m_login_user x)).*1.

Definition flush_user_online s x : outcome PlayerManager :=
  match m_online_user x !! s with
  | Some p => pl ← access (m_players x !! p); mret (set_player p (flush_time x pl) x)
  | None => mret x
  end.

(** A [char] made of an [int], and back. *)
Definition to_char (n : Z) : Z := (n + 128) `mod` 256 - 128.

Definition send_player_login_elsewhere s (reason : Z) (description : list Z) x : PlayerManager :=
  send_to_session s (PlayerLoginElsewhere reason description) x.

Definition on_kick_out_user u (reason : Z) (description : list Z) x : outcome PlayerManager :=
  session ← recv_session u x;
  match session with
  | None => mret x
  | Some s => mret (shutdown_user_session s (send_player_login_elsewhere s (to_char reason) description x))
  end.

(** *** Tokens *)

Section token_login.
Context {J : Type} `{JsonReader J} (hash_memory text_memory : list Z).

Definition check_user_token (jv : J) : outcome bool :=
  if negb (json_is_valid jv) then mret false
  else
    user_id ← json_field jv "user_id";
    if negb (json_is_number user_id) then mret false
    else
      user_account ← json_field jv "user_account";
      if negb (json_is_string user_account) then mret false
      else
        user_type ← json_field jv "user_type";
        mret (json_is_number user_type).

(** The user of a token, when it is one. *)
Definition read_user_token (usertoken : list Z) : outcome (option Z) :=
  decode_token ← AES_ecb128_decrypt hash_memory text_memory usertoken (chars "key");
  jv ← json_parse decode_token;
  valid ← check_user_token jv;
  if valid : bool then
    user_id ← json_field jv "user_id"; u ← json_get_int user_id; mret (Some u)
  else mret None.

Definition player_token_login (usertoken : list Z) s x : outcome (bool * PlayerManager) :=
  user ← read_user_token usertoken;
  match user with
  | None =>
      mret (false, send_to_session s ShutDownSession
                     (send_to_session s (FailedReason CODE_CHECK_GAME_TOKEN_FAILED) x))
  | Some u => x ← add_user_session u s (send_to_session s (FailedReason CODE_SUCCESS) x); mret (true, x)
  end.
End token_login.

(** *** Rooms *)

(** [Player::send_request] *)
Definition player_send_request p (cmd_type : Z) x : outcome PlayerManager :=
  pl ← access (m_players x !! p);
  match m_session pl with
  | Some s => mret (send_to_session s (RoomMessage cmd_type) x)
  | None => mret x
  end.

Definition room_find_player u room : option nat := m_room_player room !! u.

Definition room_add_player r u s x : outcome (option nat * PlayerManager) :=
  room ← access (m_game_room x !! r);
  match m_room_player room !! u with
  | Some p => mret (Some p, x)
  | None =>
      '(made, x) ← make_player u s x;
      match made with
      | None => mret (None, x)
      | Some p =>
          pl ← access (m_players x !! p);
          mret (Some p, set_player p (set_player_room r pl) x
            <| m_game_room := <[r := room <| m_room_player := <[u := p]> (m_room_player room) |>]> (m_game_room x) |>)
      end
  end.

Definition room_destroy_player r p x : outcome PlayerManager :=
  room ← access (m_game_room x !! r);
  pl ← access (m_players x !! p);
  destory_player p
    (x <| m_game_room := <[r := room <| m_room_player := delete (m_user_id pl) (m_room_player room) |>]> (m_game_room x) |>).

Definition room_send_msg_to_player room u (cmd_type : Z) x : outcome PlayerManager :=
  match room_find_player u room with
  | Some p => player_send_request p cmd_type x
  | None => mret x
  end.

(** The two [broadcast_message]s: to everybody who receives broadcasts, in the order of
    the map, and to some. *)
Definition room_broadcast_message room (cmd_type : Z) x : outcome PlayerManager :=
  mfold (fun x p =>
    pl ← access (m_players x !! p);
    if m_is_recv_broadcast pl then player_send_request p cmd_type x else mret x)
    x (map_to_list (m_room_player room)).*2.

Definition room_broadcast_to room (cmd_type : Z) (recv_user_id : list Z) x : outcome PlayerManager :=
  mfold (fun x u => room_send_msg_to_player room u cmd_type x) x recv_user_id.

(** Entering a room so far: the log line reads what was found, or not. *)
Definition room_on_apply_enter_room `{Logging} room u : outcome unit :=
  log_value LogLevel.debug (room_find_player u room).

(** [GameRoom::handle_msg], with the one handler that is registered. *)
Definition room_handle_msg `{Logging} room (cmd_type : Z) u : outcome unit :=
  if cmd_type =? CMD_APPLY_ENTER_ROOM then room_on_apply_enter_room room u else mret tt.

(** [RoomManager::get_room_id], [add_room] and [open] *)
Definition get_room_id : list Z := [1; 2; 3; 4; 5].

Definition add_room r (rooms : gmap Z GameRoom) : gmap Z GameRoom :=
  match rooms !! r with Some _ => rooms | None => <[r := mkRoom r ∅]> rooms end.

(** [RoomManager::check], for any user. *)
Definition room_check (user_id r : Z) (rooms : gmap Z GameRoom) : bool := bool_decide (is_Some (rooms !! r)).

Definition open_rooms : gmap Z GameRoom := foldl (fun rooms r => add_room r rooms) ∅ get_room_id.
End login.

Definition new_player_manager (now : Z) : PlayerManager := mkPlayerManager ∅ ∅ open_rooms ∅ 0 now [].

(** [GameTaskManager]: the handlers it registers, in this order from the inside.  The
    protocol files do not have the command of a login. *)
Inductive GameHandler : Set := HandleHeartBeat | OnGameSessionClose | OnPlayerTokenLogin | OnGameSessionOpen.

Definition game_handlers (CMD_USER_TOKEN_LOGIN_GAMESVR : Z) : TaskManager (Handler := GameHandler) :=
  register_msg_handler CMD_SESSION_OPEN OnGameSessionOpen
    (register_msg_handler CMD_USER_TOKEN_LOGIN_GAMESVR OnPlayerTokenLogin
      (register_msg_handler CMD_SESSION_CLOSE OnGameSessionClose
        (register_msg_handler CMD_HEARTBEAT HandleHeartBeat ∅))).

(** Three of them are never called: the task manager has functions of its own for
    these commands, which [GameTaskManager] does not override. *)
Lemma handlers_passed_over login h :
  cmdtype h ∈ [CMD_SESSION_OPEN; CMD_SESSION_CLOSE; CMD_HEARTBEAT] ->
  forall handler, do_handle_message (game_handlers login) h <> Registered handler.
Proof.
  rewrite !elem_of_cons. unfold do_handle_message.
  intros [E|[E|[E|E]]]; [..|by apply not_elem_of_nil in E]; intros handler; by rewrite E.
Qed.

(** ** The tables are well formed

    Users are known under their own number, a session that is online is that of a user
    who is logged in, the players of a room are the users who are in it, and a user
    without a session is in a room. *)
Record tables_ok (x : PlayerManager) : Prop := mkTablesOk {
  to_login u p : m_login_user x !! u = Some p -> exists pl, m_players x !! p = Some pl /\ m_user_id pl = u;
  to_online s p : m_online_user x !! s = Some p ->
    exists pl, m_players x !! p = Some pl /\ m_session pl = Some s /\ m_login_user x !! m_user_id pl = Some p;
  to_room r room u p : m_game_room x !! r = Some room -> m_room_player room !! u = Some p ->
    m_login_user x !! u = Some p /\ exists pl, m_players x !! p = Some pl /\ m_room pl = Some r;
  to_in_room u p pl r : m_login_user x !! u = Some p -> m_players x !! p = Some pl -> m_room pl = Some r ->
    exists room, m_game_room x !! r = Some room /\ m_room_player room !! u = Some p;
  to_away u p pl : m_login_user x !! u = Some p -> m_players x !! p = Some pl -> m_session pl = None ->
    exists r, m_room pl = Some r;
  to_rooms r : r ∈ get_room_id <-> is_Some (m_game_room x !! r);
  to_fresh p pl : m_players x !! p = Some pl -> (p < m_next_player x)%nat
}.

Implicit Types (x : PlayerManager) (pl : OnlinePlayer) (room : GameRoom) (u r : Z) (s p : nat).

Lemma tables_ok_new now : tables_ok (new_player_manager now).
Proof.
  split; cbn [new_player_manager m_login_user m_online_user m_game_room m_players m_next_player];
    try (intros *; by rewrite lookup_empty).
  - intros r room u p Hr Hp. exfalso.
    assert (map_Forall (fun _ room => m_room_player room = ∅) open_rooms) as Hall by (refine (bool_decide_unpack _ _); vm_compute; exact I).
    apply (map_Forall_lookup_1 _ _ _ _ Hall) in Hr. by rewrite Hr, lookup_empty in Hp.
  - intros r. rewrite <- elem_of_dom. replace (dom open_rooms) with (list_to_set (C := gset Z) get_room_id).
    + by rewrite elem_of_list_to_set.
    + by vm_compute.
Qed.

(** The player of a user who is logged in. *)
Lemma login_player x u p :
  tables_ok x -> m_login_user x !! u = Some p -> exists pl, m_players x !! p = Some pl /\ m_user_id pl = u.
Proof. intros Hok. apply Hok. Qed.

Lemma login_inj x u u' p :
  tables_ok x -> m_login_user x !! u = Some p -> m_login_user x !! u' = Some p -> u = u'.
Proof.
  intros Hok Hu Hu'. destruct (login_player x u p Hok Hu) as (pl & Hpl & <-).
  destruct (login_player x u' p Hok Hu') as (pl' & Hpl' & <-). congruence.
Qed.

(** *** What the operations do to the tables *)

(** Look inside the new tables. *)
Ltac unfold_tables :=
  unfold log_in_new, set_player, erase_online, session_close, set_session, set_player_room, flush_time in *;
  cbn [snd update m_login_user m_online_user m_game_room m_players m_next_player m_user_id m_session m_room
    m_online_check_time m_room_player] in *.

Lemma log_in_new_ok flag x u s :
  tables_ok x -> m_login_user x !! u = None -> tables_ok (log_in_new flag u s x).2.
Proof.
  intros Hok Hu. pose proof Hok as [I1 I2 I3 I4 I5 I6 I7].
  assert (forall p pl, m_players x !! p = Some pl -> p <> m_next_player x) as Hne.
  { intros p pl Hp ->. apply I7 in Hp. lia. }
  split; unfold_tables.
  - intros u' p'. rewrite !lookup_insert. case_decide; [intros [= <-]; rewrite decide_True by done; naive_solver|].
    intros Hp'. destruct (I1 u' p' Hp') as (pl & Hpl & <-). rewrite decide_False by (by apply not_eq_sym, (Hne _ pl)).
    by exists pl.
  - intros s' p'. rewrite !lookup_insert. case_decide.
    + intros [= <-]. eexists. rewrite decide_True by done. split; [done|]. cbn. rewrite lookup_insert_eq. naive_solver.
    + intros Hp'. destruct (I2 s' p' Hp') as (pl & Hpl & Hs & Hl).
      rewrite decide_False by (by apply not_eq_sym, (Hne _ pl)). exists pl. split_and!; [done..|].
      rewrite lookup_insert_ne; [done|]. intros E. congruence.
  - intros r room u' p' Hr Hp'. destruct (I3 r room u' p' Hr Hp') as (Hl & pl & Hpl & Hroom).
    rewrite !lookup_insert_ne; [naive_solver|by apply not_eq_sym, (Hne _ pl)|congruence].
  - intros u' p' pl r. rewrite !lookup_insert. case_decide.
    + intros [= <-]. rewrite decide_True by done. by intros [= <-].
    + intros Hp'. destruct (I1 u' p' Hp') as (pl' & Hpl' & _). rewrite decide_False by (by apply not_eq_sym, (Hne _ pl')).
      by eapply I4.
  - intros u' p' pl. rewrite !lookup_insert. case_decide.
    + intros [= <-]. rewrite decide_True by done. by intros [= <-].
    + intros Hp'. destruct (I1 u' p' Hp') as (pl' & Hpl' & _). rewrite decide_False by (by apply not_eq_sym, (Hne _ pl')).
      by eapply I5.
  - done.
  - intros p pl. rewrite lookup_insert. case_decide; [intros _; lia|]. intros Hp. apply I7 in Hp. lia.
Qed.

(** The player of a user changes, but not whose it is. *)
Lemma set_player_ok x u p pl pl' :
  tables_ok x -> m_login_user x !! u = Some p -> m_players x !! p = Some pl ->
  m_user_id pl' = u -> m_room pl' = m_room pl -> (m_session pl' = None -> is_Some (m_room pl)) ->
  (forall s, m_online_user x !! s = Some p -> m_session pl' = Some s) ->
  tables_ok (set_player p pl' x).
Proof.
  intros Hok Hu Hp Hid Hroom Haway Hses. pose proof Hok as [I1 I2 I3 I4 I5 I6 I7].
  pose proof (login_inj x) as Hinj. split; unfold_tables.
  - intros u' p' Hu'. rewrite lookup_insert. case_decide; [|by apply I1]. subst p'. exists pl'.
    split; [done|]. rewrite Hid. by eapply Hinj.
  - intros s' p' Hs'. rewrite lookup_insert. case_decide; [|by apply I2]. subst p'. exists pl'.
    split_and!; [done|by apply Hses|by rewrite Hid].
  - intros r room u' p' Hr Hp'. destruct (I3 r room u' p' Hr Hp') as (Hl & pl1 & Hpl & Hr1). split; [done|].
    rewrite lookup_insert. case_decide; [subst p'|naive_solver]. exists pl'. split; [done|]. rewrite Hroom. congruence.
  - intros u' p' pl1 r Hu'. rewrite lookup_insert. case_decide; [|by eapply I4]. subst p'. intros [= <-].
    rewrite Hroom. by eapply I4.
  - intros u' p' pl1 Hu'. rewrite lookup_insert. case_decide; [|by eapply I5]. subst p'. intros [= <-] Hs.
    rewrite Hroom. by apply Haway.
  - done.
  - intros p' pl1. rewrite lookup_insert. case_decide; [|by apply I7]. intros _. subst p'. by eapply I7.
Qed.

(** A session is not online any more. *)
Lemma erase_online_ok x session : tables_ok x -> tables_ok (erase_online session x).
Proof.
  intros Hok. destruct session as [s|]; [|done]. destruct Hok as [I1 I2 I3 I4 I5 I6 I7]. split; try done.
  unfold_tables. intros s' p' Hs'. apply lookup_delete_Some in Hs' as [_ Hs']. by apply I2.
Qed.

(** The session of a player comes online. *)
Lemma insert_online_ok x s p pl :
  tables_ok x -> m_players x !! p = Some pl -> m_session pl = Some s -> m_login_user x !! m_user_id pl = Some p ->
  tables_ok (x <| m_online_user := <[s := p]> (m_online_user x) |>).
Proof.
  intros [I1 I2 I3 I4 I5 I6 I7] Hp Hs Hl. split; try done. unfold_tables. intros s' p'. rewrite lookup_insert.
  case_decide; [|by apply I2]. intros [= <-]. subst s'. by exists pl.
Qed.

(** A user who is in no room, and not online, is logged out. *)
Lemma log_out_ok x u p pl :
  tables_ok x -> m_login_user x !! u = Some p -> m_players x !! p = Some pl ->
  (forall s, m_online_user x !! s <> Some p) ->
  (forall r room, m_game_room x !! r = Some room -> m_room_player room !! u = None) ->
  tables_ok (x <| m_login_user := delete u (m_login_user x) |>).
Proof.
  intros Hok Hu Hp Hoff Hno. pose proof Hok as [I1 I2 I3 I4 I5 I6 I7]. split; unfold_tables; try done.
  - intros u' p' Hu'. apply lookup_delete_Some in Hu' as [_ Hu']. by apply I1.
  - intros s' p' Hs'. destruct (I2 s' p' Hs') as (pl' & Hpl' & Hs & Hl). exists pl'. split_and!; [done..|].
    rewrite lookup_delete_ne; [done|]. intros E. subst u. rewrite Hl in Hu. injection Hu as ->. by apply (Hoff s').
  - intros r room u' p' Hr Hp'. destruct (I3 r room u' p' Hr Hp') as (Hl & ?). split; [|done].
    rewrite lookup_delete_ne; [done|]. intros E. subst u'. by rewrite (Hno r room Hr) in Hp'.
  - intros u' p' pl' r Hu'. apply lookup_delete_Some in Hu' as [_ Hu']. by eapply I4.
  - intros u' p' pl' Hu'. apply lookup_delete_Some in Hu' as [_ Hu']. by eapply I5.
Qed.

(** A player whom nobody refers to may change. *)
Lemma set_forgotten_ok x p pl pl' :
  tables_ok x -> m_players x !! p = Some pl -> (forall u, m_login_user x !! u <> Some p) ->
  tables_ok (set_player p pl' x).
Proof.
  intros Hok Hp Hno. pose proof Hok as [I1 I2 I3 I4 I5 I6 I7].
  assert (forall u p', m_login_user x !! u = Some p' -> p <> p') as Hne by (intros u p' Hu <-; by apply (Hno u)).
  split; unfold_tables; try done.
  - intros u' p' Hu'. rewrite lookup_insert_ne by eauto. by apply I1.
  - intros s' p' Hs'. destruct (I2 s' p' Hs') as (pl1 & ? & ? & Hl). rewrite lookup_insert_ne by eauto. by exists pl1.
  - intros r room u' p' Hr Hp'. destruct (I3 r room u' p' Hr Hp') as (Hl & ?). by rewrite lookup_insert_ne by eauto.
  - intros u' p' pl1 r Hu'. rewrite lookup_insert_ne by eauto. by eapply I4.
  - intros u' p' pl1 Hu'. rewrite lookup_insert_ne by eauto. by eapply I5.
  - intros p' pl1. rewrite lookup_insert. case_decide; [|by apply I7]. intros _. subst p'. by eapply I7.
Qed.

(** *** What is seen of the users *)

Record UserState : Set := mkUser { in_session : option nat; in_room : option Z }.

Definition state_of pl : UserState := mkUser (m_session pl) (m_room pl).

(** A user who is logged in, and the user of a session that is online. *)
Definition user_state x u : option UserState := p ← m_login_user x !! u; state_of <$> m_players x !! p.
Definition online_user x s : option Z := p ← m_online_user x !! s; m_user_id <$> m_players x !! p.

Lemma user_state_Some x u st :
  user_state x u = Some st <->
  exists p pl, m_login_user x !! u = Some p /\ m_players x !! p = Some pl /\ st = state_of pl.
Proof.
  unfold user_state. rewrite bind_Some. setoid_rewrite fmap_Some. naive_solver.
Qed.

Lemma user_state_None x u : tables_ok x -> user_state x u = None <-> m_login_user x !! u = None.
Proof.
  intros Hok. unfold user_state. destruct (m_login_user x !! u) as [p|] eqn:Hu; [|done].
  destruct (login_player x u p Hok Hu) as (pl & Hpl & _). cbn [mbind option_bind]. by rewrite Hpl.
Qed.

Lemma user_state_new flag x u s u' :
  tables_ok x -> user_state (log_in_new flag u s x).2 u' =
    if decide (u' = u) then Some (mkUser (Some s) None) else user_state x u'.
Proof.
  intros Hok. unfold user_state. unfold_tables. rewrite lookup_insert. repeat case_decide; try congruence.
  - cbn [mbind option_bind]. by rewrite lookup_insert_eq.
  - destruct (m_login_user x !! u') as [p'|] eqn:Hu; [|done]. cbn [mbind option_bind].
    destruct (login_player x u' p' Hok Hu) as (pl & Hpl & _). apply (to_fresh _ Hok) in Hpl.
    rewrite lookup_insert_ne; [done|lia].
Qed.

Lemma online_user_new flag x u s s' :
  tables_ok x -> online_user (log_in_new flag u s x).2 s' = if decide (s' = s) then Some u else online_user x s'.
Proof.
  intros Hok. unfold online_user. unfold_tables. rewrite lookup_insert. repeat case_decide; try congruence.
  - cbn [mbind option_bind]. by rewrite lookup_insert_eq.
  - destruct (m_online_user x !! s') as [p'|] eqn:Hs; [|done]. cbn [mbind option_bind].
    destruct (to_online _ Hok s' p' Hs) as (pl & Hpl & _). apply (to_fresh _ Hok) in Hpl.
    rewrite lookup_insert_ne; [done|lia].
Qed.

Lemma user_state_set x u p pl u' :
  tables_ok x -> m_login_user x !! u = Some p ->
  user_state (set_player p pl x) u' = if decide (u' = u) then Some (state_of pl) else user_state x u'.
Proof.
  intros Hok Hu. unfold user_state. unfold_tables. case_decide.
  - subst u'. rewrite Hu. cbn [mbind option_bind]. by rewrite lookup_insert_eq.
  - destruct (m_login_user x !! u') as [p'|] eqn:Hu'; [|done]. cbn [mbind option_bind].
    rewrite lookup_insert_ne; [done|]. intros <-. by eapply login_inj in Hu; [|done|exact Hu'].
Qed.

Lemma online_user_set x p pl pl' s :
  m_players x !! p = Some pl -> m_user_id pl' = m_user_id pl -> online_user (set_player p pl' x) s = online_user x s.
Proof.
  intros Hp Hid. unfold online_user. unfold_tables. destruct (m_online_user x !! s) as [p'|]; [|done].
  cbn [mbind option_bind]. rewrite lookup_insert. case_decide; [|done]. subst p'. rewrite Hp. cbn. by rewrite Hid.
Qed.

Lemma user_state_forgotten x p pl u :
  (forall u, m_login_user x !! u <> Some p) -> user_state (set_player p pl x) u = user_state x u.
Proof.
  intros Hno. unfold user_state. unfold_tables. destruct (m_login_user x !! u) as [p'|] eqn:Hu; [|done].
  cbn [mbind option_bind]. rewrite lookup_insert_ne; [done|]. intros <-. by apply (Hno u).
Qed.

Lemma user_state_log_out x u u' :
  user_state (x <| m_login_user := delete u (m_login_user x) |>) u' =
    if decide (u' = u) then None else user_state x u'.
Proof.
  unfold user_state. unfold_tables. rewrite lookup_delete. repeat case_decide; congruence || done.
Qed.

Lemma online_user_erase x session s :
  online_user (erase_online session x) s = if decide (session = Some s) then None else online_user x s.
Proof.
  unfold online_user, erase_online. destruct session as [o|]; [|by rewrite decide_False]. unfold_tables.
  rewrite lookup_delete. repeat case_decide; congruence || done.
Qed.

Lemma online_user_insert x p pl s s' :
  m_players x !! p = Some pl ->
  online_user (x <| m_online_user := <[s := p]> (m_online_user x) |>) s' =
    if decide (s' = s) then Some (m_user_id pl) else online_user x s'.
Proof.
  intros Hp. unfold online_user. unfold_tables. rewrite lookup_insert. repeat case_decide; try congruence.
  cbn [mbind option_bind]. by rewrite Hp.
Qed.

(** A session that is online is that of its user. *)
Lemma online_user_state x s u :
  tables_ok x -> online_user x s = Some u -> exists st, user_state x u = Some st /\ in_session st = Some s.
Proof.
  intros Hok Hs. unfold online_user in Hs. apply bind_Some in Hs as (p & Hp & Hu).
  apply fmap_Some in Hu as (pl & Hpl & ->). destruct (to_online _ Hok s p Hp) as (pl' & Hpl' & Hses & Hl).
  rewrite Hpl in Hpl'. injection Hpl' as <-. exists (state_of pl). split; [|done].
  apply user_state_Some. naive_solver.
Qed.

(** *** The operations *)

(** The tables are still well formed, and this is seen of the users, of the sessions
    that are online, and was sent. *)
Definition changed x (users : Z -> option UserState) (online : nat -> option Z) (out : list (nat * Outgoing)) x' : Prop :=
  tables_ok x' /\ (forall u, user_state x' u = users u) /\ (forall s, online_user x' s = online s) /\
  m_out x' = m_out x ++ out.

Lemma unchanged x : tables_ok x -> changed x (user_state x) (online_user x) [] x.
Proof. intros Hok. split_and!; [done..|by rewrite app_nil_r]. Qed.

(** What the end of his session leaves of a user. *)
Definition without_session (st : UserState) : option UserState :=
  match in_room st with Some r => Some (mkUser None (Some r)) | None => None end.

Lemma on_session_close_returns x s :
  tables_ok x ->
  returns (on_session_close s x) (changed x
    (fun u => if decide (online_user x s = Some u) then user_state x u ≫= without_session else user_state x u)
    (fun s' => if decide (s' = s) then None else online_user x s') []).
Proof.
  intros Hok. unfold on_session_close. destruct (m_online_user x !! s) as [p|] eqn:Hs.
  2:{ assert (online_user x s = None) as Hn by (unfold online_user; by rewrite Hs).
      apply returns_ret. destruct (unchanged x Hok) as (? & Hu & Ho & ?). split_and!; [done| | |done].
      - intros u. by rewrite Hn.
      - intros s'. case_decide; [by subst|done]. }
  destruct (to_online _ Hok s p Hs) as (pl & Hpl & Hses & Hl). rewrite Hpl. cbn [access mbind outcome_bind].
  set (u := m_user_id pl) in *. set (x1 := erase_online (Some s) x).
  assert (tables_ok x1) as Hok1 by by apply erase_online_ok.
  assert (online_user x s = Some u) as Hon by (unfold online_user; rewrite Hs; cbn; by rewrite Hpl).
  assert (user_state x u = Some (state_of pl)) as Hst by (apply user_state_Some; naive_solver).
  assert (forall s', m_online_user x1 !! s' <> Some p) as Hoff.
  { intros s' Hs'. destruct (to_online _ Hok1 s' p Hs') as (pl' & Hpl' & Hses' & _).
    change (m_players x1) with (m_players x) in Hpl'. rewrite Hpl in Hpl'. injection Hpl' as <-.
    rewrite Hses in Hses'. injection Hses' as <-. unfold x1 in Hs'. unfold_tables. by rewrite lookup_delete_eq in Hs'. }
  change (erase_online (Some s) (set_player p (session_close pl) x)) with (set_player p (session_close pl) x1).
  assert (forall x' s', m_online_user x' = m_online_user x1 -> m_players x' = m_players (set_player p (session_close pl) x1) ->
    online_user x' s' = if decide (s' = s) then None else online_user x s') as Hons.
  { intros x' s' E1 E2. transitivity (online_user (set_player p (session_close pl) x1) s').
    { unfold online_user. rewrite E1, E2. done. }
    rewrite (online_user_set x1 p pl) by done. unfold x1. rewrite online_user_erase. repeat case_decide; congruence. }
  destruct (m_room pl) as [r|] eqn:Hr.
  - apply returns_ret. assert (tables_ok (set_player p (session_close pl) x1)) as Hok2.
    { apply (set_player_ok x1 u p pl); try done; [by rewrite Hr..|]. by intros s' Hs'%Hoff. }
    split_and!; [done| |intros s'; by apply Hons|by rewrite app_nil_r]. intros u'.
    rewrite (user_state_set x1 u p) by done. rewrite Hon. repeat case_decide; try congruence; [|done].
    subst u'. rewrite Hst. cbn [mbind option_bind]. unfold without_session, state_of. cbn. by rewrite Hr.
  - change (m_login_user (set_player _ _ _)) with (m_login_user x). rewrite bool_decide_true by by eexists.
    apply returns_ret.
    set (x2 := x1 <| m_login_user := delete u (m_login_user x1) |>).
    assert (forall u', m_login_user x2 !! u' <> Some p) as Hout.
    { intros u' Hu'. unfold x2 in Hu'. unfold_tables. apply lookup_delete_Some in Hu' as [Hne Hu'].
      apply Hne. by eapply login_inj. }
    assert (tables_ok x2) as Hok2.
    { apply (log_out_ok x1 u p pl); try done. intros r room Hroom.
      destruct (m_room_player room !! u) as [p'|] eqn:Hp'; [|done].
      destruct (to_room _ Hok r room u p' Hroom Hp') as (Hl' & pl' & Hpl' & Hr'). naive_solver. }
    change (changed x ?f ?g ?l ?x') with (changed x f g l (set_player p (session_close pl) x2)).
    split_and!; [by eapply set_forgotten_ok| |intros s'; by apply Hons|by rewrite app_nil_r]. intros u'.
    rewrite user_state_forgotten by done. unfold x2. rewrite user_state_log_out. rewrite Hon.
    repeat case_decide; try congruence; [|done]. subst u'. rewrite Hst. cbn [mbind option_bind].
    unfold without_session, state_of. cbn. by rewrite Hr.
Qed.

Lemma erase_set o p pl x : erase_online o (set_player p pl x) = set_player p pl (erase_online o x).
Proof. by destruct o. Qed.

(** Only what is said about being online changes. *)
Lemma erase_same o x :
  m_players (erase_online o x) = m_players x /\ m_login_user (erase_online o x) = m_login_user x /\
  m_out (erase_online o x) = m_out x.
Proof. by destruct o. Qed.

Lemma user_state_erase o x u : user_state (erase_online o x) u = user_state x u.
Proof. by destruct o. Qed.

(** The session that a user had before. *)
Definition replaced (old : option nat) s : list (nat * Outgoing) :=
  match old with Some o => if decide (o = s) then [] else [(o, ShutDownSession)] | None => [] end.

Lemma add_user_session_returns flag x u s :
  tables_ok x ->
  returns (add_user_session flag u s x) (changed x
    (fun u' => if decide (u' = u) then Some (mkUser (Some s) (user_state x u ≫= in_room)) else user_state x u')
    (fun s' => if decide (s' = s) then Some u
               else if decide ((user_state x u ≫= in_session) = Some s') then None else online_user x s')
    (replaced (user_state x u ≫= in_session) s)).
Proof.
  intros Hok. unfold add_user_session. destruct (m_login_user x !! u) as [p|] eqn:Hu.
  - destruct (login_player x u p Hok Hu) as (pl & Hpl & Hid). rewrite Hpl.
    cbn [access mbind outcome_bind mret outcome_ret].
    assert (user_state x u = Some (state_of pl)) as Hst by (apply user_state_Some; naive_solver).
    rewrite Hst. cbn [mbind option_bind state_of in_session in_room].
    set (x1 := erase_online (m_session pl) x). set (x2 := set_player p (set_session s pl) x1).
    rewrite erase_set. fold x1 x2.
    destruct (erase_same (m_session pl) x) as (Ep & El & Eo). fold x1 in Ep, El, Eo.
    set (x3 := x2 <| m_online_user := <[s := p]> (m_online_user x2) |>).
    assert (tables_ok x1) as Hok1 by by apply erase_online_ok.
    assert (tables_ok x2) as Hok2.
    { apply (set_player_ok x1 u p pl); rewrite ?Ep, ?El; try done. intros s' Hs'. exfalso.
      destruct (to_online _ Hok1 s' p Hs') as (pl' & Hpl' & Hses & _).
      rewrite Ep, Hpl in Hpl'. injection Hpl' as <-.
      unfold x1 in Hs'. rewrite Hses in Hs'. unfold_tables. by rewrite lookup_delete_eq in Hs'. }
    assert (m_players x2 !! p = Some (set_session s pl)) as Hp2 by apply lookup_insert_eq.
    assert (tables_ok x3) as Hok3.
    { eapply (insert_online_ok x2 s p _ Hok2 Hp2); [done|]. change (m_user_id (set_session s pl)) with (m_user_id pl).
      rewrite Hid. change (m_login_user x2) with (m_login_user x1). by rewrite El. }
    assert (forall out, returns (Ok (x3 <| m_out := m_out x ++ out |>)) (changed x
      (fun u' => if decide (u' = u) then Some (mkUser (Some s) (m_room pl)) else user_state x u')
      (fun s' => if decide (s' = s) then Some u else if decide (m_session pl = Some s') then None else online_user x s')
      out)) as Hend.
    { intros out. apply returns_ret. split_and!; [by destruct Hok3| | |done].
      - intros u'. change (user_state x2 u' = if decide (u' = u) then Some (state_of (set_session s pl)) else user_state x u').
        unfold x2. rewrite (user_state_set x1 u p) by (done || by rewrite El). case_decide; [done|].
        apply user_state_erase.
      - intros s'. pose proof (online_user_insert x2 p _ s s' Hp2) as E. fold x3 in E.
        change (online_user (update _ _ x3) s') with (online_user x3 s'). rewrite E.
        change (m_user_id (set_session s pl)) with (m_user_id pl). rewrite Hid. case_decide; [done|].
        unfold x2. rewrite (online_user_set x1 p pl) by (done || by rewrite Ep). unfold x1. apply online_user_erase. }
    unfold replaced. destruct (m_session pl) as [o|] eqn:Hses; [case_decide|].
    + specialize (Hend []). rewrite app_nil_r, <- Eo in Hend. exact Hend.
    + specialize (Hend [(o, ShutDownSession)]). rewrite <- Eo in Hend. exact Hend.
    + specialize (Hend []). rewrite app_nil_r, <- Eo in Hend. exact Hend.
  - cbn [mbind outcome_bind mret outcome_ret].
    assert (user_state x u = None) as Hst by by apply user_state_None.
    rewrite Hst. apply returns_ret. cbn [mbind option_bind replaced]. split_and!.
    + by apply log_in_new_ok.
    + intros u'. by apply user_state_new.
    + intros s'. rewrite (online_user_new flag x u s s' Hok). case_decide; [done|]. by rewrite decide_False.
    + by rewrite app_nil_r.
Qed.

(** A user who is in no room enters one. *)
Lemma enter_ok x u p pl r room :
  tables_ok x -> m_login_user x !! u = Some p -> m_players x !! p = Some pl -> m_room pl = None ->
  m_game_room x !! r = Some room ->
  tables_ok (set_player p (set_player_room r pl) x
    <| m_game_room := <[r := room <| m_room_player := <[u := p]> (m_room_player room) |>]> (m_game_room x) |>).
Proof.
  intros Hok Hu Hp Hnone Hr. pose proof Hok as [I1 I2 I3 I4 I5 I6 I7]. pose proof (login_inj x) as Hinj.
  destruct (login_player x u p Hok Hu) as (pl0 & E & Hid). rewrite Hp in E. injection E as <-.
  split; unfold_tables.
  - intros u' p' Hu'. rewrite lookup_insert. case_decide; [|by apply I1]. subst p'. eexists. split; [done|]. cbn.
    rewrite Hid. by eapply Hinj.
  - intros s' p' Hs'. rewrite lookup_insert. destruct (I2 s' p' Hs') as (pl' & Hpl' & ? & ?).
    case_decide; [|by exists pl']. subst p'. rewrite Hp in Hpl'. injection Hpl' as <-. by eexists.
  - intros r' room' u' p'. rewrite (lookup_insert (m_game_room x)). case_decide as E.
    + intros [= <-]. cbn [update m_room_player]. subst r'. rewrite (lookup_insert (m_room_player room)). case_decide as E'.
      * intros [= <-]. subst u'. split; [done|]. eexists. by rewrite lookup_insert_eq.
      * intros Hp'. destruct (I3 r room u' p' Hr Hp') as (Hl & pl' & Hpl' & Hr'). split; [done|].
        rewrite lookup_insert_ne; [by exists pl'|]. intros <-. congruence.
    + intros Hr' Hp'. destruct (I3 r' room' u' p' Hr' Hp') as (Hl & pl' & Hpl' & Hr''). split; [done|].
      rewrite lookup_insert_ne; [by exists pl'|]. intros <-. congruence.
  - intros u' p' pl' r' Hu'. rewrite lookup_insert. case_decide as E.
    + subst p'. intros [= <-]. cbn. intros [= <-]. eexists. rewrite lookup_insert_eq. split; [done|]. cbn.
      rewrite (Hinj u' u p) by done. apply lookup_insert_eq.
    + intros Hpl' Hr'. destruct (I4 u' p' pl' r' Hu' Hpl' Hr') as (room' & Hroom' & Hin). rewrite lookup_insert.
      case_decide; [|by exists room']. subst r'. rewrite Hr in Hroom'. injection Hroom' as <-. eexists. split; [done|].
      cbn. rewrite lookup_insert_ne; [done|]. intros <-. congruence.
  - intros u' p' pl' Hu'. rewrite lookup_insert. case_decide; [|by eapply I5]. intros [= <-] _. by eexists.
  - intros r'. rewrite I6, lookup_insert. case_decide; [|done]. subst r'. rewrite Hr. split; by eexists.
  - intros p' pl'. rewrite lookup_insert. case_decide; [|by apply I7]. intros _. subst p'. by eapply I7.
Qed.

Lemma user_state_rooms p pl x rooms u :
  user_state (set_player p pl (x <| m_game_room := rooms |>)) u = user_state (set_player p pl x) u.
Proof. done. Qed.

Lemma online_user_rooms p pl x rooms s :
  online_user (set_player p pl (x <| m_game_room := rooms |>)) s = online_user (set_player p pl x) s.
Proof. done. Qed.

(** A user who is in no other room enters a room. *)
Lemma room_add_player_returns flag x r u s :
  tables_ok x -> r ∈ get_room_id -> (user_state x u ≫= in_room = None \/ user_state x u ≫= in_room = Some r) ->
  returns (room_add_player flag r u s x) (fun '(p, x') => is_Some p /\ changed x
    (fun u' => if decide (u' = u) then Some (mkUser (match user_state x u with Some st => in_session st | None => Some s end) (Some r))
               else user_state x u')
    (fun s' => if decide (user_state x u = None /\ s' = s) then Some u else online_user x s') [] x').
Proof.
  intros Hok Hr Hin. apply (to_rooms _ Hok) in Hr as [room Hr]. unfold room_add_player. rewrite Hr.
  cbn [access mbind outcome_bind].
  destruct (m_room_player room !! u) as [p|] eqn:Hp.
  { destruct (to_room _ Hok r room u p Hr Hp) as (Hu & pl & Hpl & Hroom).
    assert (user_state x u = Some (state_of pl)) as Hst by (apply user_state_Some; naive_solver).
    apply returns_ret. split; [by eexists|]. split_and!; [done| | |by rewrite app_nil_r].
    - intros u'. case_decide; [|done]. subst u'. rewrite Hst. unfold state_of. cbn. by rewrite Hroom.
    - intros s'. rewrite decide_False; [done|]. rewrite Hst. by intros [? _]. }
  unfold make_player. destruct (m_login_user x !! u) as [p|] eqn:Hu.
  - destruct (login_player x u p Hok Hu) as (pl & Hpl & Hid). rewrite Hpl. cbn [access mbind outcome_bind].
    assert (user_state x u = Some (state_of pl)) as Hst by (apply user_state_Some; naive_solver).
    assert (m_room pl = None) as Hnone.
    { destruct (m_room pl) as [r'|] eqn:Hr'; [|done]. exfalso. rewrite Hst in Hin. cbn in Hin. rewrite Hr' in Hin.
      assert (r' = r) as -> by naive_solver.
      destruct (to_in_room _ Hok u p pl r Hu Hpl Hr') as (room' & Hroom' & Hp'). congruence. }
    rewrite Hnone. cbn [mbind outcome_bind mret outcome_ret]. set (x1 := set_player p (flush_time x pl) x).
    assert (tables_ok x1) as Hok1.
    { apply (set_player_ok x u p pl); try done; cbn.
      - intros Hs. destruct (to_away _ Hok u p pl Hu Hpl Hs) as [r' Hr']. congruence.
      - intros s' Hs'. destruct (to_online _ Hok s' p Hs') as (pl' & Hpl' & Hses & _). congruence. }
    assert (m_players x1 !! p = Some (flush_time x pl)) as Hp1 by apply lookup_insert_eq. rewrite Hp1.
    cbn [access mbind outcome_bind]. apply returns_ret. split; [by eexists|]. split_and!.
    + by apply (enter_ok x1 u p (flush_time x pl) r room).
    + intros u'. rewrite user_state_rooms, (user_state_set x1 u p) by done. rewrite Hst. case_decide; [done|].
      unfold x1. rewrite (user_state_set x u p) by done. by rewrite decide_False.
    + intros s'. rewrite online_user_rooms, (online_user_set x1 p (flush_time x pl)) by done. unfold x1.
      rewrite (online_user_set x p pl) by done. rewrite decide_False; [done|]. rewrite Hst. by intros [? _].
    + by rewrite app_nil_r.
  - assert (user_state x u = None) as Hst by by apply user_state_None.
    pose proof (log_in_new_ok flag x u s Hok Hu) as Hok1. pose proof (fun u' => user_state_new flag x u s u' Hok) as Hu1.
    pose proof (fun s' => online_user_new flag x u s s' Hok) as Ho1.
    destruct (log_in_new flag u s x) as [p x1] eqn:Hnew. cbn [snd mbind outcome_bind mret outcome_ret] in *.
    injection Hnew as Hp1 Hx1. rewrite <- Hp1 in *.
    assert (m_players x1 !! m_next_player x = Some (mkOnline u (m_time x) None (Some s) flag)) as Hpl
      by (rewrite <- Hx1; apply lookup_insert_eq).
    assert (m_login_user x1 !! u = Some (m_next_player x)) as Hl1 by (rewrite <- Hx1; apply lookup_insert_eq).
    rewrite Hpl. cbn [access mbind outcome_bind]. apply returns_ret. split; [by eexists|]. split_and!.
    + apply (enter_ok x1 u _ _ r room); try done. by rewrite <- Hx1.
    + intros u'. rewrite user_state_rooms, (user_state_set x1 u _) by done. rewrite Hst. case_decide; [done|].
      rewrite Hu1. by rewrite decide_False.
    + intros s'. rewrite online_user_rooms, (online_user_set x1 _ _ _ _ Hpl) by done. rewrite Ho1.
      repeat case_decide; naive_solver.
    + rewrite <- Hx1. by rewrite app_nil_r.
Qed.

(** A user leaves a room, if he is in it. *)
Definition leave_room r u x : outcome PlayerManager :=
  room ← access (m_game_room x !! r);
  match room_find_player u room with Some p => room_destroy_player r p x | None => mret x end.

Lemma leave_ok x r room u p pl :
  tables_ok x -> m_game_room x !! r = Some room -> m_room_player room !! u = Some p -> m_players x !! p = Some pl ->
  (forall s, m_online_user x !! s <> Some p) ->
  tables_ok (x <| m_game_room := <[r := room <| m_room_player := delete u (m_room_player room) |>]> (m_game_room x) |>
    <| m_login_user := delete u (m_login_user x) |>).
Proof.
  intros Hok Hr Hin Hp Hoff. pose proof Hok as [I1 I2 I3 I4 I5 I6 I7].
  destruct (I3 r room u p Hr Hin) as (Hu & pl' & E & Hroom). rewrite Hp in E. injection E as <-.
  split; unfold_tables; try done.
  - intros u' p' Hu'. apply lookup_delete_Some in Hu' as [_ Hu']. by apply I1.
  - intros s' p' Hs'. destruct (I2 s' p' Hs') as (pl' & Hpl' & Hses & Hl). exists pl'. split_and!; [done..|].
    rewrite lookup_delete_ne; [done|]. intros E. rewrite <- E, Hu in Hl. injection Hl as <-. by apply (Hoff s').
  - intros r' room' u' p'. rewrite (lookup_insert (m_game_room x)). case_decide as E.
    + intros [= <-]. cbn [update m_room_player]. subst r'. intros Hp'.
      apply lookup_delete_Some in Hp' as [Hne Hp']. rewrite lookup_delete_ne by done. by apply (I3 r room).
    + intros Hr' Hp'. destruct (I3 r' room' u' p' Hr' Hp') as (Hl & pl' & Hpl' & Hr''). split; [|by exists pl'].
      rewrite lookup_delete_ne; [done|]. intros <-. rewrite Hu in Hl. injection Hl as <-. congruence.
  - intros u' p' pl' r' Hu' Hpl' Hr'. apply lookup_delete_Some in Hu' as [Hne Hu'].
    destruct (I4 u' p' pl' r' Hu' Hpl' Hr') as (room' & Hroom' & Hin'). rewrite lookup_insert.
    case_decide; [|by exists room']. subst r'. rewrite Hr in Hroom'. injection Hroom' as <-. eexists. split; [done|].
    cbn. by rewrite lookup_delete_ne.
  - intros u' p' pl' Hu'. apply lookup_delete_Some in Hu' as [_ Hu']. by eapply I5.
  - intros r'. rewrite I6, lookup_insert. case_decide; [|done]. subst r'. rewrite Hr. split; by eexists.
Qed.

(** Nobody is online with the player whose session was erased. *)
Lemma erased_offline x p pl s :
  tables_ok x -> m_players x !! p = Some pl -> m_online_user (erase_online (m_session pl) x) !! s <> Some p.
Proof.
  intros Hok Hp Hs. destruct (to_online _ (erase_online_ok x (m_session pl) Hok) s p Hs) as (pl' & Hpl' & Hses & _).
  destruct (erase_same (m_session pl) x) as (E & _). rewrite E, Hp in Hpl'. injection Hpl' as <-.
  rewrite Hses in Hs. unfold erase_online in Hs. cbn in Hs. by rewrite lookup_delete_eq in Hs.
Qed.

Lemma leave_room_returns x r u :
  tables_ok x -> r ∈ get_room_id ->
  returns (leave_room r u x) (changed x
    (fun u' => if decide (u' = u /\ user_state x u ≫= in_room = Some r) then None else user_state x u')
    (fun s' => if decide (user_state x u ≫= in_room = Some r /\ user_state x u ≫= in_session = Some s') then None
               else online_user x s') []).
Proof.
  intros Hok Hr. apply (to_rooms _ Hok) in Hr as [room Hr]. unfold leave_room, room_find_player. rewrite Hr.
  cbn [access mbind outcome_bind]. destruct (m_room_player room !! u) as [p|] eqn:Hp.
  - destruct (to_room _ Hok r room u p Hr Hp) as (Hu & pl & Hpl & Hroom).
    destruct (login_player x u p Hok Hu) as (pl' & E & Hid). rewrite Hpl in E. injection E as <-.
    assert (user_state x u = Some (state_of pl)) as Hst by (apply user_state_Some; naive_solver).
    unfold room_destroy_player. rewrite Hr, Hpl. cbn [access mbind outcome_bind]. unfold destory_player.
    unfold_tables. rewrite Hpl. cbn [access mbind outcome_bind]. rewrite Hid, Hu. cbn [update m_players].
    rewrite Hpl. cbn [access mbind outcome_bind]. apply returns_ret. set (x1 := erase_online (m_session pl) x).
    destruct (erase_same (m_session pl) x) as (Ep & El & Eo). fold x1 in Ep, El, Eo.
    assert (tables_ok x1) as Hok1 by by apply erase_online_ok.
    assert (m_game_room x1 = m_game_room x) as Eg by (unfold x1; by destruct (m_session pl)).
    match goal with |- changed _ _ _ _ ?y =>
      assert (y = x1 <| m_game_room := <[r := room <| m_room_player := delete u (m_room_player room) |>]> (m_game_room x1) |>
        <| m_login_user := delete u (m_login_user x1) |>) as -> end.
    { unfold x1. by destruct (m_session pl). }
    rewrite Hst. cbn [mbind option_bind state_of in_room in_session]. rewrite Hroom. split_and!.
    + apply (leave_ok x1 r room u p pl); rewrite ?Eg, ?Ep; try done. intros s'. by apply erased_offline.
    + intros u'. change (user_state (update _ _ ?y) u') with (user_state (x1 <| m_login_user := delete u (m_login_user x1) |>) u').
      rewrite user_state_log_out. unfold x1. rewrite user_state_erase. repeat case_decide; naive_solver.
    + intros s'. change (online_user (update _ _ ?y) s') with (online_user x1 s'). unfold x1.
      rewrite online_user_erase. repeat case_decide; naive_solver.
    + rewrite app_nil_r. exact Eo.
  - assert (user_state x u ≫= in_room <> Some r) as Hno.
    { intros E. apply bind_Some in E as (st & Hst & Hin). apply user_state_Some in Hst as (p & pl & Hu & Hpl & ->).
      destruct (to_in_room _ Hok u p pl r Hu Hpl Hin) as (room' & Hroom' & Hp'). congruence. }
    apply returns_ret. split_and!; [done| | |by rewrite app_nil_r]; intros; by rewrite decide_False by naive_solver.
Qed.

Lemma flush_user_online_returns x s :
  tables_ok x -> returns (flush_user_online s x) (changed x (user_state x) (online_user x) []).
Proof.
  intros Hok. unfold flush_user_online. destruct (m_online_user x !! s) as [p|] eqn:Hs.
  2:{ apply returns_ret. by apply unchanged. }
  destruct (to_online _ Hok s p Hs) as (pl & Hpl & Hses & Hl). rewrite Hpl. cbn [access mbind outcome_bind].
  apply returns_ret. split_and!.
  - apply (set_player_ok x (m_user_id pl) p pl); try done; cbn; [congruence|].
    intros s' Hs'. destruct (to_online _ Hok s' p Hs') as (pl' & Hpl' & Hses' & _). congruence.
  - intros u'. rewrite (user_state_set x (m_user_id pl) p) by done. case_decide; [|done]. subst u'.
    symmetry. apply user_state_Some. by exists p, pl.
  - intros s'. by rewrite (online_user_set x p pl).
  - by rewrite app_nil_r.
Qed.

Lemma recv_session_state x u : tables_ok x -> recv_session u x = Ok (user_state x u ≫= in_session).
Proof.
  intros Hok. unfold recv_session. destruct (m_login_user x !! u) as [p|] eqn:Hu.
  - destruct (login_player x u p Hok Hu) as (pl & Hpl & _). rewrite Hpl. unfold user_state. rewrite Hu.
    cbn [mbind option_bind]. by rewrite Hpl.
  - apply user_state_None in Hu as ->; done.
Qed.

Lemma sent_changed x out : tables_ok x -> changed x (user_state x) (online_user x) out (x <| m_out := m_out x ++ out |>).
Proof. intros Hok. by split_and!; [destruct Hok|..]. Qed.

Lemma send_twice x s1 o1 s2 o2 :
  send_to_session s2 o2 (send_to_session s1 o1 x) = x <| m_out := m_out x ++ [(s1, o1); (s2, o2)] |>.
Proof. unfold send_to_session, update. cbn. by rewrite <- (assoc_L (++)). Qed.

Definition kick_out (session : option nat) (reason : Z) (description : list Z) : list (nat * Outgoing) :=
  match session with
  | Some s => [(s, PlayerLoginElsewhere (to_char reason) description); (s, ShutDownSession)]
  | None => []
  end.

Lemma on_kick_out_user_returns x u reason description :
  tables_ok x ->
  returns (on_kick_out_user u reason description x)
    (changed x (user_state x) (online_user x) (kick_out (user_state x u ≫= in_session) reason description)).
Proof.
  intros Hok. unfold on_kick_out_user. rewrite recv_session_state by done. cbn [mbind outcome_bind].
  destruct (user_state x u ≫= in_session) as [s|]; apply returns_ret; [|by apply unchanged].
  pose proof (sent_changed x (kick_out (Some s) reason description) Hok) as Hc. cbn [kick_out] in *.
  replace (shutdown_user_session _ _) with
    (x <| m_out := m_out x ++ [(s, PlayerLoginElsewhere (to_char reason) description); (s, ShutDownSession)] |>); [done|].
  symmetry. apply send_twice.
Qed.

(** ** Runs *)

Section runs.
Context {J : Type} `{JsonReader J} (new_flag : bool) (hash_memory text_memory : list Z).

Abbreviation read_user_token := (read_user_token hash_memory text_memory).

(** The command of a login, which the protocol files do not have. *)
Variable CMD_USER_TOKEN_LOGIN_GAMESVR : Z.

Definition token_login (usertoken : list Z) s x : outcome PlayerManager :=
  '(_, x) ← player_token_login new_flag hash_memory text_memory usertoken s x; mret x.

(** The handlers of [GameTaskManager]; the last one only logs. *)
Definition game_handler (handler : GameHandler) (usertoken : list Z) s x : outcome PlayerManager :=
  match handler with
  | HandleHeartBeat => flush_user_online s x
  | OnGameSessionClose => on_session_close s x
  | OnPlayerTokenLogin => token_login usertoken s x
  | OnGameSessionOpen => mret x
  end.

(** [TaskManager::do_handle_message], with the functions that [GameTaskManager] leaves
    as they are: these only log. *)
Definition handle_message (h : Header) (usertoken : list Z) s x : outcome PlayerManager :=
  match do_handle_message (game_handlers CMD_USER_TOKEN_LOGIN_GAMESVR) h with
  | Registered handler => game_handler handler usertoken s x
  | _ => mret x
  end.

(** What a session sends, as the task manager gets it, also when the session opens and
    closes; and the time.  The others are calls of what the two managers and the rooms
    offer to other code, in any order.  (Nothing in the build calls these so far: the
    handlers of a close and of a heart beat are passed over, see [handlers_passed_over],
    and rooms are given no messages.) *)
Inductive LoginEvent : Type :=
  | Message (h : Header) (usertoken : list Z) s
  | CallSessionClose s
  | CallFlushOnline s
  | CallEnterRoom r u s
  | CallLeaveRoom r u
  | CallKickOut u (reason : Z) (description : list Z)
  | Tick (now : Z).

Definition run_login_event x (e : LoginEvent) : outcome PlayerManager :=
  match e with
  | Message h usertoken s => handle_message h usertoken s x
  | CallSessionClose s => on_session_close s x
  | CallFlushOnline s => flush_user_online s x
  | CallEnterRoom r u s => '(_, x) ← room_add_player new_flag r u s x; mret x
  | CallLeaveRoom r u => leave_room r u x
  | CallKickOut u reason description => on_kick_out_user u reason description x
  | Tick now => mret (x <| m_time := now |>)
  end.

(** The messages that log a user in. *)
Definition is_login (h : Header) : bool :=
  (cmdtype h =? CMD_USER_TOKEN_LOGIN_GAMESVR) &&
  negb (bool_decide (cmdtype h ∈ [CMD_SESSION_OPEN; CMD_SESSION_CLOSE; CMD_HEARTBEAT])).

(** No other message does anything. *)
Lemma handle_message_eq h usertoken s x :
  handle_message h usertoken s x = if is_login h then token_login usertoken s x else Ok x.
Proof.
  unfold handle_message, is_login, do_handle_message, game_handlers, register_msg_handler.
  destruct (cmdtype h =? CMD_SESSION_OPEN) eqn:E1.
  { apply Z.eqb_eq in E1. rewrite bool_decide_eq_true_2 by (rewrite E1; left). by rewrite andb_false_r. }
  destruct (cmdtype h =? CMD_SESSION_CLOSE) eqn:E2.
  { apply Z.eqb_eq in E2. rewrite bool_decide_eq_true_2 by (rewrite E2; right; left). by rewrite andb_false_r. }
  destruct (cmdtype h =? CMD_HEARTBEAT) eqn:E3.
  { apply Z.eqb_eq in E3. rewrite bool_decide_eq_true_2 by (rewrite E3; right; right; left). by rewrite andb_false_r. }
  apply Z.eqb_neq in E1, E2, E3. rewrite bool_decide_eq_false_2 by (rewrite !not_elem_of_cons; split_and!; [done..|apply not_elem_of_nil]).
  rewrite andb_true_r. destruct (cmdtype h =? CMD_USER_TOKEN_LOGIN_GAMESVR) eqn:E.
  - apply Z.eqb_eq in E. rewrite E in *.
    match goal with |- context [match ?o with _ => _ end] => assert (o = Some OnPlayerTokenLogin) as ->; [|done] end.
    etrans; [by apply (lookup_insert_ne (M := gmap Z))|]. apply (lookup_insert_eq (M := gmap Z)).
  - apply Z.eqb_neq in E.
    match goal with |- context [match ?o with _ => _ end] => assert (o = None) as ->; [|done] end.
    do 4 (etrans; [by apply (lookup_insert_ne (M := gmap Z))|]). apply (lookup_empty (M := gmap Z)).
Qed.

Definition run_login (events : list LoginEvent) x : outcome PlayerManager := mfold run_login_event x events.

(** *** The users, abstractly *)

Abbreviation Users := (gmap Z UserState).
Implicit Type users : Users.

(** The user that a token is for; [None] when it stops the server. *)
Definition token_user (usertoken : list Z) : option (option Z) :=
  match read_user_token usertoken with Ok user => Some user | Fault _ => None end.

Definition step_users users (e : LoginEvent) : Users :=
  match e with
  | Message h usertoken s =>
      match token_user usertoken with
      | Some (Some u) => if is_login h then <[u := mkUser (Some s) (users !! u ≫= in_room)]> users else users
      | _ => users
      end
  | CallSessionClose s =>
      omap (fun st => if decide (in_session st = Some s) then without_session st else Some st) users
  | CallEnterRoom r u s =>
      <[u := mkUser (match users !! u with Some st => in_session st | None => Some s end) (Some r)]> users
  | CallLeaveRoom r u => if decide (users !! u ≫= in_room = Some r) then delete u users else users
  | _ => users
  end.

(** Messages, and what may happen, are about how each user is. *)
Definition step_out (user : Z -> option UserState) (e : LoginEvent) : list (nat * Outgoing) :=
  match e with
  | Message h usertoken s =>
      if is_login h then
        match token_user usertoken with
        | Some (Some u) => (s, FailedReason CODE_SUCCESS) :: replaced (user u ≫= in_session) s
        | _ => [(s, FailedReason CODE_CHECK_GAME_TOKEN_FAILED); (s, ShutDownSession)]
        end
      else []
  | CallKickOut u reason description => kick_out (user u ≫= in_session) reason description
  | _ => []
  end.

(** A token can be read; a user enters a room that there is, and is in no other. *)
Definition may_happen (user : Z -> option UserState) (e : LoginEvent) : bool :=
  match e with
  | Message h usertoken _ => negb (is_login h) || bool_decide (is_Some (token_user usertoken))
  | CallEnterRoom r u _ =>
      bool_decide (r ∈ get_room_id) && match user u ≫= in_room with Some r' => r' =? r | None => true end
  | CallLeaveRoom r _ => bool_decide (r ∈ get_room_id)
  | _ => true
  end.

(** A session serves one user. *)
Definition serves (owner : nat -> Z) (e : LoginEvent) : bool :=
  match e with
  | Message h usertoken s =>
      match token_user usertoken with Some (Some u) => negb (is_login h) || (owner s =? u) | _ => true end
  | CallEnterRoom _ u s => owner s =? u
  | _ => true
  end.

Fixpoint run_users users (events : list LoginEvent) : Users :=
  match events with [] => users | e :: events => run_users (step_users users e) events end.

Fixpoint run_out users (events : list LoginEvent) : list (nat * Outgoing) :=
  match events with [] => [] | e :: events => step_out (users !!.) e ++ run_out (step_users users e) events end.

Fixpoint all_may_happen users (events : list LoginEvent) : bool :=
  match events with [] => true | e :: events => may_happen (users !!.) e && all_may_happen (step_users users e) events end.

(** The server has these users, and who has a session is online with it. *)
Definition shows (owner : nat -> Z) users x : Prop :=
  tables_ok x /\ (forall u, user_state x u = users !! u) /\
  forall u st s, users !! u = Some st -> in_session st = Some s -> owner s = u /\ online_user x s = Some u.

Lemma shows_online owner users x s u :
  shows owner users x -> online_user x s = Some u <-> users !! u ≫= in_session = Some s.
Proof.
  intros (Hok & Hu & Ho). split.
  - intros Hs. destruct (online_user_state x s u Hok Hs) as (st & Hst & Hses). rewrite Hu in Hst. by rewrite Hst.
  - intros Hs. apply bind_Some in Hs as (st & Hst & Hses). by apply (Ho u st s).
Qed.
(** *** Steps *)

Lemma token_login_returns usertoken s x :
  tables_ok x -> is_Some (token_user usertoken) ->
  returns (token_login usertoken s x) (changed x
    (fun u' => match token_user usertoken with
               | Some (Some u) => if decide (u' = u) then Some (mkUser (Some s) (user_state x u ≫= in_room)) else user_state x u'
               | _ => user_state x u'
               end)
    (fun s' => match token_user usertoken with
               | Some (Some u) => if decide (s' = s) then Some u
                                  else if decide ((user_state x u ≫= in_session) = Some s') then None else online_user x s'
               | _ => online_user x s'
               end)
    match token_user usertoken with
    | Some (Some u) => (s, FailedReason CODE_SUCCESS) :: replaced (user_state x u ≫= in_session) s
    | _ => [(s, FailedReason CODE_CHECK_GAME_TOKEN_FAILED); (s, ShutDownSession)]
    end).
Proof.
  intros Hok [user Htok]. unfold token_login, player_token_login. rewrite Htok. unfold token_user in Htok.
  destruct (read_user_token usertoken) as [user'|]; [|done]. injection Htok as ->. cbn [mbind outcome_bind].
  destruct user as [u|]; cbn [mbind outcome_bind mret outcome_ret].
  - set (x1 := send_to_session s (FailedReason CODE_SUCCESS) x).
    assert (tables_ok x1) as Hok1 by (destruct Hok; by split).
    destruct (add_user_session_returns new_flag x1 u s Hok1) as (x2 & E & Hok2 & Hu & Ho & Hout).
    rewrite E. cbn [mbind outcome_bind]. apply returns_ret. split_and!; [done|exact Hu|exact Ho|].
    rewrite Hout. change (m_out x1) with (m_out x ++ [(s, FailedReason CODE_SUCCESS)]).
    by rewrite <- (assoc_L (++)).
  - apply returns_ret. rewrite send_twice. by apply sent_changed.
Qed.

(** Whatever may happen is handled, and leaves the tables well formed. *)
Lemma run_login_event_ok x e :
  tables_ok x -> may_happen (user_state x) e = true -> returns (run_login_event x e) tables_ok.
Proof.
  intros Hok He. destruct e as [h usertoken s|s|s|r u s|r u|u reason description|now]; cbn [run_login_event may_happen] in *.
  - rewrite handle_message_eq. revert He. destruct (is_login h); [|by intros; apply returns_ret].
    cbn [negb orb]. intros He. apply bool_decide_eq_true in He. eapply returns_mono; [by apply token_login_returns|]. by intros x' [? _].
  - eapply returns_mono; [by apply on_session_close_returns|]. by intros x' [? _].
  - eapply returns_mono; [by apply flush_user_online_returns|]. by intros x' [? _].
  - apply andb_true_iff in He as [Hr He]. apply bool_decide_eq_true in Hr.
    eapply returns_bind; [apply (room_add_player_returns new_flag x r u s Hok Hr)|].
    + destruct (user_state x u ≫= in_room) as [r'|]; [right|by left]. f_equal. lia.
    + intros [p x'] [_ [? _]]. by apply returns_ret.
  - apply bool_decide_eq_true in He. eapply returns_mono; [by apply leave_room_returns|]. by intros x' [? _].
  - eapply returns_mono; [by apply on_kick_out_user_returns|]. by intros x' [? _].
  - apply returns_ret. by destruct Hok.
Qed.

(** A change of the server that is a step of the users. *)
Lemma shows_step owner users users' x x' us ons out :
  shows owner users x -> changed x us ons out x' -> (forall u, us u = users' !! u) ->
  (forall u st s, users' !! u = Some st -> in_session st = Some s -> owner s = u /\ ons s = Some u) ->
  shows owner users' x' /\ m_out x' = m_out x ++ out.
Proof.
  intros _ (Hok & Hu & Ho & Hout) Hus Hons. split; [|done]. split_and!; [done|by intros u; rewrite Hu|].
  intros u st s Hst Hs. rewrite Ho. by apply (Hons u st).
Qed.

Lemma run_login_event_shows owner users x e :
  shows owner users x -> may_happen (users !!.) e = true -> serves owner e = true ->
  returns (run_login_event x e) (fun x' => shows owner (step_users users e) x' /\
    m_out x' = m_out x ++ step_out (users !!.) e).
Proof.
  intros Hshows He Hserves. pose proof Hshows as (Hok & Hu & Ho).
  destruct e as [h usertoken s|s|s|r u s|r u|u reason description|now];
    cbn [run_login_event may_happen step_users serves] in *.
  - rewrite handle_message_eq. cbn [step_out]. revert He Hserves. destruct (is_login h); intros He Hserves.
    2:{ apply returns_ret. rewrite app_nil_r. split; [|done]. by destruct (token_user usertoken) as [[u|]|]. }
    cbn [negb orb] in *. apply bool_decide_eq_true in He. eapply returns_mono; [by apply token_login_returns|]. intros x' Hc.
    destruct (token_user usertoken) as [[u|]|]; [|by eapply shows_step..].
    rewrite (Hu u) in Hc. apply Z.eqb_eq in Hserves. eapply shows_step; [done|exact Hc| |].
    + intros u'. rewrite lookup_insert. repeat case_decide; congruence || done.
    + intros u' st s'. rewrite lookup_insert. case_decide as E.
      * intros [= <-]. cbn [in_session]. intros [= <-]. rewrite decide_True by done. by subst.
      * intros Hst Hs'. destruct (Ho u' st s' Hst Hs') as [Hown Hon]. split; [done|].
        rewrite decide_False by congruence. rewrite decide_False; [done|]. intros Hold.
        apply bind_Some in Hold as (st0 & Hst0 & Hs0). destruct (Ho u st0 s' Hst0 Hs0). congruence.
  - eapply returns_mono; [by apply on_session_close_returns|]. intros x' Hc. eapply shows_step; [done|exact Hc| |].
    + intros u. rewrite lookup_omap, Hu. case_decide as E.
      * apply (shows_online owner users x s u Hshows) in E. apply bind_Some in E as (st & -> & Hs).
        cbn [mbind option_bind]. by rewrite decide_True.
      * destruct (users !! u) as [st|] eqn:Hst; [|done]. cbn [mbind option_bind]. rewrite decide_False; [done|].
        intros Hs. by destruct (Ho u st s Hst Hs).
    + intros u st' s' Hst' Hs'. rewrite lookup_omap in Hst'. apply bind_Some in Hst' as (st & Hst & E).
      case_decide as Hd.
      * unfold without_session in E. destruct (in_room st); [|done]. by injection E as <-.
      * injection E as <-. destruct (Ho u st s' Hst Hs'). rewrite decide_False by congruence. done.
  - eapply returns_mono; [by apply flush_user_online_returns|]. intros x' Hc. by eapply shows_step.
  - apply andb_true_iff in He as [Hr He]. apply bool_decide_eq_true in Hr. apply Z.eqb_eq in Hserves.
    eapply returns_bind; [apply (room_add_player_returns new_flag x r u s Hok Hr)|].
    { rewrite Hu. destruct (users !! u ≫= in_room) as [r'|]; [right|by left]. f_equal. lia. }
    intros [p x'] [_ Hc]. apply returns_ret. eapply shows_step; [done|exact Hc| |].
    + intros u'. rewrite lookup_insert, !Hu. repeat case_decide; congruence.
    + intros u' st s'. rewrite lookup_insert, Hu. case_decide as E.
      * intros [= <-]. cbn [in_session]. destruct (users !! u) as [st|] eqn:Hst.
        -- intros Hs'. subst u'. rewrite decide_False by naive_solver. by apply (Ho u st).
        -- intros [= <-]. rewrite decide_True by done. by subst.
      * intros Hst Hs'. destruct (Ho u' st s' Hst Hs'). split; [done|]. rewrite decide_False; [done|]. intros [_ ->]. congruence.
  - apply bool_decide_eq_true in He. eapply returns_mono; [by apply leave_room_returns|]. intros x' Hc.
    eapply shows_step; [done|exact Hc| |].
    + intros u'. rewrite !Hu. repeat case_decide; rewrite ?lookup_delete; repeat case_decide; naive_solver.
    + intros u' st s'. rewrite Hu. destruct (decide (users !! u ≫= in_room = Some r)) as [Hd|Hd]; intros Hst Hs'.
      * apply lookup_delete_Some in Hst as [Hne Hst]. destruct (Ho u' st s' Hst Hs'). split; [done|].
        rewrite decide_False; [done|]. intros [_ E]. apply bind_Some in E as (st0 & Hst0 & Hs0).
        destruct (Ho u st0 s' Hst0 Hs0). congruence.
      * rewrite decide_False by naive_solver. by apply (Ho u' st).
  - replace (step_out _ _) with (kick_out (user_state x u ≫= in_session) reason description).
    2:{ cbn [step_out]. by rewrite Hu. }
    eapply returns_mono; [by apply on_kick_out_user_returns|]. intros x' Hc. by eapply shows_step.
  - apply returns_ret. cbn [step_out]. rewrite app_nil_r. split; [|done]. split_and!; [by destruct Hok|exact Hu|exact Ho].
Qed.
(** What may happen, one after the other. *)
Fixpoint legal_login x (events : list LoginEvent) : bool :=
  match events with
  | [] => true
  | e :: events =>
      may_happen (user_state x) e && match run_login_event x e with Ok x' => legal_login x' events | Fault _ => true end
  end.

(** C21: Whatever messages sessions send, and in whatever order the operations of the
    managers and the rooms are called, as long as each token can be read, the rooms that
    are entered and left are rooms of the server, and nobody enters a second room
    ([legal_login]; [bad_token_stops_server] and [second_room_fails] show what happens
    otherwise), no assertion fails, and the tables stay well formed: each user is kept
    under his number, a session that is online is that of a user who is logged in, rooms
    and users agree, and a user without a session is in a room. *)
Theorem tables_stay_well_formed now events :
  legal_login (new_player_manager now) events = true ->
  returns (run_login events (new_player_manager now)) tables_ok.
Proof.
  pose proof (tables_ok_new now) as Hok. revert Hok. generalize (new_player_manager now) as x.
  induction events as [|e events IH]; intros x Hok Hl; [by apply returns_ret|].
  cbn [legal_login] in Hl. apply andb_true_iff in Hl as [He Hl]. unfold run_login. cbn [mfold].
  destruct (run_login_event_ok x e Hok He) as (x' & E & Hok'). rewrite E in *. cbn [mbind outcome_bind].
  by apply IH.
Qed.

Lemma run_login_shows owner users x events :
  shows owner users x -> all_may_happen users events = true -> forallb (serves owner) events = true ->
  returns (run_login events x) (fun x' => shows owner (run_users users events) x' /\
    m_out x' = m_out x ++ run_out users events).
Proof.
  revert users x. induction events as [|e events IH]; intros users x Hs Hm Hown.
  { apply returns_ret. cbn. by rewrite app_nil_r. }
  cbn [all_may_happen forallb run_users run_out] in *. apply andb_true_iff in Hm as [He Hm].
  apply andb_true_iff in Hown as [Hserves Hown]. unfold run_login. cbn [mfold].
  eapply returns_bind; [by apply (run_login_event_shows owner users x e)|]. intros x1 [Hs1 Hout1].
  eapply returns_mono; [by apply (IH (step_users users e) x1)|]. intros x2 [Hs2 Hout2]. split; [done|].
  by rewrite Hout2, Hout1, (assoc_L (++)).
Qed.

Lemma shows_new owner now : shows owner ∅ (new_player_manager now).
Proof.
  split; [apply tables_ok_new|]. split; [|intros u st s; by rewrite lookup_empty].
  intros u. unfold user_state. cbn [new_player_manager m_login_user]. by rewrite !lookup_empty.
Qed.

(** C22: When every session serves one user, each token can be read and users enter one
    room of the server at a time ([all_may_happen]), the server is the abstract table of
    its users: who is logged in, with the session of his last login, and the room he is
    in.  Exactly these sessions are online, and a session is shut down when its user logs
    in with another, is kicked out, or has no proper token.  The message that a session
    has closed changes nothing ([session_end_unnoticed]); a user is without a session
    only where other code calls [on_session_close]. *)
Theorem users_are_followed owner now events :
  all_may_happen ∅ events = true -> forallb (serves owner) events = true ->
  returns (run_login events (new_player_manager now)) (fun x =>
    (forall u, user_state x u = run_users ∅ events !! u) /\
    (forall u, recv_session u x = Ok (run_users ∅ events !! u ≫= in_session)) /\
    (forall s u, online_user x s = Some u <-> run_users ∅ events !! u ≫= in_session = Some s) /\
    m_out x = run_out ∅ events).
Proof.
  intros Hm Hown. eapply returns_mono; [apply (run_login_shows owner ∅); [apply shows_new|done..]|].
  intros x [Hs Hout]. pose proof Hs as (Hok & Hu & _). split; [done|]. split; [|split; [|done]].
  - intros u. by rewrite recv_session_state, Hu.
  - intros s u. by apply (shows_online owner).
Qed.
End runs.

(** ** Runs with plain tokens

    A token holds the number of a user in digits; other texts are no values. *)
Definition digits_value (text : list Z) : option Z :=
  foldl (fun n c => n ← n; if bool_decide (48 <= c <= 57) then Some (10 * n + (c - 48)) else None)
    (if bool_decide (text = []) then None else Some 0) text.

#[export] Instance plain_json : JsonReader (option Z) := {
  json_parse text := Ok (digits_value text);
  json_is_valid jv := bool_decide (is_Some jv);
  json_field jv _ := Ok jv;
  json_is_number jv := bool_decide (is_Some jv);
  json_is_string jv := bool_decide (is_Some jv);
  json_get_int jv := access jv
}.

Definition token_of (text : string) : list Z :=
  match AES_ecb128_encrypt some_memory (chars text) (chars "key") with Ok token => token | Fault _ => [] end.

Definition login_cmd : Z := 1001.

Definition says (cmd : Z) (text : string) s : LoginEvent :=
  Message (empty_header <| cmdtype := cmd |>) (token_of text) s.

Definition logs_in (text : string) s : LoginEvent := says login_cmd text s.

(** The user 7 logs in, enters a room, logs in again, is kicked out, and the managers are
    told that his sessions close; then he leaves, and somebody comes with a token that
    is none. *)
Definition plain_logins : list LoginEvent :=
  [says CMD_SESSION_OPEN "" 0; logs_in "7" 0; CallFlushOnline 0; CallEnterRoom 2 7 0; logs_in "7" 1;
   CallKickOut 7 200 []; CallSessionClose 0; CallSessionClose 1; CallLeaveRoom 2 7; logs_in "seven" 3].

Lemma plain_logins_legal :
  legal_login (J := option Z) false some_memory [] login_cmd (new_player_manager 0) plain_logins = true.
Proof. vm_compute. reflexivity. Qed.

Lemma plain_logins_may_happen :
  all_may_happen (J := option Z) some_memory [] login_cmd ∅ plain_logins = true /\
  forallb (serves (J := option Z) some_memory [] login_cmd (fun _ => 7)) plain_logins = true.
Proof. vm_compute. by split. Qed.

Lemma tables_stay_well_formed_witness :
  returns (run_login (J := option Z) false some_memory [] login_cmd plain_logins (new_player_manager 0)) tables_ok.
Proof. exact (tables_stay_well_formed false some_memory [] login_cmd 0 plain_logins plain_logins_legal). Defined.

Lemma users_are_followed_witness :
  returns (run_login (J := option Z) false some_memory [] login_cmd plain_logins (new_player_manager 0)) (fun x =>
    m_out x = run_out (J := option Z) some_memory [] login_cmd ∅ plain_logins).
Proof.
  destruct plain_logins_may_happen as [Hm Ho].
  destruct (users_are_followed false some_memory [] login_cmd (fun _ => 7) 0 plain_logins Hm Ho)
    as (x & E & _ & _ & _ & Hout).
  exists x. split; [exact E|exact Hout].
Defined.

Example plain_logins_sent : run_out (J := option Z) some_memory [] login_cmd ∅ plain_logins =
  [(0%nat, FailedReason CODE_SUCCESS); (1%nat, FailedReason CODE_SUCCESS); (0%nat, ShutDownSession);
   (1%nat, PlayerLoginElsewhere (-56) []); (1%nat, ShutDownSession);
   (3%nat, FailedReason CODE_CHECK_GAME_TOKEN_FAILED); (3%nat, ShutDownSession)].
Proof. vm_compute. reflexivity. Qed.

(** What is seen of some users and sessions after a run. *)
Definition seen (users : list Z) (sessions : list nat) (events : list LoginEvent) :
    outcome (list (option UserState) * list (option Z)) :=
  x ← run_login (J := option Z) false some_memory [] login_cmd events (new_player_manager 0);
  mret (user_state x <$> users, online_user x <$> sessions).

(** The message that a session has closed, and the heart beats, change nothing: the user
    stays online with a session that is closed. *)
Example session_end_unnoticed :
  seen [7] [0%nat] [logs_in "7" 0; says CMD_HEARTBEAT "" 0; says CMD_SESSION_CLOSE "" 0] =
  Ok ([Some (mkUser (Some 0%nat) None)], [Some 7]).
Proof. vm_compute. reflexivity. Qed.

(** Two users log in over one session: when the manager is told that it closes, the
    first stays logged in. *)
Example first_user_stays :
  seen [7; 8] [0%nat] [logs_in "7" 0; logs_in "8" 0; CallSessionClose 0] =
  Ok ([Some (mkUser (Some 0%nat) None); None], [None]).
Proof. vm_compute. reflexivity. Qed.

(** When the first logs in elsewhere, the session of the second is shut down, and the
    end of it could not be noticed: he stays logged in with a session that is closed. *)
Example second_user_cut_off :
  seen [8] [0%nat] [logs_in "7" 0; logs_in "8" 0; logs_in "7" 1; CallSessionClose 0] =
  Ok ([Some (mkUser (Some 0%nat) None)], [None]).
Proof. vm_compute. reflexivity. Qed.

(** A token that is no Base64 stops the server. *)
Example bad_token_stops_server :
  seen [] [] [Message (empty_header <| cmdtype := login_cmd |>) (chars "AB*D") 0] = Fault NullDeref.
Proof. vm_compute. reflexivity. Qed.

(** So does a player who is in a room with a greater number than 1 and enters another:
    the number is added to a literal of one character. *)
Example second_room_fails : seen [] [] [CallEnterRoom 2 7 0; CallEnterRoom 3 7 0] = Fault OutOfBounds.
Proof. vm_compute. reflexivity. Qed.

(** And, where everything is logged, a user who enters a room he is not in. *)
Example entering_room_fails :
  @room_handle_msg LogLevel.debug (mkRoom 1 ∅) CMD_APPLY_ENTER_ROOM 7 = Fault OutOfBounds.
Proof. vm_compute. reflexivity. Qed.
