(* ===== verification/Reconnect.v ===== *)
(** * A client and its connection

    Client.cpp of src/server/common/libserver: a client connects to a server, and
    again when that fails or when the session ends.  All of it runs on one loop with
    one thread: what is posted, the ends of waits and of connecting are handlers that
    the loop runs in the order in which they became ready. *)
From Stdlib Require Import ZArith Lia.
From stdpp Require Import base tactics numbers sorting option gmap list.
From S2P Require Import Prelude.

(** [m_reconnet_timer], [m_connect_timer], [m_heart_beat_timer], [m_check_alive_timer] *)
Inductive ClientTimer : Set := ReconnectTimer | ConnectTimer | HeartBeatTimer | CheckAliveTimer.

Definition timer_eqb (t t' : ClientTimer) : bool :=
  match t, t' with
  | ReconnectTimer, ReconnectTimer | ConnectTimer, ConnectTimer
  | HeartBeatTimer, HeartBeatTimer | CheckAliveTimer, CheckAliveTimer => true
  | _, _ => false
  end.

(** [Fired t err]: a wait of [t] has ended, with an error when it was cancelled. *)
Inductive ClientHandler : Set :=
  | DoConnect
  | DoCloseClient
  | ConnectDone (err : bool)
  | Fired (t : ClientTimer) (err : bool)
  | DoCloseSession (k : nat).

(** What is told to the dealer and to the session. *)
Inductive ClientTold : Set := ConnectFailed | SessionOpened (k : nat) | SessionClosed (k : nat) | Beat (k : nat) | CheckedAlive (k : nat).

(** [m_socket] says whether the socket that connects is open; [m_pending] whether its
    operation is under way; [m_..._runs] whether a timer has a wait.  Of the sessions there are those that are open. *)
Record Client : Type := mkClient {
  m_auto_reconnect : bool;
  m_is_connecting : bool;
  m_is_wait_connect : bool;
  m_is_connected : bool;
  m_socket : option bool;
  m_pending : bool;
  m_session_ref : option nat;
  m_open_sessions : list nat;
  session_id : nat;
  m_reconnect_runs : bool;
  m_connect_runs : bool;
  m_heart_beat_runs : bool;
  m_check_alive_runs : bool;
  m_ready : list ClientHandler;
  m_told : list ClientTold
}.

#[export] Instance eta_Client : Eta Client := fun x =>
  mkClient (m_auto_reconnect x) (m_is_connecting x) (m_is_wait_connect x) (m_is_connected x) (m_socket x)
    (m_pending x) (m_session_ref x) (m_open_sessions x) (session_id x) (m_reconnect_runs x) (m_connect_runs x)
    (m_heart_beat_runs x) (m_check_alive_runs x) (m_ready x) (m_told x).

Implicit Types (x : Client) (t : ClientTimer) (k : nat).

Definition new_client : Client :=
  mkClient false false false false None false None [] 0 false false false false [] [].

Definition ready (h : ClientHandler) x : Client := x <| m_ready ::= (fun l => l ++ [h]) |>.
Definition tell (m : ClientTold) x : Client := x <| m_told ::= (fun l => l ++ [m]) |>.

Definition m_running x t : bool :=
  match t with
  | ReconnectTimer => m_reconnect_runs x
  | ConnectTimer => m_connect_runs x
  | HeartBeatTimer => m_heart_beat_runs x
  | CheckAliveTimer => m_check_alive_runs x
  end.

Definition set_running t (b : bool) x : Client :=
  match t with
  | ReconnectTimer => x <| m_reconnect_runs := b |>
  | ConnectTimer => x <| m_connect_runs := b |>
  | HeartBeatTimer => x <| m_heart_beat_runs := b |>
  | CheckAliveTimer => x <| m_check_alive_runs := b |>
  end.

(** [cancel], and [expires_from_now] with [async_wait]; a wait that has ended is not
    cancelled any more. *)
Definition cancel_timer t x : Client := if m_running x t then ready (Fired t true) (set_running t false x) else x.
Definition start_timer t x : Client := set_running t true (cancel_timer t x).

(** Closing or destroying a socket ends its operation with an error. *)
Definition abort_connect x : Client := if m_pending x then ready (ConnectDone true) (x <| m_pending := false |>) else x.

Definition close_socket x : outcome Client :=
  _ ← deref (m_socket x); mret (abort_connect (x <| m_socket := Some false |>)).

Definition drop_socket x : Client := abort_connect (x <| m_socket := None |>).

(** [connect()] *)
Definition connect x : Client :=
  let x := (drop_socket x) <| m_socket := Some true |> in
  (start_timer ConnectTimer x) <| m_pending := true |> <| m_is_connecting := true |>.

Definition register_connect_timer x : Client := start_timer ReconnectTimer (x <| m_is_wait_connect := true |>).
Definition register_heart_beat_timer x : Client := start_timer HeartBeatTimer x.
Definition register_alive_timer x : Client := start_timer CheckAliveTimer x.

Definition on_connet_complete (err : bool) x : outcome Client :=
  let x := cancel_timer ConnectTimer (x <| m_is_connecting := false |>) in
  is_open ← deref (m_socket x);
  if negb is_open || err then
    let x := drop_socket (tell ConnectFailed x) in
    mret (if m_auto_reconnect x then register_connect_timer x else x)
  else
    let k := S (session_id x) in
    let x := tell (SessionOpened k)
      (x <| m_is_connected := true |> <| session_id := k |> <| m_session_ref := Some k |>
         <| m_open_sessions ::= cons k |> <| m_socket := None |>) in
    mret (register_alive_timer (register_heart_beat_timer x)).

(** [session_ptr()]: an open session is kept by its operations. *)
Definition session_ptr x : option nat :=
  match m_session_ref x with
  | Some k => if bool_decide (k ∈ m_open_sessions x) then Some k else None
  | None => None
  end.

(** [TcpSession::close] posts. *)
Definition close_current x : outcome Client := k ← deref (session_ptr x); mret (ready (DoCloseSession k) x).

Definition on_send_heart_beat (err : bool) x : Client :=
  if err then x
  else if negb (m_is_connected x) then x
  else register_heart_beat_timer (match session_ptr x with Some k => tell (Beat k) x | None => x end).

Definition on_wait_reconnect (err : bool) x : Client :=
  let x := x <| m_is_wait_connect := false |> in if err then x else connect x.

Definition on_check_alive (err : bool) x : Client :=
  if err then x
  else if negb (m_is_connected x) then x
  else match session_ptr x with
       | Some k => register_alive_timer (tell (CheckedAlive k) x)
       | None => x
       end.

Definition on_connect_timeout (err : bool) x : outcome Client :=
  if err then mret x
  else match m_socket x with Some true => close_socket x | _ => mret x end.

Definition do_connect x : outcome Client :=
  let x := x <| m_auto_reconnect := true |> in
  if m_is_connected x then close_current x
  else if m_is_connecting x then close_socket x
  else
    let x := if m_is_wait_connect x then cancel_timer ReconnectTimer (x <| m_is_wait_connect := false |>) else x in
    mret (connect x).

Definition do_close_client x : outcome Client :=
  let x := x <| m_auto_reconnect := false |> in
  x ← (if m_is_connected x then close_current x
       else if m_is_connecting x then close_socket x
       else if m_is_wait_connect x then mret (cancel_timer ReconnectTimer (x <| m_is_wait_connect := false |>))
       else mret x);
  mret (cancel_timer CheckAliveTimer (cancel_timer HeartBeatTimer (cancel_timer ConnectTimer x))).

(** [close_session]: the end of a session; [TcpSession::do_close] before it. *)
Definition client_close_session x : Client :=
  connect (cancel_timer CheckAliveTimer (cancel_timer HeartBeatTimer (x <| m_is_connected := false |>))).

Definition session_do_close k x : Client :=
  if bool_decide (k ∈ m_open_sessions x) then
    tell (SessionClosed k) (client_close_session (x <| m_open_sessions ::= filter (fun k' => k' <> k) |>))
  else x.

(** *** The loop *)

Definition run_handler (h : ClientHandler) x : outcome Client :=
  match h with
  | DoConnect => do_connect x
  | DoCloseClient => do_close_client x
  | ConnectDone err => on_connet_complete err x
  | Fired ReconnectTimer err => mret (on_wait_reconnect err x)
  | Fired ConnectTimer err => on_connect_timeout err x
  | Fired HeartBeatTimer err => mret (on_send_heart_beat err x)
  | Fired CheckAliveTimer err => mret (on_check_alive err x)
  | DoCloseSession k => mret (session_do_close k x)
  end.

(** What happens: the two calls of a user, which post; the next handler; the end of a
    wait and of connecting; and the end of a session for its own reasons. *)
Inductive ClientEvent : Set :=
  | UserConnects
  | UserCloses
  | NextHandler
  | TimeIsOver (t : ClientTimer)
  | Connects (err : bool)
  | SessionEnds (k : nat).

Definition run_client_event x (e : ClientEvent) : outcome Client :=
  match e with
  | UserConnects => mret (ready DoConnect x)
  | UserCloses => mret (ready DoCloseClient x)
  | NextHandler =>
      match m_ready x with [] => mret x | h :: handlers => run_handler h (x <| m_ready := handlers |>) end
  | TimeIsOver t => mret (if m_running x t then ready (Fired t false) (set_running t false x) else x)
  | Connects err => mret (if m_pending x then ready (ConnectDone err) (x <| m_pending := false |>) else x)
  | SessionEnds k => mret (session_do_close k x)
  end.

Definition run_client (events : list ClientEvent) x : outcome Client := mfold run_client_event x events.

(** ** What a client keeps *)

(** How many handlers there are of a kind. *)
Fixpoint cnt (f : ClientHandler -> bool) (l : list ClientHandler) : nat :=
  match l with [] => 0 | h :: l => Nat.b2n (f h) + cnt f l end.

Lemma cnt_app f l l' : cnt f (l ++ l') = (cnt f l + cnt f l')%nat.
Proof. induction l as [|h l IH]; cbn [cnt app]; lia. Qed.

Definition is_done (h : ClientHandler) : bool := match h with ConnectDone _ => true | _ => false end.
Definition is_fired t (err : bool) (h : ClientHandler) : bool :=
  match h with Fired t' err' => timer_eqb t t' && eqb err err' | _ => false end.
Definition is_end k (h : ClientHandler) : bool := match h with DoCloseSession k' => (k =? k')%nat | _ => false end.

(** No attempt ends before a cancelled wait for the next attempt is handled. *)
Fixpoint in_order (l : list ClientHandler) : bool :=
  match l with
  | [] => true
  | h :: l => (negb (is_done h) || (cnt (is_fired ReconnectTimer true) l =? 0)%nat) && in_order l
  end.

Lemma in_order_app l h :
  in_order (l ++ [h]) = in_order l && (negb (is_fired ReconnectTimer true h) || (cnt is_done l =? 0)%nat).
Proof.
  induction l as [|h' l IH]; cbn [in_order cnt app].
  - by destruct (is_done h), (is_fired _ _ h).
  - rewrite IH, cnt_app. cbn [cnt]. destruct (is_done h'), (is_fired ReconnectTimer true h); cbn;
      rewrite ?Nat.add_0_r, ?Nat.add_1_r; cbn; by rewrite ?andb_true_r, ?andb_false_r, ?andb_assoc.
Qed.

(** At most one attempt or session at a time; and a wait for the next attempt only
    without them, and known as one while it can be cancelled. *)
Record core_inv x : Prop := mkCoreInv {
  ci_attempt : (Nat.b2n (m_pending x) + cnt is_done (m_ready x) = Nat.b2n (m_is_connecting x))%nat;
  ci_socket : m_is_connecting x = bool_decide (is_Some (m_socket x));
  ci_open : m_pending x = true -> m_socket x = Some true;
  ci_session : m_open_sessions x = if m_is_connected x then from_option (fun k => [k]) [] (m_session_ref x) else [];
  ci_ref : m_is_connected x = true -> is_Some (m_session_ref x);
  ci_waits : (Nat.b2n (m_reconnect_runs x) + cnt (is_fired ReconnectTimer false) (m_ready x) +
    Nat.b2n (m_is_connecting x) + Nat.b2n (m_is_connected x) <= 1)%nat;
  ci_known : m_reconnect_runs x = true -> m_is_wait_connect x = true;
  ci_wait : m_is_wait_connect x = true ->
    m_reconnect_runs x = true \/ (0 < cnt (is_fired ReconnectTimer false) (m_ready x))%nat;
  ci_cancelled : (0 < cnt (is_fired ReconnectTimer true) (m_ready x))%nat -> m_is_wait_connect x = false;
  ci_order : in_order (m_ready x) = true
}.

(** A client that is to connect does one of the three. *)
Definition auto_ok x : Prop :=
  m_auto_reconnect x = true -> m_is_connecting x || m_is_connected x || m_is_wait_connect x = true.

(** A timer runs or its handler is ready. *)
Definition goes_on t x : Prop := m_running x t = true \/ (0 < cnt (is_fired t false) (m_ready x))%nat.

(** A session that is not about to be closed is looked after. *)
Definition beats_ok x : Prop :=
  m_is_connected x = true ->
  (exists k, m_session_ref x = Some k /\ (0 < cnt (is_end k) (m_ready x))%nat) \/
  goes_on HeartBeatTimer x /\ goes_on CheckAliveTimer x.

Definition client_inv x : Prop := core_inv x /\ auto_ok x /\ beats_ok x.

Lemma client_inv_new : client_inv new_client.
Proof. split; [|done]. split; cbn; done || lia. Qed.

(** *** Timers *)

Ltac compute_parts := cbn [update eta_Client m_auto_reconnect m_is_connecting m_is_wait_connect m_is_connected m_socket m_pending
  m_session_ref m_open_sessions session_id m_running m_reconnect_runs m_connect_runs m_heart_beat_runs m_check_alive_runs
  m_ready m_told cnt is_done is_fired is_end timer_eqb eqb andb orb negb in_order Nat.b2n set_running ready tell] in *.

Ltac few := repeat match goal with
  | H : in_order _ = true |- _ => clear H
  | H : _ = bool_decide _ |- _ => clear H
  | H : _ -> is_Some _ |- _ => clear H
  | H : _ -> _ = Some true |- _ => clear H
  | H : @eq (list nat) _ _ |- _ => clear H
  end.

(** Each part of the core follows from a few others by arithmetic. *)
Ltac core_parts :=
  match goal with H : core_inv _ |- _ => destruct H end;
  compute_parts; split; compute_parts; rewrite ?in_order_app, ?cnt_app in *; compute_parts;
  rewrite ?andb_true_r in *; try done; try (intros; few; lia); try congruence.

Lemma ready_core h x :
  core_inv x -> is_done h = false -> is_fired ReconnectTimer false h = false -> is_fired ReconnectTimer true h = false ->
  core_inv (ready h x).
Proof.
  intros Hinv Hd Ho Ha. destruct x. core_parts; rewrite ?Hd, ?Ho, ?Ha; cbn [negb orb];
    rewrite ?Nat.add_0_r, ?andb_true_r; done.
Qed.

Lemma set_running_core t b x : core_inv x -> t <> ReconnectTimer -> core_inv (set_running t b x).
Proof. intros [] Ht. destruct t; [done|..]; by split. Qed.

Lemma cancel_core t x : core_inv x -> t <> ReconnectTimer -> core_inv (cancel_timer t x).
Proof.
  intros Hinv Ht. unfold cancel_timer. destruct (m_running x t); [|done].
  apply ready_core; [by apply set_running_core|by destruct t..].
Qed.

Lemma start_core t x : core_inv x -> t <> ReconnectTimer -> core_inv (start_timer t x).
Proof. intros Hinv Ht. unfold start_timer. apply set_running_core; [|done]. by apply cancel_core. Qed.

(** What timers leave alone. *)
Lemma cancel_same t x :
  m_auto_reconnect (cancel_timer t x) = m_auto_reconnect x /\ m_is_connecting (cancel_timer t x) = m_is_connecting x /\
  m_is_connected (cancel_timer t x) = m_is_connected x /\ m_is_wait_connect (cancel_timer t x) = m_is_wait_connect x /\
  m_socket (cancel_timer t x) = m_socket x /\ m_session_ref (cancel_timer t x) = m_session_ref x.
Proof. unfold cancel_timer. by destruct (m_running x t), t. Qed.

Lemma start_same t x :
  m_auto_reconnect (start_timer t x) = m_auto_reconnect x /\ m_is_connecting (start_timer t x) = m_is_connecting x /\
  m_is_connected (start_timer t x) = m_is_connected x /\ m_is_wait_connect (start_timer t x) = m_is_wait_connect x /\
  m_socket (start_timer t x) = m_socket x /\ m_session_ref (start_timer t x) = m_session_ref x.
Proof. unfold start_timer, cancel_timer. by destruct (m_running x t), t. Qed.

Lemma cancel_cnt f t x : f (Fired t true) = false -> cnt f (m_ready (cancel_timer t x)) = cnt f (m_ready x).
Proof.
  intros Hf. unfold cancel_timer. destruct (m_running x t); [|done].
  destruct t; compute_parts; rewrite cnt_app; cbn [cnt]; rewrite Hf; cbn; lia.
Qed.

Lemma start_cnt f t x : f (Fired t true) = false -> cnt f (m_ready (start_timer t x)) = cnt f (m_ready x).
Proof. intros Hf. rewrite <- (cancel_cnt f t x Hf). by destruct t. Qed.

Lemma start_goes_on t t' x : goes_on t x -> goes_on t (start_timer t' x).
Proof.
  intros Hg. unfold goes_on in *. rewrite start_cnt by (by destruct t, t'). destruct Hg as [Hg|Hg]; [left|by right].
  unfold start_timer, cancel_timer. by destruct (m_running x t'), t, t'.
Qed.

Lemma started_goes_on t x : goes_on t (start_timer t x).
Proof. left. by destruct t. Qed.

Lemma cancel_goes_on t t' x : t <> t' -> goes_on t x -> goes_on t (cancel_timer t' x).
Proof.
  intros Hne Hg. unfold goes_on in *. rewrite cancel_cnt by (by destruct t, t'). destruct Hg as [Hg|Hg]; [left|by right].
  unfold cancel_timer. by destruct (m_running x t'), t, t'.
Qed.

(** *** The core of the handlers *)

Lemma pop_core h l x :
  core_inv x -> m_ready x = h :: l -> is_done h = false -> is_fired ReconnectTimer false h = false ->
  is_fired ReconnectTimer true h = false -> core_inv (x <| m_ready := l |>).
Proof.
  intros Hinv Hl Hd Ho Ha. destruct x. compute_parts. subst m_ready0. core_parts;
    rewrite ?Hd, ?Ho, ?Ha in *; compute_parts; rewrite ?Hd, ?Ho, ?Ha in *; compute_parts; done.
Qed.

(** An attempt that has ended: what holds then, and without its socket. *)
Lemma done_core err l x :
  core_inv x -> m_ready x = ConnectDone err :: l ->
  let z := x <| m_ready := l |> <| m_is_connecting := false |> <| m_socket := None |> in
  core_inv z /\ is_Some (m_socket x) /\ m_pending x = false /\ m_is_connected x = false /\
  m_reconnect_runs x = false /\ m_is_wait_connect x = false /\
  cnt (is_fired ReconnectTimer false) l = 0%nat /\ cnt (is_fired ReconnectTimer true) l = 0%nat.
Proof.
  intros Hinv Hl z. pose proof Hinv as [Ha Hs Hop Hse Hre Hw Hk Hwa Hca Ho]. unfold z. destruct x. compute_parts.
  subst m_ready0. compute_parts. apply andb_true_iff in Ho as [Hn Ho]. apply Nat.eqb_eq in Hn.
  destruct m_is_connecting0; [|cbn in Ha; lia]. destruct m_pending0; [cbn in Ha; lia|].
  destruct m_is_connected0; [cbn in Hw; lia|]. destruct m_reconnect_runs0; [cbn in Hw; lia|].
  assert (cnt (is_fired ReconnectTimer false) l = 0%nat) as Hz by (cbn in Hw; lia).
  assert (m_is_wait_connect0 = false) as -> by (destruct m_is_wait_connect0; [|done]; destruct Hwa; [done..|lia]).
  symmetry in Hs. apply bool_decide_eq_true in Hs. split; [|by split_and!]. split; compute_parts; try done; lia.
Qed.

Lemma connect_core x :
  core_inv x -> m_is_connecting x = false -> m_is_connected x = false -> m_is_wait_connect x = false ->
  cnt (is_fired ReconnectTimer false) (m_ready x) = 0%nat -> core_inv (connect x).
Proof.
  intros Hinv Hc Hs Hw Ho. pose proof (ci_attempt _ Hinv) as Ha. rewrite Hc in Ha.
  assert (m_pending x = false) as Hp by (destruct (m_pending x); [cbn in Ha; lia|done]).
  assert (connect x = start_timer ConnectTimer (x <| m_socket := Some true |> <| m_pending := true |> <| m_is_connecting := true |>)) as ->.
  { destruct x. cbn in Hp. subst. unfold connect, drop_socket, abort_connect, start_timer, cancel_timer. cbn.
    by destruct m_connect_runs0. }
  apply start_core; [|done]. assert (m_reconnect_runs x = false) as Hr.
  { destruct (m_reconnect_runs x) eqn:Hr; [|done]. apply (ci_known _ Hinv) in Hr. congruence. }
  destruct x. compute_parts. subst. core_parts.
Qed.

Lemma close_socket_core x :
  core_inv x -> m_is_connecting x = true -> returns (close_socket x) (fun x' => core_inv x' /\
    m_auto_reconnect x' = m_auto_reconnect x /\ m_is_connecting x' = true /\ m_is_connected x' = m_is_connected x).
Proof.
  intros Hinv Hc. pose proof (ci_socket _ Hinv) as Hs. rewrite Hc in Hs. symmetry in Hs.
  apply bool_decide_eq_true in Hs as [b Hb]. unfold close_socket. rewrite Hb. cbn [deref mbind outcome_bind].
  apply returns_ret. unfold abort_connect. destruct x. compute_parts. subst. destruct m_pending0; [|split; [|done]; by core_parts].
  split; [|done]. core_parts.
Qed.

Lemma stop_waiting_core x :
  core_inv x -> m_is_connecting x = false -> core_inv (cancel_timer ReconnectTimer (x <| m_is_wait_connect := false |>)).
Proof.
  intros Hinv Hc. pose proof (ci_attempt _ Hinv) as Ha. unfold cancel_timer. destruct x. compute_parts. subst.
  assert (cnt is_done m_ready0 = 0%nat) as Hd by (cbn in Ha; lia).
  destruct m_reconnect_runs0; core_parts. rewrite Hd. cbn. by rewrite andb_true_r.
Qed.

(** *** The handlers *)

Lemma tell_core m x : core_inv x -> core_inv (tell m x).
Proof. intros []. by split. Qed.

Lemma tell_client m x : client_inv x -> client_inv (tell m x).
Proof. intros (Hx & Ha & Hb). split; [by apply tell_core|]. by split. Qed.

Lemma not_connected_beats x : m_is_connected x = false -> beats_ok x.
Proof. intros Hs Hc. congruence. Qed.

(** What [on_connet_complete] leads to, when the timers are put outside. *)
Lemma connect_failed_eq err l x b :
  m_pending x = false -> m_reconnect_runs x = false -> m_socket x = Some b -> negb b || err = true ->
  let z := x <| m_ready := l |> <| m_is_connecting := false |> <| m_socket := None |> in
  on_connet_complete err (x <| m_ready := l |>) =
    Ok (if m_auto_reconnect x
        then tell ConnectFailed (cancel_timer ConnectTimer (z <| m_is_wait_connect := true |> <| m_reconnect_runs := true |>))
        else tell ConnectFailed (cancel_timer ConnectTimer z)).
Proof.
  intros Hp Hr Hs Hb z. unfold z, on_connet_complete, register_connect_timer, start_timer, drop_socket, abort_connect, cancel_timer.
  destruct x. compute_parts. subst. destruct m_connect_runs0, m_auto_reconnect0; cbn; by rewrite Hb.
Qed.

Lemma connect_succeeded_eq l x :
  m_socket x = Some true ->
  let z := x <| m_ready := l |> <| m_is_connecting := false |> <| m_socket := None |> in
  let k := S (session_id x) in
  on_connet_complete false (x <| m_ready := l |>) =
    Ok (start_timer CheckAliveTimer (start_timer HeartBeatTimer (tell (SessionOpened k) (cancel_timer ConnectTimer
      (z <| m_is_connected := true |> <| session_id := k |> <| m_session_ref := Some k |>
         <| m_open_sessions ::= cons k |>))))).
Proof.
  intros Hs z k. unfold z, k, on_connet_complete, register_heart_beat_timer, register_alive_timer, start_timer, cancel_timer.
  destruct x. compute_parts. subst. by destruct m_connect_runs0, m_heart_beat_runs0, m_check_alive_runs0.
Qed.

Lemma on_connet_complete_inv err x l :
  client_inv x -> m_ready x = ConnectDone err :: l ->
  returns (on_connet_complete err (x <| m_ready := l |>)) client_inv.
Proof.
  intros (Hinv & _) Hl.
  destruct (done_core err l x Hinv Hl) as (Hz & [b Hb] & Hp & Hs & Hr & Hw & Ho & Ha).
  set (z := x <| m_ready := l |> <| m_is_connecting := false |> <| m_socket := None |>) in *.
  assert (m_is_connecting z = false /\ m_is_connected z = false /\ m_is_wait_connect z = false /\ m_ready z = l /\
    m_auto_reconnect z = m_auto_reconnect x /\ m_reconnect_runs z = false) as (Zc & Zs & Zw & Zl & Za & Zr) by (by destruct x).
  destruct (negb b || err) eqn:Hbe.
  - rewrite (connect_failed_eq err l x b) by done. fold z. apply returns_ret.
    destruct (m_auto_reconnect x) eqn:Hauto.
    + set (w := z <| m_is_wait_connect := true |> <| m_reconnect_runs := true |>).
      assert (core_inv w) as Hcw by (unfold w; destruct z; compute_parts; subst; core_parts).
      destruct (cancel_same ConnectTimer w) as (_ & _ & Es & Ew & _).
      split; [by apply tell_core, cancel_core|]. split.
      * intros _. change (m_is_wait_connect (tell _ ?y)) with (m_is_wait_connect y). rewrite Ew. apply orb_true_r.
      * apply not_connected_beats. change (m_is_connected (tell _ ?y)) with (m_is_connected y). rewrite Es. exact Zs.
    + destruct (cancel_same ConnectTimer z) as (Ea & _ & Es & _). split; [by apply tell_core, cancel_core|]. split.
      * unfold auto_ok. change (m_auto_reconnect (tell _ ?y)) with (m_auto_reconnect y). by rewrite Ea, Za.
      * apply not_connected_beats. change (m_is_connected (tell _ ?y)) with (m_is_connected y). by rewrite Es.
  - apply orb_false_iff in Hbe as [Hb' ->]. apply negb_false_iff in Hb'. subst b.
    rewrite connect_succeeded_eq by done. fold z. apply returns_ret. set (k := S (session_id x)).
    set (w := z <| m_is_connected := true |> <| session_id := k |> <| m_session_ref := Some k |> <| m_open_sessions ::= cons k |>).
    assert (core_inv w) as Hcw.
    { pose proof (ci_session _ Hz) as Hse. unfold w. destruct z. compute_parts. subst. core_parts. }
    set (y := tell (SessionOpened k) (cancel_timer ConnectTimer w)).
    assert (m_is_connected y = true) as Hy.
    { change (m_is_connected y) with (m_is_connected (cancel_timer ConnectTimer w)).
      by destruct (cancel_same ConnectTimer w) as (_ & _ & -> & _). }
    destruct (start_same HeartBeatTimer y) as (_ & _ & E1 & _).
    destruct (start_same CheckAliveTimer (start_timer HeartBeatTimer y)) as (_ & _ & E2 & _).
    split; [apply start_core; [apply start_core; [by apply tell_core, cancel_core|done]|done]|]. split.
    + intros _. rewrite E2, E1, Hy. by rewrite orb_true_r.
    + intros _. right. split; [apply start_goes_on, started_goes_on|apply started_goes_on].
Qed.

Lemma connect_same x :
  m_is_connecting (connect x) = true /\ m_is_connected (connect x) = m_is_connected x /\
  m_auto_reconnect (connect x) = m_auto_reconnect x.
Proof.
  unfold connect, drop_socket, abort_connect, start_timer, cancel_timer. destruct x. compute_parts.
  by destruct m_pending0, m_connect_runs0.
Qed.

(** A client that begins to connect. *)
Lemma connect_inv x :
  core_inv x -> m_is_connecting x = false -> m_is_connected x = false -> m_is_wait_connect x = false ->
  cnt (is_fired ReconnectTimer false) (m_ready x) = 0%nat -> client_inv (connect x).
Proof.
  intros Hx Hc Hs Hw Ho. destruct (connect_same x) as (E1 & E2 & _). split; [by apply connect_core|]. split.
  - intros _. by rewrite E1.
  - apply not_connected_beats. congruence.
Qed.

Lemma beats_pop h l x :
  beats_ok x -> m_ready x = h :: l -> is_fired HeartBeatTimer false h = false -> is_fired CheckAliveTimer false h = false ->
  (forall k, m_is_connected x = true -> m_session_ref x = Some k -> is_end k h = false) -> beats_ok (x <| m_ready := l |>).
Proof.
  intros Hb Hl Hh Ha He Hs. destruct (Hb Hs) as [(k & Hk & Hn)|[Hg Hg']]; [left|right].
  - exists k. split; [done|]. rewrite Hl in Hn. cbn [cnt] in Hn. by rewrite (He k Hs Hk) in Hn.
  - unfold goes_on in *. rewrite Hl in Hg, Hg'. cbn [cnt] in Hg, Hg'. rewrite Hh in Hg. rewrite Ha in Hg'. done.
Qed.

Lemma connected_only x : core_inv x -> m_is_connected x = true ->
  m_is_connecting x = false /\ m_reconnect_runs x = false /\ m_is_wait_connect x = false /\
  cnt (is_fired ReconnectTimer false) (m_ready x) = 0%nat /\
  exists k, m_session_ref x = Some k /\ m_open_sessions x = [k].
Proof.
  intros [Ha Hs Hop Hse Hre Hw Hk Hwa Hca Ho] Hc. destruct (Hre Hc) as [k Hk']. rewrite Hc, Hk' in *.
  destruct (m_is_connecting x), (m_reconnect_runs x); cbn in Hw; try lia.
  assert (cnt (is_fired ReconnectTimer false) (m_ready x) = 0%nat) as Hz by lia. split_and!; try done.
  - destruct (m_is_wait_connect x); [|done]. destruct Hwa; [done..|lia].
  - by exists k.
Qed.

Lemma close_current_eq x : core_inv x -> m_is_connected x = true ->
  exists k, m_session_ref x = Some k /\ close_current x = Ok (ready (DoCloseSession k) x).
Proof.
  intros Hx Hs. destruct (connected_only x Hx Hs) as (_ & _ & _ & _ & k & Hk & Ho). exists k. split; [done|].
  unfold close_current, session_ptr. rewrite Hk, Ho. rewrite bool_decide_true by (by left). done.
Qed.

(** The session that is about to be closed. *)
Lemma ends_beats k x : m_session_ref x = Some k -> beats_ok (ready (DoCloseSession k) x).
Proof.
  intros Hk _. left. exists k. split; [done|]. unfold ready. cbn [update m_ready]. 
  change (0 < cnt (is_end k) (m_ready x ++ [DoCloseSession k]))%nat. rewrite cnt_app. cbn. rewrite Nat.eqb_refl. cbn. lia.
Qed.

Lemma do_connect_inv x :
  core_inv x -> cnt (is_fired ReconnectTimer false) (m_ready x) = 0%nat -> returns (do_connect x) client_inv.
Proof.
  intros Hx Ho. unfold do_connect. set (y := x <| m_auto_reconnect := true |>).
  assert (core_inv y) as Hy by (destruct Hx; by split). destruct (m_is_connected y) eqn:Hs.
  - destruct (close_current_eq y Hy Hs) as (k & Hk & ->). apply returns_ret. split; [by apply ready_core|]. split.
    + intros _. change (m_is_connecting y || m_is_connected y || m_is_wait_connect y = true). rewrite Hs. by rewrite orb_true_r.
    + by apply ends_beats.
  - destruct (m_is_connecting y) eqn:Hc.
    + eapply returns_mono; [by apply close_socket_core|]. intros x' (Hx' & _ & E & Es). split; [done|]. split.
      * intros _. by rewrite E.
      * apply not_connected_beats. congruence.
    + apply returns_ret. destruct (m_is_wait_connect y) eqn:Hw; [|by apply connect_inv].
      destruct (cancel_same ReconnectTimer (y <| m_is_wait_connect := false |>)) as (_ & E1 & E2 & E3 & _).
      apply connect_inv; [by apply stop_waiting_core|by rewrite E1|by rewrite E2|by rewrite E3|].
      rewrite cancel_cnt by done. exact Ho.
Qed.

Lemma do_close_client_inv x : core_inv x -> returns (do_close_client x) client_inv.
Proof.
  intros Hx. unfold do_close_client. set (y := x <| m_auto_reconnect := false |>).
  assert (core_inv y) as Hy by (destruct Hx; by split).
  assert (forall z, core_inv z -> m_auto_reconnect z = false ->
    (m_is_connected z = true -> exists k, m_session_ref z = Some k /\ (0 < cnt (is_end k) (m_ready z))%nat) ->
    client_inv (cancel_timer CheckAliveTimer (cancel_timer HeartBeatTimer (cancel_timer ConnectTimer z)))) as Hend.
  { intros z Hz Ha Hb. set (z1 := cancel_timer ConnectTimer z). set (z2 := cancel_timer HeartBeatTimer z1).
    destruct (cancel_same ConnectTimer z) as (A1 & _ & C1 & _ & _ & R1).
    destruct (cancel_same HeartBeatTimer z1) as (A2 & _ & C2 & _ & _ & R2).
    destruct (cancel_same CheckAliveTimer z2) as (A3 & _ & C3 & _ & _ & R3).
    split; [apply cancel_core; [apply cancel_core; [by apply cancel_core|done]|done]|]. split.
    - unfold auto_ok. rewrite A3. unfold z2. rewrite A2. unfold z1. by rewrite A1, Ha.
    - intros Hs. left. rewrite C3 in Hs. unfold z2 in Hs. rewrite C2 in Hs. unfold z1 in Hs. rewrite C1 in Hs.
      destruct (Hb Hs) as (k & Hk & Hn). exists k. rewrite R3. unfold z2. rewrite R2. unfold z1. rewrite R1.
      split; [done|]. by rewrite !cancel_cnt. }
  destruct (m_is_connected y) eqn:Hs; [|destruct (m_is_connecting y) eqn:Hc; [|destruct (m_is_wait_connect y) eqn:Hw]].
  - destruct (close_current_eq y Hy Hs) as (k & Hk & ->). apply returns_ret.
    apply Hend; [by apply ready_core|done|]. intros _. exists k. split; [done|].
    change (0 < cnt (is_end k) (m_ready y ++ [DoCloseSession k]))%nat. rewrite cnt_app. cbn. rewrite Nat.eqb_refl. cbn. lia.
  - eapply returns_bind; [by apply close_socket_core|]. intros x' (Hx' & E & _ & Es). apply returns_ret.
    apply Hend; [done|by rewrite E|]. intros Hs'. congruence.
  - apply returns_ret.
    destruct (cancel_same ReconnectTimer (y <| m_is_wait_connect := false |>)) as (E0 & _ & E2 & _).
    apply Hend; [by apply stop_waiting_core|by rewrite E0|]. intros Hs'. rewrite E2 in Hs'.
    change (m_is_connected y = true) in Hs'. congruence.
  - apply returns_ret. apply Hend; [done..|]. intros Hs'. congruence.
Qed.

Lemma on_wait_reconnect_inv err x l :
  client_inv x -> m_ready x = Fired ReconnectTimer err :: l -> client_inv (on_wait_reconnect err (x <| m_ready := l |>)).
Proof.
  intros (Hx & Hauto & Hbeats) Hl. unfold on_wait_reconnect. destruct err.
  - assert (m_is_wait_connect x = false) as Hw by (apply (ci_cancelled _ Hx); rewrite Hl; cbn; lia).
    split; [|split].
    + destruct x. compute_parts. subst. core_parts.
    + unfold auto_ok in *. destruct x. compute_parts. by subst.
    + by apply (beats_pop _ l x Hbeats Hl).
  - pose proof (ci_waits _ Hx) as Hw. rewrite Hl in Hw. cbn [cnt is_fired timer_eqb eqb andb Nat.b2n] in Hw.
    assert (core_inv (x <| m_ready := l |> <| m_is_wait_connect := false |>)) as Hy.
    { destruct x. compute_parts. subst. core_parts. }
    apply connect_inv; [done| | |done|].
    + change (m_is_connecting x = false). destruct (m_is_connecting x); [cbn in Hw; lia|done].
    + change (m_is_connected x = false). destruct (m_is_connected x); [cbn in Hw; lia|done].
    + change (cnt (is_fired ReconnectTimer false) l = 0%nat). lia.
Qed.

Lemma client_pop h l x :
  client_inv x -> m_ready x = h :: l -> is_done h = false -> (forall err, is_fired ReconnectTimer err h = false) ->
  is_fired HeartBeatTimer false h = false -> is_fired CheckAliveTimer false h = false ->
  (forall k, m_is_connected x = true -> m_session_ref x = Some k -> is_end k h = false) -> client_inv (x <| m_ready := l |>).
Proof.
  intros (Hx & Ha & Hb) Hl Hd Hr Hh Hc He. split; [by eapply pop_core|]. split; [exact Ha|by eapply beats_pop].
Qed.

Lemma on_connect_timeout_inv err x : client_inv x -> returns (on_connect_timeout err x) client_inv.
Proof.
  intros (Hx & Ha & Hb). unfold on_connect_timeout. destruct err; [by apply returns_ret|].
  destruct (m_socket x) as [[]|] eqn:Hs; [|by apply returns_ret..].
  assert (m_is_connecting x = true) as Hc by (rewrite (ci_socket _ Hx), Hs; done).
  assert (m_is_connected x = false) as Hs'.
  { destruct (m_is_connected x) eqn:E; [|done]. destruct (connected_only x Hx E) as [E' _]. congruence. }
  eapply returns_mono; [by apply close_socket_core|]. intros x' (Hx' & _ & E & Es). split; [done|]. split.
  - intros _. by rewrite E.
  - apply not_connected_beats. congruence.
Qed.

(** A timer of a session has ended: it goes on while the session does. *)
Lemma start_timer_inv t x : core_inv x -> auto_ok x -> t <> ReconnectTimer ->
  (m_is_connected x = true -> beats_ok (start_timer t x)) -> client_inv (start_timer t x).
Proof.
  intros Hx Ha Ht Hb. destruct (start_same t x) as (E1 & E2 & E3 & E4 & _). split; [by apply start_core|]. split.
  - unfold auto_ok in *. by rewrite E1, E2, E3, E4.
  - intros Hs. rewrite E3 in Hs. by apply Hb; [|rewrite E3].
Qed.

Lemma fired_beats t t' x l :
  t <> t' -> t <> ReconnectTimer -> t' <> ReconnectTimer -> t <> ConnectTimer -> t' <> ConnectTimer ->
  beats_ok x -> m_ready x = Fired t false :: l -> beats_ok (start_timer t (x <| m_ready := l |>)).
Proof.
  intros Hne Ht Ht' Hc Hc' Hb Hl Hs. destruct (start_same t (x <| m_ready := l |>)) as (_ & _ & E & _ & _ & R).
  rewrite E in Hs. destruct (Hb Hs) as [(k & Hk & Hn)|[Hg Hg']]; [left|right].
  - exists k. rewrite R, start_cnt by done. split; [done|]. rewrite Hl in Hn. exact Hn.
  - unfold goes_on in Hg, Hg'. rewrite Hl in Hg, Hg'.
    destruct t, t'; try done; (split; [first [apply started_goes_on|apply start_goes_on; exact Hg]
                                      |first [apply started_goes_on|apply start_goes_on; exact Hg']]).
Qed.

Lemma on_send_heart_beat_inv err x l :
  client_inv x -> m_ready x = Fired HeartBeatTimer err :: l -> client_inv (on_send_heart_beat err (x <| m_ready := l |>)).
Proof.
  intros Hinv Hl. pose proof Hinv as (Hx & Ha & Hb). unfold on_send_heart_beat. destruct err.
  { by apply (client_pop (Fired HeartBeatTimer true) l x). }
  assert (core_inv (x <| m_ready := l |>)) as Hy by by eapply pop_core.
  destruct (m_is_connected (x <| m_ready := l |>)) eqn:Hs; cbn [negb].
  2:{ split; [done|]. split; [exact Ha|by apply not_connected_beats]. }
  destruct (session_ptr _) as [k|].
  - unfold register_heart_beat_timer. 
    change (start_timer HeartBeatTimer (tell (Beat k) (x <| m_ready := l |>))) with
      (start_timer HeartBeatTimer ((x <| m_told := m_told x ++ [Beat k] |>) <| m_ready := l |>)).
    apply start_timer_inv; [by apply (tell_core (Beat k)) in Hy|exact Ha|done|].
    intros _. apply (fired_beats HeartBeatTimer CheckAliveTimer); done.
  - apply start_timer_inv; [done|exact Ha|done|]. intros _. by apply (fired_beats HeartBeatTimer CheckAliveTimer).
Qed.

Lemma on_check_alive_inv err x l :
  client_inv x -> m_ready x = Fired CheckAliveTimer err :: l -> client_inv (on_check_alive err (x <| m_ready := l |>)).
Proof.
  intros Hinv Hl. pose proof Hinv as (Hx & Ha & Hb). unfold on_check_alive. destruct err.
  { by apply (client_pop (Fired CheckAliveTimer true) l x). }
  assert (core_inv (x <| m_ready := l |>)) as Hy by by eapply pop_core.
  destruct (m_is_connected (x <| m_ready := l |>)) eqn:Hs; cbn [negb].
  2:{ split; [done|]. split; [exact Ha|by apply not_connected_beats]. }
  destruct (connected_only _ Hy Hs) as (_ & _ & _ & _ & k & Hk & Ho). unfold session_ptr. rewrite Hk, Ho.
  rewrite bool_decide_true by (by left). unfold register_alive_timer.
  change (start_timer CheckAliveTimer (tell (CheckedAlive k) (x <| m_ready := l |>))) with
    (start_timer CheckAliveTimer ((x <| m_told := m_told x ++ [CheckedAlive k] |>) <| m_ready := l |>)).
  apply start_timer_inv; [by apply (tell_core (CheckedAlive k)) in Hy|exact Ha|done|].
  intros _. apply (fired_beats CheckAliveTimer HeartBeatTimer); done.
Qed.

(** The end of a session, which begins to connect. *)
Lemma session_do_close_core k x :
  core_inv x -> k ∈ m_open_sessions x -> client_inv (session_do_close k x).
Proof.
  intros Hx Hk. assert (m_is_connected x = true) as Hs.
  { pose proof (ci_session _ Hx) as E. destruct (m_is_connected x); [done|]. rewrite E in Hk. by apply not_elem_of_nil in Hk. }
  destruct (connected_only x Hx Hs) as (Hc & Hr & Hw & Ho & k' & Hk' & Hopen).
  rewrite Hopen in Hk. apply list_elem_of_singleton in Hk. subst k'.
  unfold session_do_close. rewrite bool_decide_true by (rewrite Hopen; by left). unfold client_close_session.
  set (w := x <| m_open_sessions ::= filter (fun k' => k' <> k) |> <| m_is_connected := false |>).
  assert (core_inv w) as Hcw.
  { unfold w. destruct x. compute_parts. subst. assert (filter (fun k' => k' <> k) [k] = []) as Hf.
    { rewrite filter_cons_False; [done|]. intros E. by apply E. }
    core_parts; by rewrite ?Hf. }
  set (z := cancel_timer CheckAliveTimer (cancel_timer HeartBeatTimer w)).
  destruct (cancel_same HeartBeatTimer w) as (_ & A1 & A2 & A3 & _).
  destruct (cancel_same CheckAliveTimer (cancel_timer HeartBeatTimer w)) as (_ & B1 & B2 & B3 & _). fold z in B1, B2, B3.
  apply tell_client, connect_inv; [by apply cancel_core; [apply cancel_core|]|rewrite B1, A1; exact Hc|by rewrite B2, A2|
    rewrite B3, A3; exact Hw|]. unfold z. rewrite !cancel_cnt by done. exact Ho.
Qed.

(** ** Runs *)

(** A user's call to connect is not handled between the end of a wait for the next
    attempt and its handler. *)
Definition timely_event x (e : ClientEvent) : bool :=
  match e, m_ready x with
  | NextHandler, DoConnect :: l => (cnt (is_fired ReconnectTimer false) l =? 0)%nat
  | _, _ => true
  end.

Fixpoint timely (events : list ClientEvent) x : bool :=
  match events with
  | [] => true
  | e :: events =>
      timely_event x e && match run_client_event x e with Ok x' => timely events x' | Fault _ => true end
  end.

Lemma beats_ready h x : beats_ok x -> beats_ok (ready h x).
Proof.
  assert (forall f, cnt f (m_ready (ready h x)) = (cnt f (m_ready x) + cnt f [h])%nat) as Hc by (intros f; apply cnt_app).
  intros Hb Hs. destruct (Hb Hs) as [(k & Hk & Hn)|[Hg Hg']]; [left|right].
  - exists k. rewrite Hc. split; [done|lia].
  - unfold goes_on in *. rewrite !Hc. change (m_running (ready h x)) with (m_running x). lia.
Qed.

Lemma ready_client h x :
  client_inv x -> is_done h = false -> (forall err, is_fired ReconnectTimer err h = false) -> client_inv (ready h x).
Proof. intros (Hx & Ha & Hb) Hd Hr. split; [by apply ready_core|]. split; [exact Ha|by apply beats_ready]. Qed.

Lemma time_is_over_inv t x : client_inv x -> m_running x t = true -> client_inv (ready (Fired t false) (set_running t false x)).
Proof.
  intros (Hx & Ha & Hb) Ht. split; [|split].
  - destruct t; [|by apply ready_core; [apply set_running_core|..]..]. destruct x. compute_parts. subst. core_parts.
  - unfold auto_ok in *. by destruct t.
  - intros Hs. assert (m_is_connected x = true) as Hs' by (by destruct t). destruct (Hb Hs') as [(k & Hk & Hn)|[Hg Hg']].
    + left. exists k. split; [by destruct t|].
      replace (m_ready (ready (Fired t false) (set_running t false x))) with (m_ready x ++ [Fired t false]) by (by destruct t).
      rewrite cnt_app. lia.
    + right. unfold goes_on in *.
      replace (m_ready (ready (Fired t false) (set_running t false x))) with (m_ready x ++ [Fired t false]) by (by destruct t).
      rewrite !cnt_app. destruct t; compute_parts; lia.
Qed.

Lemma connects_inv err x : client_inv x -> m_pending x = true -> client_inv (ready (ConnectDone err) (x <| m_pending := false |>)).
Proof.
  intros (Hx & Ha & Hb) Hp. split; [|split; [exact Ha|by apply beats_ready]].
  destruct x. compute_parts. subst. core_parts.
Qed.

Lemma session_do_close_inv k x : client_inv x -> client_inv (session_do_close k x).
Proof.
  intros Hinv. destruct (decide (k ∈ m_open_sessions x)) as [Hk|Hk]; [apply session_do_close_core; [apply Hinv|done]|].
  unfold session_do_close. by rewrite bool_decide_false.
Qed.

Lemma run_handler_inv h l x :
  client_inv x -> m_ready x = h :: l -> (h = DoConnect -> cnt (is_fired ReconnectTimer false) l = 0%nat) ->
  returns (run_handler h (x <| m_ready := l |>)) client_inv.
Proof.
  intros Hinv Hl Ht. pose proof (client_pop h l x Hinv Hl) as Hpop.
  destruct h as [| |err|[] err|k]; cbn [run_handler].
  - apply do_connect_inv; [by apply Hpop|by apply Ht].
  - apply do_close_client_inv. by apply Hpop.
  - by apply on_connet_complete_inv.
  - apply returns_ret. by apply on_wait_reconnect_inv.
  - apply on_connect_timeout_inv. by apply Hpop.
  - apply returns_ret. by apply on_send_heart_beat_inv.
  - apply returns_ret. by apply on_check_alive_inv.
  - apply returns_ret. destruct (decide (k ∈ m_open_sessions x)) as [Hk|Hk].
    + apply session_do_close_core; [|done]. by eapply pop_core; [apply Hinv|..].
    + apply session_do_close_inv, Hpop; try done. intros k' Hs Hk'. cbn [is_end]. apply Nat.eqb_neq. intros ->.
      destruct (connected_only x (proj1 Hinv) Hs) as (_ & _ & _ & _ & k0 & E & Ho). apply Hk. rewrite Ho.
      rewrite Hk' in E. injection E as ->. by left.
Qed.

Lemma run_client_event_inv x e : client_inv x -> timely_event x e = true -> returns (run_client_event x e) client_inv.
Proof.
  intros Hinv He. destruct e as [| | |t|err|k]; cbn [run_client_event timely_event] in *.
  - apply returns_ret. by apply ready_client.
  - apply returns_ret. by apply ready_client.
  - destruct (m_ready x) as [|h l] eqn:Hl; [by apply returns_ret|]. apply run_handler_inv; [done..|].
    intros ->. by apply Nat.eqb_eq.
  - apply returns_ret. destruct (m_running x t) eqn:Hr; [by apply time_is_over_inv|done].
  - apply returns_ret. destruct (m_pending x) eqn:Hp; [by apply connects_inv|done].
  - apply returns_ret. by apply session_do_close_inv.
Qed.

(** C23: A client has one attempt or one session at a time and never misses its socket,
    unless it is told to connect just when its wait has ended.  While it is to be
    connected, it has a session, an attempt is under way or a wait ends in one; and
    a session that is not about to be closed has its heart beats and is checked. *)
Theorem client_goes_on events :
  timely events new_client = true ->
  returns (run_client events new_client) (fun x =>
    (Nat.b2n (m_is_connecting x) + length (m_open_sessions x) <= 1)%nat /\
    (m_is_connecting x = true <-> m_pending x = true \/ (0 < cnt is_done (m_ready x))%nat) /\
    (m_is_connecting x = true <-> is_Some (m_socket x)) /\
    (m_auto_reconnect x = true ->
       m_is_connecting x = true \/ (exists k, m_open_sessions x = [k]) \/ goes_on ReconnectTimer x) /\
    (forall k, m_open_sessions x = [k] ->
       (0 < cnt (is_end k) (m_ready x))%nat \/ goes_on HeartBeatTimer x /\ goes_on CheckAliveTimer x)).
Proof.
  intros Ht. assert (returns (run_client events new_client) client_inv) as Hrun.
  { revert Ht. generalize client_inv_new. generalize new_client as x. induction events as [|e events IH]; intros x Hx Ht.
    - by apply returns_ret.
    - cbn [timely] in Ht. apply andb_true_iff in Ht as [He Ht]. unfold run_client. cbn [mfold].
      destruct (run_client_event_inv x e Hx He) as (x' & E & Hx'). rewrite E in *. by apply IH. }
  eapply returns_mono; [exact Hrun|]. intros x (Hx & Ha & Hb). pose proof Hx as [C1 C2 _ C4 C5 C6 _ C8 _ _].
  assert (m_is_connected x = true -> exists k, m_session_ref x = Some k /\ m_open_sessions x = [k]) as Hsome.
  { intros Hs. by destruct (connected_only x Hx Hs) as (_ & _ & _ & _ & ?). }
  split_and!.
  - destruct (m_is_connected x) eqn:Hs; [|rewrite C4; cbn in *; destruct (m_is_connecting x); cbn in *; lia].
    destruct (Hsome eq_refl) as (k & _ & ->). destruct (m_is_connecting x); cbn in *; lia.
  - destruct (m_is_connecting x), (m_pending x); cbn in C1; split; intros Hc; try done; try (by left);
      first [right; lia|destruct Hc; done || lia].
  - rewrite C2. apply bool_decide_eq_true.
  - intros Hauto. specialize (Ha Hauto). destruct (m_is_connecting x); [by left|]. destruct (m_is_connected x) eqn:Hs.
    + right. left. destruct (Hsome eq_refl) as (k & _ & ->). by exists k.
    + right. right. exact (C8 Ha).
  - intros k Hk. destruct (m_is_connected x) eqn:Hs; [|by rewrite Hk in C4].
    destruct (Hsome eq_refl) as (k' & Hk' & E). rewrite Hk in E. injection E as <-.
    destruct (Hb Hs) as [(k' & E & Hn)|Hg]; [left; congruence|by right].
Qed.

(** *** Runs of a server that is not there, and of one that is *)

Definition next (n : nat) : list ClientEvent := replicate n NextHandler.

(** What is seen of a client. *)
Definition client_view x : bool * bool * bool * list nat * list ClientTold :=
  (m_is_connecting x, m_is_connected x, m_is_wait_connect x, m_open_sessions x, m_told x).

Definition client_after (events : list ClientEvent) : outcome (bool * bool * bool * list nat * list ClientTold) :=
  x ← run_client events new_client; mret (client_view x).

(** It fails to connect, waits, connects, and sends a heart beat. *)
Example connects_again :
  client_after ([UserConnects] ++ next 1 ++ [Connects true] ++ next 2 ++ [TimeIsOver ReconnectTimer] ++ next 1 ++
    [Connects false] ++ next 2 ++ [TimeIsOver HeartBeatTimer] ++ next 1) =
  Ok (false, true, false, [1%nat], [ConnectFailed; SessionOpened 1; Beat 1]).
Proof. vm_compute. reflexivity. Qed.

(** A client that is closed while it is connected connects again: the end of its
    session does not ask whether it should. *)
Example closed_client_connects :
  client_after ([UserConnects] ++ next 1 ++ [Connects false] ++ next 2 ++ [UserCloses] ++ next 5) =
  Ok (true, false, false, [], [SessionOpened 1; SessionClosed 1]).
Proof. vm_compute. reflexivity. Qed.

(** So does one that is closed when its wait has just ended. *)
Example closed_late_connects :
  client_after ([UserConnects] ++ next 1 ++ [Connects true] ++ next 2 ++ [UserCloses; TimeIsOver ReconnectTimer] ++ next 2) =
  Ok (true, false, false, [], [ConnectFailed]).
Proof. vm_compute. reflexivity. Qed.

(** And one that is told to connect then connects twice: the second socket replaces
    the first, whose end drops the second, whose end finds no socket. *)
Example late_connect_fails :
  client_after ([UserConnects] ++ next 1 ++ [Connects true] ++ next 2 ++ [UserConnects; TimeIsOver ReconnectTimer] ++ next 6) =
  Fault NullDeref.
Proof. vm_compute. reflexivity. Qed.

(** A client that fails, connects, beats, loses its session and is closed. *)
Definition plain_client : list ClientEvent :=
  [UserConnects] ++ next 1 ++ [Connects true] ++ next 2 ++ [TimeIsOver ReconnectTimer] ++ next 1 ++
  [Connects false] ++ next 2 ++ [TimeIsOver HeartBeatTimer; TimeIsOver CheckAliveTimer] ++ next 2 ++
  [SessionEnds 1; UserCloses] ++ next 5 ++ [UserConnects] ++ next 1 ++ [Connects false] ++ next 3.

Lemma plain_client_view :
  (x ← run_client plain_client new_client; mret (client_view x, m_auto_reconnect x)) =
  Ok ((false, true, false, [2%nat],
    [ConnectFailed; SessionOpened 1; Beat 1; CheckedAlive 1; SessionClosed 1; ConnectFailed; SessionOpened 2]), true).
Proof. vm_compute. reflexivity. Qed.

Lemma client_goes_on_witness :
  exists x, run_client plain_client new_client = Ok x /\
    (length (m_open_sessions x) <= 1)%nat /\
    ((exists k, m_open_sessions x = [k]) \/ m_is_connecting x = true \/ goes_on ReconnectTimer x).
Proof.
  destruct (client_goes_on plain_client eq_refl) as (x & E & H1 & _ & _ & H4 & _).
  exists x. split; [exact E|]. split; [lia|].
  destruct (bind_ret_Ok _ _ _ plain_client_view) as (x' & E' & Hv).
  assert (x' = x) as -> by (rewrite E in E'; by injection E' as <-).
  destruct H4 as [H4|[H4|H4]]; [by injection Hv|right; by left|by left|by right; right].
Defined.
